(* ===== verification/_CoqProject ===== *)
-Q . S2P
Prelude.v
Text.v
Future.v
Checksum.v
Offload.v
Coalesce.v
Segment.v
OffloadRoundtrip.v
Errors.v
Runtime.v
LogFile.v
Dirs.v
Secrets.v
Net.v
Signaling.v
Stream.v
Config.v
FileConfig.v
DeviceRoutes.v
Bypass.v
Device.v
Status.v
Control.v
IpPool.v
Ip6Pool.v
Sessions.v
Packet.v
Forward.v
Outbound.v
Utun.v
MacNet.v
Buffer.v
Isolation.v
Routing.v
PathSelect.v
Transport.v
Handshake.v
Client.v
TunWriter.v
Halves.v
Heartbeat.v
Liveness.v
Session.v
SessionProofs.v
SessionTasks.v
Cancel.v
CancelProofs.v
ControlStream.v
ClientTasks.v
ServerRun.v
ServerLoop.v
EndToEnd.v
ServerData.v
Mobile.v
Ffi.v
ClientMain.v
Program.v
