(* ===== verification/Prelude.v ===== *)
(** * ezvpn: verification library

    ezvpn is a VPN whose tunnel runs over QUIC (the iroh transport): a server
    admits clients, assigns each one tunnel addresses from its pools and
    forwards IP packets between its TUN device and the clients' connections; a
    client authenticates, configures its own TUN device, keeps the connection
    alive with heartbeats and reconnects when it fails.  This library models
    the Rust code under [src/src/] and proves what makes it correct.

    ** The parts of the program and where they are modelled

    A packet on its way from the server's TUN device to a client is split from
    its virtio header, checked, routed by destination, turned into plain
    packets when it carries offload metadata, and queued within a byte budget:
    - [Checksum], [Offload], [Coalesce], [Segment], [OffloadRoundtrip]:
      [tunnel/offload.rs].  The internet checksum helpers; the
      [virtio_net_hdr] codec and TUN frames; the coalescing of a write batch
      into GSO super-frames (planner and assembly); software segmentation and
      checksum completion; and the two directions composed.
    - [Packet]: the packet readers of [tunnel/server.rs] (addresses and UDP
      ports).
    - [Forward]: [ClientDatagramQueue], [handle_client_data] and the statistics
      of [tunnel/server.rs]; [Outbound]: [run_tun_reader] and the frame
      splitting of [net/device.rs].
    - [Stream]: [tunnel/stream.rs], preparing and sending datagrams and framing
      the control stream.
    - [TunWriter]: the batch writer of [net/device.rs] and the writer tasks of
      client and server; [ClientTasks]: the outbound task of [run_tunnel]
      ([tunnel/client.rs]) with its drain loop and rate gate, and the inbound
      task; [ServerRun]: a client's datagram writer task, [setup_tun] and
      [status_snapshot] of [tunnel/server.rs].
    - [Utun]: the macOS and iOS device of [net/device.rs]: its descriptors, the
      polling reader and the frames of its writer; [Buffer]: [net/buffer.rs]
      and the reads into its uninitialized memory; [Halves]: the split of a device
      into its reader and writer.
    - [EndToEnd]: the tasks of both ends put together, from one TUN device to
      the other, in both directions.
    - [ServerData]: the data path of the running server: the inbound tasks of
      [handle_client_data], [run_tun_reader] and the datagram writers, step by
      step beside the connection tasks that change the tables they consult.

    The control plane decides who is connected and with which addresses:
    - [Errors]: [error.rs]; [Config]: the rules of [config/mod.rs]; [Net]:
      addresses and the interface to the prefix library.
    - [Signaling]: [tunnel/signaling.rs], the messages and their transport;
      [Handshake]: both halves of the handshake, in [tunnel/server.rs] and
      [tunnel/client.rs]; [Heartbeat]: both halves of the heartbeat;
      [Liveness]: the client's liveness task, and the two halves over one link;
      [ControlStream]: the server's address publisher, heartbeat answers and
      control writer over their channel, and the client's control task.
    - [IpPool], [Ip6Pool]: the address pools of [tunnel/server.rs].
    - [Sessions]: [handle_connection] and [handle_connection_inner] as a
      machine of interleaved connection tasks; [Isolation] puts it together
      with the data path; [ServerLoop]: [VpnServer::run], its accept loop, the
      owners of the TUN writer's channel and the shutdown, over those tasks.
    - [Client]: the reconnect loop and the session identity of
      [tunnel/client.rs]; [Routing]: [net/local_networks.rs], the underlay
      bypass of [tunnel/client.rs] and the addresses the server publishes;
      [PathSelect]: [transport/path_selector.rs]; [Transport]: the settings of
      [transport/mod.rs], the endpoints of [transport/endpoint.rs] and the path
      watcher of [transport/paths.rs].
    - [Secrets]: [secret.rs], [auth.rs] and the key loading of
      [transport/endpoint.rs]: the server's key file, with other processes at
      work between the calls, and the context of client signatures.

    The host side installs the tunnel and takes it down again:
    - [Text]: the string functions of the Rust library the parsers use.
    - [DeviceRoutes], [Bypass], [Device], [MacNet]: [net/device.rs] on Linux, macOS and
      Windows: VPN routes with their rollback and guards; the routes that keep
      the transport out of the tunnel, with the parsing of the platform tools'
      answers; the configuration and creation of the TUN device; and the
      address request and routing message of its module [macos_net].
    - [Future]: computations that can be dropped at any of their awaits.
    - [Session], [SessionProofs]: the steps of [VpnClient::connect] over the
      state of the host: the set-up of a session and the unwinding of every
      guard when a step fails, the bypass route manager as a task that can be
      aborted at any await, [run_tunnel]'s setup and cleanup and the overlap
      watch; [SessionTasks]: the tasks a session spawns, with the guards and
      handles that own them.
    - [Cancel], [CancelProofs]: [VpnClient::connect] and [run_with_reconnect],
      with the status it publishes, composed of these steps as futures that can
      be dropped at any of their awaits by the shutdown signal.

    Around them stands the program itself:
    - [FileConfig]: [config/file_config.rs] and [prepare_client_start] of
      [main.rs]; [Runtime]: [runtime.rs], instance names and the per-instance
      lock as interleaved file-system steps; [Dirs]: its directories on Windows
      and their creation; [LogFile]: the size-capped log of [main.rs].
    - [ClientMain]: the life of a client process: [VpnClient::new] with its lock,
      [run_vpn_client] of [main.rs] raced against the shutdown signal, and the
      Windows library [ffi_windows.rs] with its worker thread; [Program]: the
      commands of [main.rs] and the order in which a process forks, sets up its
      logger, its settings, its runtime and its endpoint.
    - [Status]: the status handle and the reports of [control.rs] and
      [transport/paths.rs]; [Control]: the control socket, with the list and
      stop commands of [main.rs].
    - [Mobile]: [tunnel/mobile.rs], the session over a descriptor of the
      system with its in-place reconnect loop; [Ffi]: [ffi.rs] and
      [ffi_common.rs], the C interface of the Apple clients.

    ** How the code is modelled

    - A computation that can fail or panic is in the [outcome] monad below: an
      index, slice or unwrap out of range is [Panic], an [Err] is [Fail], so
      the absence of panics is a theorem.
    - Integers are [Z] in the range of their width, with [wrap] where Rust
      wraps; where a plain operator can overflow, the definition takes the
      build profile as a parameter (panic in debug, wrap in release).  Bytes
      are [Z] in [0, 256).  Statistics counters are unbounded.
    - Code that changes shared objects passes the state explicitly; a callback
      is a state transformer; concurrent tasks are steps of [Sessions.sys],
      one per access to shared state, and a routing table consulted by the
      data path is an argument per lookup, as it may change between two.
    - Third-party code is a parameter: prefixes are the class [Net.NetOps] with
      the laws [Net.NetLaws]; serde is [Signaling.Json] with the round trip
      law; SHA-256, key parsing and signature checks are functions; the QUIC
      connection, the channels and the TUN device are states with the calls
      the code makes, constrained by their documented behaviour only.  The
      address pools are used by [Sessions] through the class
      [Sessions.AddrPool], which both pools implement.  Commands and system
      calls are the classes [DeviceRoutes.System], [Device.TunApi] and
      [MacNet.MacSys] (with libc's structures in [MacNet.DarwinAbi]) over a
      world whose kernel tables are constrained by [DeviceRoutes.KernelLaws],
      [Bypass.HostRouteLaws] and [Session.SessionLaws].  Deletions are best
      effort: a command that deletes a route does so if it succeeds, and may
      leave it if it fails or cannot be started.  For host routes the keys whose
      deletion failed are a second observation of the world, and the theorems
      speak of the routes not among them ([Bypass.accounted]); routes over a
      device go with the device at the latest.  The network may lose and reorder
      datagrams, not duplicate or invent them ([EndToEnd.carries]).  A status line is
      [Control.JsonLine]; tokio's [ReadBuf] is [Buffer.ReadBuf].  Parsers of addresses, prefixes, TOML files, relay
      URLs and keys are functions.
    - An asynchronous task is a function of what it meets: the results of its
      awaits, in order, are a list argument (TUN reads, attempts to connect,
      messages of a channel, ticks); tasks that share a channel or a lock are
      steps that interleave freely ([ControlStream.control_run],
      [Runtime.lock_next], [Ffi.ffi_step], [ServerLoop.loop_step],
      [ServerData.world_step], [SessionTasks.life_step]).
    - A future that may be dropped is [Future.async]: a function of the number
      of awaits that complete before the drop.  What a frame holds is released
      then, innermost first ([Future.dropping]); a command that was started
      goes on, and whether it lands is a parameter ([Future.awaiting]).  The
      bypass manager's task is aborted, when a session fails, ends or is
      dropped, wherever it is: [Session.Abort] says where, and whether the
      guards held besides go before or after it ([Session.tear_down]).  Where
      the code does not await the abort, the model takes the task to be dropped
      before the next attempt starts.
    - A file system that others change is a state with their actions as inputs
      before each call ([Secrets.write_calls], [Runtime.lock_next]).
    - Fuel: [Checksum.fold_loop] gets three rounds, enough for every 32-bit sum
      (proved); the planner and the send loop get the batch length, since every
      round consumes a packet; the two searches for a free address get more
      rounds than there are addresses to skip (proved, [IpPool.next_loop_spec]
      and [IpPool.last_loop_spec]); the control task gets more rounds than
      its stream has frames; every other loop is structural.

    ** What is proved

    - Offload: segmentation cuts a GSO packet into packets with the right
      payloads, sequence numbers, lengths and checksums; planned groups always
      assemble; segmenting an assembled group gives the group back; no
      metadata makes the code panic; the codecs are inverse.
    - Data path: the packets a client may inject are exactly those passing the
      anti-spoofing and isolation rules; a TUN frame reaches the owner of its
      destination only; queues stay within their budget; writing a batch
      writes frames that carry exactly the batch; sending accounts for every
      datagram.  End to end, what reaches the server's device are packets the
      client read that pass the rules, and what reaches a client's device are
      datagrams of frames for addresses that were its own when the frame was
      handled, no more often than they were sent, in order if the network keeps
      it, and nothing is lost but where it is counted or the network loses it.
      No batch of the client waits for packets beyond its age limit.  In
      every interleaving of the running server's tasks no step panics, each
      packet and datagram was let through by lookups of its own moments, and
      clients stay isolated; an inbound task handles the batch it read.  The
      read buffer never shows a byte that was not read into it, and the halves
      of a device agree on its frames.
    - Control plane: pools never assign an address twice or one they must not;
      the IPv6 sequential pool refines the IPv4 pool; in every interleaving
      without overlapping connections of one client each served client owns its
      session and its addresses, and everything is cleaned up; the handshake
      agrees end to end; a link that is slow but within its timeout keeps a
      session alive at both ends, and a dead one ends it at both, however long
      the client goes on sending; reconnection,
      bypass routes, the overlap check and path selection behave as specified; what the server publishes
      and answers on the control stream arrives in order and at most once, all
      of it while the channels have room; a server
      that shuts down writes everything that was queued before it returns, and
      it does return once its clients are gone.
    - Host: adding VPN routes is transactional and dropping a guard deletes
      exactly what was added, up to deletions that fail; however [connect] ends
      and wherever the client is cut off, the routes over devices are those it
      found, no host route is lost, and what is left behind are host routes
      whose deletion failed and at most one for every interruption, of a bypass
      route whose command was still running; the reconnect loop with its effects
      refines the pure one, and the bypass manager, aborted or not, its abstract
      counterpart; once [connect] has returned, every task of the session but
      the logger of path statistics has stopped or been aborted; a utun's
      descriptors are conserved, and the kernel reads the requests for its
      address and route as they are meant.
    - Program: the command line, the file and the defaults are resolved by one
      rule of precedence; at most one process runs an instance, and a query of
      an instance answers with the snapshot of that process or not at all; the
      log stays within its cap; the status tells the open session or the
      outage; the key file is never readable by others while it holds a byte of
      the key; a client process and the Windows library leave no lock and no
      route over a device behind, and of the host routes only those above; every command forks before it has threads and fixes its
      settings before it uses them.
    - Mobile: the settings applied to the interface stay those of the session,
      which ends exactly on what cannot be retried;
      the C callback sees the session's events in order, none after stop, and
      the caller's buffers are never exceeded.
    - Deviations, stated as theorems: coalescing drops the flags of later
      segments; an IPv6 pool over ::/0 overflows; a /32 pool places the server
      outside its network; a client that reconnects while its earlier
      connection is cleaned up can share its address with another; a failed
      write of the response leaks the addresses; an aborted bypass manager
      leaves the route whose command it was waiting for; the initial MTU is
      above the protocol minimum its documentation names.

    ** What is not modelled

    The [tun] crate's own devices (Linux, Windows), which are calls of
    [Device.TunApi]; the QUIC library, the relay failover and the key, JSON,
    TOML and prefix libraries, which are parameters; the tables of the argument
    parser, the logger's setup, the diagnostic log of [transport/paths.rs], the
    printed help and the calls that daemonize ([main.rs]), of which the results
    are inputs; module declarations.  The text of an error message is kept where the code
    decides on it and abbreviated elsewhere. *)

From Stdlib Require Export ZArith Lia.
From stdpp Require Export base list gmap strings.

(** ** Outcomes of Rust computations

    A Rust function of the modelled code either returns a value, returns an
    [Err], or panics (an index or slice out of range, an [unwrap] of [None]).
    [outcome E A] has one constructor for each, so that the absence of panics
    is a theorem about the model and not an assumption of it. *)

Inductive outcome (E A : Type) : Type :=
| Ret (a : A)
| Fail (e : E)
| Panic.
Arguments Ret {E A} _.
Arguments Fail {E A} _.
Arguments Panic {E A}.

#[export] Instance outcome_ret {E} : MRet (outcome E) := fun A a => Ret a.
#[export] Instance outcome_bind {E} : MBind (outcome E) := fun A B f m =>
  match m with
  | Ret a => f a
  | Fail e => Fail e
  | Panic => Panic
  end.
#[export] Instance outcome_fmap {E} : FMap (outcome E) := fun A B f m =>
  match m with
  | Ret a => Ret (f a)
  | Fail e => Fail e
  | Panic => Panic
  end.

(** The error conversion of [map_err]. *)
Definition map_err {E F A} (f : E -> F) (m : outcome E A) : outcome F A :=
  match m with
  | Ret a => Ret a
  | Fail e => Fail (f e)
  | Panic => Panic
  end.

Definition is_ret {E A} (m : outcome E A) : bool :=
  match m with Ret _ => true | _ => false end.

Definition is_panic {E A} (m : outcome E A) : bool :=
  match m with Panic => true | _ => false end.

(** [Option::ok_or]. *)
Definition ok_or {E A} (e : E) (o : option A) : outcome E A :=
  match o with Some a => Ret a | None => Fail e end.

(** ** Machine integers

    A [w]-bit unsigned integer is a [Z] in [0, 2^w); the operations that wrap
    in Rust ([wrapping_add], [as] casts) are written with [wrap]. *)

Definition wrap (w z : Z) : Z := (z mod 2 ^ w)%Z.

Definition is_uint (w z : Z) : Prop := (0 <= z < 2 ^ w)%Z.

#[export] Instance is_uint_dec w z : Decision (is_uint w z).
Proof. unfold is_uint; apply _. Defined.

Abbreviation is_byte := (is_uint 8).
Abbreviation bytes_ok := (Forall (is_uint 8)).

Definition U8_MAX : Z := 255.
Definition U16_MAX : Z := 65535.
Definition U32_MAX : Z := 4294967295.
Definition U64_MAX : Z := 18446744073709551615.

(** ** Byte-string codecs ([to_be_bytes], [from_be_bytes], [to_le_bytes]) *)

Definition be16 (hi lo : Z) : Z := (256 * hi + lo)%Z.
Definition le16 (lo hi : Z) : Z := be16 hi lo.
Arguments be16 : simpl never.
Arguments le16 : simpl never.
Arguments wrap : simpl never.

(** Big-endian bytes of a word, most significant first. *)
Fixpoint be_bytes (n : nat) (v : Z) : list Z :=
  match n with
  | O => []
  | S n' => ((v / 256 ^ Z.of_nat n') mod 256)%Z :: be_bytes n' v
  end.

Arguments be_bytes : simpl never.

Fixpoint be_value (bs : list Z) : Z :=
  match bs with
  | [] => 0
  | b :: r => (b * 256 ^ Z.of_nat (length r) + be_value r)%Z
  end.

(** ** Indexing and slicing, with the panics Rust has *)

Section Slices.
Context {E : Type}.

(** [p[i]] *)
Definition idx (p : list Z) (i : nat) : outcome E Z :=
  match p !! i with Some b => Ret b | None => Panic end.

(** [p[a..b]] *)
Definition slice (p : list Z) (a b : nat) : outcome E (list Z) :=
  if decide (a <= b /\ b <= length p)%nat
  then Ret (take (b - a) (drop a p))
  else Panic.

(** [p[a..]] *)
Definition slice_from (p : list Z) (a : nat) : outcome E (list Z) :=
  if decide (a <= length p)%nat then Ret (drop a p) else Panic.

(** [p] with the bytes from [a] on overwritten by [src]. *)
Definition spliced (p : list Z) (a : nat) (src : list Z) : list Z :=
  take a p ++ src ++ drop (a + length src) p.

(** [p[a..a + src.len()].copy_from_slice(src)] *)
Definition splice (p : list Z) (a : nat) (src : list Z) : outcome E (list Z) :=
  if decide (a + length src <= length p)%nat
  then Ret (spliced p a src)
  else Panic.

(** [p[i] = v] *)
Definition set_idx (p : list Z) (i : nat) (v : Z) : outcome E (list Z) :=
  splice p i [v].
End Slices.

(** ** Shared automation *)

Create HintDb ezvpn.

(** Case analysis on the next test of a hypothesis or of the goal, dropping
    the impossible branches. *)
Ltac cases :=
  repeat (case_match; simplify_eq/=; try discriminate; try lia).

(** Arithmetic on machine integers: the widths in use, written out for [lia]. *)
Ltac widths :=
  unfold le16 in *; unfold is_uint, wrap, be16, U8_MAX, U16_MAX, U32_MAX, U64_MAX in *;
  change (2 ^ 8)%Z with 256%Z in *;
  change (2 ^ 16)%Z with 65536%Z in *;
  change (2 ^ 32)%Z with 4294967296%Z in *;
  change (2 ^ 64)%Z with 18446744073709551616%Z in *.
Ltac ulia := widths; lia.

(** ** Lemmas on outcomes *)

Lemma Ret_inj {E A} (a b : A) : Ret (E:=E) a = Ret b -> a = b.
Proof. by injection 1. Qed.

Lemma bind_ret_inv {E A B} (m : outcome E A) (f : A -> outcome E B) b :
  (m ≫= f) = Ret b -> exists a, m = Ret a /\ f a = Ret b.
Proof. destruct m; simpl; intros; simplify_eq; eauto. Qed.

Lemma bind_not_panic {E A B} (m : outcome E A) (f : A -> outcome E B) :
  m ≠ Panic -> (forall a, m = Ret a -> f a ≠ Panic) -> (m ≫= f) ≠ Panic.
Proof. destruct m; simpl; eauto. Qed.

Lemma map_err_ret {E F A} (g : E -> F) (m : outcome E A) a :
  map_err g m = Ret a <-> m = Ret a.
Proof. destruct m; simpl; split; intros; simplify_eq; done. Qed.

Lemma map_err_not_panic {E F A} (g : E -> F) (m : outcome E A) :
  m ≠ Panic -> map_err g m ≠ Panic.
Proof. by destruct m. Qed.

Ltac bind_inv H :=
  let a := fresh "v" in let Ha := fresh "Hv" in
  apply bind_ret_inv in H as (a & Ha & H).

(** ** Lemmas on slices *)

Lemma be_bytes_S n v :
  be_bytes (S n) v = ((v / 256 ^ Z.of_nat n) mod 256)%Z :: be_bytes n v.
Proof. reflexivity. Qed.

Lemma be_bytes_length n v : length (be_bytes n v) = n.
Proof. induction n as [|n IH]; [done|]. rewrite be_bytes_S. cbn [length]. by rewrite IH. Qed.

Section SliceLemmas.
Context {E : Type}.
Implicit Types (p src : list Z) (i a b : nat).

Lemma idx_ok p i : (i < length p)%nat -> idx (E:=E) p i = Ret (p !!! i).
Proof.
  intros Hi. unfold idx. destruct (lookup_lt_is_Some_2 p i Hi) as [x Hx].
  rewrite Hx. by rewrite (list_lookup_total_correct _ _ _ Hx).
Qed.

Lemma idx_inv p i v :
  idx (E:=E) p i = Ret v -> (i < length p)%nat /\ v = p !!! i.
Proof.
  unfold idx. destruct (p !! i) eqn:Hp; intros; simplify_eq.
  split; [by eapply lookup_lt_Some | by rewrite (list_lookup_total_correct _ _ _ Hp)].
Qed.

Lemma slice_ok p a b :
  (a <= b)%nat -> (b <= length p)%nat ->
  slice (E:=E) p a b = Ret (take (b - a) (drop a p)).
Proof. intros. unfold slice. rewrite decide_True; [done | lia]. Qed.

Lemma slice_from_ok p a :
  (a <= length p)%nat -> slice_from (E:=E) p a = Ret (drop a p).
Proof. intros. unfold slice_from. by rewrite decide_True. Qed.

Lemma splice_ok p a src :
  (a + length src <= length p)%nat ->
  splice (E:=E) p a src = Ret (spliced p a src).
Proof. intros. unfold splice. by rewrite decide_True. Qed.

Lemma splice_inv p a src q :
  splice (E:=E) p a src = Ret q ->
  (a + length src <= length p)%nat /\
  q = spliced p a src.
Proof. unfold splice. case_decide; intros; simplify_eq. done. Qed.

Lemma splice_not_fail p a src e : splice (E:=E) p a src ≠ Fail e.
Proof. unfold splice. by case_decide. Qed.
End SliceLemmas.

Lemma spliced_length (p : list Z) a src :
  (a + length src <= length p)%nat -> length (spliced p a src) = length p.
Proof. intros. unfold spliced. rewrite !length_app, length_take, length_drop. lia. Qed.

Lemma spliced_lookup (p : list Z) a src i :
  (a + length src <= length p)%nat ->
  spliced p a src !! i =
    if decide (a <= i < a + length src)%nat then src !! (i - a)%nat else p !! i.
Proof.
  intros Hl. unfold spliced. case_decide.
  - rewrite lookup_app_r by (rewrite length_take; lia). rewrite length_take.
    rewrite lookup_app_l by lia. f_equal. lia.
  - destruct (decide (i < a)%nat).
    + rewrite lookup_app_l by (rewrite length_take; lia). by apply lookup_take_lt.
    + rewrite lookup_app_r by (rewrite length_take; lia). rewrite length_take.
      rewrite lookup_app_r by lia. rewrite lookup_drop. f_equal. lia.
Qed.

Lemma spliced_lookup_total (p : list Z) a src i :
  (a + length src <= length p)%nat ->
  spliced p a src !!! i =
    if decide (a <= i < a + length src)%nat then src !!! (i - a)%nat else p !!! i.
Proof.
  intros. rewrite !list_lookup_total_alt, spliced_lookup by done. by case_decide.
Qed.

Lemma take_spliced (p : list Z) a src n :
  (a + length src <= length p)%nat -> (a + length src <= n)%nat ->
  take n (spliced p a src) = spliced (take n p) a src.
Proof.
  intros. apply list_eq. intros i. rewrite spliced_lookup by (rewrite length_take; lia).
  destruct (decide (i < n)%nat).
  - rewrite !lookup_take_lt, spliced_lookup by lia. by case_decide.
  - rewrite !lookup_take_ge by lia. rewrite decide_False by lia. done.
Qed.

Lemma take_spliced_below (p : list Z) a src n :
  (a + length src <= length p)%nat -> (n <= a)%nat ->
  take n (spliced p a src) = take n p.
Proof.
  intros. apply list_eq. intros i. destruct (decide (i < n)%nat).
  - rewrite !lookup_take_lt, spliced_lookup by lia. rewrite decide_False by lia. done.
  - by rewrite !lookup_take_ge by lia.
Qed.

Lemma drop_spliced (p : list Z) a src n :
  (a + length src <= length p)%nat -> (n <= a)%nat ->
  drop n (spliced p a src) = spliced (drop n p) (a - n) src.
Proof.
  intros. apply list_eq. intros i. rewrite spliced_lookup by (rewrite length_drop; lia).
  rewrite !lookup_drop, spliced_lookup by lia.
  repeat case_decide; try lia; [f_equal; lia | done].
Qed.

Lemma drop_spliced_above (p : list Z) a src n :
  (a + length src <= length p)%nat -> (a + length src <= n)%nat ->
  drop n (spliced p a src) = drop n p.
Proof.
  intros. apply list_eq. intros i. rewrite !lookup_drop, spliced_lookup by lia.
  rewrite decide_False by lia. done.
Qed.

Lemma spliced_bytes_ok p a src : bytes_ok p -> bytes_ok src -> bytes_ok (spliced p a src).
Proof.
  intros. unfold spliced. apply Forall_app; split; [by apply Forall_take|].
  apply Forall_app; split; [done | by apply Forall_drop].
Qed.

(** Two adjacent single-byte writes are one two-byte write. *)
Lemma spliced_adjacent p a x y :
  (a + 2 <= length p)%nat -> spliced (spliced p a [x]) (S a) [y] = spliced p a [x; y].
Proof.
  intros. apply list_eq. intros i.
  rewrite !spliced_lookup by (rewrite ?spliced_length by (simpl; lia); simpl; lia).
  cbn [length]. repeat case_decide; try lia; [|by replace (i - a)%nat with 0%nat by lia|done].
  replace (i - S a)%nat with 0%nat by lia. by replace (i - a)%nat with 1%nat by lia.
Qed.

(** Side conditions on positions: lengths of spliced and sliced strings. *)
Ltac lengths :=
  repeat first
    [ rewrite length_app | rewrite length_take | rewrite length_drop
    | rewrite be_bytes_length
    | rewrite spliced_length by (lengths; lia) ]; cbn [length].
Ltac slice_side := unfold set_idx; lengths; lia.

(** Run the indexing and slicing steps whose bounds [lia] can discharge. *)
Ltac run_slices :=
  repeat (match goal with
    | |- context [idx ?p ?i] => rewrite (idx_ok p i) by slice_side
    | |- context [slice ?p ?a ?b] => rewrite (slice_ok p a b) by slice_side
    | |- context [slice_from ?p ?a] => rewrite (slice_from_ok p a) by slice_side
    | |- context [splice ?p ?a ?src] => rewrite (splice_ok p a src) by slice_side
    end; cbn [mbind outcome_bind]).

(** ** Lemmas on byte strings *)

Lemma bytes_ok_app p q : bytes_ok (p ++ q) <-> bytes_ok p /\ bytes_ok q.
Proof. apply Forall_app. Qed.

Lemma bytes_ok_take p n : bytes_ok p -> bytes_ok (take n p).
Proof. apply Forall_take. Qed.

Lemma bytes_ok_drop p n : bytes_ok p -> bytes_ok (drop n p).
Proof. apply Forall_drop. Qed.

Lemma bytes_ok_lookup p i : bytes_ok p -> (i < length p)%nat -> is_byte (p !!! i).
Proof.
  intros Hp [x Hx]%lookup_lt_is_Some_2.
  rewrite (list_lookup_total_correct _ _ _ Hx). by eapply Forall_lookup_1.
Qed.

#[export] Hint Resolve bytes_ok_take bytes_ok_drop bytes_ok_lookup : ezvpn.

Lemma be_bytes_ok n v : bytes_ok (be_bytes n v).
Proof.
  induction n; [constructor|]. rewrite be_bytes_S. constructor; [|done].
  unfold is_uint. change (2 ^ 8)%Z with 256%Z. apply Z.mod_pos_bound. lia.
Qed.

Lemma be_value_bound bs : bytes_ok bs -> (0 <= be_value bs < 256 ^ Z.of_nat (length bs))%Z.
Proof.
  induction 1 as [|b r Hb _ IH]; simpl length; [simpl; lia|].
  rewrite Nat2Z.inj_succ, Z.pow_succ_r by lia. cbn [be_value].
  unfold is_uint in Hb. change (2 ^ 8)%Z with 256%Z in Hb. nia.
Qed.

Lemma be_value_be_bytes n v :
  be_value (be_bytes n v) = (v mod 256 ^ Z.of_nat n)%Z.
Proof.
  induction n as [|n IH]; [simpl; by rewrite Z.mod_1_r|].
  rewrite be_bytes_S. cbn [be_value]. rewrite be_bytes_length, IH.
  rewrite Nat2Z.inj_succ, Z.pow_succ_r by lia.
  rewrite (Z.mul_comm 256), Z.rem_mul_r by lia. lia.
Qed.

Lemma be_bytes_mod n v k :
  (n <= k)%nat -> be_bytes n (v mod 256 ^ Z.of_nat k) = be_bytes n v.
Proof.
  intros Hk. induction n as [|n IH]; [done|]. rewrite !be_bytes_S. rewrite IH by lia. f_equal.
  replace (Z.of_nat k) with (Z.of_nat n + Z.of_nat (k - n))%Z by lia.
  rewrite Z.pow_add_r, Z.rem_mul_r by lia.
  rewrite Z.mul_comm, Z.div_add by lia.
  rewrite (Z.div_small (v mod _)) by (apply Z.mod_pos_bound; lia).
  replace (Z.of_nat (k - n)) with (1 + Z.of_nat (k - n - 1))%Z by lia.
  rewrite Z.pow_add_r, Z.pow_1_r, Z.rem_mul_r by lia.
  rewrite Z.add_0_l, Z.mul_comm, Z.mod_add, Z.mod_mod by lia. done.
Qed.

Lemma be_bytes_be_value bs :
  bytes_ok bs -> be_bytes (length bs) (be_value bs) = bs.
Proof.
  induction 1 as [|b r Hb Hr IH]; [done|]. cbn [be_value length]. rewrite be_bytes_S.
  pose proof (be_value_bound r Hr) as Hbd.
  unfold is_uint in Hb. change (2 ^ 8)%Z with 256%Z in Hb. f_equal.
  - rewrite Z.div_add_l, Z.div_small, Z.add_0_r, Z.mod_small by lia. done.
  - rewrite <-(be_bytes_mod (length r) _ (length r)) by lia.
    rewrite Z.add_comm, Z.mod_add, Z.mod_small by lia. done.
Qed.

(** A subsequence that is not shorter is the whole list. *)
Lemma sublist_same_length {A} (l1 l2 : list A) : l1 `sublist_of` l2 -> length l2 <= length l1 -> l1 = l2.
Proof.
  induction 1 as [|x l1 l2 Hs IH|x l1 l2 Hs IH]; cbn [length]; [done| |].
  - intros Hl. f_equal. apply IH. lia.
  - intros Hl. apply sublist_length in Hs. lia.
Qed.

Lemma wrap_small w z : is_uint w z -> wrap w z = z.
Proof. intros ?. unfold wrap. by apply Z.mod_small. Qed.

Lemma wrap_uint w z : (0 <= w)%Z -> is_uint w (wrap w z).
Proof. intros. unfold wrap, is_uint. apply Z.mod_pos_bound. lia. Qed.

(** Bit tests: a mask test is a statement on the bits of the mask. *)
Lemma land_ones_mod z n : (0 <= n)%Z -> Z.land z (Z.ones n) = (z mod 2 ^ n)%Z.
Proof. intros. by apply Z.land_ones. Qed.

Lemma list_lookup_total_app_l_lt (p q : list Z) i :
  (i < length p)%nat -> (p ++ q) !!! i = p !!! i.
Proof. intros. by apply lookup_total_app_l. Qed.

Lemma total_lookup_take (p : list Z) n i :
  (i < n)%nat -> take n p !!! i = p !!! i.
Proof. intros. by apply lookup_total_take_lt. Qed.

Lemma total_lookup_drop (p : list Z) n i : drop n p !!! i = p !!! (n + i)%nat.
Proof. apply lookup_total_drop. Qed.

(** Two-byte words. *)
Lemma be_bytes2 v : is_uint 16 v -> be_bytes 2 v = [(v / 256)%Z; (v mod 256)%Z].
Proof.
  intros. rewrite !be_bytes_S. change (256 ^ Z.of_nat 1)%Z with 256%Z.
  change (256 ^ Z.of_nat 0)%Z with 1%Z. rewrite Z.div_1_r. f_equal.
  apply Z.mod_small. widths. split; [apply Z.div_pos; lia | apply Z.div_lt_upper_bound; lia].
Qed.

Lemma be16_split v : be16 (v / 256) (v mod 256) = v.
Proof. unfold be16. symmetry. apply Z.div_mod. lia. Qed.

Lemma be16_uint h l : is_byte h -> is_byte l -> is_uint 16 (be16 h l).
Proof. intros. ulia. Qed.

#[export] Hint Resolve be_bytes_ok spliced_bytes_ok be16_uint : ezvpn.
