(* ===== verification/Text.v ===== *)
(** * The string operations the program uses

    [str] methods of the standard library on byte strings: [strip_prefix],
    [strip_suffix], [contains], [trim], [lines], [splitn], [to_lowercase] and
    the decimal parsers.  A [string] is the UTF-8 bytes of a [str]; the
    character classes the program tests are ASCII, and so are the white space
    [trim] and [lines] remove and the letters [to_lowercase] maps here. *)

From stdpp Require Export pretty.
From S2P Require Import Prelude.

#[local] Open Scope string_scope.

(** ** Character classes *)

Definition code (c : Ascii.ascii) : nat := Ascii.nat_of_ascii c.
Definition between (lo hi : nat) (c : Ascii.ascii) : bool := (lo <=? code c)%nat && (code c <=? hi)%nat.
Definition is_ascii_digit : Ascii.ascii -> bool := between 48 57.
Definition is_ascii_lowercase : Ascii.ascii -> bool := between 97 122.
Definition is_ascii_uppercase : Ascii.ascii -> bool := between 65 90.
Definition is_ascii_alphanumeric (c : Ascii.ascii) : bool :=
  is_ascii_digit c || is_ascii_lowercase c || is_ascii_uppercase c.
Definition is_ascii_hexdigit (c : Ascii.ascii) : bool :=
  is_ascii_digit c || between 97 102 c || between 65 70 c.

(** [s.chars().all(f)] *)
Fixpoint all_chars (f : Ascii.ascii -> bool) (s : string) : bool :=
  match s with
  | "" => true
  | String c s' => f c && all_chars f s'
  end.

(** ** Prefixes, suffixes, infixes *)

Fixpoint strip_prefix (p s : string) : option string :=
  match p, s with
  | "", _ => Some s
  | String a p', String b s' => if Ascii.eqb a b then strip_prefix p' s' else None
  | _, _ => None
  end.

Fixpoint strip_suffix (suf s : string) : option string :=
  if String.eqb s suf then Some "" else
  match s with
  | "" => None
  | String c s' => String c <$> strip_suffix suf s'
  end.

Definition starts_with (p s : string) : bool :=
  match strip_prefix p s with Some _ => true | None => false end.

Fixpoint contains (pat s : string) : bool :=
  starts_with pat s ||
  match s with
  | "" => false
  | String _ s' => contains pat s'
  end.

Definition to_lowercase_char (c : Ascii.ascii) : Ascii.ascii :=
  if is_ascii_uppercase c then Ascii.ascii_of_nat (code c + 32) else c.

Fixpoint to_lowercase (s : string) : string :=
  match s with
  | "" => ""
  | String c s' => String (to_lowercase_char c) (to_lowercase s')
  end.

(** ** White space and lines *)

Fixpoint trim_start (s : string) : string :=
  match s with
  | String c s' => if Ascii.is_space c then trim_start s' else s
  | "" => ""
  end.

Fixpoint trim_end (s : string) : string :=
  match s with
  | "" => ""
  | String c s' =>
      match trim_end s' with
      | "" => if Ascii.is_space c then "" else String c ""
      | r => String c r
      end
  end.

Definition trim (s : string) : string := trim_end (trim_start s).

(** [s.splitn(2, c)]: up to the first [c], and what follows it. *)
Fixpoint split_once (c : Ascii.ascii) (s : string) : string * option string :=
  match s with
  | "" => ("", None)
  | String a s' =>
      if Ascii.eqb a c then ("", Some s')
      else let '(l, r) := split_once c s' in (String a l, r)
  end.

Definition LF : Ascii.ascii := Ascii.ascii_of_nat 10.
Definition CR : Ascii.ascii := Ascii.ascii_of_nat 13.

(** [s.lines()]: the pieces between newlines, without a trailing carriage
    return, the last one only when it is not empty. *)
Fixpoint lines (s : string) : list string :=
  let push c l := match l with [] => [String c ""] | l :: ls => String c l :: ls end in
  match s with
  | "" => []
  | String c s' =>
      if Ascii.eqb c LF then "" :: lines s' else
      match s' with
      | String d s'' => if Ascii.eqb c CR && Ascii.eqb d LF then "" :: lines s'' else push c (lines s')
      | "" => push c (lines s')
      end
  end.

(** ** Decimal numbers *)

Definition digit (c : Ascii.ascii) : Z := Z.of_nat (code c) - 48.

Fixpoint digits_value (acc : Z) (s : string) : option Z :=
  match s with
  | "" => Some acc
  | String c s' => if is_ascii_digit c then digits_value (10 * acc + digit c)%Z s' else None
  end.

(** [s.parse::<u32>()] and its like at width [w]: an optional [+], at least one
    digit, no overflow. *)
Definition parse_uint (w : Z) (s : string) : option Z :=
  let s := match strip_prefix "+" s with Some s' => s' | None => s end in
  match s with
  | "" => None
  | _ => v ← digits_value 0 s; if (v <? 2 ^ w)%Z then Some v else None
  end.

(** ** Lemmas *)

Lemma append_cons c (s t : string) : String c s +:+ t = String c (s +:+ t).
Proof. reflexivity. Qed.

Lemma append_nil_r (s : string) : s +:+ "" = s.
Proof. induction s as [|c s IH]; [done|]. by rewrite append_cons, IH. Qed.

Lemma append_assoc (s t u : string) : s +:+ (t +:+ u) = (s +:+ t) +:+ u.
Proof. induction s as [|c s IH]; [done|]. by rewrite !append_cons, IH. Qed.

Lemma append_length (s t : string) : String.length (s +:+ t) = (String.length s + String.length t)%nat.
Proof. induction s as [|c s IH]; [done|]. rewrite append_cons. cbn [String.length]. by rewrite IH. Qed.

Lemma strip_prefix_iff p s r : strip_prefix p s = Some r <-> s = p +:+ r.
Proof.
  revert s. induction p as [|a p IH]; intros s; cbn [strip_prefix].
  - split; [by intros [= ->]|by intros ->].
  - destruct s as [|b s]; [done|]. rewrite append_cons.
    destruct (Ascii.eqb_spec a b) as [->|Hne]; [rewrite IH|split; [done|congruence]].
    split; [by intros ->|by intros [= ->]].
Qed.

Lemma strip_suffix_iff suf s r : strip_suffix suf s = Some r <-> s = r +:+ suf.
Proof.
  revert r. induction s as [|c s IH]; intros r; cbn [strip_suffix].
  - destruct (String.eqb_spec "" suf) as [<-|Hne].
    + split; [by intros [= <-]|]. destruct r; [done|rewrite append_cons; done].
    + split; [done|]. destruct r; [|rewrite append_cons; done]. intros Hs. by destruct Hne.
  - destruct (String.eqb_spec (String c s) suf) as [<-|Hne].
    + split; [by intros [= <-]|]. intros Hr.
      assert (Hl := f_equal String.length Hr). rewrite append_length in Hl. destruct r; [done|].
      cbn [String.length] in Hl. lia.
    + destruct r as [|d r]; [split; [by destruct (strip_suffix suf s)|intros Hs; by destruct Hne]|].
      rewrite append_cons. specialize (IH r). destruct (strip_suffix suf s) as [u|]; cbn.
      * split; [intros [= <- ->]; f_equal; by apply IH|].
        intros [= <- Hs]. apply IH in Hs. congruence.
      * split; [done|]. intros [= _ Hs]. by apply IH in Hs.
Qed.

Lemma append_inj_l (p s t : string) : p +:+ s = p +:+ t -> s = t.
Proof.
  intros Hp. pose proof (proj2 (strip_prefix_iff p _ s) eq_refl) as H1.
  rewrite Hp, (proj2 (strip_prefix_iff p _ t) eq_refl) in H1. congruence.
Qed.

Lemma append_inj_r (s t suf : string) : s +:+ suf = t +:+ suf -> s = t.
Proof.
  intros Hs. pose proof (proj2 (strip_suffix_iff suf _ s) eq_refl) as H1.
  rewrite Hs, (proj2 (strip_suffix_iff suf _ t) eq_refl) in H1. congruence.
Qed.

Lemma all_chars_app f (s t : string) : all_chars f (s +:+ t) = all_chars f s && all_chars f t.
Proof. induction s as [|c s IH]; [done|]. rewrite append_cons. cbn [all_chars]. by rewrite IH, andb_assoc. Qed.

Lemma str_contains_iff pat s : contains pat s = true <-> exists l r, s = l +:+ pat +:+ r.
Proof.
  unfold starts_with. induction s as [|c s IH]; cbn [contains]; unfold starts_with.
  - destruct (strip_prefix pat "") as [r|] eqn:Hp.
    + apply strip_prefix_iff in Hp. split; [|done]. intros _. by exists "", r.
    + split; [done|]. intros ([|] & r & Hr); [|done]. change ("" = pat +:+ r) in Hr.
      apply strip_prefix_iff in Hr. congruence.
  - destruct (strip_prefix pat (String c s)) as [r|] eqn:Hp; cbn [orb].
    + apply strip_prefix_iff in Hp. split; [|done]. intros _. by exists "", r.
    + rewrite IH. split.
      * intros (l & r & ->). by exists (String c l), r.
      * intros ([|d l] & r & Hr).
        -- change (String c s = pat +:+ r) in Hr. apply strip_prefix_iff in Hr. congruence.
        -- rewrite append_cons in Hr. injection Hr as -> Hr. eauto.
Qed.

(** Trimming decimal text does nothing, and a trailing newline goes. *)
Definition no_space (c : Ascii.ascii) : bool := negb (Ascii.is_space c).

Lemma trim_end_nospace (s t : string) :
  all_chars no_space s = true -> all_chars Ascii.is_space t = true ->
  trim_end (s +:+ t) = s.
Proof.
  intros Hs Ht. induction s as [|c s IH].
  - change ("" +:+ t) with t. induction t as [|d t IHt]; [done|]. cbn [all_chars] in Ht.
    apply andb_true_iff in Ht as [Hd Ht]. cbn [trim_end]. by rewrite IHt, Hd.
  - cbn [all_chars] in Hs. apply andb_true_iff in Hs as [Hc Hs]. rewrite append_cons. cbn [trim_end].
    rewrite (IH Hs). unfold no_space in Hc. destruct (Ascii.is_space c); [done|]. by destruct s.
Qed.

Lemma trim_start_nospace (s : string) : all_chars no_space s = true -> trim_start s = s.
Proof.
  destruct s as [|c s]; [done|]. cbn [all_chars trim_start]. unfold no_space at 1.
  by destruct (Ascii.is_space c).
Qed.

(** ** Printing and parsing numbers *)

Lemma pretty_char_digit x : (x < 10)%N ->
  is_ascii_digit (pretty_N_char x) = true /\ digit (pretty_N_char x) = Z.of_N x.
Proof.
  intros Hx. assert (Hc : x = 0%N \/ x = 1%N \/ x = 2%N \/ x = 3%N \/ x = 4%N \/ x = 5%N \/
    x = 6%N \/ x = 7%N \/ x = 8%N \/ x = 9%N) by lia.
  repeat destruct Hc as [->|Hc]; try subst; done.
Qed.

Lemma digits_value_go x s : digits_value 0 (pretty_N_go x s) = digits_value (Z.of_N x) s.
Proof.
  revert s. induction (N.lt_wf_0 x) as [x _ IH]. intros s.
  destruct (decide (0 < x)%N) as [Hx|]; [|assert (x = 0%N) as -> by lia; by rewrite pretty_N_go_0].
  rewrite pretty_N_go_step, IH by (try apply N.div_lt; lia). cbn [digits_value].
  destruct (pretty_char_digit (x mod 10)) as [-> ->]; [apply N.mod_lt; lia|].
  f_equal. rewrite N2Z.inj_div, N2Z.inj_mod. pose proof (Z.div_mod (Z.of_N x) 10). lia.
Qed.

Lemma digits_value_all acc s v : digits_value acc s = Some v -> all_chars is_ascii_digit s = true.
Proof.
  revert acc. induction s as [|c s IH]; intros acc; cbn [digits_value all_chars]; [done|].
  destruct (is_ascii_digit c); [apply IH|done].
Qed.

Lemma digit_no_space s : all_chars is_ascii_digit s = true -> all_chars no_space s = true.
Proof.
  induction s as [|c s IH]; [done|]. cbn [all_chars]. intros [Hc Hs]%andb_true_iff.
  rewrite (IH Hs), andb_true_r. unfold no_space. destruct (Ascii.is_space c) eqn:Hsp; [|done].
  exfalso. revert Hc Hsp. unfold is_ascii_digit, between, code, Ascii.is_space.
  destruct c as [[] [] [] [] [] [] [] []]; done.
Qed.

Lemma pretty_digits (n : N) : digits_value 0 (pretty n) = Some (Z.of_N n).
Proof.
  unfold pretty, pretty_N. case_decide as Hn; [by subst|]. apply digits_value_go.
Qed.

(** Printing a number and parsing it, spaces around it trimmed, gives it back. *)
Lemma parse_pretty (w : Z) (n : N) sp :
  (Z.of_N n < 2 ^ w)%Z -> all_chars Ascii.is_space sp = true ->
  parse_uint w (trim (pretty n +:+ sp)) = Some (Z.of_N n).
Proof.
  intros Hn Hsp. pose proof (pretty_digits n) as Hd. pose proof (digits_value_all _ _ _ Hd) as Ha.
  unfold trim. destruct (pretty n) as [|c s] eqn:Hp.
  { exfalso. revert Hp. unfold pretty, pretty_N. case_decide; [done|]. intros Hg.
    pose proof (digits_value_go n "") as Hv. rewrite Hg in Hv. cbn in Hv. injection Hv. lia. }
  assert (Hc : no_space c = true).
  { pose proof (digit_no_space _ Ha) as Hns. cbn [all_chars] in Hns.
    by apply andb_true_iff in Hns as [? _]. }
  rewrite append_cons. cbn [trim_start]. unfold no_space in Hc.
  destruct (Ascii.is_space c) eqn:Hcs; [done|]. rewrite <-append_cons.
  rewrite trim_end_nospace by (try apply digit_no_space; done). unfold parse_uint.
  assert (strip_prefix "+" (String c s) = None) as ->.
  { cbn [strip_prefix]. case_match eqn:He; [|done]. apply Ascii.eqb_eq in He. by subst c. }
  rewrite Hd. cbn. by rewrite (proj2 (Z.ltb_lt _ _)).
Qed.
