(* ===== verification/Future.v ===== *)
(** * Futures that can be dropped

    A future of the client can be dropped at any of its awaits: by the shutdown
    signal, or because the task that runs it is aborted.  What it holds is
    dropped then, while a command it has started goes on running.  Computations
    over a state that may be cut off at an await, and two judgements on them:
    what a future does that completes, and what a dropped one leaves. *)

From S2P Require Import Prelude.

(** ** Computations *)

(** The number of awaits that complete before the future is dropped; [None]
    if it is never dropped. *)
Abbreviation cut := (option nat).

(** What is left of the state, and the result unless the future was dropped. *)
Definition async (W A : Type) : Type := W -> cut -> W * option (A * cut).

#[export] Instance async_ret {W} : MRet (async W) := fun A a w c => (w, Some (a, c)).
#[export] Instance async_bind {W} : MBind (async W) := fun A B f m w c =>
  match m w c with
  | (w, Some (a, c)) => f a w c
  | (w, None) => (w, None)
  end.

(** A call without an await. *)
Definition blocking {W A} (f : W -> W * A) : async W A := fun w c => let '(w, a) := f w in (w, Some (a, c)).

(** An await of [f]; when the future is dropped there, [landed] tells whether
    the command that was started still takes effect. *)
Definition awaiting {W A} (landed : bool) (f : W -> W * A) : async W A := fun w c =>
  match c with
  | None => let '(w, a) := f w in (w, Some (a, None))
  | Some O => (if landed then (f w).1 else w, None)
  | Some (S n) => let '(w, a) := f w in (w, Some (a, Some n))
  end.

(** The locals of a frame are dropped with it. *)
Definition dropping {W A} (drop : W -> W) (m : async W A) : async W A := fun w c =>
  match m w c with
  | (w, None) => (drop w, None)
  | r => r
  end.

(** ** Two judgements *)

(** A future that completes has the effect and the result of [f]; it completes
    unless it is cut. *)
Definition implements {W A} (m : async W A) (f : W -> W * A) : Prop := forall w c,
  match m w c with
  | (w', Some (a, c')) => f w = (w', a) /\ (c = None -> c' = None)
  | (_, None) => c <> None
  end.

(** What holds of the state a future leaves when it is dropped. *)
Definition dropped {W A} (m : async W A) (w : W) (D : W -> Prop) : Prop :=
  forall c w', m w c = (w', None) -> D w'.

Section Judgements.
Context {W : Type}.

Lemma implements_ret {A} (a : A) : implements (W:=W) (mret a) (fun w => (w, a)).
Proof. intros w c. done. Qed.

Lemma implements_blocking {A} (f : W -> W * A) : implements (blocking f) f.
Proof. intros w c. unfold blocking. by destruct (f w). Qed.

Lemma implements_awaiting {A} landed (f : W -> W * A) : implements (awaiting landed f) f.
Proof. intros w [[|n]|]; unfold awaiting; [done|..]; by destruct (f w). Qed.

Lemma implements_bind {A B} (m : async W A) f (k : A -> async W B) g :
  implements m f -> (forall a, implements (k a) (g a)) ->
  implements (m ≫= k) (fun w => let '(w, a) := f w in g a w).
Proof.
  intros Hm Hk w c. unfold mbind, async_bind. specialize (Hm w c).
  destruct (m w c) as [w1 [[a c1]|]]; [|done]. destruct Hm as [-> Hc].
  specialize (Hk a w1 c1). destruct (k a w1 c1) as [w2 [[b c2]|]]; [destruct Hk; split; [done|]; tauto|].
  intros ->. by specialize (Hc eq_refl).
Qed.

Lemma implements_dropping {A} d (m : async W A) f : implements m f -> implements (dropping d m) f.
Proof. intros Hm w c. unfold dropping. specialize (Hm w c). by destruct (m w c) as [w1 [[a c1]|]]. Qed.

Lemma implements_ext {A} (m : async W A) f g : (forall w, f w = g w) -> implements m f -> implements m g.
Proof.
  intros He Hm w c. specialize (Hm w c). destruct (m w c) as [w1 [[a c1]|]]; [|done]. by rewrite <-He.
Qed.

Lemma dropped_ret {A} (a : A) w D : dropped (W:=W) (mret a) w D.
Proof. intros c w' [=]. Qed.

Lemma dropped_blocking {A} (f : W -> W * A) w D : dropped (blocking f) w D.
Proof. intros c w'. unfold blocking. by destruct (f w). Qed.

Lemma dropped_awaiting {A} (landed : bool) (f : W -> W * A) w (D : W -> Prop) :
  D w -> (landed = true -> D (f w).1) -> dropped (awaiting landed f) w D.
Proof.
  intros H1 H2 [[|n]|] w'; unfold awaiting; [|by destruct (f w)..]. intros [= <-]. destruct landed; auto.
Qed.

Lemma dropped_bind {A B} (m : async W A) f (k : A -> async W B) w D :
  implements m f -> dropped m w D -> dropped (k (f w).2) (f w).1 D -> dropped (m ≫= k) w D.
Proof.
  intros Hm Hd Hk c w'. unfold mbind, async_bind. specialize (Hm w c). specialize (Hd c).
  destruct (m w c) as [w1 [[a c1]|]]; [|intros [= <-]; by apply Hd].
  destruct Hm as [Hf _]. rewrite Hf in Hk. apply Hk.
Qed.

Lemma dropped_dropping {A} d (m : async W A) w (D : W -> Prop) :
  dropped m w (fun w' => D (d w')) -> dropped (dropping d m) w D.
Proof.
  intros Hm c w'. unfold dropping. specialize (Hm c). destruct (m w c) as [w1 [[a c1]|]]; [done|].
  intros [= <-]. by apply Hm.
Qed.

Lemma dropped_weaken {A} (m : async W A) w (D D' : W -> Prop) :
  (forall w', D w' -> D' w') -> dropped m w D -> dropped m w D'.
Proof. intros Hi Hd c w' Hc. by eapply Hi, Hd. Qed.
End Judgements.

Create HintDb async.
#[export] Hint Resolve implements_ret implements_blocking implements_awaiting implements_dropping
  dropped_ret dropped_blocking : async.
