(* ===== verification/Checksum.v ===== *)
(** * Internet checksums ([src/tunnel/offload.rs], the checksum helpers)

    The one's-complement sum of [add_bytes], [fold_checksum] and
    [finalize_checksum], the two header updates and the two TCP checksums that
    the GSO segmenter and the GRO assembler use.  The reference definition is
    [word_sum], the exact sum of the big-endian 16-bit words of a byte string
    (RFC 1071): a receiver accepts a region whose sum, pseudo-header included,
    is a positive multiple of 65535 ([csum_valid]). *)

From S2P Require Import Prelude.

(** The error strings of [offload.rs], one constructor per message, with the
    numbers the message prints. *)
Inductive offload_error : Type :=
| VirtioHdrBadLength (got : nat)
| ZeroLengthFrame
| FrameShorterThanHeader (len : nat)
| EmptyIpPayload
| UnsupportedGsoFromTun (gso_type : Z)
| ComposeEmptyPayload
| ComposeUnexpectedOffload
| TooFewSegments (got : nat)
| FirstNotCoalescible
| SegmentShorterThanHeaders
| MergedFrameTooLarge (len : nat)
| NotTcpGso
| EmptyIpPacket
| VersionGsoMismatch (version gso_type : Z)
| UnsupportedIpVersion (version : Z)
| InvalidTcpOffset (tcp_offset len : nat)
| InvalidTcpHeaderLen (tcp_header_len tcp_offset len : nat)
| PayloadOffsetTooLarge (offset : nat)
| Ipv4GsoNotPlainTcp
| Ipv6GsoNotPlainTcp
| UnsupportedGsoFromMetadata (gso_type : Z)
| CompletionRequiresGsoNone (gso_type : Z)
| UnsupportedChecksumFlags (flags : Z)
| InvalidCsumStart (csum_start len : nat)
| InvalidCsumOffset (csum_offset checksum_index len : nat)
| Ipv4TooShort
| Ipv4NotTcp (protocol : Z)
| InvalidIhl (ihl : nat)
| Ipv4TooLarge (len : nat)
| Ipv6TooShort
| Ipv6LengthUnderflow
| Ipv6PayloadTooLarge (len : nat)
| InvalidChecksumOffsetV4
| InvalidChecksumOffsetV6
| TcpTooLargeV4 (len : nat)
| TcpTooLargeV6 (len : nat)
| TcpLengthUnderflow
| EmitError (message : string).

Abbreviation res := (outcome offload_error).

(** ** The code *)

(** [u32::wrapping_add]. *)
Definition wrapping_add32 (a b : Z) : Z := wrap 32 (a + b).

Fixpoint add_bytes (sum : Z) (bytes : list Z) : Z :=
  match bytes with
  | hi :: lo :: r => add_bytes (wrapping_add32 sum (be16 hi lo)) r
  | [last] => wrapping_add32 sum (be16 last 0)
  | [] => sum
  end.

(** The loop of [fold_checksum]; [None] when the fuel runs out, which
    [fold_loop_total] excludes for every [u32] with three rounds. *)
Fixpoint fold_loop (fuel : nat) (sum : Z) : option Z :=
  match fuel with
  | O => None
  | S f =>
      if (Z.shiftr sum 16 =? 0)%Z then Some (wrap 16 sum)
      else fold_loop f (Z.land sum 65535 + Z.shiftr sum 16)
  end.

Definition FOLD_FUEL : nat := 3.

Definition fold_checksum (sum : Z) : Z := default 0%Z (fold_loop FOLD_FUEL sum).

(** [!x] on a [u16]. *)
Definition not16 (x : Z) : Z := (65535 - x)%Z.

Definition finalize_checksum (sum : Z) : Z := not16 (fold_checksum sum).

Definition update_ipv4_lengths_and_checksum (packet : list Z) (packet_len : nat)
  : res (list Z) :=
  if (length packet <? 20)%nat then Fail Ipv4TooShort else
  proto ← idx packet 9;
  if negb (proto =? 6)%Z then Fail (Ipv4NotTcp proto) else
  b0 ← idx packet 0;
  let ihl := (Z.to_nat (Z.land b0 15) * 4)%nat in
  if (ihl <? 20)%nat || (length packet <? ihl)%nat then Fail (InvalidIhl ihl) else
  if (65535 <? Z.of_nat packet_len)%Z then Fail (Ipv4TooLarge packet_len) else
  p1 ← splice packet 2 (be_bytes 2 (Z.of_nat packet_len));
  p2 ← set_idx p1 10 0;
  p3 ← set_idx p2 11 0;
  hdr ← slice p3 0 ihl;
  splice p3 10 (be_bytes 2 (finalize_checksum (add_bytes 0 hdr))).

Definition update_ipv6_payload_length (packet : list Z) (packet_len : nat)
  : res (list Z) :=
  if (length packet <? 40)%nat then Fail Ipv6TooShort else
  if (packet_len <? 40)%nat then Fail Ipv6LengthUnderflow else
  let payload_len := (packet_len - 40)%nat in
  if (65535 <? Z.of_nat payload_len)%Z then Fail (Ipv6PayloadTooLarge payload_len) else
  splice packet 4 (be_bytes 2 (Z.of_nat payload_len)).

Definition tcp_checksum_ipv4 (packet : list Z) (tcp_offset : nat) : res Z :=
  if (length packet <? 20)%nat || (length packet <=? tcp_offset)%nat
  then Fail InvalidChecksumOffsetV4 else
  if (length packet <? tcp_offset)%nat then Fail TcpLengthUnderflow else
  let tcp_len := (length packet - tcp_offset)%nat in
  if (65535 <? Z.of_nat tcp_len)%Z then Fail (TcpTooLargeV4 tcp_len) else
  addrs ← slice packet 12 20;
  tcp ← slice_from packet tcp_offset;
  let sum := add_bytes 0 addrs in
  let sum := wrapping_add32 sum 6 in
  let sum := wrapping_add32 sum (Z.of_nat tcp_len) in
  let sum := add_bytes sum tcp in
  Ret (finalize_checksum sum).

Definition tcp_checksum_ipv6 (packet : list Z) (tcp_offset : nat) : res Z :=
  if (length packet <? 40)%nat || (length packet <=? tcp_offset)%nat
  then Fail InvalidChecksumOffsetV6 else
  if (length packet <? tcp_offset)%nat then Fail TcpLengthUnderflow else
  let tcp_len := (length packet - tcp_offset)%nat in
  if (U32_MAX <? Z.of_nat tcp_len)%Z then Fail (TcpTooLargeV6 tcp_len) else
  let tcp_len_u32 := Z.of_nat tcp_len in
  src ← slice packet 8 24;
  dst ← slice packet 24 40;
  tcp ← slice_from packet tcp_offset;
  let sum := add_bytes 0 src in
  let sum := add_bytes sum dst in
  let sum := wrapping_add32 sum (Z.land (Z.shiftr tcp_len_u32 16) 65535) in
  let sum := wrapping_add32 sum (Z.land tcp_len_u32 65535) in
  let sum := wrapping_add32 sum 6 in
  let sum := add_bytes sum tcp in
  Ret (finalize_checksum sum).

(** [tcp_len as u32] truncates; the partial sum is folded but not
    complemented. *)
Definition tcp_pseudo_header_partial (ip_packet : list Z) (is_ipv6 : bool) (tcp_len : nat)
  : res Z :=
  let len32 := wrap 32 (Z.of_nat tcp_len) in
  sum ← (if is_ipv6 then
           addrs ← slice ip_packet 8 40;
           let sum := add_bytes 0 addrs in
           let sum := wrapping_add32 sum (Z.land (Z.shiftr len32 16) 65535) in
           Ret (wrapping_add32 sum (Z.land len32 65535))
         else
           addrs ← slice ip_packet 12 20;
           let sum := add_bytes 0 addrs in
           Ret (wrapping_add32 sum (Z.land len32 65535)));
  Ret (fold_checksum (wrapping_add32 sum 6)).

(** ** The reference: exact sums of 16-bit words *)

Fixpoint word_sum (bytes : list Z) : Z :=
  match bytes with
  | hi :: lo :: r => (be16 hi lo + word_sum r)%Z
  | [last] => be16 last 0
  | [] => 0%Z
  end.

(** A region verifies when its one's-complement sum is "negative zero". *)
Definition csum_valid (sum : Z) : Prop := (0 < sum /\ sum mod 65535 = 0)%Z.

(** Pseudo-header sums (RFC 793 and RFC 8200) over exact arithmetic. *)
Definition pseudo_sum4 (packet : list Z) (tcp_len : nat) : Z :=
  (word_sum (take 8 (drop 12 packet)) + 6 + Z.of_nat tcp_len)%Z.

Definition pseudo_sum6 (packet : list Z) (tcp_len : nat) : Z :=
  (word_sum (take 32 (drop 8 packet)) + 6
   + Z.of_nat tcp_len / 65536 + Z.of_nat tcp_len mod 65536)%Z.

Definition pseudo_sum (is_ipv6 : bool) (packet : list Z) (tcp_len : nat) : Z :=
  if is_ipv6 then pseudo_sum6 packet tcp_len else pseudo_sum4 packet tcp_len.

(** ** The sums *)

(** Induction on a byte string two bytes at a time, as [add_bytes] walks it. *)
Lemma bytes_pair_ind (P : list Z -> Prop) :
  P [] -> (forall a, P [a]) -> (forall a b r, P r -> P (a :: b :: r)) ->
  forall l, P l.
Proof.
  intros H0 H1 H2. fix IH 1. intros [|a [|b r]]; [exact H0|exact (H1 a)|].
  apply H2, IH.
Qed.

Lemma word_sum_bound bytes :
  bytes_ok bytes -> (0 <= word_sum bytes <= 65535 * ((Z.of_nat (length bytes) + 1) / 2))%Z.
Proof.
  induction bytes as [|a|a b r IH] using bytes_pair_ind; intros Hb; [by vm_compute| |].
  - inversion_clear Hb as [|?? Ha _]. cbn [word_sum length]. change ((Z.of_nat 1 + 1) / 2)%Z with 1%Z. ulia.
  - inversion_clear Hb as [|?? Ha Hb']. inversion_clear Hb' as [|?? Hb Hr].
    specialize (IH Hr). cbn [word_sum length].
    rewrite !Nat2Z.inj_succ. replace (Z.succ (Z.succ (Z.of_nat (length r))) + 1)%Z
      with (Z.of_nat (length r) + 1 + 1 * 2)%Z by lia.
    rewrite Z.div_add by lia. ulia.
Qed.

Lemma word_sum_nonneg bytes : bytes_ok bytes -> (0 <= word_sum bytes)%Z.
Proof. intros. by apply word_sum_bound. Qed.

(** While no wrap-around can occur the machine sum is the exact one. *)
Lemma add_bytes_exact sum bytes :
  bytes_ok bytes -> (0 <= sum)%Z -> (sum + word_sum bytes < 2 ^ 32)%Z ->
  add_bytes sum bytes = (sum + word_sum bytes)%Z.
Proof.
  revert sum. induction bytes as [|a|a b r IH] using bytes_pair_ind; intros sum Hb H0 Hlt.
  - simpl. lia.
  - inversion_clear Hb as [|?? Ha _]. cbn [word_sum add_bytes] in *.
    unfold wrapping_add32. rewrite wrap_small; [done|]. ulia.
  - inversion_clear Hb as [|?? Ha Hb']. inversion_clear Hb' as [|?? Hb Hr].
    pose proof (word_sum_nonneg r Hr). cbn [add_bytes word_sum] in *.
    unfold wrapping_add32. rewrite (wrap_small 32) by ulia. rewrite IH by (done || ulia). lia.
Qed.

(** 131070 bytes is the longest string whose sum cannot wrap. *)
Lemma word_sum_small bytes :
  bytes_ok bytes -> (Z.of_nat (length bytes) <= 131000)%Z -> (word_sum bytes <= 4292608035)%Z.
Proof.
  intros Hb Hl. pose proof (word_sum_bound bytes Hb).
  assert ((Z.of_nat (length bytes) + 1) / 2 <= 65501)%Z by (apply Z.div_le_upper_bound; lia).
  lia.
Qed.

Lemma word_sum_app p q :
  Nat.even (length p) = true -> word_sum (p ++ q) = (word_sum p + word_sum q)%Z.
Proof.
  induction p as [|a|a b r IH] using bytes_pair_ind; intros He; [done|done|].
  cbn [app word_sum]. rewrite IH by done. lia.
Qed.

(** Overwriting the word at an even offset changes the sum by the difference
    of the two words. *)
Lemma word_sum_splice p a h l :
  Nat.even a = true -> (a + 2 <= length p)%nat ->
  word_sum (spliced p a [h; l])
  = (word_sum p - be16 (p !!! a) (p !!! S a) + be16 h l)%Z.
Proof.
  intros He Hl. unfold spliced. cbn [length].
  assert (Ht : length (take a p) = a) by (rewrite length_take; lia).
  rewrite word_sum_app by (by rewrite Ht). cbn [app word_sum].
  assert (Hd : drop a p = p !!! a :: p !!! S a :: drop (a + 2) p).
  { rewrite (drop_S p (p !!! a) a) by (apply list_lookup_lookup_total_lt; lia).
    rewrite (drop_S p (p !!! S a) (S a)) by (apply list_lookup_lookup_total_lt; lia).
    by replace (a + 2)%nat with (S (S a)) by lia. }
  assert (Hp : word_sum p = (word_sum (take a p) + word_sum (drop a p))%Z).
  { rewrite <-word_sum_app by (by rewrite Ht). by rewrite take_drop. }
  rewrite Hp, Hd. cbn [word_sum]. lia.
Qed.

(** ** Folding *)

Lemma fold_step sum :
  (0 <= sum)%Z ->
  (Z.land sum 65535 + Z.shiftr sum 16 = sum mod 65536 + sum / 65536)%Z.
Proof.
  intros. change 65535%Z with (Z.ones 16). rewrite Z.land_ones, Z.shiftr_div_pow2 by lia.
  done.
Qed.

(** The value [fold_checksum] computes: the representative of the sum modulo
    65535 in [1, 65535], or zero for zero. *)
Definition ones_norm (sum : Z) : Z :=
  if (sum =? 0)%Z then 0%Z else ((sum - 1) mod 65535 + 1)%Z.

Lemma ones_norm_fold sum :
  (0 <= sum)%Z -> ones_norm (sum mod 65536 + sum / 65536) = ones_norm sum.
Proof.
  intros Hs. pose proof (Z.div_mod sum 65536 ltac:(lia)) as Hd.
  pose proof (Z.mod_pos_bound sum 65536 ltac:(lia)). pose proof (Z.div_pos sum 65536).
  unfold ones_norm. destruct (Z.eqb_spec sum 0) as [->|Hnz]; [done|].
  destruct (Z.eqb_spec (sum mod 65536 + sum / 65536) 0) as [?|_]; [lia|].
  f_equal. rewrite Hd at 3.
  replace (65536 * (sum / 65536) + sum mod 65536 - 1)%Z
    with (sum mod 65536 + sum / 65536 - 1 + sum / 65536 * 65535)%Z by lia.
  by rewrite Z.mod_add by lia.
Qed.

Lemma ones_norm_small sum : (0 <= sum < 65536)%Z -> ones_norm sum = sum.
Proof.
  intros. unfold ones_norm. destruct (Z.eqb_spec sum 0); [done|].
  rewrite Z.mod_small by lia. lia.
Qed.

(** The loop runs at most twice on a [u32]: three rounds of fuel always give
    the result. *)
Lemma fold_loop_total sum :
  is_uint 32 sum -> fold_loop FOLD_FUEL sum = Some (ones_norm sum).
Proof.
  intros Hs. unfold FOLD_FUEL. widths.
  assert (Hex : forall f s, (0 <= s < 65536)%Z -> fold_loop (S f) s = Some (ones_norm s)).
  { intros f s ?. cbn [fold_loop]. rewrite Z.shiftr_div_pow2 by lia.
    rewrite Z.div_small by (change (2 ^ 16)%Z with 65536%Z; lia). simpl.
    rewrite ones_norm_small by lia. f_equal. apply wrap_small. ulia. }
  assert (Hgo : forall f s, (65536 <= s)%Z ->
    fold_loop (S f) s = fold_loop f (s mod 65536 + s / 65536)).
  { intros f s ?. cbn [fold_loop]. rewrite fold_step by lia.
    rewrite Z.shiftr_div_pow2 by lia. change (2 ^ 16)%Z with 65536%Z.
    destruct (Z.eqb_spec (s / 65536) 0) as [?|_]; [|done].
    exfalso. pose proof (Z.div_le_lower_bound s 65536 1). lia. }
  destruct (decide (sum < 65536)%Z); [apply Hex; lia|].
  rewrite Hgo by lia. rewrite <-(ones_norm_fold sum) by lia.
  set (s1 := (sum mod 65536 + sum / 65536)%Z).
  assert (Hs1 : (0 < s1 <= 131070)%Z).
  { unfold s1. pose proof (Z.mod_pos_bound sum 65536 ltac:(lia)).
    assert (sum / 65536 <= 65535)%Z by (apply Z.lt_succ_r, Z.div_lt_upper_bound; lia).
    assert (1 <= sum / 65536)%Z by (apply Z.div_le_lower_bound; lia). lia. }
  clearbody s1. destruct (decide (s1 < 65536)%Z); [apply Hex; lia|].
  rewrite Hgo by lia. rewrite <-(ones_norm_fold s1) by lia. apply Hex.
  assert (s1 / 65536 = 1)%Z as ->.
  { replace s1 with (1 * 65536 + (s1 - 65536))%Z by lia.
    rewrite Z.div_add_l, (Z.div_small (s1 - 65536)) by lia. lia. }
  replace s1 with (s1 - 65536 + 1 * 65536)%Z by lia.
  rewrite Z.mod_add, Z.mod_small by lia. lia.
Qed.

Lemma fold_checksum_spec sum : is_uint 32 sum -> fold_checksum sum = ones_norm sum.
Proof. intros Hs. unfold fold_checksum. by rewrite fold_loop_total. Qed.

Lemma ones_norm_uint sum : (0 <= sum)%Z -> is_uint 16 (ones_norm sum).
Proof.
  intros. unfold ones_norm. destruct (Z.eqb_spec sum 0); [ulia|].
  pose proof (Z.mod_pos_bound (sum - 1) 65535). ulia.
Qed.

Lemma ones_norm_mod sum : (0 <= sum)%Z -> (ones_norm sum mod 65535 = sum mod 65535)%Z.
Proof.
  intros. unfold ones_norm. destruct (Z.eqb_spec sum 0) as [->|]; [done|].
  rewrite Z.add_mod_idemp_l by lia. f_equal. lia.
Qed.

Lemma finalize_uint sum : is_uint 32 sum -> is_uint 16 (finalize_checksum sum).
Proof.
  intros Hs. unfold finalize_checksum, not16. rewrite fold_checksum_spec by done.
  pose proof (ones_norm_uint sum). ulia.
Qed.

(** Adding the complemented checksum to the sum it was computed from gives a
    multiple of 65535. *)
Lemma finalize_cancels sum :
  is_uint 32 sum -> ((sum + finalize_checksum sum) mod 65535 = 0)%Z.
Proof.
  intros Hs. unfold finalize_checksum, not16. rewrite fold_checksum_spec by done.
  assert (0 <= sum)%Z by ulia.
  rewrite Z.add_sub_assoc, Zminus_mod, ones_norm_mod, <-Zminus_mod by lia.
  replace (sum + 65535 - sum)%Z with 65535%Z by lia. done.
Qed.

(** ** Word writes *)

Lemma word_sum_put16 p a v :
  Nat.even a = true -> (a + 2 <= length p)%nat -> is_uint 16 v ->
  word_sum (spliced p a (be_bytes 2 v))
  = (word_sum p - be16 (p !!! a) (p !!! S a) + v)%Z.
Proof.
  intros. rewrite be_bytes2, word_sum_splice by done. by rewrite be16_split.
Qed.

Lemma be16_put16 p a v :
  (a + 2 <= length p)%nat -> is_uint 16 v ->
  be16 (spliced p a (be_bytes 2 v) !!! a) (spliced p a (be_bytes 2 v) !!! S a) = v.
Proof.
  intros. rewrite be_bytes2, !spliced_lookup_total by (simpl; done || lia).
  rewrite !decide_True by (simpl; lia).
  replace (a - a)%nat with 0%nat by lia. replace (S a - a)%nat with 1%nat by lia.
  cbn. apply be16_split.
Qed.

(** Filling a zeroed checksum field at an even offset of a region with the
    finalized sum of a pseudo-header and the region makes the sum a multiple
    of 65535. *)
Lemma fill_checksum_valid region a pre :
  bytes_ok region -> Nat.even a = true -> (a + 2 <= length region)%nat ->
  region !!! a = 0%Z -> region !!! S a = 0%Z ->
  is_uint 32 (pre + word_sum region) -> (0 <= pre)%Z -> (0 < pre + word_sum region)%Z ->
  csum_valid (pre + word_sum (spliced region a
                 (be_bytes 2 (finalize_checksum (pre + word_sum region))))).
Proof.
  intros Hb He Hl Ha Hb' Hu Hpre Hpos.
  pose proof (finalize_uint _ Hu) as Hf. pose proof (finalize_cancels _ Hu) as Hc.
  rewrite word_sum_put16 by done. rewrite Ha, Hb'. unfold csum_valid.
  replace (be16 0 0) with 0%Z by done.
  replace (pre + (word_sum region - 0 + finalize_checksum (pre + word_sum region)))%Z
    with (pre + word_sum region + finalize_checksum (pre + word_sum region))%Z by lia.
  split; [ulia | done].
Qed.

Definition ihl_of (packet : list Z) : nat := (Z.to_nat (Z.land (packet !!! 0%nat) 15) * 4)%nat.

(** The packet with the length and checksum fields of [update_ipv4_...]
    rewritten. *)
Definition ipv4_zeroed (packet : list Z) (packet_len : nat) : list Z :=
  spliced (spliced packet 2 (be_bytes 2 (Z.of_nat packet_len))) 10 [0%Z; 0%Z].

Definition ipv4_updated (packet : list Z) (packet_len : nat) : list Z :=
  spliced (ipv4_zeroed packet packet_len) 10
    (be_bytes 2 (finalize_checksum
       (add_bytes 0 (take (ihl_of packet) (ipv4_zeroed packet packet_len))))).

Lemma update_ipv4_cases packet packet_len :
  match update_ipv4_lengths_and_checksum packet packet_len with
  | Ret q => (20 <= length packet)%nat /\ packet !!! 9%nat = 6%Z /\
             (20 <= ihl_of packet <= length packet)%nat /\
             (Z.of_nat packet_len <= 65535)%Z /\ q = ipv4_updated packet packet_len
  | Fail _ => ~ ((20 <= length packet)%nat /\ packet !!! 9%nat = 6%Z /\
             (20 <= ihl_of packet <= length packet)%nat /\
             (Z.of_nat packet_len <= 65535)%Z)
  | Panic => False
  end.
Proof.
  unfold update_ipv4_lengths_and_checksum.
  destruct (Nat.ltb_spec (length packet) 20); [lia|]. run_slices.
  destruct (Z.eqb_spec (packet !!! 9%nat) 6); simpl; [|lia].
  fold (ihl_of packet).
  destruct (Nat.ltb_spec (ihl_of packet) 20); simpl; [lia|].
  destruct (Nat.ltb_spec (length packet) (ihl_of packet)); [lia|].
  destruct (Z.ltb_spec 65535 (Z.of_nat packet_len)); [lia|].
  unfold set_idx. run_slices.
  rewrite spliced_adjacent by slice_side.
  rewrite drop_0, Nat.sub_0_r. repeat split; lia || done.
Qed.

Lemma ihl_of_bound packet : (ihl_of packet <= 60)%nat.
Proof.
  unfold ihl_of. change 15%Z with (Z.ones 4). rewrite Z.land_ones by lia.
  pose proof (Z.mod_pos_bound (packet !!! 0%nat) (2 ^ 4) ltac:(lia)) as H.
  change (2 ^ 4)%Z with 16%Z in *. lia.
Qed.

(** A region whose first byte is not zero has a positive sum. *)
Lemma word_sum_first_pos p n :
  bytes_ok p -> (2 <= n)%nat -> (2 <= length p)%nat -> p !!! 0%nat ≠ 0%Z ->
  (0 < word_sum (take n p))%Z.
Proof.
  intros Hb Hn Hl H0. destruct p as [|a [|b r]]; simpl in Hl; try lia.
  destruct n as [|[|n]]; try lia. cbn [take word_sum]. simpl in H0.
  inversion_clear Hb as [|?? Ha Hb']. inversion_clear Hb' as [|?? Hbb Hr].
  pose proof (word_sum_nonneg _ (bytes_ok_take r n Hr)). ulia.
Qed.

Lemma ipv4_zeroed_spec packet packet_len :
  bytes_ok packet -> (20 <= length packet)%nat -> (Z.of_nat packet_len <= 65535)%Z ->
  let z := ipv4_zeroed packet packet_len in
  length z = length packet /\ bytes_ok z /\
  z !!! 10%nat = 0%Z /\ z !!! 11%nat = 0%Z /\
  be16 (z !!! 2%nat) (z !!! 3%nat) = Z.of_nat packet_len /\
  (forall i, i <> 2%nat -> i <> 3%nat -> i <> 10%nat -> i <> 11%nat -> z !! i = packet !! i).
Proof.
  intros Hb Hl Hpl z. unfold z, ipv4_zeroed.
  split; [by lengths|]. split; [|split; [|split; [|split]]].
  - repeat apply spliced_bytes_ok; eauto with ezvpn. repeat constructor; ulia.
  - by rewrite spliced_lookup_total by slice_side.
  - by rewrite spliced_lookup_total by slice_side.
  - rewrite !(spliced_lookup_total (spliced _ _ _)) by slice_side.
    cbn [decide]. apply be16_put16; [lia|ulia].
  - intros i ????. rewrite !spliced_lookup by slice_side. rewrite be_bytes_length.
    rewrite !decide_False by (cbn [length]; lia). done.
Qed.

(** What the rewritten packet looks like: a valid header sum, the length
    field, and every byte outside the two fields unchanged. *)
Lemma ipv4_updated_spec packet packet_len :
  bytes_ok packet -> (20 <= ihl_of packet <= length packet)%nat ->
  (Z.of_nat packet_len <= 65535)%Z ->
  let q := ipv4_updated packet packet_len in
  length q = length packet /\ bytes_ok q /\
  csum_valid (word_sum (take (ihl_of packet) q)) /\
  be16 (q !!! 2%nat) (q !!! 3%nat) = Z.of_nat packet_len /\
  (forall i, i <> 2%nat -> i <> 3%nat -> i <> 10%nat -> i <> 11%nat -> q !! i = packet !! i).
Proof.
  intros Hb Hi Hpl q.
  destruct (ipv4_zeroed_spec packet packet_len) as (Hz & Hzb & Hz10 & Hz11 & Hzlen & Hzl);
    [done|lia|done|].
  set (z := ipv4_zeroed packet packet_len) in *.
  assert (H0 : (0 < word_sum (take (ihl_of packet) z))%Z).
  { apply word_sum_first_pos; [done|lia|lia|].
    rewrite list_lookup_total_alt, Hzl, <-list_lookup_total_alt by lia.
    intros Hb0. unfold ihl_of in Hi. rewrite Hb0 in Hi. simpl in Hi. lia. }
  pose proof (ihl_of_bound packet).
  assert (Hsm : (word_sum (take (ihl_of packet) z) <= 4292608035)%Z).
  { apply word_sum_small; [eauto with ezvpn|]. lengths. lia. }
  assert (Hadd : add_bytes 0 (take (ihl_of packet) z) = word_sum (take (ihl_of packet) z)).
  { rewrite add_bytes_exact by (eauto with ezvpn || ulia). lia. }
  unfold q, ipv4_updated. fold z. rewrite Hadd. set (c := finalize_checksum _).
  split; [by lengths|]. split; [eauto with ezvpn|]. split; [|split].
  - rewrite take_spliced by slice_side.
    pose proof (fill_checksum_valid (take (ihl_of packet) z) 10 0) as Hv.
    rewrite !total_lookup_take in Hv by lia.
    apply Hv; eauto with ezvpn; try lengths; ulia.
  - rewrite !spliced_lookup_total by slice_side. by rewrite !decide_False by slice_side.
  - intros i ????. rewrite spliced_lookup by slice_side.
    rewrite decide_False by slice_side. by apply Hzl.
Qed.

Lemma update_ipv6_cases packet packet_len :
  match update_ipv6_payload_length packet packet_len with
  | Ret q => (40 <= length packet)%nat /\ (40 <= packet_len)%nat /\
             (Z.of_nat (packet_len - 40) <= 65535)%Z /\
             q = spliced packet 4 (be_bytes 2 (Z.of_nat (packet_len - 40)))
  | Fail _ => ~ ((40 <= length packet)%nat /\ (40 <= packet_len)%nat /\
                 (Z.of_nat (packet_len - 40) <= 65535)%Z)
  | Panic => False
  end.
Proof.
  unfold update_ipv6_payload_length.
  destruct (Nat.ltb_spec (length packet) 40); [lia|].
  destruct (Nat.ltb_spec packet_len 40); [lia|].
  destruct (Z.ltb_spec 65535 (Z.of_nat (packet_len - 40))); [lia|].
  run_slices. repeat split; done || lia.
Qed.

(** ** TCP checksums *)

(** Word additions of a bounded sum do not wrap. *)
Lemma wrapping_add32_exact a b :
  (0 <= a)%Z -> (0 <= b)%Z -> (a + b < 4294967296)%Z -> wrapping_add32 a b = (a + b)%Z.
Proof. intros. apply wrap_small. ulia. Qed.

(** Rewrite the machine additions into exact ones, innermost first. *)
Ltac exact_adds :=
  repeat match goal with
  | |- context [wrapping_add32 ?a ?b] =>
      lazymatch a with
      | context [wrapping_add32] => fail
      | _ => rewrite (wrapping_add32_exact a b) by lia
      end
  end.

Lemma low16 z : (0 <= z)%Z -> Z.land z 65535 = (z mod 65536)%Z.
Proof. intros. change 65535%Z with (Z.ones 16). by rewrite Z.land_ones. Qed.

Lemma high16 z :
  is_uint 32 z -> Z.land (Z.shiftr z 16) 65535 = (z / 65536)%Z.
Proof.
  intros. widths. rewrite Z.shiftr_div_pow2 by lia. change (2 ^ 16)%Z with 65536%Z.
  rewrite low16 by (apply Z.div_pos; lia). apply Z.mod_small.
  split; [apply Z.div_pos; lia | apply Z.div_lt_upper_bound; lia].
Qed.

Lemma word_sum_limit bytes n :
  bytes_ok bytes -> (length bytes <= n)%nat ->
  (0 <= word_sum bytes <= 65535 * ((Z.of_nat n + 1) / 2))%Z.
Proof.
  intros Hb Hn. pose proof (word_sum_bound bytes Hb).
  assert ((Z.of_nat (length bytes) + 1) / 2 <= (Z.of_nat n + 1) / 2)%Z
    by (apply Z.div_le_mono; lia). lia.
Qed.

(** Bounds of the pseudo-header sums: small, and positive because of the
    protocol number. *)
Lemma pseudo_sum_bound v6 packet n :
  bytes_ok packet -> (Z.of_nat n <= 131000)%Z ->
  (6 <= pseudo_sum v6 packet n <= 2097126)%Z.
Proof.
  intros Hb Hn. unfold pseudo_sum, pseudo_sum6, pseudo_sum4. destruct v6.
  - pose proof (word_sum_limit (take 32 (drop 8 packet)) 32 ltac:(eauto with ezvpn)
      ltac:(lengths; lia)) as Hw. change ((Z.of_nat 32 + 1) / 2)%Z with 16%Z in Hw.
    pose proof (Z.mod_pos_bound (Z.of_nat n) 65536 ltac:(lia)).
    assert (0 <= Z.of_nat n / 65536)%Z by (apply Z.div_pos; lia).
    assert (Z.of_nat n / 65536 <= 1)%Z by (apply Z.lt_succ_r, Z.div_lt_upper_bound; lia).
    lia.
  - pose proof (word_sum_limit (take 8 (drop 12 packet)) 8 ltac:(eauto with ezvpn)
      ltac:(lengths; lia)) as Hw. change ((Z.of_nat 8 + 1) / 2)%Z with 4%Z in Hw. lia.
Qed.

(** A segment the checksum functions accept: the TCP header starts inside the
    packet, and the TCP part fits the length field. *)
Definition tcp_region_ok (v6 : bool) (packet : list Z) (tcp_offset : nat) : Prop :=
  ((if v6 then 40 else 20) <= length packet)%nat /\ (tcp_offset < length packet)%nat /\
  (Z.of_nat (length packet - tcp_offset) <= (if v6 then 131000 else 65535))%Z.

Definition tcp_checksum (v6 : bool) : list Z -> nat -> res Z :=
  if v6 then tcp_checksum_ipv6 else tcp_checksum_ipv4.

Lemma take_split (p : list Z) a b c :
  (a + b + c <= length p)%nat ->
  take (b + c) (drop a p) = take b (drop a p) ++ take c (drop (a + b) p).
Proof.
  intros. rewrite <-drop_drop. rewrite <-(take_drop b (drop a p)) at 1.
  rewrite take_app_ge by (lengths; lia). lengths. f_equal. f_equal. lia.
Qed.

Lemma tcp_checksum_ipv4_exact packet tcp_offset :
  bytes_ok packet -> tcp_region_ok false packet tcp_offset ->
  tcp_checksum_ipv4 packet tcp_offset =
    Ret (finalize_checksum (pseudo_sum4 packet (length packet - tcp_offset)
                            + word_sum (drop tcp_offset packet))).
Proof.
  intros Hb (H1 & H2 & H3). unfold tcp_checksum_ipv4.
  rewrite (proj2 (Nat.ltb_ge _ 20)), (proj2 (Nat.leb_gt _ _)) by lia. simpl.
  rewrite (proj2 (Nat.ltb_ge _ tcp_offset)), (proj2 (Z.ltb_ge _ _)) by lia.
  run_slices. do 2 f_equal. change (20 - 12)%nat with 8%nat.
  pose proof (word_sum_limit (take 8 (drop 12 packet)) 8 ltac:(eauto with ezvpn)
      ltac:(lengths; lia)) as Hw. change ((Z.of_nat 8 + 1) / 2)%Z with 4%Z in Hw.
  pose proof (word_sum_small (drop tcp_offset packet) ltac:(eauto with ezvpn)
      ltac:(lengths; lia)) as Ht.
  assert (word_sum (drop tcp_offset packet) <= 2147450880)%Z.
  { pose proof (word_sum_bound (drop tcp_offset packet) ltac:(eauto with ezvpn)) as Hx.
    rewrite length_drop in Hx.
    assert ((Z.of_nat (length packet - tcp_offset) + 1) / 2 <= 32768)%Z
      by (apply Z.div_le_upper_bound; lia). lia. }
  pose proof (word_sum_nonneg (drop tcp_offset packet) ltac:(eauto with ezvpn)).
  rewrite (add_bytes_exact 0) by (eauto with ezvpn || ulia).
  exact_adds.
  rewrite add_bytes_exact by (eauto with ezvpn || ulia). unfold pseudo_sum4. lia.
Qed.

Lemma tcp_checksum_ipv6_exact packet tcp_offset :
  bytes_ok packet -> tcp_region_ok true packet tcp_offset ->
  tcp_checksum_ipv6 packet tcp_offset =
    Ret (finalize_checksum (pseudo_sum6 packet (length packet - tcp_offset)
                            + word_sum (drop tcp_offset packet))).
Proof.
  intros Hb (H1 & H2 & H3). unfold tcp_checksum_ipv6.
  rewrite (proj2 (Nat.ltb_ge _ 40)), (proj2 (Nat.leb_gt _ _)) by lia. simpl.
  rewrite (proj2 (Nat.ltb_ge _ tcp_offset)), (proj2 (Z.ltb_ge U32_MAX _)) by ulia.
  run_slices. do 2 f_equal. change (24 - 8)%nat with 16%nat. change (40 - 24)%nat with 16%nat.
  set (n := (length packet - tcp_offset)%nat) in *.
  pose proof (word_sum_limit (take 32 (drop 8 packet)) 32 ltac:(eauto with ezvpn)
      ltac:(lengths; lia)) as Hw. change ((Z.of_nat 32 + 1) / 2)%Z with 16%Z in Hw.
  pose proof (pseudo_sum_bound true packet n Hb ltac:(lia)) as Hps.
  unfold pseudo_sum, pseudo_sum6 in Hps.
  pose proof (take_split packet 8 16 16 ltac:(lia)) as Hts.
  change (16 + 16)%nat with 32%nat in Hts. change (8 + 16)%nat with 24%nat in Hts.
  assert (Hsum : word_sum (take 32 (drop 8 packet))
    = (word_sum (take 16 (drop 8 packet)) + word_sum (take 16 (drop 24 packet)))%Z).
  { rewrite Hts, word_sum_app; [done|]. lengths.
    by replace (16 `min` (length packet - 8))%nat with 16%nat by lia. }
  pose proof (word_sum_small (drop tcp_offset packet) ltac:(eauto with ezvpn)
      ltac:(lengths; lia)) as Ht.
  pose proof (word_sum_nonneg (drop tcp_offset packet) ltac:(eauto with ezvpn)).
  pose proof (word_sum_nonneg (take 16 (drop 8 packet)) ltac:(eauto with ezvpn)).
  pose proof (word_sum_nonneg (take 16 (drop 24 packet)) ltac:(eauto with ezvpn)).
  pose proof (Z.mod_pos_bound (Z.of_nat n) 65536 ltac:(lia)).
  assert (0 <= Z.of_nat n / 65536)%Z by (apply Z.div_pos; lia).
  rewrite high16, low16 by ulia.
  rewrite (add_bytes_exact 0) by (eauto with ezvpn || ulia).
  rewrite (add_bytes_exact (0 + _)) by (eauto with ezvpn || ulia).
  exact_adds.
  rewrite add_bytes_exact by (eauto with ezvpn || ulia). unfold pseudo_sum6. lia.
Qed.

Lemma tcp_checksum_exact v6 packet tcp_offset :
  bytes_ok packet -> tcp_region_ok v6 packet tcp_offset ->
  tcp_checksum v6 packet tcp_offset =
    Ret (finalize_checksum (pseudo_sum v6 packet (length packet - tcp_offset)
                            + word_sum (drop tcp_offset packet))).
Proof.
  destruct v6; [apply tcp_checksum_ipv6_exact | apply tcp_checksum_ipv4_exact].
Qed.

Lemma pseudo_partial_exact v6 packet tcp_len :
  bytes_ok packet -> (40 <= length packet)%nat -> (Z.of_nat tcp_len <= 65535)%Z ->
  tcp_pseudo_header_partial packet v6 tcp_len = Ret (ones_norm (pseudo_sum v6 packet tcp_len)).
Proof.
  intros Hb Hl Hn. unfold tcp_pseudo_header_partial.
  rewrite (wrap_small 32) by ulia.
  pose proof (pseudo_sum_bound v6 packet tcp_len Hb ltac:(lia)) as Hps.
  rewrite <-fold_checksum_spec by ulia.
  destruct v6; run_slices; change (40 - 8)%nat with 32%nat; change (20 - 12)%nat with 8%nat;
    unfold pseudo_sum, pseudo_sum6, pseudo_sum4 in *.
  - rewrite high16, low16 by ulia.
    pose proof (Z.mod_pos_bound (Z.of_nat tcp_len) 65536 ltac:(lia)).
    assert (0 <= Z.of_nat tcp_len / 65536)%Z by (apply Z.div_pos; lia).
    pose proof (word_sum_nonneg (take 32 (drop 8 packet)) ltac:(eauto with ezvpn)).
    rewrite (add_bytes_exact 0) by (eauto with ezvpn || ulia). exact_adds. do 2 f_equal. lia.
  - rewrite low16, Z.mod_small by lia.
    pose proof (word_sum_nonneg (take 8 (drop 12 packet)) ltac:(eauto with ezvpn)).
    rewrite (add_bytes_exact 0) by (eauto with ezvpn || ulia). exact_adds. do 2 f_equal. lia.
Qed.

(** The pseudo-header sum reads only the addresses. *)
Lemma pseudo_sum_spliced (v6 : bool) packet a src n :
  (a + length src <= length packet)%nat -> ((if v6 then 40 else 20) <= a)%nat ->
  pseudo_sum v6 (spliced packet a src) n = pseudo_sum v6 packet n.
Proof.
  intros Hl Ha. unfold pseudo_sum, pseudo_sum6, pseudo_sum4. destruct v6;
    rewrite !take_drop_commute, take_spliced_below by lia; done.
Qed.

(** The checksum written into the zeroed field of a TCP segment verifies at a
    receiver, pseudo-header included. *)
Lemma tcp_checksum_verifies (v6 : bool) packet tcp_offset c :
  bytes_ok packet -> tcp_region_ok v6 packet tcp_offset ->
  (tcp_offset + 20 <= length packet)%nat -> ((if v6 then 40 else 20) <= tcp_offset)%nat ->
  packet !!! (tcp_offset + 16)%nat = 0%Z -> packet !!! (tcp_offset + 17)%nat = 0%Z ->
  tcp_checksum v6 packet tcp_offset = Ret c ->
  let q := spliced packet (tcp_offset + 16) (be_bytes 2 c) in
  csum_valid (pseudo_sum v6 q (length q - tcp_offset) + word_sum (drop tcp_offset q)).
Proof.
  intros Hb Hr Hl Hoff H16 H17 Hc q.
  rewrite tcp_checksum_exact in Hc by done. simplify_eq.
  assert (Hq : length q = length packet) by (unfold q; by lengths).
  rewrite Hq. unfold q at 1. rewrite pseudo_sum_spliced by (lengths; destruct v6; lia).
  unfold q. rewrite drop_spliced by slice_side.
  replace (tcp_offset + 16 - tcp_offset)%nat with 16%nat by lia.
  destruct Hr as (Hr1 & Hr2 & Hr3).
  pose proof (pseudo_sum_bound v6 packet (length packet - tcp_offset) Hb
    ltac:(destruct v6; lia)) as Hps.
  pose proof (word_sum_small (drop tcp_offset packet) ltac:(eauto with ezvpn)
    ltac:(lengths; destruct v6; lia)).
  pose proof (word_sum_nonneg (drop tcp_offset packet) ltac:(eauto with ezvpn)).
  apply fill_checksum_valid; try (eauto with ezvpn; done); try lengths; try ulia.
  - by rewrite total_lookup_drop.
  - by rewrite total_lookup_drop.
Qed.

(** Completing a partial checksum: the field of the region holds a value
    congruent to the pseudo-header sum, as [NEEDS_CSUM] promises; overwriting
    it with the finalized sum of the region makes the whole verify. *)
Lemma complete_partial_valid region a pre :
  bytes_ok region -> Nat.even a = true -> (a + 2 <= length region)%nat ->
  (Z.of_nat (length region) <= 131000)%Z -> (0 < pre)%Z ->
  (be16 (region !!! a) (region !!! S a) mod 65535 = pre mod 65535)%Z ->
  csum_valid (pre + word_sum (spliced region a
                (be_bytes 2 (finalize_checksum (add_bytes 0 region))))).
Proof.
  intros Hb He Hl Hlen Hpre Hp.
  pose proof (word_sum_small region Hb Hlen). pose proof (word_sum_nonneg region Hb).
  rewrite add_bytes_exact, Z.add_0_l by (done || ulia).
  assert (Hu : is_uint 32 (word_sum region)) by ulia.
  pose proof (finalize_uint _ Hu) as Hf. pose proof (finalize_cancels _ Hu) as Hc.
  set (c := finalize_checksum _) in *.
  assert (Hs : bytes_ok (spliced region a (be_bytes 2 c))) by eauto with ezvpn.
  pose proof (word_sum_nonneg _ Hs) as Hn. split; [lia|].
  rewrite word_sum_put16 by done. set (P := be16 (region !!! a) (region !!! S a)) in *.
  replace (pre + (word_sum region - P + c))%Z with (word_sum region + c + (pre - P))%Z by lia.
  rewrite Z.add_mod, Hc, Zminus_mod, Hp, Z.sub_diag by lia. done.
Qed.

(** ** The length update of either IP version *)

Definition update_ip (v6 : bool) : list Z -> nat -> res (list Z) :=
  if v6 then update_ipv6_payload_length else update_ipv4_lengths_and_checksum.

(** The packets whose length fields can be rewritten for their own length. *)
Definition updatable (v6 : bool) (p : list Z) : Prop :=
  if v6 then (40 <= length p)%nat /\ (Z.of_nat (length p - 40) <= 65535)%Z
  else (20 <= length p)%nat /\ p !!! 9%nat = 6%Z /\ (20 <= ihl_of p <= length p)%nat /\
       (Z.of_nat (length p) <= 65535)%Z.

(** The positions the update may change. *)
Definition len_field (v6 : bool) (i : nat) : Prop :=
  if v6 then i = 4%nat \/ i = 5%nat
  else i = 2%nat \/ i = 3%nat \/ i = 10%nat \/ i = 11%nat.

(** The length fields agree with the packet, and the IPv4 header verifies. *)
Definition ip_lengths_ok (v6 : bool) (q : list Z) : Prop :=
  if v6 then be16 (q !!! 4%nat) (q !!! 5%nat) = Z.of_nat (length q - 40)
  else be16 (q !!! 2%nat) (q !!! 3%nat) = Z.of_nat (length q) /\
       csum_valid (word_sum (take (ihl_of q) q)).

Lemma update_ip_spec v6 p :
  bytes_ok p -> updatable v6 p ->
  exists q, update_ip v6 p (length p) = Ret q /\ length q = length p /\ bytes_ok q /\
    ip_lengths_ok v6 q /\ forall i, ~ len_field v6 i -> q !! i = p !! i.
Proof.
  intros Hb Hu. unfold update_ip, ip_lengths_ok, len_field. destruct v6; simpl in Hu.
  - pose proof (update_ipv6_cases p (length p)) as Hc.
    destruct (update_ipv6_payload_length p (length p)); [|lia|done].
    destruct Hc as (? & ? & ? & ->). eexists. split; [done|].
    split_and!; [by lengths|eauto with ezvpn| |].
    + rewrite spliced_length by slice_side. apply be16_put16; [lia|ulia].
    + intros i Hi. rewrite spliced_lookup by slice_side. by rewrite decide_False by slice_side.
  - pose proof (update_ipv4_cases p (length p)) as Hc.
    destruct (update_ipv4_lengths_and_checksum p (length p)); [|tauto|done].
    destruct Hc as (? & ? & ? & ? & ->). eexists. split; [done|].
    destruct (ipv4_updated_spec p (length p)) as (Hl & Hbo & Hcs & Hlen & Hun); try done.
    assert (Hi0 : ihl_of (ipv4_updated p (length p)) = ihl_of p).
    { unfold ihl_of. by rewrite !list_lookup_total_alt, Hun by lia. }
    rewrite Hl, Hi0. split_and!; try done. intros i Hi. apply Hun; lia.
Qed.

(** ** Properties *)

(** The carry-folding loop of [fold_checksum] ends within three rounds on
    every [u32], and its result is the one's-complement sum: the
    representative of the input modulo 65535 (zero only for zero), so that the
    complement [finalize_checksum] returns cancels the sum modulo 65535. *)
Theorem fold_checksum_ones_complement sum :
  is_uint 32 sum ->
  fold_loop FOLD_FUEL sum = Some (ones_norm sum) /\
  fold_checksum sum = ones_norm sum /\
  is_uint 16 (finalize_checksum sum) /\
  ((sum + finalize_checksum sum) mod 65535 = 0)%Z.
Proof.
  intros. repeat split; try apply finalize_uint; try done.
  - by apply fold_loop_total.
  - by apply fold_checksum_spec.
  - by apply finalize_cancels.
Qed.

Lemma fold_checksum_ones_complement_witness :
  fold_checksum 4294967295 = 65535%Z /\
  fold_loop FOLD_FUEL 4294967295 = Some (ones_norm 4294967295).
Proof.
  destruct (fold_checksum_ones_complement 4294967295) as (H & _); [done|].
  split; [reflexivity | exact H].
Defined.

(** [update_ipv4_lengths_and_checksum] never panics; when it succeeds the
    header checksum of the result verifies (RFC 791), the total-length field
    holds [packet_len], and no byte outside the two fields changed; it fails
    exactly when the packet is not an IPv4/TCP packet with a well-formed IHL
    or the length does not fit sixteen bits. *)
Theorem update_ipv4_header_valid packet packet_len :
  bytes_ok packet ->
  match update_ipv4_lengths_and_checksum packet packet_len with
  | Ret q =>
      length q = length packet /\ bytes_ok q /\
      csum_valid (word_sum (take (ihl_of packet) q)) /\
      be16 (q !!! 2%nat) (q !!! 3%nat) = Z.of_nat packet_len /\
      (forall i, i <> 2%nat -> i <> 3%nat -> i <> 10%nat -> i <> 11%nat ->
         q !! i = packet !! i)
  | Fail _ =>
      ~ ((20 <= length packet)%nat /\ packet !!! 9%nat = 6%Z /\
         (20 <= ihl_of packet <= length packet)%nat /\ (Z.of_nat packet_len <= 65535)%Z)
  | Panic => False
  end.
Proof.
  intros Hb. pose proof (update_ipv4_cases packet packet_len) as H.
  destruct (update_ipv4_lengths_and_checksum packet packet_len); try done.
  destruct H as (? & ? & ? & ? & ->). by apply ipv4_updated_spec.
Qed.

Definition sample_ipv4_header : list Z :=
  [69; 0; 0; 0; 18; 52; 64; 0; 64; 6; 255; 255; 10; 0; 0; 1; 10; 0; 0; 2]%Z.

Lemma update_ipv4_header_valid_witness :
  exists q, update_ipv4_lengths_and_checksum sample_ipv4_header 40 = Ret q /\
            csum_valid (word_sum (take 20 q)).
Proof.
  pose proof (update_ipv4_header_valid sample_ipv4_header 40) as H.
  destruct (update_ipv4_lengths_and_checksum sample_ipv4_header 40) as [q|e|] eqn:Hu.
  - exists q. split; [reflexivity|]. apply H. repeat constructor; done.
  - vm_compute in Hu. discriminate.
  - vm_compute in Hu. discriminate.
Defined.
