(* ===== verification/Offload.v ===== *)
(** * TUN offload metadata ([src/tunnel/offload.rs], first part)

    The 10-byte [virtio_net_hdr] and its codec, and the splitting and
    composition of TUN frames when [IFF_VNET_HDR] is enabled. *)

From S2P Require Import Prelude Checksum.

Definition VIRTIO_NET_HDR_LEN : nat := 10.
Definition VIRTIO_NET_HDR_F_NEEDS_CSUM : Z := 1.
Definition VIRTIO_NET_HDR_F_DATA_VALID : Z := 2.
Definition VIRTIO_NET_HDR_GSO_NONE : Z := 0.
Definition VIRTIO_NET_HDR_GSO_TCPV4 : Z := 1.
Definition VIRTIO_NET_HDR_GSO_TCPV6 : Z := 4.
Definition VIRTIO_NET_HDR_GSO_ECN : Z := 128.

Record VirtioNetHdr : Type := mkVirtioNetHdr {
  flags : Z;
  gso_type : Z;
  hdr_len : Z;
  gso_size : Z;
  csum_start : Z;
  csum_offset : Z;
  num_buffers : Z;
}.

#[export] Instance VirtioNetHdr_eq_dec : EqDecision VirtioNetHdr.
Proof. solve_decision. Defined.

(** [VirtioNetHdr::default()]. *)
Definition VirtioNetHdr_default : VirtioNetHdr := mkVirtioNetHdr 0 0 0 0 0 0 0.

(** [u16::to_le_bytes]. *)
Definition le_bytes16 (v : Z) : list Z := [(v mod 256)%Z; (v / 256)%Z].

(** [From<[u8; 10]>]. *)
Definition from_array (v : list Z) : res VirtioNetHdr :=
  v0 ← idx v 0; v1 ← idx v 1; v2 ← idx v 2; v3 ← idx v 3; v4 ← idx v 4;
  v5 ← idx v 5; v6 ← idx v 6; v7 ← idx v 7; v8 ← idx v 8; v9 ← idx v 9;
  Ret (mkVirtioNetHdr v0 v1 (le16 v2 v3) (le16 v4 v5) (le16 v6 v7) (le16 v8 v9) 0).

Definition from_bytes (bytes : list Z) : res VirtioNetHdr :=
  if (length bytes =? VIRTIO_NET_HDR_LEN)%nat
  then from_array bytes
  else Fail (VirtioHdrBadLength (length bytes)).

Definition to_bytes (self : VirtioNetHdr) : list Z :=
  [flags self; gso_type self]
    ++ le_bytes16 (hdr_len self) ++ le_bytes16 (gso_size self)
    ++ le_bytes16 (csum_start self) ++ le_bytes16 (csum_offset self).

(** [gso_type & !ECN] on a [u8]. *)
Definition normalized_gso_type (self : VirtioNetHdr) : Z :=
  Z.land (gso_type self) (U8_MAX - VIRTIO_NET_HDR_GSO_ECN).

Definition is_tcp_gso (self : VirtioNetHdr) : bool :=
  let t := Z.land (gso_type self) (U8_MAX - VIRTIO_NET_HDR_GSO_ECN) in
  ((t =? VIRTIO_NET_HDR_GSO_TCPV4)%Z || (t =? VIRTIO_NET_HDR_GSO_TCPV6)%Z)
    && negb (gso_size self =? 0)%Z.

Definition needs_checksum (self : VirtioNetHdr) : bool :=
  negb (Z.land (flags self) VIRTIO_NET_HDR_F_NEEDS_CSUM =? 0)%Z.

Definition split_tun_frame (frame : list Z) (vnet_hdr_enabled : bool)
  : res (option VirtioNetHdr * list Z) :=
  if negb vnet_hdr_enabled then
    match frame with
    | [] => Fail ZeroLengthFrame
    | _ => Ret (None, frame)
    end
  else if (length frame <? VIRTIO_NET_HDR_LEN)%nat
  then Fail (FrameShorterThanHeader (length frame)) else
  hdr ← slice frame 0 VIRTIO_NET_HDR_LEN;
  offload ← from_bytes hdr;
  ip_packet ← slice_from frame VIRTIO_NET_HDR_LEN;
  match ip_packet with
  | [] => Fail EmptyIpPayload
  | _ =>
      if (gso_type offload =? VIRTIO_NET_HDR_GSO_NONE)%Z then
        let has_checksum_metadata :=
          negb (flags offload =? 0)%Z || negb (csum_start offload =? 0)%Z
            || negb (csum_offset offload =? 0)%Z in
        if has_checksum_metadata then Ret (Some offload, ip_packet)
        else Ret (None, ip_packet)
      else if is_tcp_gso offload then Ret (Some offload, ip_packet)
      else Fail (UnsupportedGsoFromTun (gso_type offload))
  end.

(** [out] is cleared before it is filled, and left alone on error: the new
    contents are returned. *)
Definition compose_tun_frame (vnet_hdr_enabled : bool) (offload : option VirtioNetHdr)
    (ip_packet : list Z) : res (list Z) :=
  match ip_packet with
  | [] => Fail ComposeEmptyPayload
  | _ =>
      if negb vnet_hdr_enabled && (match offload with Some _ => true | None => false end)
      then Fail ComposeUnexpectedOffload else
      let header := if vnet_hdr_enabled
                    then to_bytes (default VirtioNetHdr_default offload) else [] in
      Ret (header ++ ip_packet)
  end.

(** ** Well-formed headers *)

Record hdr_wf (h : VirtioNetHdr) : Prop := {
  wf_flags : is_byte (flags h);
  wf_gso_type : is_byte (gso_type h);
  wf_hdr_len : is_uint 16 (hdr_len h);
  wf_gso_size : is_uint 16 (gso_size h);
  wf_csum_start : is_uint 16 (csum_start h);
  wf_csum_offset : is_uint 16 (csum_offset h);
}.

(** The headers a TUN frame can carry: what [split_tun_frame] accepts and
    keeps. *)
Definition tun_carried (h : VirtioNetHdr) : bool :=
  if (gso_type h =? VIRTIO_NET_HDR_GSO_NONE)%Z
  then negb (flags h =? 0)%Z || negb (csum_start h =? 0)%Z || negb (csum_offset h =? 0)%Z
  else is_tcp_gso h.

Lemma le16_bytes v : is_uint 16 v -> le16 (v mod 256) (v / 256) = v.
Proof. intros. unfold le16. apply be16_split. Qed.

Lemma le_bytes16_ok v : is_uint 16 v -> bytes_ok (le_bytes16 v).
Proof.
  intros Hv. unfold le_bytes16. pose proof (Z.mod_pos_bound v 256 ltac:(lia)).
  repeat constructor; widths; Z.to_euclidean_division_equations; lia.
Qed.

Lemma to_bytes_length h : length (to_bytes h) = VIRTIO_NET_HDR_LEN.
Proof. done. Qed.

Lemma to_bytes_ok h : hdr_wf h -> bytes_ok (to_bytes h).
Proof.
  intros []. unfold to_bytes. repeat (apply Forall_app; split);
    eauto using le_bytes16_ok.
Qed.

Lemma from_bytes_to_bytes h :
  hdr_wf h -> num_buffers h = 0%Z -> from_bytes (to_bytes h) = Ret h.
Proof.
  intros [] Hn. destruct h. simpl in *. unfold from_bytes, to_bytes. cbn -[le16 Z.div Z.modulo].
  rewrite !le16_bytes by done. by subst.
Qed.

Lemma from_bytes_ret bytes h :
  bytes_ok bytes -> from_bytes bytes = Ret h ->
  length bytes = VIRTIO_NET_HDR_LEN /\ hdr_wf h /\ num_buffers h = 0%Z /\ to_bytes h = bytes.
Proof.
  intros Hb. unfold from_bytes, VIRTIO_NET_HDR_LEN.
  destruct (Nat.eqb_spec (length bytes) 10) as [Hl|]; [|done].
  do 10 (destruct bytes as [|? bytes]; [simpl in Hl; lia|]).
  destruct bytes; [|simpl in Hl; lia]. unfold from_array.
  cbn -[to_bytes le16]. intros; simplify_eq.
  rewrite !Forall_cons in Hb. destruct Hb as (?&?&?&?&?&?&?&?&?&?&_).
  split; [done|].
  split; [constructor; cbn; ulia|]. split; [done|].
  assert (Hle : forall lo hi, is_byte lo -> is_byte hi -> le_bytes16 (le16 lo hi) = [lo; hi]).
  { intros lo hi ??. unfold le_bytes16. widths.
    rewrite Z.mul_comm, Z.add_comm, Z.mod_add, Z.mod_small, Z.div_add, Z.div_small by lia. done. }
  unfold to_bytes. cbn [flags gso_type hdr_len gso_size csum_start csum_offset].
  by rewrite !Hle by done.
Qed.

(** Splitting a frame that starts with an encoded header. *)
Lemma split_encoded h p :
  hdr_wf h -> num_buffers h = 0%Z -> p <> [] ->
  split_tun_frame (to_bytes h ++ p) true =
    if tun_carried h then Ret (Some h, p)
    else if (gso_type h =? VIRTIO_NET_HDR_GSO_NONE)%Z then Ret (None, p)
    else Fail (UnsupportedGsoFromTun (gso_type h)).
Proof.
  intros Hwf Hn Hp. unfold split_tun_frame, tun_carried. cbn [negb].
  rewrite (proj2 (Nat.ltb_ge _ _)) by (rewrite length_app, to_bytes_length; lia).
  rewrite slice_ok by (rewrite ?length_app, ?to_bytes_length; lia). cbn [mbind outcome_bind].
  rewrite slice_from_ok by (rewrite ?length_app, ?to_bytes_length; lia). cbn [mbind outcome_bind].
  change (take (VIRTIO_NET_HDR_LEN - 0) (drop 0 (to_bytes h ++ p))) with (to_bytes h).
  change (drop VIRTIO_NET_HDR_LEN (to_bytes h ++ p)) with p.
  rewrite from_bytes_to_bytes by done. cbn [mbind outcome_bind]. destruct p; [done|].
  by destruct (gso_type h =? _)%Z.
Qed.

(** ** Properties *)

(** [VirtioNetHdr::to_bytes] and [from_bytes] are inverse: every
    10-byte string decodes to a well-formed header that encodes to the same
    bytes, every well-formed header survives the round trip, and a string of
    any other length is refused with its length. *)
Theorem virtio_header_roundtrip :
  (forall h, hdr_wf h -> num_buffers h = 0%Z -> from_bytes (to_bytes h) = Ret h) /\
  (forall bytes, bytes_ok bytes -> length bytes = VIRTIO_NET_HDR_LEN ->
     exists h, from_bytes bytes = Ret h /\ hdr_wf h /\ to_bytes h = bytes) /\
  (forall bytes, length bytes <> VIRTIO_NET_HDR_LEN ->
     from_bytes bytes = Fail (VirtioHdrBadLength (length bytes))).
Proof.
  split; [exact from_bytes_to_bytes|]. split.
  - intros bytes Hb Hl.
    assert (exists h, from_bytes bytes = Ret h) as [h Hh].
    { unfold from_bytes, from_array. rewrite (proj2 (Nat.eqb_eq _ _)) by done.
      unfold VIRTIO_NET_HDR_LEN in Hl. run_slices. eauto. }
    exists h. destruct (from_bytes_ret bytes h Hb Hh) as (_ & ? & _ & ?). done.
  - intros bytes Hl. unfold from_bytes. by rewrite (proj2 (Nat.eqb_neq _ _)).
Qed.

(** A TUN frame composed by [compose_tun_frame] splits back into the same
    metadata and packet: with [IFF_VNET_HDR] for every header the reader
    carries (a plain packet coming back without metadata), without it for
    plain packets. *)
Theorem tun_frame_roundtrip vnet offload ip_packet :
  ip_packet <> [] ->
  (match offload with
   | Some h => vnet = true /\ hdr_wf h /\ num_buffers h = 0%Z /\ tun_carried h = true
   | None => True
   end) ->
  exists frame, compose_tun_frame vnet offload ip_packet = Ret frame /\
                split_tun_frame frame vnet = Ret (offload, ip_packet).
Proof.
  intros Hne Ho. destruct ip_packet as [|b r]; [done|]. unfold compose_tun_frame.
  destruct offload as [h|].
  - destruct Ho as (-> & Hwf & Hn & Hc). cbn [negb andb]. eexists. split; [done|].
    cbn [default from_option id]. by rewrite split_encoded, Hc.
  - destruct vnet; cbn [negb andb]; eexists; split; try done.
Qed.

Definition sample_gso_hdr : VirtioNetHdr := mkVirtioNetHdr 1 1 40 1460 20 16 0.

Lemma tun_frame_roundtrip_witness :
  exists frame, compose_tun_frame true (Some sample_gso_hdr) [69; 0]%Z = Ret frame /\
                split_tun_frame frame true = Ret (Some sample_gso_hdr, [69; 0]%Z).
Proof.
  apply tun_frame_roundtrip; [done|]. repeat split; done.
Defined.
