(* ===== verification/Coalesce.v ===== *)
(** * Write-side coalescing ([src/tunnel/offload.rs], second part)

    [parse_coalescible_tcp], [can_chain] and [plan_tun_write_groups] partition
    a batch of TUN writes into runs; [assemble_tcp_gso_superframe] merges a run
    into one GSO super-frame. *)

From S2P Require Import Prelude Checksum Offload.

Definition TCP_FLAGS_NO_COALESCE : Z := Z.lor 1 (Z.lor 2 (Z.lor 4 32)).

Record TcpSegmentMeta : Type := mkTcpSegmentMeta {
  is_ipv6 : bool;
  ip_header_len : nat;
  tcp_header_len : nat;
  seq : Z;
  payload_len : nat;
}.

Definition header_len (self : TcpSegmentMeta) : nat :=
  (ip_header_len self + tcp_header_len self)%nat.

(** The IPv4 arm of the [match version] of [parse_coalescible_tcp]. *)
Definition parse_ipv4_header (packet : list Z) : res (option (bool * nat)) :=
  if (length packet <? 20)%nat then Ret None else
  b0 ← idx packet 0; b9 ← idx packet 9;
  if negb (Z.land b0 15 =? 5)%Z || negb (b9 =? 6)%Z then Ret None else
  b6 ← idx packet 6; b7 ← idx packet 7;
  let flags_frag := be16 b6 b7 in
  if negb (Z.land flags_frag 16383 =? 0)%Z then Ret None else
  b1 ← idx packet 1;
  if negb (Z.land b1 3 =? 0)%Z then Ret None else
  b2 ← idx packet 2; b3 ← idx packet 3;
  if negb (be16 b2 b3 =? Z.of_nat (length packet))%Z then Ret None else
  Ret (Some (false, 20%nat)).

(** The IPv6 arm; [packet[0] << 4] drops the high bits of the [u8]. *)
Definition parse_ipv6_header (packet : list Z) : res (option (bool * nat)) :=
  if (length packet <? 40)%nat then Ret None else
  b6 ← idx packet 6;
  if negb (b6 =? 6)%Z then Ret None else
  b0 ← idx packet 0; b1 ← idx packet 1;
  let traffic_class := Z.lor (wrap 8 (Z.shiftl b0 4)) (Z.shiftr b1 4) in
  if negb (Z.land traffic_class 3 =? 0)%Z then Ret None else
  b4 ← idx packet 4; b5 ← idx packet 5;
  if negb (be16 b4 b5 =? Z.of_nat (length packet - 40))%Z then Ret None else
  Ret (Some (true, 40%nat)).

Definition parse_coalescible_tcp (packet : list Z) : res (option TcpSegmentMeta) :=
  match packet with
  | [] => Ret None
  | first :: _ =>
      let version := Z.shiftr first 4 in
      ip ← (if (version =? 4)%Z then parse_ipv4_header packet
            else if (version =? 6)%Z then parse_ipv6_header packet
            else Ret None);
      match ip with
      | None => Ret None
      | Some (is_ipv6, ip_header_len) =>
          let tcp_offset := ip_header_len in
          if (length packet <? tcp_offset + 20)%nat then Ret None else
          b12 ← idx packet (tcp_offset + 12);
          let tcp_header_len := (Z.to_nat (Z.shiftr b12 4) * 4)%nat in
          if (tcp_header_len <? 20)%nat
             || (length packet <? tcp_offset + tcp_header_len)%nat then Ret None else
          b13 ← idx packet (tcp_offset + 13);
          if negb (Z.land b13 TCP_FLAGS_NO_COALESCE =? 0)%Z then Ret None else
          let payload_len := (length packet - tcp_offset - tcp_header_len)%nat in
          if (payload_len =? 0)%nat then Ret None else
          s0 ← idx packet (tcp_offset + 4); s1 ← idx packet (tcp_offset + 5);
          s2 ← idx packet (tcp_offset + 6); s3 ← idx packet (tcp_offset + 7);
          Ret (Some (mkTcpSegmentMeta is_ipv6 ip_header_len tcp_header_len
                       (be_value [s0; s1; s2; s3]) payload_len))
      end
  end.

(** [a[x..y] != b[x'..y']]. *)
Definition slices_differ (a b : list Z) (x y x' y' : nat) : res bool :=
  sa ← slice a x y; sb ← slice b x' y'; Ret (negb (bool_decide (sa = sb))).

(** [a[i] != b[i]]. *)
Definition bytes_differ (a b : list Z) (i : nat) : res bool :=
  x ← idx a i; y ← idx b i; Ret (negb (x =? y)%Z).

(** Short-circuiting [||] on fallible tests. *)
Definition or_else (t u : res bool) : res bool := x ← t; if x : bool then Ret true else u.

Definition can_chain (a : list Z) (ma : TcpSegmentMeta) (b : list Z) (mb : TcpSegmentMeta)
  : res bool :=
  if negb (Bool.eqb (is_ipv6 ma) (is_ipv6 mb))
     || negb (tcp_header_len ma =? tcp_header_len mb)%nat then Ret false else
  ip_differs ← (if is_ipv6 ma then
                  or_else (slices_differ a b 0 4 0 4)
                    (or_else (slices_differ a b 8 40 8 40) (bytes_differ a b 7))
                else
                  or_else (bytes_differ a b 1)
                    (or_else (bytes_differ a b 8) (slices_differ a b 12 20 12 20)));
  if ip_differs : bool then Ret false else
  let t := ip_header_len ma in
  tcp_differs ← or_else (slices_differ a b t (t + 4) t (t + 4))
    (or_else (slices_differ a b (t + 8) (t + 12) (t + 8) (t + 12))
      (or_else (slices_differ a b (t + 14) (t + 16) (t + 14) (t + 16))
        (slices_differ a b (t + 20) (t + tcp_header_len ma) (t + 20) (t + tcp_header_len mb))));
  if tcp_differs : bool then Ret false else
  Ret (seq mb =? wrapping_add32 (seq ma) (wrap 32 (Z.of_nat (payload_len ma))))%Z.

(** The inner loop of [plan_tun_write_groups]: [rest] is [batch[end..]] and
    [last] is [batch[end - 1]]; the result is the number of packets that join
    the run. *)
Fixpoint extend_run (seg_size merged_ip_len : nat) (last : list Z) (prev : TcpSegmentMeta)
    (rest : list (list Z)) : res nat :=
  match rest with
  | [] => Ret 0%nat
  | packet :: rest' =>
      parsed ← parse_coalescible_tcp packet;
      match parsed with
      | None => Ret 0%nat
      | Some next =>
          if (seg_size <? payload_len next)%nat
             || (U16_MAX <? Z.of_nat (merged_ip_len + payload_len next))%Z then Ret 0%nat else
          chains ← can_chain last prev packet next;
          if negb chains then Ret 0%nat else
          if (payload_len next <? seg_size)%nat then Ret 1%nat else
          n ← extend_run seg_size (merged_ip_len + payload_len next) packet next rest';
          Ret (S n)
      end
  end.

(** The outer loop; [rest] is [batch[i..]].  Each round consumes at least one
    packet, so [length batch] rounds are enough; running out of fuel is mapped
    to [Panic], which [plan_total] excludes. *)
Fixpoint plan_loop (fuel i : nat) (rest : list (list Z)) : res (list (nat * nat * bool)) :=
  match rest, fuel with
  | [], _ => Ret []
  | _, O => Panic
  | packet :: rest', S fuel' =>
      parsed ← parse_coalescible_tcp packet;
      match parsed with
      | None =>
          groups ← plan_loop fuel' (i + 1) rest';
          Ret ((i, (i + 1)%nat, false) :: groups)
      | Some first =>
          let seg_size := payload_len first in
          let merged_ip_len := (header_len first + payload_len first)%nat in
          n ← extend_run seg_size merged_ip_len packet first rest';
          let e := (i + 1 + n)%nat in
          groups ← plan_loop fuel' e (drop n rest');
          Ret ((i, e, (2 <=? e - i)%nat) :: groups)
      end
  end.

Definition plan_tun_write_groups (batch : list (list Z)) : res (list (nat * nat * bool)) :=
  plan_loop (length batch) 0 batch.

(** The payload-length loop of [assemble_tcp_gso_superframe]. *)
Fixpoint total_payload_of (header_len : nat) (segments : list (list Z)) : res nat :=
  match segments with
  | [] => Ret 0%nat
  | s :: r =>
      if (length s <=? header_len)%nat then Fail SegmentShorterThanHeaders else
      n ← total_payload_of header_len r;
      Ret (length s - header_len + n)%nat
  end.

(** The payload copies of the second loop. *)
Fixpoint payloads_from (header_len : nat) (segments : list (list Z)) : res (list Z) :=
  match segments with
  | [] => Ret []
  | s :: r => p ← slice_from s header_len; q ← payloads_from header_len r; Ret (p ++ q)
  end.

Definition superframe_hdr (first : TcpSegmentMeta) : VirtioNetHdr := {|
  flags := VIRTIO_NET_HDR_F_NEEDS_CSUM;
  gso_type := if is_ipv6 first then VIRTIO_NET_HDR_GSO_TCPV6 else VIRTIO_NET_HDR_GSO_TCPV4;
  hdr_len := wrap 16 (Z.of_nat (header_len first));
  gso_size := wrap 16 (Z.of_nat (payload_len first));
  csum_start := wrap 16 (Z.of_nat (ip_header_len first));
  csum_offset := 16;
  num_buffers := 0;
|}.

Definition assemble_tcp_gso_superframe (segments : list (list Z)) : res (list Z) :=
  match segments with
  | [] | [_] => Fail (TooFewSegments (length segments))
  | seg0 :: _ =>
      parsed ← parse_coalescible_tcp seg0;
      first ← ok_or FirstNotCoalescible parsed;
      let hlen := header_len first in
      total_payload ← total_payload_of hlen segments;
      let merged_ip_len := (hlen + total_payload)%nat in
      if (U16_MAX <? Z.of_nat merged_ip_len)%Z then Fail (MergedFrameTooLarge merged_ip_len) else
      hdr ← slice seg0 0 hlen;
      payloads ← payloads_from hlen segments;
      let ip0 := hdr ++ payloads in
      ip1 ← (if is_ipv6 first then update_ipv6_payload_length ip0 merged_ip_len
             else update_ipv4_lengths_and_checksum ip0 merged_ip_len);
      let checksum_index := (ip_header_len first + 16)%nat in
      ip2 ← set_idx ip1 checksum_index 0;
      ip3 ← set_idx ip2 (checksum_index + 1) 0;
      let tcp_len := (tcp_header_len first + total_payload)%nat in
      partial ← tcp_pseudo_header_partial ip3 (is_ipv6 first) tcp_len;
      ip4 ← splice ip3 checksum_index (be_bytes 2 partial);
      Ret (to_bytes (superframe_hdr first) ++ ip4)
  end.

(** ** What a coalescible segment looks like *)

(** The header conditions of the two IP versions. *)
Definition ip_header_ok (v6 : bool) (p : list Z) : Prop :=
  if v6 then
    (40 <= length p)%nat /\
    Z.shiftr (p !!! 0%nat) 4 = 6%Z /\ p !!! 6%nat = 6%Z /\
    Z.land (Z.lor (wrap 8 (Z.shiftl (p !!! 0%nat) 4)) (Z.shiftr (p !!! 1%nat) 4)) 3 = 0%Z /\
    be16 (p !!! 4%nat) (p !!! 5%nat) = Z.of_nat (length p - 40)
  else
    (20 <= length p)%nat /\
    Z.shiftr (p !!! 0%nat) 4 = 4%Z /\ Z.land (p !!! 0%nat) 15 = 5%Z /\ p !!! 9%nat = 6%Z /\
    Z.land (be16 (p !!! 6%nat) (p !!! 7%nat)) 16383 = 0%Z /\
    Z.land (p !!! 1%nat) 3 = 0%Z /\
    be16 (p !!! 2%nat) (p !!! 3%nat) = Z.of_nat (length p).

Definition ip_hlen (v6 : bool) : nat := if v6 then 40%nat else 20%nat.

Definition tcp_hlen_at (p : list Z) (off : nat) : nat :=
  (Z.to_nat (Z.shiftr (p !!! (off + 12)%nat) 4) * 4)%nat.

Definition seq_at (p : list Z) (off : nat) : Z :=
  be_value [p !!! (off + 4)%nat; p !!! (off + 5)%nat; p !!! (off + 6)%nat; p !!! (off + 7)%nat].

Record coalescible (p : list Z) (m : TcpSegmentMeta) : Prop := {
  co_ip : ip_header_len m = ip_hlen (is_ipv6 m);
  co_hdr : ip_header_ok (is_ipv6 m) p;
  co_thl : tcp_header_len m = tcp_hlen_at p (ip_header_len m);
  co_tcp : (20 <= tcp_header_len m)%nat;
  co_len : length p = (ip_header_len m + tcp_header_len m + payload_len m)%nat;
  co_pay : (0 < payload_len m)%nat;
  co_flags : Z.land (p !!! (ip_header_len m + 13)%nat) TCP_FLAGS_NO_COALESCE = 0%Z;
  co_seq : seq m = seq_at p (ip_header_len m);
}.

(** The two header parsers decide [ip_header_ok]. *)
Lemma parse_ipv4_cases p :
  Z.shiftr (p !!! 0%nat) 4 = 4%Z ->
  (parse_ipv4_header p = Ret (Some (false, 20%nat)) /\ ip_header_ok false p) \/
  (parse_ipv4_header p = Ret None /\ ~ ip_header_ok false p).
Proof.
  intros Hv. unfold parse_ipv4_header, ip_header_ok.
  destruct (Nat.ltb_spec (length p) 20); [right; split; [done|lia]|]. run_slices.
  repeat match goal with
  | |- context [(?a =? ?b)%Z] => destruct (Z.eqb_spec a b); cbn [negb orb]
  end; run_slices;
  repeat match goal with
  | |- context [(?a =? ?b)%Z] => destruct (Z.eqb_spec a b); cbn [negb orb]; run_slices
  end; first [left; split; [done|tauto] | right; split; [done|tauto]].
Qed.

Lemma parse_ipv6_cases p :
  Z.shiftr (p !!! 0%nat) 4 = 6%Z ->
  (parse_ipv6_header p = Ret (Some (true, 40%nat)) /\ ip_header_ok true p) \/
  (parse_ipv6_header p = Ret None /\ ~ ip_header_ok true p).
Proof.
  intros Hv. unfold parse_ipv6_header, ip_header_ok.
  destruct (Nat.ltb_spec (length p) 40); [right; split; [done|lia]|]. run_slices.
  repeat match goal with
  | |- context [(?a =? ?b)%Z] => destruct (Z.eqb_spec a b); cbn [negb orb]; run_slices
  end; first [left; split; [done|tauto] | right; split; [done|tauto]].
Qed.

Lemma ip_header_ok_nonempty v6 p : ip_header_ok v6 p -> (20 <= length p)%nat.
Proof. destruct v6; simpl; lia. Qed.

(** The TCP part of the parser, once the IP header is accepted. *)
Lemma parse_coalescible_unfold p (v6 : bool) :
  p <> [] ->
  Z.shiftr (p !!! 0%nat) 4 = (if v6 then 6 else 4)%Z ->
  (exists m, parse_coalescible_tcp p = Ret (Some m) /\ is_ipv6 m = v6 /\ coalescible p m) \/
  (parse_coalescible_tcp p = Ret None /\ forall m, ~ coalescible p m).
Proof.
  intros Hne Hv.
  assert (Hno : forall m, coalescible p m -> is_ipv6 m = v6).
  { intros m []. destruct v6, (is_ipv6 m); simpl in *; lia. }
  destruct p as [|b0 r]; [done|]. unfold parse_coalescible_tcp. set (p := b0 :: r) in *.
  change (p !!! 0%nat) with b0 in Hv.
  assert (Hip : (if (Z.shiftr b0 4 =? 4)%Z then parse_ipv4_header p
            else if (Z.shiftr b0 4 =? 6)%Z then parse_ipv6_header p else Ret None)
            = if v6 then parse_ipv6_header p else parse_ipv4_header p).
  { rewrite Hv. by destruct v6. }
  rewrite Hip. clear Hip.
  assert (Hc : ((if v6 then parse_ipv6_header p else parse_ipv4_header p)
                 = Ret (Some (v6, ip_hlen v6)) /\ ip_header_ok v6 p) \/
               ((if v6 then parse_ipv6_header p else parse_ipv4_header p) = Ret None
                 /\ ~ ip_header_ok v6 p)).
  { destruct v6; [by apply parse_ipv6_cases | by apply parse_ipv4_cases]. }
  destruct Hc as [[-> Hh]|[-> Hh]]; cbn [mbind outcome_bind];
    [|right; split; [done|]; intros m Hm; apply Hh; rewrite <-(Hno m Hm); apply Hm].
  set (t := ip_hlen v6) in *.
  assert (Hcase : forall m, coalescible p m -> ip_header_len m = t /\
    tcp_header_len m = tcp_hlen_at p t).
  { intros m Hm. pose proof (Hno m Hm) as <-. destruct Hm as [Hi _ Ht _ _ _ _ _].
    split; [done|]. by rewrite Ht, Hi. }
  destruct (Nat.ltb_spec (length p) (t + 20)).
  { right; split; [done|]. intros m Hm. destruct (Hcase m Hm). destruct Hm. lia. }
  run_slices. fold (tcp_hlen_at p t).
  destruct (Nat.ltb_spec (tcp_hlen_at p t) 20); cbn [orb].
  { right; split; [done|]. intros m Hm. destruct (Hcase m Hm). destruct Hm. lia. }
  destruct (Nat.ltb_spec (length p) (t + tcp_hlen_at p t)).
  { right; split; [done|]. intros m Hm. destruct (Hcase m Hm). destruct Hm. lia. }
  run_slices.
  destruct (Z.eqb_spec (Z.land (p !!! (t + 13)%nat) TCP_FLAGS_NO_COALESCE) 0); cbn [negb].
  2:{ right; split; [done|]. intros m Hm. destruct (Hcase m Hm) as [Ht _]. destruct Hm.
      congruence. }
  destruct (Nat.eqb_spec (length p - t - tcp_hlen_at p t) 0).
  { right; split; [done|]. intros m Hm. destruct (Hcase m Hm). destruct Hm. lia. }
  run_slices. left. eexists. split; [done|]. split; [done|].
  constructor; cbn [is_ipv6 ip_header_len tcp_header_len payload_len seq]; try done; lia.
Qed.

(** The parser never panics and accepts exactly the coalescible segments. *)
Lemma parse_coalescible_cases p :
  (exists m, parse_coalescible_tcp p = Ret (Some m) /\ coalescible p m) \/
  (parse_coalescible_tcp p = Ret None /\ forall m, ~ coalescible p m).
Proof.
  destruct (decide (p = [])) as [->|Hne].
  { right. split; [done|]. intros m Hm. pose proof (ip_header_ok_nonempty _ _ (co_hdr _ _ Hm)).
    simpl in *. lia. }
  destruct (decide (Z.shiftr (p !!! 0%nat) 4 = 4%Z)) as [H4|H4].
  { destruct (parse_coalescible_unfold p false Hne H4) as [(m & ? & _ & ?)|?]; eauto. }
  destruct (decide (Z.shiftr (p !!! 0%nat) 4 = 6%Z)) as [H6|H6].
  { destruct (parse_coalescible_unfold p true Hne H6) as [(m & ? & _ & ?)|?]; eauto. }
  right. split.
  - destruct p as [|b0 r]; [done|]. unfold parse_coalescible_tcp.
    change ((b0 :: r) !!! 0%nat) with b0 in *.
    by rewrite (proj2 (Z.eqb_neq _ _) H4), (proj2 (Z.eqb_neq _ _) H6).
  - intros m []. destruct (is_ipv6 m); simpl in *; tauto.
Qed.

Lemma coalescible_inj p m m' : coalescible p m -> coalescible p m' -> m = m'.
Proof.
  intros [Hi Hh Ht _ Hl _ _ Hs] [Hi' Hh' Ht' _ Hl' _ _ Hs'].
  assert (Hv : is_ipv6 m = is_ipv6 m').
  { destruct (is_ipv6 m), (is_ipv6 m'); simpl in *; done || lia. }
  rewrite <-Hv, <-Hi in Hi'. rewrite Hi', <-Ht in Ht'. rewrite Hi', <-Hs in Hs'.
  destruct m, m'. cbn [is_ipv6 ip_header_len tcp_header_len payload_len seq] in *.
  f_equal; done || lia.
Qed.

Lemma parse_coalescible_iff p m :
  parse_coalescible_tcp p = Ret (Some m) <-> coalescible p m.
Proof.
  destruct (parse_coalescible_cases p) as [(m' & Hp & Hm')|[Hp Hn]].
  - rewrite Hp. split; [intros; by simplify_eq|]. intros Hm. by rewrite (coalescible_inj p m m').
  - rewrite Hp. split; [done|]. intros Hm. by destruct (Hn m).
Qed.

(** ** Flows and runs *)

(** The header fields [can_chain] compares. *)
Record same_flow (a : list Z) (ma : TcpSegmentMeta) (b : list Z) (mb : TcpSegmentMeta) : Prop := {
  sf_v6 : is_ipv6 ma = is_ipv6 mb;
  sf_thl : tcp_header_len ma = tcp_header_len mb;
  sf_ip : if is_ipv6 ma
          then take 4 a = take 4 b /\ take 32 (drop 8 a) = take 32 (drop 8 b) /\
               a !!! 7%nat = b !!! 7%nat
          else a !!! 1%nat = b !!! 1%nat /\ a !!! 8%nat = b !!! 8%nat /\
               take 8 (drop 12 a) = take 8 (drop 12 b);
  sf_ports : take 4 (drop (ip_header_len ma) a) = take 4 (drop (ip_header_len ma) b);
  sf_ack : take 4 (drop (ip_header_len ma + 8) a) = take 4 (drop (ip_header_len ma + 8) b);
  sf_window : take 2 (drop (ip_header_len ma + 14) a) = take 2 (drop (ip_header_len ma + 14) b);
  sf_options : take (tcp_header_len ma - 20) (drop (ip_header_len ma + 20) a)
               = take (tcp_header_len ma - 20) (drop (ip_header_len ma + 20) b);
}.

Definition seq_follows (ma mb : TcpSegmentMeta) : Prop :=
  seq mb = wrap 32 (seq ma + Z.of_nat (payload_len ma)).

Lemma same_flow_ip a ma b mb :
  coalescible a ma -> coalescible b mb -> same_flow a ma b mb ->
  ip_header_len ma = ip_header_len mb.
Proof. intros [] [] []. congruence. Qed.

Lemma same_flow_trans a ma b mb c mc :
  coalescible a ma -> coalescible b mb ->
  same_flow a ma b mb -> same_flow b mb c mc -> same_flow a ma c mc.
Proof.
  intros Ha Hb Hab Hbc. pose proof (same_flow_ip _ _ _ _ Ha Hb Hab) as Hip.
  destruct Hab as [Hv Ht Hi ????], Hbc as [Hv' Ht' Hi' ????]. rewrite <-Hip in *.
  rewrite <-Hv, <-Ht in *.
  split; try congruence. destruct (is_ipv6 ma); intuition congruence.
Qed.

Lemma or_else_ret t u (x y : bool) :
  t = Ret x -> u = Ret y -> or_else t u = Ret (x || y).
Proof. intros -> ->. by destruct x. Qed.

Lemma slices_differ_ret a b x y :
  (x <= y)%nat -> (y <= length a)%nat -> (y <= length b)%nat ->
  slices_differ a b x y x y
  = Ret (negb (bool_decide (take (y - x) (drop x a) = take (y - x) (drop x b)))).
Proof. intros. unfold slices_differ. by run_slices. Qed.

Lemma bytes_differ_ret a b i :
  (i < length a)%nat -> (i < length b)%nat ->
  bytes_differ a b i = Ret (negb (a !!! i =? b !!! i)%Z).
Proof. intros. unfold bytes_differ. by run_slices. Qed.

(** The comparison of the two IP headers. *)
Lemma ip_headers_differ (v6 : bool) a b :
  ip_hlen v6 <= length a -> ip_hlen v6 <= length b ->
  exists d, (if v6 then
      or_else (slices_differ a b 0 4 0 4)
        (or_else (slices_differ a b 8 40 8 40) (bytes_differ a b 7))
    else or_else (bytes_differ a b 1)
        (or_else (bytes_differ a b 8) (slices_differ a b 12 20 12 20))) = Ret d /\
    (d = false <-> if v6
          then take 4 a = take 4 b /\ take 32 (drop 8 a) = take 32 (drop 8 b) /\
               a !!! 7%nat = b !!! 7%nat
          else a !!! 1%nat = b !!! 1%nat /\ a !!! 8%nat = b !!! 8%nat /\
               take 8 (drop 12 a) = take 8 (drop 12 b)).
Proof.
  intros Ha Hb. destruct v6; unfold ip_hlen in *;
    rewrite !slices_differ_ret, ?bytes_differ_ret by lia; unfold or_else;
    cbn [mbind outcome_bind]; rewrite ?drop_0;
    repeat match goal with |- context [(?x =? ?y)%Z] => destruct (Z.eqb_spec x y) end;
    repeat case_bool_decide; cbn [negb mbind outcome_bind]; eexists; (split; [done|]);
    (split; [done|tauto]) || tauto.
Qed.

(** [can_chain] never panics on two coalescible segments; it answers whether
    they belong to one flow and the second continues the first. *)
Lemma can_chain_spec a ma b mb :
  coalescible a ma -> coalescible b mb ->
  exists r, can_chain a ma b mb = Ret r /\
            (r = true <-> same_flow a ma b mb /\ seq_follows ma mb).
Proof.
  intros Ha Hb. unfold can_chain.
  destruct (Bool.eqb_spec (is_ipv6 ma) (is_ipv6 mb)) as [Hv|Hv]; cbn [negb orb].
  2:{ exists false. split; [done|]. split; [done|]. by intros [[] _]. }
  destruct (Nat.eqb_spec (tcp_header_len ma) (tcp_header_len mb)) as [Ht|Ht]; cbn [negb].
  2:{ exists false. split; [done|]. split; [done|]. by intros [[] _]. }
  pose proof (co_ip _ _ Ha) as Hia. pose proof (co_ip _ _ Hb) as Hib. rewrite <-Hv in Hib.
  pose proof (co_len _ _ Ha) as Hla. pose proof (co_len _ _ Hb) as Hlb.
  pose proof (co_tcp _ _ Ha). pose proof (co_tcp _ _ Hb).
  destruct (ip_headers_differ (is_ipv6 ma) a b) as (d & -> & Hd); [lia..|].
  cbn [mbind outcome_bind].
  destruct d.
  { exists false. split; [done|]. split; [done|]. intros [[] _]. symmetry. by apply Hd. }
  rewrite <-Ht. set (t := ip_header_len ma) in *.
  rewrite !slices_differ_ret by lia. unfold or_else. cbn [mbind outcome_bind].
  replace (t + 4 - t)%nat with 4%nat by lia.
  replace (t + 12 - (t + 8))%nat with 4%nat by lia.
  replace (t + 16 - (t + 14))%nat with 2%nat by lia.
  replace (t + tcp_header_len ma - (t + 20))%nat with (tcp_header_len ma - 20)%nat by lia.
  case_bool_decide; cbn [negb mbind outcome_bind];
    [|exists false; split; [done|]; split; [done|]; by intros [[] _]].
  case_bool_decide; cbn [negb mbind outcome_bind];
    [|exists false; split; [done|]; split; [done|]; by intros [[] _]].
  case_bool_decide; cbn [negb mbind outcome_bind];
    [|exists false; split; [done|]; split; [done|]; by intros [[] _]].
  case_bool_decide; cbn [negb mbind outcome_bind];
    [|exists false; split; [done|]; split; [done|]; by intros [[] _]].
  eexists. split; [done|]. rewrite Z.eqb_eq. unfold wrapping_add32, seq_follows.
  replace (wrap 32 (seq ma + wrap 32 (Z.of_nat (payload_len ma))))
    with (wrap 32 (seq ma + Z.of_nat (payload_len ma))) by
    (unfold wrap; by rewrite Z.add_mod_idemp_r).
  split; [|tauto]. intros. split; [|done]. constructor; tauto || done.
Qed.

(** A run: what the planner guarantees of the members that follow [last]. *)
Inductive chain_run (sz : nat) : nat -> list Z -> TcpSegmentMeta -> list (list Z) -> Prop :=
| run_nil merged last prev : chain_run sz merged last prev []
| run_short merged last prev p next :
    coalescible p next -> same_flow last prev p next -> seq_follows prev next ->
    (payload_len next < sz)%nat -> (Z.of_nat (merged + payload_len next) <= 65535)%Z ->
    chain_run sz merged last prev [p]
| run_full merged last prev p next rest :
    coalescible p next -> same_flow last prev p next -> seq_follows prev next ->
    payload_len next = sz -> (Z.of_nat (merged + payload_len next) <= 65535)%Z ->
    chain_run sz (merged + payload_len next) p next rest ->
    chain_run sz merged last prev (p :: rest).

(** What [plan_tun_write_groups] marks for coalescing. *)
Definition group_ok (segs : list (list Z)) : Prop :=
  exists p first rest, segs = p :: rest /\ rest <> [] /\ coalescible p first /\
    chain_run (payload_len first) (header_len first + payload_len first) p first rest.

Lemma extend_run_spec sz merged last prev rest :
  coalescible last prev ->
  exists n, extend_run sz merged last prev rest = Ret n /\ (n <= length rest)%nat /\
            chain_run sz merged last prev (take n rest).
Proof.
  revert merged last prev. induction rest as [|p rest IH]; intros merged last prev Hl;
    cbn [extend_run]; [exists 0%nat; repeat split; constructor|].
  assert (Hzero : exists n, Ret (E:=offload_error) 0%nat = Ret n /\ (n <= length (p :: rest))%nat /\
            chain_run sz merged last prev (take n (p :: rest))).
  { exists 0%nat. split; [done|]. split; [lia|constructor]. }
  destruct (parse_coalescible_cases p) as [(next & -> & Hp)|[-> _]];
    cbn [mbind outcome_bind]; [|done].
  destruct (Nat.ltb_spec sz (payload_len next)); cbn [orb]; [done|].
  destruct (Z.ltb_spec U16_MAX (Z.of_nat (merged + payload_len next))); [done|].
  destruct (can_chain_spec last prev p next Hl Hp) as (r & -> & Hr).
  cbn [mbind outcome_bind]. destruct r; cbn [negb]; [|done].
  destruct (proj1 Hr eq_refl) as [Hsf Hseq].
  destruct (Nat.ltb_spec (payload_len next) sz).
  - exists 1%nat. split; [done|]. split; [simpl; lia|]. cbn [take]. rewrite take_0.
    by eapply run_short.
  - destruct (IH (merged + payload_len next)%nat p next Hp) as (n & -> & Hn & Hrun).
    exists (S n). split; [done|]. split; [simpl; lia|]. cbn [take].
    eapply run_full; try done. lia.
Qed.

(** ** Facts about every member of a run *)

(** The [i]-th packet after [last] belongs to the flow of [last], continues
    its sequence numbers, and has the full payload size unless it is the
    final one. *)
Lemma chain_run_member sz merged last prev rest i q :
  coalescible last prev -> payload_len prev = sz ->
  chain_run sz merged last prev rest -> rest !! i = Some q ->
  exists m, coalescible q m /\ same_flow last prev q m /\
    seq m = wrap 32 (seq prev + Z.of_nat (S i * sz)) /\
    (payload_len m <= sz)%nat /\ (S i < length rest -> payload_len m = sz)%nat.
Proof.
  intros Hl Hsz Hrun. revert i Hl Hsz.
  induction Hrun as [| merged last prev p next Hp Hsf Hseq Hlt Hm
                     | merged last prev p next rest Hp Hsf Hseq Heq Hm Hrun IH];
    intros i Hl Hsz Hi; [done| |].
  - destruct i; [|done]. injection Hi as <-. exists next.
    split_and!; try done; try (simpl; lia). rewrite Hseq, Hsz. by rewrite Nat.mul_1_l.
  - destruct i as [|i].
    + injection Hi as <-. exists next. split_and!; try done; try lia.
      rewrite Hseq, Hsz. by rewrite Nat.mul_1_l.
    + cbn in Hi. destruct (IH i Hp Heq Hi) as (m & Hq & Hf & Hs & Hle & Hful).
      exists m. split_and!; try done; try apply (same_flow_trans _ _ _ _ _ _ Hl Hp Hsf Hf).
      * rewrite Hs, Hseq, Hsz. unfold wrap. rewrite Z.add_mod_idemp_l by lia. f_equal. lia.
      * cbn. intros. apply Hful. lia.
Qed.

(** Payloads of a run, and their total length. *)
Definition payloads (hl : nat) (segs : list (list Z)) : list Z := concat (map (drop hl) segs).

Lemma payloads_from_ret hl segs :
  Forall (fun s => hl <= length s)%nat segs -> payloads_from hl segs = Ret (payloads hl segs).
Proof.
  induction 1 as [|s r Hs _ IH]; [done|]. cbn [payloads_from]. run_slices. by rewrite IH.
Qed.

Lemma total_payload_ret hl segs :
  Forall (fun s => hl < length s)%nat segs ->
  total_payload_of hl segs = Ret (length (payloads hl segs)).
Proof.
  induction 1 as [|s r Hs _ IH]; [done|]. cbn [total_payload_of].
  rewrite (proj2 (Nat.leb_gt _ _)) by lia. rewrite IH. cbn [mbind outcome_bind].
  unfold payloads. cbn [map concat]. lengths. done.
Qed.

Lemma member_length q m hl :
  coalescible q m -> header_len m = hl -> length q = (hl + payload_len m)%nat.
Proof. intros [] <-. unfold header_len. lia. Qed.

Lemma same_flow_header a ma b mb :
  coalescible a ma -> coalescible b mb -> same_flow a ma b mb -> header_len ma = header_len mb.
Proof.
  intros Ha Hb Hf. unfold header_len. rewrite (same_flow_ip _ _ _ _ Ha Hb Hf). by destruct Hf; lia.
Qed.

Lemma chain_run_total sz merged last prev rest :
  coalescible last prev -> chain_run sz merged last prev rest ->
  rest <> [] \/ (Z.of_nat merged <= 65535)%Z ->
  (Z.of_nat (merged + length (payloads (header_len prev) rest)) <= 65535)%Z.
Proof.
  intros Hl Hrun. induction Hrun as [| merged last prev p next Hp Hsf Hseq Hlt Hm
                     | merged last prev p next rest Hp Hsf Hseq Heq Hm Hrun IH]; intros H0.
  - destruct H0; [done|]. simpl. lia.
  - pose proof (same_flow_header _ _ _ _ Hl Hp Hsf) as Hh.
    pose proof (member_length p next _ Hp (eq_sym Hh)). unfold payloads. simpl.
    lengths. lia.
  - pose proof (same_flow_header _ _ _ _ Hl Hp Hsf) as Hh.
    pose proof (member_length p next _ Hp (eq_sym Hh)). unfold payloads in *. simpl.
    rewrite Hh in *. lengths. specialize (IH Hp (or_intror Hm)). lia.
Qed.

Lemma chain_run_long sz merged last prev rest :
  coalescible last prev -> chain_run sz merged last prev rest ->
  Forall (fun s => header_len prev < length s)%nat rest.
Proof.
  intros Hl Hrun. induction Hrun as [| merged last prev p next Hp Hsf Hseq Hlt Hm
                     | merged last prev p next rest Hp Hsf Hseq Heq Hm Hrun IH];
    constructor; try constructor;
    pose proof (same_flow_header _ _ _ _ Hl Hp Hsf) as Hh;
    pose proof (member_length p next _ Hp (eq_sym Hh)); pose proof (co_pay _ _ Hp); try lia.
  rewrite Hh. by apply IH.
Qed.

(** ** The plan *)

(** [groups] tiles the positions from [i] to [n], in order. *)
Fixpoint tiles (i n : nat) (groups : list (nat * nat * bool)) : Prop :=
  match groups with
  | [] => i = n
  | (s, e, _) :: r => s = i /\ (s < e)%nat /\ tiles e n r
  end.

Lemma plan_loop_spec fuel i (batch rest : list (list Z)) :
  rest = drop i batch -> (i <= length batch)%nat -> (length rest <= fuel)%nat ->
  exists groups, plan_loop fuel i rest = Ret groups /\ tiles i (length batch) groups /\
    Forall (fun '(s, e, coalesce) =>
      if coalesce : bool then group_ok (take (e - s) (drop s batch)) else e = (s + 1)%nat) groups.
Proof.
  revert i rest. induction fuel as [|fuel IH]; intros i rest Hr Hi Hf.
  { destruct rest; [|simpl in Hf; lia]. exists []. repeat split; [|constructor].
    assert (length (drop i batch) = 0%nat) as Hd by (by rewrite <-Hr).
    rewrite length_drop in Hd. simpl. lia. }
  destruct rest as [|p rest].
  { exists []. repeat split; [|constructor].
    assert (length (drop i batch) = 0%nat) as Hd by (by rewrite <-Hr).
    rewrite length_drop in Hd. simpl. lia. }
  assert (Hlen : length batch = (i + S (length rest))%nat).
  { assert (length (drop i batch) = S (length rest)) as Hd by (by rewrite <-Hr).
    rewrite length_drop in Hd. lia. }
  assert (Hdrop : forall k, drop (i + 1 + k) batch = drop k rest).
  { intros k. replace (i + 1 + k)%nat with (i + S k)%nat by lia.
    rewrite <-drop_drop, <-Hr. done. }
  cbn [length] in Hf. cbn [plan_loop].
  destruct (parse_coalescible_cases p) as [(first & -> & Hp)|[-> _]]; cbn [mbind outcome_bind].
  - destruct (extend_run_spec (payload_len first) (header_len first + payload_len first)
      p first rest Hp) as (n & -> & Hn & Hrun). cbn [mbind outcome_bind].
    destruct (IH (i + 1 + n)%nat (drop n rest)) as (groups & -> & Ht & Hg);
      [by rewrite Hdrop | lia | lengths; lia |].
    eexists. split; [done|]. split; [cbn [tiles]; repeat split; try done; lia|].
    constructor; [|done]. destruct (Nat.leb_spec 2 (i + 1 + n - i)); [|lia].
    exists p, first, (take n rest). rewrite <-Hr.
    replace (i + 1 + n - i)%nat with (S n) by lia. split_and!; try done.
    intros He. apply (f_equal length) in He. rewrite length_take in He. simpl in He. lia.
  - destruct (IH (i + 1)%nat rest) as (groups & -> & Ht & Hg);
      [rewrite <-(Nat.add_0_r (i + 1)), Hdrop; done | lia | lia |].
    eexists. split; [done|]. split; [cbn [tiles]; repeat split; try done; lia|].
    by constructor.
Qed.

(** ** Assembly *)

(** The bytes of the merged IP packet before the header rewrites. *)
Definition merged_raw (hl : nat) (segs : list (list Z)) : list Z :=
  take hl (segs !!! 0%nat) ++ payloads hl segs.

(** What a super-frame is: the IP packet's length, payload and length fields,
    a header that agrees with the first segment's outside the rewritten
    fields, and a checksum field that holds the pseudo-header sum. *)
Record superframe (first : TcpSegmentMeta) (seg0 : list Z) (pl ip : list Z) : Prop := {
  su_len : length ip = (header_len first + length pl)%nat;
  su_bytes : bytes_ok ip;
  su_payload : drop (header_len first) ip = pl;
  su_iplen : ip_lengths_ok (is_ipv6 first) ip;
  su_header : forall i, (i < header_len first)%nat -> ~ len_field (is_ipv6 first) i ->
     i <> (ip_header_len first + 16)%nat -> i <> (ip_header_len first + 17)%nat ->
     ip !!! i = seg0 !!! i;
  su_partial : be16 (ip !!! (ip_header_len first + 16)%nat) (ip !!! (ip_header_len first + 17)%nat)
     = ones_norm (pseudo_sum (is_ipv6 first) ip (length ip - ip_header_len first));
}.

Lemma coalescible_header p m :
  coalescible p m -> (40 <= header_len m < length p)%nat /\ (ip_header_len m + 20 <= header_len m)%nat.
Proof. intros [Hi ????]. unfold header_len. rewrite Hi in *. destruct (is_ipv6 m); simpl in *; lia. Qed.

Lemma merged_updatable p m pl :
  coalescible p m -> (Z.of_nat (header_len m + length pl) <= 65535)%Z ->
  updatable (is_ipv6 m) (take (header_len m) p ++ pl).
Proof.
  intros Hp Hl. destruct (coalescible_header p m Hp) as [? _].
  assert (Hlen : length (take (header_len m) p ++ pl) = (header_len m + length pl)%nat)
    by (lengths; lia).
  assert (Hlk : forall i, (i < 40)%nat -> (take (header_len m) p ++ pl) !!! i = p !!! i).
  { intros i ?. rewrite lookup_total_app_l by (lengths; lia). apply total_lookup_take. lia. }
  pose proof (co_hdr _ _ Hp) as Hh. unfold updatable, ihl_of. rewrite !Hlk, Hlen by lia.
  destruct (is_ipv6 m); simpl in Hh; [lia|].
  destruct Hh as (_ & _ & Hihl & Hpr & _). rewrite Hihl. repeat split; try done; simpl; lia.
Qed.

(** Zeroing and filling the checksum field of an updated packet. *)
Lemma partial_written v6 q t tcp_len :
  bytes_ok q -> (ip_hlen v6 + 20 <= length q)%nat -> t = ip_hlen v6 ->
  (40 <= length q)%nat -> (Z.of_nat tcp_len <= 65535)%Z ->
  let c := ones_norm (pseudo_sum v6 q tcp_len) in
  (ip2 ← set_idx q (t + 16) 0; ip3 ← set_idx ip2 (t + 16 + 1) 0;
   partial ← tcp_pseudo_header_partial ip3 v6 tcp_len;
   splice (E:=offload_error) ip3 (t + 16) (be_bytes 2 partial))
  = Ret (spliced q (t + 16) (be_bytes 2 c)) /\
  pseudo_sum v6 (spliced q (t + 16) (be_bytes 2 c)) tcp_len = pseudo_sum v6 q tcp_len.
Proof.
  intros Hb Hl -> H40 Htl c. unfold set_idx. run_slices.
  replace (ip_hlen v6 + 16 + 1)%nat with (S (ip_hlen v6 + 16)) by lia.
  rewrite spliced_adjacent by slice_side.
  assert (Hz : bytes_ok (spliced q (ip_hlen v6 + 16) [0; 0]%Z)).
  { apply spliced_bytes_ok; [done|]. repeat constructor; ulia. }
  rewrite pseudo_partial_exact by (done || slice_side). cbn [mbind outcome_bind].
  assert (Hps : forall src, length src = 2%nat ->
    pseudo_sum v6 (spliced q (ip_hlen v6 + 16) src) tcp_len = pseudo_sum v6 q tcp_len).
  { intros src Hs. apply pseudo_sum_spliced; [lia|]. unfold ip_hlen. destruct v6; lia. }
  rewrite Hps by done. fold c. run_slices. split; [|by rewrite Hps by (by rewrite be_bytes_length)].
  f_equal. apply list_eq. intros i.
  rewrite !spliced_lookup by slice_side. rewrite be_bytes_length. cbn [length].
  by case_decide.
Qed.

Lemma payloads_bytes_ok hl segs : Forall bytes_ok segs -> bytes_ok (payloads hl segs).
Proof.
  induction 1 as [|s r Hs _ IH]; [constructor|]. unfold payloads. cbn [map concat].
  apply Forall_app. split; [by apply bytes_ok_drop | done].
Qed.

Lemma group_total p first rest :
  coalescible p first -> rest <> [] ->
  chain_run (payload_len first) (header_len first + payload_len first) p first rest ->
  (Z.of_nat (header_len first + length (payloads (header_len first) (p :: rest))) <= 65535)%Z.
Proof.
  intros Hp Hne Hrun. pose proof (member_length p first _ Hp eq_refl) as Hl.
  pose proof (chain_run_total _ _ _ _ _ Hp Hrun (or_introl Hne)) as Ht.
  unfold payloads in *. cbn [map concat]. lengths. lia.
Qed.

(** The fields of the written super-frame. *)
Lemma superframe_intro p first pl q :
  coalescible p first -> (Z.of_nat (header_len first + length pl) <= 65535)%Z ->
  length q = (header_len first + length pl)%nat -> bytes_ok q ->
  ip_lengths_ok (is_ipv6 first) q ->
  (forall i, ~ len_field (is_ipv6 first) i ->
     q !! i = (take (header_len first) p ++ pl) !! i) ->
  let c := ones_norm (pseudo_sum (is_ipv6 first) q (tcp_header_len first + length pl)) in
  pseudo_sum (is_ipv6 first) (spliced q (ip_header_len first + 16) (be_bytes 2 c))
    (tcp_header_len first + length pl)
  = pseudo_sum (is_ipv6 first) q (tcp_header_len first + length pl) ->
  superframe first p pl (spliced q (ip_header_len first + 16) (be_bytes 2 c)).
Proof.
  intros Hp Hmax Hlq Hbq Hlen Hun c Hps. destruct (coalescible_header p first Hp) as [Hh1 Hh2].
  pose proof (co_ip _ _ Hp) as Hip.
  assert (Hi20 : (20 <= ip_header_len first)%nat) by (rewrite Hip; destruct (is_ipv6 first); simpl; lia).
  assert (Hl : length (spliced q (ip_header_len first + 16) (be_bytes 2 c)) = length q) by (by lengths).
  assert (Hbelow : forall i, (i < 20)%nat ->
    spliced q (ip_header_len first + 16) (be_bytes 2 c) !!! i = q !!! i).
  { intros i ?. rewrite spliced_lookup_total by slice_side. by rewrite decide_False by slice_side. }
  assert (Hdf : forall i, (header_len first <= i)%nat -> ~ len_field (is_ipv6 first) i).
  { intros i ?. unfold len_field. destruct (is_ipv6 first); lia. }
  split.
  - by rewrite Hl.
  - eauto with ezvpn.
  - rewrite drop_spliced_above by slice_side. apply list_eq. intros i.
    rewrite lookup_drop, Hun by (apply Hdf; lia).
    rewrite lookup_app_r by (lengths; lia). f_equal. lengths. lia.
  - unfold ip_lengths_ok, ihl_of in *. rewrite Hl, !Hbelow by lia.
    destruct (is_ipv6 first) eqn:Hv; [done|]. destruct Hlen as [Hle Hcs]. split; [done|].
    assert (Hihl : Z.land (q !!! 0%nat) 15 = 5%Z).
    { pose proof (co_hdr _ _ Hp) as Hh. rewrite Hv in Hh. destruct Hh as (_ & _ & Hh & _).
      rewrite list_lookup_total_alt, Hun by (simpl; lia).
      rewrite lookup_app_l, lookup_take_lt by (lengths; lia). by rewrite <-list_lookup_total_alt. }
    rewrite Hihl in *. change (Z.to_nat 5 * 4)%nat with 20%nat in *.
    rewrite take_spliced_below by slice_side. done.
  - intros i Hi Hn H16 H17. rewrite spliced_lookup_total by slice_side.
    rewrite decide_False by (lengths; lia).
    rewrite !list_lookup_total_alt, Hun by done.
    by rewrite lookup_app_l, lookup_take_lt by (lengths; lia).
  - rewrite Hl, Hlq. unfold header_len.
    replace (ip_header_len first + tcp_header_len first + length pl - ip_header_len first)%nat
      with (tcp_header_len first + length pl)%nat by lia.
    rewrite Hps. fold c. replace (ip_header_len first + 17)%nat with (S (ip_header_len first + 16)) by lia.
    apply be16_put16; [lia|]. apply ones_norm_uint.
    pose proof (pseudo_sum_bound (is_ipv6 first) q (tcp_header_len first + length pl) Hbq) as Hb.
    unfold header_len in Hmax. lia.
Qed.

Lemma assemble_spec segs :
  group_ok segs -> Forall bytes_ok segs ->
  exists first ip, coalescible (segs !!! 0%nat) first /\
    assemble_tcp_gso_superframe segs = Ret (to_bytes (superframe_hdr first) ++ ip) /\
    superframe first (segs !!! 0%nat) (payloads (header_len first) segs) ip.
Proof.
  intros (p & first & rest & -> & Hne & Hp & Hrun) Hb.
  pose proof (group_total p first rest Hp Hne Hrun) as Hmax.
  destruct (coalescible_header p first Hp) as [Hh1 Hh2].
  change ((p :: rest) !!! 0%nat) with p.
  assert (Hlong : Forall (fun s => header_len first < length s)%nat (p :: rest)).
  { constructor; [lia|]. by eapply chain_run_long. }
  inversion_clear Hb as [|?? Hbp Hbr].
  set (pl := payloads (header_len first) (p :: rest)) in *.
  assert (Hbpl : bytes_ok pl) by (apply payloads_bytes_ok; by constructor).
  set (ip0 := take (header_len first) p ++ pl).
  assert (Hl0 : length ip0 = (header_len first + length pl)%nat) by (unfold ip0; lengths; lia).
  destruct (update_ip_spec (is_ipv6 first) ip0) as (q & Hq & Hlq & Hbq & Hlen & Hun).
  { apply Forall_app; eauto with ezvpn. }
  { by apply merged_updatable. }
  rewrite Hl0 in Hq, Hlq.
  destruct (partial_written (is_ipv6 first) q (ip_header_len first)
    (tcp_header_len first + length pl)) as [Hw Hps]; try done.
  { rewrite <-(co_ip _ _ Hp). lia. }
  { apply Hp. }
  { lia. }
  { unfold header_len in Hmax. lia. }
  exists first, (spliced q (ip_header_len first + 16) (be_bytes 2
    (ones_norm (pseudo_sum (is_ipv6 first) q (tcp_header_len first + length pl))))).
  split; [done|]. split; [|by apply superframe_intro].
  destruct rest as [|r0 rest]; [done|]. unfold assemble_tcp_gso_superframe.
  rewrite (proj2 (parse_coalescible_iff p first) Hp). cbn [mbind outcome_bind ok_or].
  rewrite total_payload_ret by done. fold pl. cbn [mbind outcome_bind].
  rewrite (proj2 (Z.ltb_ge _ _)) by ulia.
  rewrite slice_ok by lia. cbn [mbind outcome_bind]. rewrite drop_0, Nat.sub_0_r.
  rewrite payloads_from_ret by (eapply Forall_impl; [exact Hlong | simpl; lia]).
  cbn [mbind outcome_bind]. fold pl. fold ip0. unfold update_ip in Hq.
  assert (Hu : (if is_ipv6 first
     then update_ipv6_payload_length ip0 (header_len first + length pl)
     else update_ipv4_lengths_and_checksum ip0 (header_len first + length pl)) = Ret q)
    by (rewrite <-Hq; by destruct (is_ipv6 first)).
  rewrite Hu. cbn [mbind outcome_bind].
  unfold set_idx in *. run_slices. revert Hw. run_slices. intros Hw.
  destruct (tcp_pseudo_header_partial _ _ _) as [c| |]; try done. cbn [mbind outcome_bind] in *.
  by rewrite Hw.
Qed.

(** The super-frame header is one the TUN reader carries. *)
Lemma superframe_hdr_ok p first n :
  coalescible p first -> (Z.of_nat (header_len first + n) <= 65535)%Z ->
  (payload_len first <= n)%nat ->
  hdr_wf (superframe_hdr first) /\ tun_carried (superframe_hdr first) = true /\
  gso_size (superframe_hdr first) = Z.of_nat (payload_len first) /\
  csum_start (superframe_hdr first) = Z.of_nat (ip_header_len first) /\
  hdr_len (superframe_hdr first) = Z.of_nat (header_len first).
Proof.
  intros Hp Hn Hpl. pose proof (co_pay _ _ Hp). unfold header_len in Hn.
  assert (Hw : forall k, (k <= header_len first + n)%nat ->
    wrap 16 (Z.of_nat k) = Z.of_nat k).
  { intros k Hk. apply wrap_small. unfold header_len in Hk. ulia. }
  unfold superframe_hdr. rewrite !Hw by (unfold header_len; lia).
  split; [|split; [|done]].
  - constructor; cbn [flags gso_type hdr_len gso_size csum_start csum_offset];
      try (unfold header_len; ulia); by destruct (is_ipv6 first).
  - unfold tun_carried, is_tcp_gso. cbn [flags gso_type gso_size csum_start csum_offset].
    destruct (Z.eqb_spec (Z.of_nat (payload_len first)) 0); [lia|]. by destruct (is_ipv6 first).
Qed.

(** ** Properties *)

(** [parse_coalescible_tcp] never panics, on any byte string, and accepts
    exactly the pure-data TCP segments of its documentation: no IP options,
    fragments, extension headers or ECN marks, no SYN/FIN/RST/URG, a non-empty
    payload and IP length fields that agree with the buffer. *)
Theorem parse_coalescible_exact packet :
  match parse_coalescible_tcp packet with
  | Ret (Some m) => coalescible packet m
  | Ret None => forall m, ~ coalescible packet m
  | _ => False
  end.
Proof. by destruct (parse_coalescible_cases packet) as [(m & -> & Hm)|[-> Hn]]. Qed.

(** C19. The write planner returns for every batch: its groups tile the batch
    in order, a group that is not coalesced is a single packet, and a group
    marked for coalescing always assembles; the super-frame read back through
    [split_tun_frame] is one IP packet of at most 65535 bytes with the
    concatenated payloads, consistent length fields, the first segment's
    header elsewhere, and the pseudo-header sum NEEDS_CSUM asks for. *)
Theorem planned_groups_assemble batch :
  Forall bytes_ok batch ->
  exists groups, plan_tun_write_groups batch = Ret groups /\
    tiles 0 (length batch) groups /\
    Forall (fun '(s, e, coalesce) =>
      let segs := take (e - s) (drop s batch) in
      if coalesce : bool then
        exists first frame ip,
          assemble_tcp_gso_superframe segs = Ret frame /\
          split_tun_frame frame true = Ret (Some (superframe_hdr first), ip) /\
          (Z.of_nat (length ip) <= 65535)%Z /\
          coalescible (segs !!! 0%nat) first /\
          superframe first (segs !!! 0%nat) (payloads (header_len first) segs) ip
      else e = (s + 1)%nat) groups.
Proof.
  intros Hb. destruct (plan_loop_spec (length batch) 0 batch batch) as (groups & Hp & Ht & Hg);
    [by rewrite drop_0 | lia | lia |].
  exists groups. split; [done|]. split; [done|].
  eapply Forall_impl; [exact Hg|]. intros [[s e] [|]] Hgr; [|done]. simpl in Hgr |- *.
  set (segs := take (e - s) (drop s batch)) in *.
  destruct (assemble_spec segs Hgr) as (first & ip & Hc & Ha & Hs).
  { by apply Forall_take, Forall_drop. }
  pose proof Hgr as (p & f & rest & Hsegs & Hne & Hpf & Hrun). rewrite Hsegs in Hc.
  pose proof (coalescible_inj p first f Hc Hpf) as ->.
  pose proof (group_total p f rest Hpf Hne Hrun) as Htot. rewrite <-Hsegs in Htot.
  destruct (superframe_hdr_ok p f (length (payloads (header_len f) segs)) Hpf Htot)
    as (Hwf & Hcar & _).
  { rewrite Hsegs. unfold payloads. cbn [map concat]. lengths.
    pose proof (member_length p f _ Hpf eq_refl). lia. }
  exists f, (to_bytes (superframe_hdr f) ++ ip), ip.
  destruct (coalescible_header p f Hpf). pose proof (su_len _ _ _ _ Hs) as Hlen.
  split_and!; try done; [|lia|by rewrite Hsegs].
  rewrite split_encoded, Hcar; try done. intros ->. simpl in Hlen. lia.
Qed.

(** A sample IPv4/TCP segment with four payload bytes. *)
Definition sample_segment (seq3 flags : Z) (payload : list Z) : list Z :=
  [69; 0; 0; Z.of_nat (40 + length payload); 0; 0; 64; 0; 64; 6; 0; 0;
   10; 0; 0; 1; 10; 0; 0; 2;
   0; 80; 31; 144; 0; 0; 1; seq3; 0; 0; 2; 0; 80; flags; 4; 0; 0; 0; 0; 0]%Z ++ payload.

Definition sample_batch : list (list Z) :=
  [sample_segment 0 16 [1; 2; 3; 4]%Z; sample_segment 4 16 [5; 6; 7; 8]%Z;
   sample_segment 8 24 [9]%Z; [96]%Z].

Lemma planned_groups_assemble_witness :
  plan_tun_write_groups sample_batch = Ret [(0, 3, true); (3, 4, false)]%nat /\
  exists groups, plan_tun_write_groups sample_batch = Ret groups /\
                 tiles 0 (length sample_batch) groups.
Proof.
  split; [vm_compute; reflexivity|].
  destruct (planned_groups_assemble sample_batch) as (groups & Hp & Ht & _).
  - repeat constructor; vm_compute; congruence.
  - exists groups. split; [exact Hp | exact Ht].
Defined.
