(* ===== verification/Segment.v ===== *)
(** * Software segmentation ([src/tunnel/offload.rs], third part)

    [segment_tcp_gso_into] and [materialize_offload_into]: turning a packet
    with offload metadata into plain packets handed to a callback.  The
    callback is [emit : St -> list Z -> St * res unit] over the caller's state
    [St]; the state reached is kept when an error ends the loop.  The reused
    [scratch] buffer is cleared before every use and is a local value here. *)

From S2P Require Import Prelude Checksum Offload Coalesce.

Definition ip_header_len_for_tcp (ip_packet : list Z) (version : Z) : res nat :=
  if (version =? 4)%Z then
    b0 ← idx ip_packet 0;
    let ihl := (Z.to_nat (Z.land b0 15) * 4)%nat in
    if (ihl <? 20)%nat || (length ip_packet <? ihl)%nat then Fail Ipv4GsoNotPlainTcp else
    b9 ← idx ip_packet 9;
    if negb (b9 =? 6)%Z then Fail Ipv4GsoNotPlainTcp else Ret ihl
  else if (version =? 6)%Z then
    if (length ip_packet <? 40)%nat then Fail Ipv6GsoNotPlainTcp else
    b6 ← idx ip_packet 6;
    if negb (b6 =? 6)%Z then Fail Ipv6GsoNotPlainTcp else Ret 40%nat
  else Fail (UnsupportedIpVersion version).

(** The checks that open [segment_tcp_gso_into]: the IP version, the TCP
    offset and the header length. *)
Definition segment_layout (offload : VirtioNetHdr) (ip_packet : list Z) : res (Z * nat * nat) :=
  if negb (is_tcp_gso offload) then Fail NotTcpGso else
  match ip_packet with
  | [] => Fail EmptyIpPacket
  | b0 :: _ =>
      let version := Z.shiftr b0 4 in
      let normalized_type := normalized_gso_type offload in
      if ((version =? 4)%Z && (normalized_type =? VIRTIO_NET_HDR_GSO_TCPV4)%Z)
         || ((version =? 6)%Z && (normalized_type =? VIRTIO_NET_HDR_GSO_TCPV6)%Z) then
        tcp_offset ← (if needs_checksum offload then Ret (Z.to_nat (csum_start offload))
                      else ip_header_len_for_tcp ip_packet version);
        if (length ip_packet <? tcp_offset + 20)%nat
        then Fail (InvalidTcpOffset tcp_offset (length ip_packet)) else
        b12 ← idx ip_packet (tcp_offset + 12);
        let tcp_header_len := (Z.to_nat (Z.shiftr b12 4) * 4)%nat in
        let header_len := (tcp_offset + tcp_header_len)%nat in
        if (tcp_header_len <? 20)%nat || (length ip_packet <? header_len)%nat
        then Fail (InvalidTcpHeaderLen tcp_header_len tcp_offset (length ip_packet))
        else Ret (version, tcp_offset, header_len)
      else if (version =? 4)%Z || (version =? 6)%Z
      then Fail (VersionGsoMismatch version normalized_type)
      else Fail (UnsupportedIpVersion version)
  end.

(** The single-segment path: complete the partial checksum. *)
Definition complete_single (ip_packet : list Z) (tcp_offset checksum_index : nat) : res (list Z) :=
  region ← slice_from ip_packet tcp_offset;
  splice ip_packet checksum_index (be_bytes 2 (finalize_checksum (add_bytes 0 region))).

(** One round of the segmentation loop, up to the call of [emit];
    [!(0x01 | 0x08)] on a [u8] is [0xf6]. *)
Definition build_segment (version : Z) (tcp_offset header_len gso_size : nat)
    (ip_packet payload : list Z) (base_seq original_tcp_flags : Z) (chunk_offset : nat)
  : res (list Z) :=
  let chunk_end := Nat.min (chunk_offset + gso_size) (length payload) in
  chunk ← slice payload chunk_offset chunk_end;
  hdr ← slice ip_packet 0 header_len;
  let scratch := hdr ++ chunk in
  if (U32_MAX <? Z.of_nat chunk_offset)%Z then Fail (PayloadOffsetTooLarge chunk_offset) else
  let seq := wrapping_add32 base_seq (Z.of_nat chunk_offset) in
  scratch ← splice scratch (tcp_offset + 4) (be_bytes 4 seq);
  scratch ← (if (chunk_end <? length payload)%nat
             then set_idx scratch (tcp_offset + 13) (Z.land original_tcp_flags 246)
             else Ret scratch);
  scratch ← (if (version =? 4)%Z
             then update_ipv4_lengths_and_checksum scratch (header_len + length chunk)
             else if (version =? 6)%Z
             then update_ipv6_payload_length scratch (header_len + length chunk)
             else Panic);
  let checksum_index := (tcp_offset + 16)%nat in
  scratch ← set_idx scratch checksum_index 0;
  scratch ← set_idx scratch (checksum_index + 1) 0;
  checksum ← (if (version =? 4)%Z then tcp_checksum_ipv4 scratch tcp_offset
              else if (version =? 6)%Z then tcp_checksum_ipv6 scratch tcp_offset
              else Panic);
  splice scratch checksum_index (be_bytes 2 checksum).

(** [(0..n).step_by(step)]. *)
Definition step_by (n step : nat) : list nat :=
  map (fun k => (k * step)%nat) (List.seq 0 ((n + step - 1) / step)).

Definition validate_checksum_offload (offload : VirtioNetHdr) (ip_packet : list Z)
  : res (option (nat * nat)) :=
  if negb (gso_type offload =? VIRTIO_NET_HDR_GSO_NONE)%Z
  then Fail (CompletionRequiresGsoNone (gso_type offload)) else
  match ip_packet with
  | [] => Fail EmptyIpPacket
  | _ =>
      if negb (needs_checksum offload) then Ret None else
      let unsupported_flags := Z.land (flags offload)
        (U8_MAX - Z.lor VIRTIO_NET_HDR_F_NEEDS_CSUM VIRTIO_NET_HDR_F_DATA_VALID) in
      if negb (unsupported_flags =? 0)%Z then Fail (UnsupportedChecksumFlags unsupported_flags) else
      let start := Z.to_nat (csum_start offload) in
      if (length ip_packet <=? start)%nat then Fail (InvalidCsumStart start (length ip_packet)) else
      let checksum_index := (start + Z.to_nat (csum_offset offload))%nat in
      if (length ip_packet <? checksum_index + 2)%nat
      then Fail (InvalidCsumOffset (Z.to_nat (csum_offset offload)) checksum_index (length ip_packet))
      else Ret (Some (start, checksum_index))
  end.

Section Emit.
Context {St : Type} (emit : St -> list Z -> St * res unit).

(** The [for chunk_offset in ...] loop: build, emit, stop at the first error. *)
Fixpoint emit_chunks (build : nat -> res (list Z)) (offsets : list nat) (s : St) : St * res unit :=
  match offsets with
  | [] => (s, Ret tt)
  | o :: r =>
      match build o with
      | Ret seg =>
          let (s', res) := emit s seg in
          match res with
          | Ret _ => emit_chunks build r s'
          | Fail e => (s', Fail e)
          | Panic => (s', Panic)
          end
      | Fail e => (s, Fail e)
      | Panic => (s, Panic)
      end
  end.

(** [emit] applied to a value that may have failed before. *)
Definition emit_result (r : res (list Z)) (s : St) : St * res unit :=
  match r with
  | Ret p => emit s p
  | Fail e => (s, Fail e)
  | Panic => (s, Panic)
  end.

Definition segment_tcp_gso_into (offload : VirtioNetHdr) (ip_packet : list Z) (s : St)
  : St * res unit :=
  match segment_layout offload ip_packet with
  | Fail e => (s, Fail e)
  | Panic => (s, Panic)
  | Ret (version, tcp_offset, header_len) =>
      match slice_from (E:=offload_error) ip_packet header_len with
      | Ret payload =>
          let size := Z.to_nat (gso_size offload) in
          if (length payload <=? size)%nat then
            if negb (needs_checksum offload) then emit s ip_packet
            else emit_result (complete_single ip_packet tcp_offset (tcp_offset + 16)) s
          else
            match (s0 ← idx ip_packet (tcp_offset + 4); s1 ← idx ip_packet (tcp_offset + 5);
                   s2 ← idx ip_packet (tcp_offset + 6); s3 ← idx ip_packet (tcp_offset + 7);
                   f ← idx ip_packet (tcp_offset + 13);
                   Ret (E:=offload_error) (be_value [s0; s1; s2; s3], f)) with
            | Ret (base_seq, original_tcp_flags) =>
                emit_chunks (build_segment version tcp_offset header_len size ip_packet payload
                               base_seq original_tcp_flags)
                  (step_by (length payload) size) s
            | Fail e => (s, Fail e)
            | Panic => (s, Panic)
            end
      | Fail e => (s, Fail e)
      | Panic => (s, Panic)
      end
  end.

Definition materialize_offload_into (offload : VirtioNetHdr) (ip_packet : list Z) (s : St)
  : St * res unit :=
  if is_tcp_gso offload then segment_tcp_gso_into offload ip_packet s
  else if negb (gso_type offload =? VIRTIO_NET_HDR_GSO_NONE)%Z
  then (s, Fail (UnsupportedGsoFromMetadata (gso_type offload)))
  else
    match validate_checksum_offload offload ip_packet with
    | Fail e => (s, Fail e)
    | Panic => (s, Panic)
    | Ret None => emit s ip_packet
    | Ret (Some (start, checksum_index)) =>
        emit_result (complete_single ip_packet start checksum_index) s
    end.
End Emit.

(** The collecting callback of the test wrappers [segment_tcp_gso_packet] and
    [materialize_offload_packet]. *)
Definition collect (out : list (list Z)) (seg : list Z) : list (list Z) * res unit :=
  (out ++ [seg], Ret tt).

Definition segment_tcp_gso_packet (offload : VirtioNetHdr) (ip_packet : list Z)
  : res (list (list Z)) :=
  let (out, r) := segment_tcp_gso_into collect offload ip_packet [] in
  _ ← r; Ret out.

Definition materialize_offload_packet (offload : VirtioNetHdr) (ip_packet : list Z)
  : res (list (list Z)) :=
  let (out, r) := materialize_offload_into collect offload ip_packet [] in
  _ ← r; Ret out.

(** ** Layout *)

(** What a successful layout says. *)
Record layout_ok (offload : VirtioNetHdr) (ip_packet : list Z) (version : Z) (off hl : nat) : Prop := {
  lo_gso : is_tcp_gso offload = true;
  lo_version : version = Z.shiftr (ip_packet !!! 0%nat) 4;
  lo_types : version = 4%Z /\ normalized_gso_type offload = VIRTIO_NET_HDR_GSO_TCPV4 \/
             version = 6%Z /\ normalized_gso_type offload = VIRTIO_NET_HDR_GSO_TCPV6;
  lo_off : if needs_checksum offload then off = Z.to_nat (csum_start offload)
           else off = (if (version =? 4)%Z then ihl_of ip_packet else 40%nat) /\
                (20 <= off)%nat /\
                ip_packet !!! (if (version =? 4)%Z then 9%nat else 6%nat) = 6%Z;
  lo_hl : hl = (off + tcp_hlen_at ip_packet off)%nat;
  lo_thl : (20 <= tcp_hlen_at ip_packet off)%nat;
  lo_len : (hl <= length ip_packet)%nat;
}.

Lemma ip_header_len_for_tcp_cases p v :
  p <> [] ->
  match ip_header_len_for_tcp p v with
  | Ret off => off = (if (v =? 4)%Z then ihl_of p else 40%nat) /\ (20 <= off)%nat /\
               p !!! (if (v =? 4)%Z then 9%nat else 6%nat) = 6%Z
  | Fail _ => True
  | Panic => False
  end.
Proof.
  intros Hne. assert (0 < length p)%nat by (destruct p; [done|simpl; lia]).
  unfold ip_header_len_for_tcp. destruct (Z.eqb_spec v 4).
  - run_slices.
    fold (ihl_of p). destruct (Nat.ltb_spec (ihl_of p) 20); cbn [orb]; [done|].
    destruct (Nat.ltb_spec (length p) (ihl_of p)); [done|]. cbn [orb]. run_slices.
    by destruct (Z.eqb_spec (p !!! 9%nat) 6).
  - destruct (Z.eqb_spec v 6); [|done]. destruct (Nat.ltb_spec (length p) 40); [done|].
    run_slices. destruct (Z.eqb_spec (p !!! 6%nat) 6); cbn [negb]; [|done].
    repeat split; done || lia.
Qed.

Lemma segment_layout_cases offload p :
  match segment_layout offload p with
  | Ret (version, off, hl) => layout_ok offload p version off hl
  | Fail _ => True
  | Panic => False
  end.
Proof.
  unfold segment_layout. destruct (is_tcp_gso offload) eqn:Hg; cbn [negb]; [|done].
  destruct p as [|b0 r]; [done|]. set (p := b0 :: r). set (v := Z.shiftr b0 4).
  destruct ((v =? 4)%Z && _ || _) eqn:Hv.
  2:{ by destruct ((v =? 4)%Z || (v =? 6)%Z). }
  pose proof (ip_header_len_for_tcp_cases p v ltac:(done)) as Hc.
  assert (Ho : match (if needs_checksum offload then Ret (Z.to_nat (csum_start offload))
                      else ip_header_len_for_tcp p v) with
    | Ret off => if needs_checksum offload then off = Z.to_nat (csum_start offload)
        else off = (if (v =? 4)%Z then ihl_of p else 40%nat) /\ (20 <= off)%nat /\
             p !!! (if (v =? 4)%Z then 9%nat else 6%nat) = 6%Z
    | Fail _ => True
    | Panic => False end) by (by destruct (needs_checksum offload)).
  destruct (if needs_checksum offload then _ else _) as [off|e|]; [|done|done].
  cbn [mbind outcome_bind].
  destruct (Nat.ltb_spec (length p) (off + 20)); [done|]. run_slices.
  fold (tcp_hlen_at p off).
  destruct (Nat.ltb_spec (tcp_hlen_at p off) 20); cbn [orb]; [done|].
  destruct (Nat.ltb_spec (length p) (off + tcp_hlen_at p off)); [done|].
  constructor; try done. lia.
Qed.

Lemma layout_version offload p version off hl :
  layout_ok offload p version off hl ->
  exists v6 : bool, version = (if v6 then 6 else 4)%Z.
Proof. intros []. destruct lo_types0 as [[-> _]|[-> _]]; [by exists false | by exists true]. Qed.

(** ** Segments never panic *)

Lemma update_ip_not_panic v6 p n : update_ip v6 p n <> Panic.
Proof.
  unfold update_ip. destruct v6.
  - pose proof (update_ipv6_cases p n). by destruct (update_ipv6_payload_length p n).
  - pose proof (update_ipv4_cases p n). by destruct (update_ipv4_lengths_and_checksum p n).
Qed.

Lemma update_ip_length v6 p n q : update_ip v6 p n = Ret q -> length q = length p.
Proof.
  unfold update_ip. destruct v6; intros Hq.
  - pose proof (update_ipv6_cases p n) as Hc. rewrite Hq in Hc.
    destruct Hc as (? & ? & ? & ->). by lengths.
  - pose proof (update_ipv4_cases p n) as Hc. rewrite Hq in Hc.
    destruct Hc as (? & ? & ? & ? & ->). unfold ipv4_updated, ipv4_zeroed. by lengths.
Qed.

Lemma tcp_checksum_not_panic v6 p off : tcp_checksum v6 p off <> Panic.
Proof.
  unfold tcp_checksum, tcp_checksum_ipv6, tcp_checksum_ipv4.
  destruct v6;
  [destruct (Nat.ltb_spec (length p) 40)|destruct (Nat.ltb_spec (length p) 20)]; cbn [orb]; try done;
  destruct (Nat.leb_spec (length p) off); try done; cbn [orb];
  destruct (Nat.ltb_spec (length p) off); try done; case_match; try done; by run_slices.
Qed.

(** The loop body with the version as a boolean. *)
Lemma build_segment_bool (v6 : bool) off hl size ip payload base fl o :
  build_segment (if v6 then 6 else 4) off hl size ip payload base fl o =
  (let e := Nat.min (o + size) (length payload) in
   chunk ← slice payload o e; hdr ← slice ip 0 hl;
   if (U32_MAX <? Z.of_nat o)%Z then Fail (PayloadOffsetTooLarge o) else
   s1 ← splice (hdr ++ chunk) (off + 4) (be_bytes 4 (wrapping_add32 base (Z.of_nat o)));
   s2 ← (if (e <? length payload)%nat then set_idx s1 (off + 13) (Z.land fl 246) else Ret s1);
   s3 ← update_ip v6 s2 (hl + length chunk);
   s4 ← set_idx s3 (off + 16) 0; s5 ← set_idx s4 (off + 16 + 1) 0;
   c ← tcp_checksum v6 s5 off;
   splice s5 (off + 16) (be_bytes 2 c)).
Proof. by destruct v6. Qed.

Lemma build_segment_not_panic (v6 : bool) off hl size ip payload base fl o :
  (off + 20 <= hl)%nat -> (hl <= length ip)%nat -> (o < length payload)%nat ->
  build_segment (if v6 then 6 else 4) off hl size ip payload base fl o <> Panic.
Proof.
  intros H1 H2 H3. rewrite build_segment_bool. cbv zeta. run_slices. case_match; [done|].
  rewrite drop_0, Nat.sub_0_r. run_slices. set (s1 := spliced _ _ _).
  assert (Hs1 : (hl <= length s1)%nat) by (unfold s1; lengths; lia).
  apply bind_not_panic.
  { case_match; [|done]. unfold set_idx. by run_slices. }
  intros s2 Hs2. assert (Hl2 : length s2 = length s1).
  { case_match; [|by simplify_eq]. unfold set_idx in Hs2. rewrite splice_ok in Hs2 by slice_side.
    simplify_eq. by lengths. }
  apply bind_not_panic; [apply update_ip_not_panic|].
  intros s3 Hs3%update_ip_length. unfold set_idx. run_slices.
  apply bind_not_panic; [apply tcp_checksum_not_panic|].
  intros c _. by run_slices.
Qed.

Lemma complete_single_not_panic p off ci :
  (off <= length p)%nat -> (ci + 2 <= length p)%nat -> complete_single p off ci <> Panic.
Proof. intros. unfold complete_single. by run_slices. Qed.

Lemma in_step_by o n step : (0 < step)%nat -> In o (step_by n step) -> (o < n)%nat.
Proof.
  unfold step_by. intros Hs [k [<- Hk]]%in_map_iff. apply in_seq in Hk. destruct Hk as [_ Hk].
  assert (S k * step <= (n + step - 1) / step * step)%nat by (apply Nat.mul_le_mono_r; lia).
  pose proof (Nat.Div0.mul_div_le (n + step - 1) step). lia.
Qed.

Lemma emit_chunks_not_panic {St} (emit : St -> list Z -> St * res unit) build offsets s :
  (forall s p, snd (emit s p) <> Panic) -> (forall o, In o offsets -> build o <> Panic) ->
  snd (emit_chunks emit build offsets s) <> Panic.
Proof.
  intros He. revert s. induction offsets as [|o r IH]; intros s Hb; [done|]. cbn [emit_chunks].
  pose proof (Hb o (in_eq _ _)). destruct (build o) as [seg| |]; [|done..].
  pose proof (He s seg). destruct (emit s seg) as [s' [[]| |]]; [|done..].
  apply IH. intros o' Ho'. apply Hb. by right.
Qed.

(** ** What a segment carries *)

(** The positions a segment rewrites in the copied header. *)
Definition rewritten (v6 : bool) (off i : nat) : Prop :=
  len_field v6 i \/ (off + 4 <= i < off + 8)%nat \/ i = (off + 13)%nat \/
  i = (off + 16)%nat \/ i = (off + 17)%nat.

(** A plain TCP packet that carries [chunk] of the super-packet [ip] at
    payload offset [o]. *)
Record plain_segment (v6 : bool) (off hl : nat) (ip : list Z) (o : nat) (last : bool)
    (chunk q : list Z) : Prop := {
  ps_len : length q = (hl + length chunk)%nat;
  ps_bytes : bytes_ok q;
  ps_payload : drop hl q = chunk;
  ps_iplen : ip_lengths_ok v6 q;
  ps_seq : seq_at q off = wrap 32 (seq_at ip off + Z.of_nat o);
  ps_flags : q !!! (off + 13)%nat
             = if last then ip !!! (off + 13)%nat else Z.land (ip !!! (off + 13)%nat) 246;
  ps_tcpsum : csum_valid (pseudo_sum v6 q (length q - off) + word_sum (drop off q));
  ps_header : forall i, (i < hl)%nat -> ~ rewritten v6 off i -> q !!! i = ip !!! i;
}.

(** The packets whose headers the segmenter can rewrite: the TCP header starts
    after the fixed IP header, the IPv4 header is TCP with a sane IHL, and
    header and chunk fit the length field. *)
Record segmentable (v6 : bool) (off hl size : nat) (ip : list Z) : Prop := {
  sg_bytes : bytes_ok ip;
  sg_off : (ip_hlen v6 <= off)%nat;
  sg_hl : (off + 20 <= hl)%nat;
  sg_len : (hl <= length ip)%nat;
  sg_size : (0 < size)%nat;
  sg_fit : (Z.of_nat (hl + size) <= 65535)%Z;
  sg_v4 : v6 = false -> ip !!! 9%nat = 6%Z /\ (20 <= ihl_of ip <= off)%nat;
}.

(** Writing the sequence number and the flags into the copied header. *)
Definition seq_flags_written (off : nat) (ip hdr : list Z) (o : nat) (last : bool) : list Z :=
  let s1 := spliced hdr (off + 4) (be_bytes 4 (wrapping_add32 (seq_at ip off) (Z.of_nat o))) in
  if last then s1 else spliced s1 (off + 13) [Z.land (ip !!! (off + 13)%nat) 246].

Lemma land_byte z k : is_byte z -> (0 <= k)%Z -> is_byte (Z.land z k).
Proof.
  intros Hz Hk. split; [apply Z.land_nonneg; lia|].
  destruct (Z.eq_dec (Z.land z k) 0%Z) as [->|Hne]; [lia|].
  assert (0 < Z.land z k)%Z by (pose proof (proj2 (Z.land_nonneg z k) (or_intror Hk)); lia).
  apply Z.log2_lt_pow2; [done|].
  eapply Z.le_lt_trans; [apply Z.log2_land; ulia|].
  assert (Hl : (Z.log2 z < 8)%Z).
  { destruct (Z.eq_dec z 0%Z) as [->|]; [done|]. apply Z.log2_lt_pow2; ulia. }
  lia.
Qed.

Lemma be_value4 v a b c d :
  be_bytes 4 v = [a; b; c; d] -> is_uint 32 v -> be_value [a; b; c; d] = v.
Proof.
  intros <- Hv. rewrite be_value_be_bytes. apply Z.mod_small.
  change (256 ^ Z.of_nat 4)%Z with (2 ^ 32)%Z. exact Hv.
Qed.

Lemma seq_flags_spec off ip hdr o last :
  bytes_ok ip -> bytes_ok hdr -> (off + 20 <= length hdr)%nat -> (off + 20 <= length ip)%nat ->
  hdr !!! (off + 13)%nat = ip !!! (off + 13)%nat ->
  let q := seq_flags_written off ip hdr o last in
  length q = length hdr /\ bytes_ok q /\
  seq_at q off = wrap 32 (seq_at ip off + Z.of_nat o) /\
  q !!! (off + 13)%nat
    = (if last then ip !!! (off + 13)%nat else Z.land (ip !!! (off + 13)%nat) 246) /\
  (forall i, ~ (off + 4 <= i < off + 8)%nat -> i <> (off + 13)%nat -> q !! i = hdr !! i).
Proof.
  intros Hbi Hb Hl Hli H13 q. unfold q, seq_flags_written.
  set (w := wrapping_add32 (seq_at ip off) (Z.of_nat o)).
  set (s1 := spliced hdr (off + 4) (be_bytes 4 w)).
  assert (Hl1 : length s1 = length hdr) by (unfold s1; by lengths).
  assert (Hb1 : bytes_ok s1) by (unfold s1; eauto with ezvpn).
  assert (Hw : is_uint 32 w) by (apply wrap_uint; lia).
  assert (Hs1 : seq_at s1 off = w).
  { unfold seq_at, s1. destruct (be_bytes 4 w) as [|a [|b [|c [|d [|]]]]] eqn:He;
      try (apply (f_equal length) in He; rewrite be_bytes_length in He; discriminate He).
    rewrite !spliced_lookup_total by slice_side. rewrite !decide_True by slice_side.
    replace (off + 4 - (off + 4))%nat with 0%nat by lia.
    replace (off + 5 - (off + 4))%nat with 1%nat by lia.
    replace (off + 6 - (off + 4))%nat with 2%nat by lia.
    replace (off + 7 - (off + 4))%nat with 3%nat by lia. by apply be_value4. }
  assert (Hu1 : forall i, ~ (off + 4 <= i < off + 8)%nat -> s1 !! i = hdr !! i).
  { intros i Hi. unfold s1. rewrite spliced_lookup by slice_side. by rewrite decide_False by slice_side. }
  destruct last.
  - split_and!; try done; [|by intros; apply Hu1].
    by rewrite list_lookup_total_alt, Hu1, <-list_lookup_total_alt by lia.
  - split_and!.
    + by lengths.
    + apply spliced_bytes_ok; [done|]. constructor; [|constructor].
      apply land_byte; [apply bytes_ok_lookup; done || lia | lia].
    + change (wrap 32 (seq_at ip off + Z.of_nat o)) with w. rewrite <-Hs1. unfold seq_at.
      rewrite !(spliced_lookup_total s1) by slice_side. by rewrite !decide_False by slice_side.
    + rewrite spliced_lookup_total by slice_side. rewrite decide_True by slice_side.
      by replace (off + 13 - (off + 13))%nat with 0%nat by lia.
    + intros i Hi H. rewrite spliced_lookup by slice_side. rewrite decide_False by slice_side.
      by apply Hu1.
Qed.

(** The raw copy of the headers and one chunk can have its lengths updated. *)
Lemma segment_updatable v6 off hl size ip (chunk q : list Z) :
  segmentable v6 off hl size ip -> (length chunk <= size)%nat ->
  length q = (hl + length chunk)%nat ->
  q !! 0%nat = ip !! 0%nat -> (v6 = false -> q !! 9%nat = ip !! 9%nat) -> updatable v6 q.
Proof.
  intros [Hb Ho Hh Hl Hs Hf H4] Hc Hq H0 H9. unfold updatable, ip_hlen in *.
  destruct v6; [lia|]. destruct (H4 eq_refl) as [Hp Hi]. unfold ihl_of in *.
  rewrite !list_lookup_total_alt, H0, (H9 eq_refl), <-!list_lookup_total_alt. repeat split; try done; lia.
Qed.

(** The checksum field, cleared and filled in again. *)
Lemma field_cleared s off : (off + 18 <= length s)%nat ->
  spliced s (off + 16) [0; 0]%Z !!! (off + 16)%nat = 0%Z /\ spliced s (off + 16) [0; 0]%Z !!! (off + 17)%nat = 0%Z.
Proof.
  intros Hl. rewrite !spliced_lookup_total by slice_side. rewrite !decide_True by slice_side.
  replace (off + 16 - (off + 16))%nat with 0%nat by lia.
  by replace (off + 17 - (off + 16))%nat with 1%nat by lia.
Qed.

Lemma field_filled s off c i : (off + 18 <= length s)%nat -> i <> (off + 16)%nat -> i <> (off + 17)%nat ->
  spliced (spliced s (off + 16) [0; 0]%Z) (off + 16) (be_bytes 2 c) !! i = s !! i.
Proof.
  intros Hl ??. rewrite !spliced_lookup by slice_side. by rewrite !decide_False by slice_side.
Qed.

(** The last steps of a round: the lengths updated, the checksum filled in. *)
Lemma finish_segment v6 off hl size ip o last chunk s2 :
  segmentable v6 off hl size ip -> (length chunk <= size)%nat ->
  length s2 = (hl + length chunk)%nat -> bytes_ok s2 -> drop hl s2 = chunk ->
  seq_at s2 off = wrap 32 (seq_at ip off + Z.of_nat o) ->
  s2 !!! (off + 13)%nat
    = (if last : bool then ip !!! (off + 13)%nat else Z.land (ip !!! (off + 13)%nat) 246) ->
  (forall i, (i < hl)%nat -> ~ (off + 4 <= i < off + 8)%nat -> i <> (off + 13)%nat ->
     s2 !! i = ip !! i) ->
  exists q,
    (s3 ← update_ip v6 s2 (hl + length chunk);
     s4 ← set_idx s3 (off + 16) 0; s5 ← set_idx s4 (off + 16 + 1) 0;
     c ← tcp_checksum v6 s5 off; splice s5 (off + 16) (be_bytes 2 c)) = Ret q /\
    plain_segment v6 off hl ip o last chunk q.
Proof.
  intros Hsg Hc Hl2 Hb2 Hpl Hsq Hfl Hun.
  pose proof Hsg as [Hb Ho Hh Hlen Hsz Hfit Hv4].
  assert (Ho20 : (20 <= off)%nat) by (unfold ip_hlen in Ho; destruct v6; lia).
  destruct (update_ip_spec v6 s2) as (s3 & Hu & Hl3 & Hb3 & Hip3 & Hun3); [done| |].
  { eapply segment_updatable; try done; intros; apply Hun; lia. }
  rewrite <-Hl2, Hu. cbn [mbind outcome_bind]. unfold set_idx. run_slices.
  replace (off + 16 + 1)%nat with (S (off + 16)) by lia. rewrite spliced_adjacent by slice_side.
  set (s5 := spliced s3 (off + 16) [0; 0]%Z).
  assert (Hl5 : length s5 = length s3) by (unfold s5; by lengths).
  assert (Hb5 : bytes_ok s5) by (apply spliced_bytes_ok; [done|]; repeat constructor; ulia).
  assert (Hreg : tcp_region_ok v6 s5 off).
  { unfold tcp_region_ok. unfold ip_hlen in Ho. destruct v6; lia. }
  destruct (tcp_checksum v6 s5 off) as [c| |] eqn:Hck;
    rewrite tcp_checksum_exact in Hck by done; try done.
  pose proof (field_cleared s3 off ltac:(lia)) as H5z. fold s5 in H5z.
  cbn [mbind outcome_bind]. run_slices. set (q := spliced s5 (off + 16) (be_bytes 2 c)).
  exists q. split; [done|].
  assert (Hlq : length q = length s2) by (unfold q; lengths; lia).
  assert (Hq3 : forall i, i <> (off + 16)%nat -> i <> (off + 17)%nat -> q !! i = s3 !! i).
  { intros i ??. apply field_filled; [lia|done..]. }
  assert (Hq3t : forall i, i <> (off + 16)%nat -> i <> (off + 17)%nat -> q !!! i = s3 !!! i).
  { intros. by rewrite !list_lookup_total_alt, Hq3. }
  assert (Hnl : forall i, (off <= i)%nat -> ~ len_field v6 i).
  { intros i Hi. unfold len_field. unfold ip_hlen in Ho. destruct v6; lia. }
  assert (Hq2 : forall i, (off <= i)%nat -> i <> (off + 16)%nat -> i <> (off + 17)%nat ->
     q !! i = s2 !! i).
  { intros. rewrite Hq3 by done. apply Hun3. by apply Hnl. }
  assert (Hq2t : forall i, (off <= i)%nat -> i <> (off + 16)%nat -> i <> (off + 17)%nat ->
     q !!! i = s2 !!! i).
  { intros. by rewrite !list_lookup_total_alt, Hq2. }
  constructor.
  - lia.
  - unfold q. eauto with ezvpn.
  - rewrite <-Hpl. apply list_eq. intros i. rewrite !lookup_drop. apply Hq2; lia.
  - unfold ip_lengths_ok, ihl_of in *. rewrite Hlq, <-Hl3, !Hq3t by lia. destruct v6; [done|].
    destruct Hip3 as [? Hcs]. split; [done|]. change (csum_valid (word_sum (take (ihl_of s3) q))).
    assert (Hihl : (ihl_of s3 <= off + 16)%nat).
    { assert (Hi : ihl_of s3 = ihl_of ip).
      { unfold ihl_of. by rewrite !list_lookup_total_alt, Hun3, Hun by (simpl; lia). }
      fold (ihl_of ip) in Hv4. destruct (Hv4 eq_refl). lia. }
    unfold q, s5. rewrite !take_spliced_below by slice_side. exact Hcs.
  - unfold seq_at in *. rewrite !Hq2t by lia. exact Hsq.
  - rewrite Hq2t by lia. exact Hfl.
  - eapply tcp_checksum_verifies; try done; try lia; try tauto.
    + rewrite tcp_checksum_exact by done. exact Hck.
  - intros i Hi Hr. unfold rewritten in Hr.
    rewrite Hq3t by tauto. rewrite !list_lookup_total_alt, Hun3 by tauto. by rewrite Hun by tauto.
Qed.

Lemma build_segment_spec (v6 : bool) off hl size ip o :
  segmentable v6 off hl size ip -> (o < length ip - hl)%nat -> (Z.of_nat o <= U32_MAX)%Z ->
  let payload := drop hl ip in
  exists q,
    build_segment (if v6 then 6 else 4) off hl size ip payload (seq_at ip off)
      (ip !!! (off + 13)%nat) o = Ret q /\
    plain_segment v6 off hl ip o (length payload <=? o + size)%nat
      (take size (drop o payload)) q.
Proof.
  intros Hsg Ho Hu payload. pose proof Hsg as [Hb _ Hh Hlen Hsz _ _].
  assert (Hlp : length payload = (length ip - hl)%nat) by (unfold payload; by lengths).
  rewrite build_segment_bool. cbv zeta. run_slices. rewrite (proj2 (Z.ltb_ge _ _)) by done.
  rewrite drop_0, Nat.sub_0_r. set (chunk := take size (drop o payload)).
  assert (Hck : take (Nat.min (o + size) (length payload) - o) (drop o payload) = chunk).
  { unfold chunk. destruct (Nat.le_ge_cases (o + size) (length payload)).
    - f_equal. lia.
    - rewrite !take_ge by (lengths; lia). done. }
  rewrite Hck. assert (Hcl : (length chunk <= size)%nat) by (unfold chunk; lengths; lia).
  set (hdr := take hl ip ++ chunk).
  assert (Hlh : length hdr = (hl + length chunk)%nat) by (unfold hdr; lengths; lia).
  assert (Hbh : bytes_ok hdr).
  { unfold hdr, chunk, payload. apply Forall_app. split; eauto 6 with ezvpn. }
  assert (Hdr : forall i, (i < hl)%nat -> hdr !! i = ip !! i).
  { intros i Hi. unfold hdr. by rewrite lookup_app_l, lookup_take_lt by (lengths; lia). }
  destruct (seq_flags_spec off ip hdr o (length payload <=? o + size)%nat)
    as (Hl2 & Hb2 & Hsq & Hfl & Hun); try done; try lia.
  { by rewrite !list_lookup_total_alt, Hdr by lia. }
  set (s2 := seq_flags_written off ip hdr o (length payload <=? o + size)%nat) in *.
  destruct (finish_segment v6 off hl size ip o (length payload <=? o + size)%nat chunk s2)
    as (q & Hq & Hps); try done; try lia.
  { transitivity (drop hl hdr).
    - apply list_eq. intros i. rewrite !lookup_drop. apply Hun; lia.
    - unfold hdr. rewrite drop_app_length' by (lengths; lia). done. }
  { intros i Hi H4 H13. rewrite Hun by done. by apply Hdr. }
  exists q. split; [|done]. rewrite <-Hq. run_slices.
  unfold s2, seq_flags_written.
  destruct (Nat.leb_spec (length payload) (o + size)).
  - by rewrite (proj2 (Nat.ltb_ge _ _)) by lia.
  - rewrite (proj2 (Nat.ltb_lt _ _)) by lia. unfold set_idx. by run_slices.
Qed.

(** ** The loop over the chunks *)

(** [emit] on a list of packets, stopping at the first error. *)
Fixpoint emit_list {St} (emit : St -> list Z -> St * res unit) (segs : list (list Z)) (s : St)
  : St * res unit :=
  match segs with
  | [] => (s, Ret tt)
  | q :: r =>
      let (s', res) := emit s q in
      match res with
      | Ret _ => emit_list emit r s'
      | Fail e => (s', Fail e)
      | Panic => (s', Panic)
      end
  end.

Lemma emit_chunks_list {St} (emit : St -> list Z -> St * res unit) build offsets segs s :
  Forall2 (fun o q => build o = Ret q) offsets segs ->
  emit_chunks emit build offsets s = emit_list emit segs s.
Proof.
  intros H. revert s. induction H as [|o q r segs Hq _ IH]; intros s; [done|].
  cbn [emit_chunks emit_list]. rewrite Hq. destruct (emit s q) as [s' [[]| |]]; [apply IH|done..].
Qed.

Lemma emit_list_collect segs out : emit_list collect segs out = (out ++ segs, Ret tt).
Proof.
  revert out. induction segs as [|q r IH]; intros out; cbn [emit_list collect].
  - by rewrite app_nil_r.
  - rewrite IH. by rewrite <-app_assoc.
Qed.

Definition chunk_count (n step : nat) : nat := ((n + step - 1) / step)%nat.

Lemma step_by_lookup n step i :
  step_by n step !! i = if decide (i < chunk_count n step)%nat then Some (i * step)%nat else None.
Proof.
  unfold step_by, chunk_count. rewrite list_lookup_fmap. case_decide.
  - by rewrite lookup_seq_lt.
  - by rewrite lookup_seq_ge by lia.
Qed.

(** The chunks of a payload cover it. *)
Lemma chunk_count_bounds n step :
  (0 < step)%nat -> (0 < n)%nat ->
  ((chunk_count n step - 1) * step < n <= chunk_count n step * step)%nat /\
  (0 < chunk_count n step)%nat.
Proof.
  intros Hs Hn. unfold chunk_count.
  pose proof (Nat.div_mod (n + step - 1) step ltac:(lia)) as Hd.
  pose proof (Nat.mod_upper_bound (n + step - 1) step ltac:(lia)).
  set (k := ((n + step - 1) / step)%nat) in *. set (r := ((n + step - 1) mod step)%nat) in *.
  assert (0 < k)%nat by (destruct (decide (k = 0%nat)) as [->|]; lia).
  rewrite Nat.mul_sub_distr_r, Nat.mul_comm. nia.
Qed.

Lemma concat_chunks step k (p : list Z) :
  (length p <= k * step)%nat ->
  concat (map (fun i => take step (drop (i * step) p)) (List.seq 0 k)) = p.
Proof.
  revert p. induction k as [|k IH]; intros p Hp.
  { destruct p; [done|simpl in Hp; lia]. }
  cbn [List.seq map concat]. rewrite Nat.mul_0_l, drop_0.
  transitivity (take step p ++ drop step p); [|apply take_drop]. f_equal.
  rewrite <-seq_shift, map_map. rewrite <-(IH (drop step p)) by (rewrite length_drop; lia).
  f_equal. apply map_ext. intros i. by rewrite drop_drop.
Qed.

Lemma Forall2_exists {A B} (P : A -> B -> Prop) (l : list A) :
  Forall (fun a => exists b, P a b) l -> exists k, Forall2 P l k.
Proof.
  induction 1 as [|a l [b Hb] _ [k Hk]]; [by exists []|]. exists (b :: k). by constructor.
Qed.

(** Every chunk builds, in order. *)
Lemma chunks_build (v6 : bool) off hl size ip :
  segmentable v6 off hl size ip -> (hl < length ip)%nat -> (Z.of_nat (length ip) <= U32_MAX)%Z ->
  exists segs,
    Forall2 (fun o q => build_segment (if v6 then 6 else 4) off hl size ip (drop hl ip)
               (seq_at ip off) (ip !!! (off + 13)%nat) o = Ret q)
      (step_by (length ip - hl) size) segs /\
    length segs = chunk_count (length ip - hl) size /\
    (forall i q, segs !! i = Some q ->
       plain_segment v6 off hl ip (i * size) (S i =? length segs)%nat
         (take size (drop (i * size) (drop hl ip))) q).
Proof.
  intros Hsg Hl Hu. pose proof (sg_size _ _ _ _ _ Hsg) as Hsz.
  set (n := (length ip - hl)%nat) in *.
  set (P := fun o q => build_segment (if v6 then 6 else 4) off hl size ip (drop hl ip)
               (seq_at ip off) (ip !!! (off + 13)%nat) o = Ret q /\
             plain_segment v6 off hl ip o (length (drop hl ip) <=? o + size)%nat
               (take size (drop o (drop hl ip))) q).
  destruct (Forall2_exists P (step_by n size)) as [segs Hall].
  { apply List.Forall_forall. intros o Ho. apply in_step_by in Ho; [|done].
    apply build_segment_spec; [done|lia|ulia]. }
  exists segs. split; [|split].
  - eapply Forall2_impl; [exact Hall|]. by intros o q [].
  - rewrite <-(Forall2_length _ _ _ Hall). unfold step_by. by rewrite length_map, length_seq.
  - intros i q Hi. destruct (Forall2_lookup_r _ _ _ _ _ Hall Hi) as (o & Ho & _ & Hps).
    rewrite <-(Forall2_length _ _ _ Hall). unfold step_by in *.
    rewrite length_map, length_seq. fold (chunk_count n size).
    change (step_by n size !! i = Some o) in Ho. rewrite step_by_lookup in Ho.
    case_decide as Hlt; simplify_eq.
    replace (S i =? chunk_count n size)%nat with (length (drop hl ip) <=? i * size + size)%nat;
      [done|]. destruct (chunk_count_bounds n size) as [[Hlo Hhi] Hpos]; [lia..|].
    rewrite length_drop. fold n.
    destruct (Nat.eqb_spec (S i) (chunk_count n size)) as [He|He].
    + apply Nat.leb_le. rewrite <-He in Hhi. lia.
    + apply Nat.leb_gt. assert (S i * size <= (chunk_count n size - 1) * size)%nat
        by (apply Nat.mul_le_mono_r; lia). lia.
Qed.

Lemma segment_into_run {St} (emit : St -> list Z -> St * res unit) (v6 : bool) off hl h ip s :
  segment_layout h ip = Ret ((if v6 then 6 else 4)%Z, off, hl) ->
  (Z.to_nat (gso_size h) < length ip - hl)%nat ->
  segment_tcp_gso_into emit h ip s =
  emit_chunks emit (build_segment (if v6 then 6 else 4) off hl (Z.to_nat (gso_size h)) ip
      (drop hl ip) (seq_at ip off) (ip !!! (off + 13)%nat))
    (step_by (length ip - hl) (Z.to_nat (gso_size h))) s.
Proof.
  intros Hlay Hsz. pose proof (segment_layout_cases h ip) as Hc. rewrite Hlay in Hc.
  destruct Hc as [_ _ _ _ Hhl Hth Hle]. unfold segment_tcp_gso_into. rewrite Hlay.
  run_slices. rewrite (proj2 (Nat.leb_gt _ _)) by (lengths; lia).
  run_slices. by rewrite length_drop.
Qed.

Lemma concat_segments off hl size ip segs v6 :
  (0 < size)%nat -> (hl < length ip)%nat ->
  length segs = chunk_count (length ip - hl) size ->
  (forall i q, segs !! i = Some q ->
     plain_segment v6 off hl ip (i * size) (S i =? length segs)%nat
         (take size (drop (i * size) (drop hl ip))) q) ->
  concat (map (drop hl) segs) = drop hl ip.
Proof.
  intros Hs Hl Hn Hall.
  transitivity (concat (map (fun i => take size (drop (i * size) (drop hl ip)))
                  (List.seq 0 (length segs)))).
  - f_equal. apply list_eq. intros i. rewrite !list_lookup_fmap.
    destruct (segs !! i) as [q|] eqn:Hi; simpl.
    + pose proof (lookup_lt_Some _ _ _ Hi). rewrite lookup_seq_lt by done. simpl. f_equal.
      by apply (ps_payload _ _ _ _ _ _ _ _ (Hall i q Hi)).
    + apply lookup_ge_None in Hi. by rewrite lookup_seq_ge.
  - apply concat_chunks. rewrite Hn, length_drop.
    by destruct (chunk_count_bounds (length ip - hl) size) as [[_ ?] _]; [lia..|].
Qed.

(** What the checksum metadata check accepts. *)
Lemma validate_checksum_cases offload p :
  match validate_checksum_offload offload p with
  | Ret (Some (start, ci)) =>
      gso_type offload = VIRTIO_NET_HDR_GSO_NONE /\ needs_checksum offload = true /\
      start = Z.to_nat (csum_start offload) /\
      ci = (start + Z.to_nat (csum_offset offload))%nat /\
      (start < length p)%nat /\ (ci + 2 <= length p)%nat
  | Ret None => needs_checksum offload = false /\ p <> []
  | Fail _ => True
  | Panic => False
  end.
Proof.
  unfold validate_checksum_offload.
  destruct (Z.eqb_spec (gso_type offload) VIRTIO_NET_HDR_GSO_NONE); cbn [negb]; [|done].
  destruct p as [|b r]; [done|]. set (p := b :: r).
  destruct (needs_checksum offload); cbn [negb]; [|done].
  destruct (negb _); [done|].
  destruct (Nat.leb_spec (length p) (Z.to_nat (csum_start offload))); [done|].
  destruct (Nat.ltb_spec (length p)
    (Z.to_nat (csum_start offload) + Z.to_nat (csum_offset offload) + 2)); [done|].
  repeat split; done || lia.
Qed.

Lemma materialize_not_panic {St} (emit : St -> list Z -> St * res unit)
    (offload : VirtioNetHdr) (ip_packet : list Z) (s : St) :
  (forall s p, snd (emit s p) <> Panic) ->
  snd (materialize_offload_into emit offload ip_packet s) <> Panic.
Proof.
  intros He.
  assert (Her : forall r s, r <> Panic -> snd (emit_result emit r s) <> Panic).
  { intros [p| |] s0 Hr; simpl; done || apply He. }
  unfold materialize_offload_into. destruct (is_tcp_gso offload) eqn:Hg.
  - unfold segment_tcp_gso_into. pose proof (segment_layout_cases offload ip_packet) as Hc.
    destruct (segment_layout offload ip_packet) as [[[v off] hl]| |]; [|done..].
    destruct (layout_version _ _ _ _ _ Hc) as [v6 ->].
    destruct Hc as [_ _ _ _ Hhl Hth Hle]. run_slices.
    destruct (Nat.leb_spec (length (drop hl ip_packet)) (Z.to_nat (gso_size offload))) as [H|H].
    + destruct (negb (needs_checksum offload)); [apply He|].
      apply Her, complete_single_not_panic; lia.
    + apply emit_chunks_not_panic; [done|]. intros o Ho.
      assert (0 < Z.to_nat (gso_size offload))%nat.
      { unfold is_tcp_gso in Hg. apply andb_prop in Hg as [_ Hz].
        rewrite length_drop in *. unfold step_by in Ho.
        destruct (Z.to_nat (gso_size offload)) eqn:E; [|lia]. by rewrite Nat.div_0_r in Ho. }
      apply in_step_by in Ho; [|done]. apply build_segment_not_panic; lia.
  - case_match; [done|]. pose proof (validate_checksum_cases offload ip_packet) as Hv.
    destruct (validate_checksum_offload offload ip_packet) as [[[start ci]|]| |]; try done.
    apply Her, complete_single_not_panic; lia.
Qed.

(** ** Properties *)

(** C37. Materializing offload metadata never panics: whatever the virtio
    header and the packet bytes a TUN device or a peer supplies, every index
    and slice of [materialize_offload_into] and [segment_tcp_gso_into] is in
    range, provided the callback itself does not panic. *)
Theorem materialize_never_panics {St} (emit : St -> list Z -> St * res unit)
    (offload : VirtioNetHdr) (ip_packet : list Z) (s : St) :
  (forall s p, snd (emit s p) <> Panic) ->
  snd (materialize_offload_into emit offload ip_packet s) <> Panic.
Proof. apply materialize_not_panic. Qed.

Lemma materialize_never_panics_witness :
  snd (materialize_offload_into collect (mkVirtioNetHdr 1 1 0 1 65535 7 0) [69; 0; 1]%Z []) <> Panic.
Proof. apply materialize_never_panics. intros s p. simpl. discriminate. Defined.

(** C7. Software segmentation is correct: a segmentable GSO packet is cut into
    [ceil(payload / gso_size)] plain packets whose payloads concatenate to the
    original payload; the i-th carries sequence number base + i*gso_size
    (modulo 2^32), FIN and PSH only on the last, matching IP lengths, verifying
    IPv4 and TCP checksums, and the original header elsewhere.  The callback
    sees exactly these packets, in order, until its first error. *)
Theorem gso_segmentation_correct (v6 : bool) off hl h ip :
  segment_layout h ip = Ret ((if v6 then 6 else 4)%Z, off, hl) ->
  segmentable v6 off hl (Z.to_nat (gso_size h)) ip ->
  (Z.to_nat (gso_size h) < length ip - hl)%nat -> (Z.of_nat (length ip) <= U32_MAX)%Z ->
  exists segs,
    segment_tcp_gso_packet h ip = Ret segs /\
    length segs = chunk_count (length ip - hl) (Z.to_nat (gso_size h)) /\
    concat (map (drop hl) segs) = drop hl ip /\
    (forall i q, segs !! i = Some q ->
       plain_segment v6 off hl ip (i * Z.to_nat (gso_size h)) (S i =? length segs)%nat
         (take (Z.to_nat (gso_size h)) (drop (i * Z.to_nat (gso_size h)) (drop hl ip))) q) /\
    (forall St (emit : St -> list Z -> St * res unit) s,
       segment_tcp_gso_into emit h ip s = emit_list emit segs s).
Proof.
  intros Hlay Hsg Hsz Hu. destruct (chunks_build v6 off hl _ ip Hsg) as (segs & Hf & Hn & Hall);
    [lia|done|].
  assert (Hemit : forall St (emit : St -> list Z -> St * res unit) s,
    segment_tcp_gso_into emit h ip s = emit_list emit segs s).
  { intros. rewrite (segment_into_run emit v6 off hl) by done. by apply emit_chunks_list. }
  exists segs. split_and!; try done.
  - unfold segment_tcp_gso_packet. by rewrite Hemit, emit_list_collect.
  - eapply concat_segments; try done; [apply Hsg | lia].
Qed.

Definition sample_super : list Z :=
  [69; 0; 0; 49; 0; 0; 64; 0; 64; 6; 0; 0; 10; 0; 0; 1; 10; 0; 0; 2;
   0; 80; 31; 144; 255; 255; 255; 254; 0; 0; 2; 0; 80; 25; 4; 0; 20; 34; 0; 0;
   1; 2; 3; 4; 5; 6; 7; 8; 9]%Z.

Definition sample_super_hdr : VirtioNetHdr := mkVirtioNetHdr 1 1 40 4 20 16 0.

Lemma sample_segmentable : segmentable false 20 40 4 sample_super.
Proof.
  constructor; try lia; try (vm_compute; lia); try (intros _; vm_compute; repeat split; lia).
  repeat constructor; vm_compute; congruence.
Qed.

Lemma gso_segmentation_correct_witness :
  exists segs, segment_tcp_gso_packet sample_super_hdr sample_super = Ret segs /\
    length segs = 3%nat /\ concat (map (drop 40) segs) = [1; 2; 3; 4; 5; 6; 7; 8; 9]%Z.
Proof.
  destruct (gso_segmentation_correct false 20 40 sample_super_hdr sample_super)
    as (segs & Hs & Hl & Hc & _).
  - vm_compute. reflexivity.
  - exact sample_segmentable.
  - vm_compute. lia.
  - vm_compute. discriminate.
  - exists segs. split; [exact Hs|]. split; [exact Hl | exact Hc].
Defined.

(** C40. Completing a NEEDS_CSUM packet without GSO ([materialize_offload_into]
    on the checksum-only path): exactly one packet is emitted; only the two
    checksum bytes change; and if the field held the partial pseudo-header sum
    (any value congruent to the pseudo-header sum [pre] modulo 65535, at an
    even offset), the result verifies at the receiver. *)
Theorem checksum_completion_correct h ip pre :
  let start := Z.to_nat (csum_start h) in
  let ci := (start + Z.to_nat (csum_offset h))%nat in
  gso_type h = VIRTIO_NET_HDR_GSO_NONE ->
  validate_checksum_offload h ip = Ret (Some (start, ci)) ->
  bytes_ok ip -> (Z.of_nat (length ip) <= 131000)%Z ->
  Nat.even (Z.to_nat (csum_offset h)) = true ->
  (0 < pre)%Z -> (be16 (ip !!! ci) (ip !!! S ci) mod 65535 = pre mod 65535)%Z ->
  exists q, materialize_offload_packet h ip = Ret [q] /\
    length q = length ip /\ bytes_ok q /\
    (forall i, i <> ci -> i <> S ci -> q !! i = ip !! i) /\
    csum_valid (pre + word_sum (drop start q)).
Proof.
  intros start ci Hg Hv Hb Hl He Hpre Hf.
  pose proof (validate_checksum_cases h ip) as Hc. rewrite Hv in Hc.
  destruct Hc as (_ & _ & _ & _ & Hst & Hci).
  exists (spliced ip ci (be_bytes 2 (finalize_checksum (add_bytes 0 (drop start ip))))).
  split_and!.
  - unfold materialize_offload_packet, materialize_offload_into.
    replace (is_tcp_gso h) with false by (unfold is_tcp_gso; by rewrite Hg).
    rewrite (proj2 (Z.eqb_eq _ _) Hg). cbn [negb]. rewrite Hv. unfold complete_single.
    by run_slices.
  - by lengths.
  - eauto with ezvpn.
  - intros i ??. rewrite spliced_lookup by slice_side. by rewrite decide_False by slice_side.
  - rewrite drop_spliced by slice_side. replace (ci - start)%nat with (Z.to_nat (csum_offset h)) by lia.
    apply complete_partial_valid; try (eauto with ezvpn; done); try lengths; try lia.
    rewrite !total_lookup_drop. fold ci. by replace (start + S (Z.to_nat (csum_offset h)))%nat with (S ci) by lia.
Qed.

(** A UDP packet whose checksum field (offset 6) holds its pseudo-header sum. *)
Definition sample_udp : list Z :=
  [69; 0; 0; 31; 0; 0; 64; 0; 64; 17; 0; 0; 10; 0; 0; 1; 10; 0; 0; 2;
   0; 53; 0; 53; 0; 11; 20; 31; 7; 8; 9]%Z.

Lemma checksum_completion_correct_witness :
  exists q, materialize_offload_packet (mkVirtioNetHdr 1 0 0 0 20 6 0) sample_udp = Ret [q] /\
    csum_valid (pseudo_sum4 sample_udp 11 - 6 + 17 + word_sum (drop 20 q)).
Proof.
  destruct (checksum_completion_correct (mkVirtioNetHdr 1 0 0 0 20 6 0) sample_udp
    (pseudo_sum4 sample_udp 11 - 6 + 17)) as (q & Hm & _ & _ & _ & Hv); try reflexivity.
  - repeat constructor; vm_compute; congruence.
  - vm_compute. discriminate.
  - exists q. split; [exact Hm | exact Hv].
Defined.
