(* ===== verification/OffloadRoundtrip.v ===== *)
(** * Coalescing and segmentation are inverse on what they promise to keep

    A run merged by [assemble_tcp_gso_superframe] and cut again by
    [segment_tcp_gso_into] (the kernel does the second step in production; the
    software fallback has the same contract) gives back the members of the
    run: count, payloads, sequence numbers and the flow fields of the header.
    The TCP flags are not among what is kept. *)

From S2P Require Import Prelude Checksum Offload Coalesce Segment.

(** The header positions the coalescer compares, hence preserves. *)
Definition flow_byte (m : TcpSegmentMeta) (i : nat) : Prop :=
  let off := ip_header_len m in
  (if is_ipv6 m then (i < 4 \/ 6 <= i < 40)%nat
   else (i < 2 \/ 8 <= i < 10 \/ 12 <= i < 20)%nat) \/
  (off <= i < off + 4 \/ off + 8 <= i < off + 12 \/ off + 14 <= i < off + 16
   \/ off + 20 <= i < header_len m)%nat.

Lemma slice_eq_lookup (p q : list Z) a n k :
  take n (drop a p) = take n (drop a q) -> (a <= k < a + n)%nat -> p !!! k = q !!! k.
Proof.
  intros H Hk. apply (f_equal (fun l => l !!! (k - a)%nat)) in H.
  rewrite !lookup_total_take_lt, !lookup_total_drop in H by lia.
  by replace (a + (k - a))%nat with k in H by lia.
Qed.

(** The first byte of a coalescible packet is determined by the version for
    IPv4 (no options). *)
Lemma ipv4_first_byte p : ip_header_ok false p -> p !!! 0%nat = 69%Z.
Proof.
  intros (_ & Hs & Hl & _). change 15%Z with (Z.ones 4) in Hl.
  rewrite Z.land_ones in Hl by lia. rewrite Z.shiftr_div_pow2 in Hs by lia.
  change (2 ^ 4)%Z with 16%Z in *. pose proof (Z.div_mod (p !!! 0%nat) 16). lia.
Qed.

Lemma same_flow_bytes a ma b mb i :
  coalescible a ma -> coalescible b mb -> same_flow a ma b mb -> flow_byte ma i -> a !!! i = b !!! i.
Proof.
  intros Ha Hb [Hv Ht Hip Hpo Hac Hwi Hop] Hi. unfold flow_byte, header_len in Hi.
  pose proof (co_hdr _ _ Ha) as Hha. pose proof (co_hdr _ _ Hb) as Hhb. rewrite <-Hv in Hhb.
  destruct Hi as [Hi|[Hi|[Hi|[Hi|Hi]]]].
  - destruct (is_ipv6 ma); destruct Hip as (H1 & H2 & H3).
    + destruct (decide (i < 4)%nat); [apply (slice_eq_lookup a b 0 4); [done|lia]|].
      destruct (decide (i = 6%nat)) as [->|]; [simpl in *; intuition congruence|].
      destruct (decide (i = 7%nat)) as [->|]; [done|].
      apply (slice_eq_lookup a b 8 32); [done|lia].
    + destruct (decide (i = 0%nat)) as [->|]; [by rewrite !ipv4_first_byte|].
      destruct (decide (i = 1%nat)) as [->|]; [done|].
      destruct (decide (i = 8%nat)) as [->|]; [done|].
      destruct (decide (i = 9%nat)) as [->|]; [simpl in *; intuition congruence|].
      apply (slice_eq_lookup a b 12 8); [done|lia].
  - by eapply (slice_eq_lookup a b (ip_header_len ma) 4).
  - apply (slice_eq_lookup a b (ip_header_len ma + 8) 4); [done|lia].
  - apply (slice_eq_lookup a b (ip_header_len ma + 14) 2); [done|lia].
  - apply (slice_eq_lookup a b (ip_header_len ma + 20) (tcp_header_len ma - 20)); [done|lia].
Qed.

(** ** Uniform chunks *)

(** Chunks of size [sz], the last one possibly shorter, are found again by
    cutting their concatenation. *)
Lemma uniform_chunks sz (ls : list (list Z)) :
  (0 < sz)%nat -> ls <> [] ->
  (forall i l, ls !! i = Some l -> (0 < length l <= sz)%nat /\
     (S i < length ls -> length l = sz)%nat) ->
  chunk_count (length (concat ls)) sz = length ls /\
  forall i l, ls !! i = Some l -> take sz (drop (i * sz) (concat ls)) = l.
Proof.
  intros Hsz. induction ls as [|l ls IH]; intros Hne Hall; [done|].
  destruct (Hall 0%nat l eq_refl) as [Hl Hfull]. cbn [concat length].
  destruct ls as [|l' ls].
  - cbn [concat]. rewrite app_nil_r. split.
    + unfold chunk_count. replace (length l + sz - 1)%nat with (1 * sz + (length l - 1))%nat by lia.
      rewrite Nat.div_add_l, Nat.div_small by lia. simpl. lia.
    + intros [|i] l0 Hi; [|done]. injection Hi as <-. cbn. by rewrite drop_0, take_ge by lia.
  - specialize (Hfull ltac:(simpl; lia)).
    destruct IH as [Hc Hch]; [done| |].
    { intros i l0 Hi. destruct (Hall (S i) l0 Hi) as [? Hf]. split; [done|]. intros.
      apply Hf. simpl in *. lia. }
    set (rest := concat (l' :: ls)) in *. split.
    + rewrite length_app, Hfull. rewrite <-Hc. unfold chunk_count.
      replace (sz + length rest + sz - 1)%nat with (1 * sz + (length rest + sz - 1))%nat by lia.
      rewrite Nat.div_add_l by lia. lia.
    + intros [|i] l0 Hi.
      * injection Hi as <-. cbn. rewrite drop_0. apply take_app_length'. lia.
      * rewrite <-(Hch i l0 Hi). rewrite Nat.mul_succ_l, drop_app_ge by lia. f_equal. f_equal. lia.
Qed.

(** ** A super-frame is segmentable *)

Section Superframe.
Context (p : list Z) (first : TcpSegmentMeta) (pl ip : list Z).
Context (Hp : coalescible p first) (Hs : superframe first p pl ip).
Context (Hmax : (Z.of_nat (header_len first + length pl) <= 65535)%Z).
Context (Hpl : (payload_len first < length pl)%nat).

Lemma superframe_byte i :
  (i < header_len first)%nat -> ~ len_field (is_ipv6 first) i ->
  i <> (ip_header_len first + 16)%nat -> i <> (ip_header_len first + 17)%nat ->
  ip !!! i = p !!! i.
Proof. apply (su_header _ _ _ _ Hs). Qed.

Lemma superframe_sizes :
  (20 <= ip_header_len first)%nat /\ (ip_header_len first + 20 <= header_len first)%nat /\
  (header_len first + length pl = length ip)%nat.
Proof.
  destruct (coalescible_header p first Hp). pose proof (su_len _ _ _ _ Hs).
  split_and!; try lia. rewrite (co_ip _ _ Hp). destruct (is_ipv6 first); simpl; lia.
Qed.

Lemma superframe_layout :
  segment_layout (superframe_hdr first) ip
  = Ret ((if is_ipv6 first then 6 else 4)%Z, ip_header_len first, header_len first).
Proof.
  destruct superframe_sizes as (Hi & Hh & Hl).
  destruct (superframe_hdr_ok p first (length pl) Hp Hmax ltac:(lia)) as (_ & _ & Hgs & Hcs & _).
  assert (H0 : ip !!! 0%nat = p !!! 0%nat).
  { apply superframe_byte; try lia. unfold len_field. destruct (is_ipv6 first); lia. }
  assert (H12 : ip !!! (ip_header_len first + 12)%nat = p !!! (ip_header_len first + 12)%nat).
  { apply superframe_byte; try lia. unfold len_field. pose proof (co_ip _ _ Hp) as Hx.
    destruct (is_ipv6 first); simpl in Hx; lia. }
  assert (Hver : Z.shiftr (p !!! 0%nat) 4 = (if is_ipv6 first then 6 else 4)%Z).
  { pose proof (co_hdr _ _ Hp) as Hx. destruct (is_ipv6 first); simpl in Hx; tauto. }
  unfold segment_layout.
  assert (Hg : is_tcp_gso (superframe_hdr first) = true).
  { unfold is_tcp_gso. rewrite Hgs. pose proof (co_pay _ _ Hp).
    destruct (Z.eqb_spec (Z.of_nat (payload_len first)) 0); [lia|].
    unfold superframe_hdr; cbn [gso_type]. by destruct (is_ipv6 first). }
  rewrite Hg. cbn [negb]. destruct ip as [|b0 r] eqn:Hip; [simpl in Hl; lia|]. rewrite <-Hip in *.
  assert (Hb0 : b0 = p !!! 0%nat) by (rewrite <-H0, Hip; done).
  rewrite Hb0, Hver.
  assert (Hty : normalized_gso_type (superframe_hdr first) = if is_ipv6 first then 4%Z else 1%Z).
  { unfold normalized_gso_type, superframe_hdr; cbn [gso_type]. by destruct (is_ipv6 first). }
  rewrite Hty. rewrite Hcs, Nat2Z.id.
  assert (Hcond : ((if is_ipv6 first then 6 else 4) =? 4)%Z &&
     ((if is_ipv6 first then 4 else 1) =? VIRTIO_NET_HDR_GSO_TCPV4)%Z
     || ((if is_ipv6 first then 6 else 4) =? 6)%Z &&
        ((if is_ipv6 first then 4 else 1) =? VIRTIO_NET_HDR_GSO_TCPV6)%Z = true)
    by (by destruct (is_ipv6 first)).
  rewrite Hcond. change (needs_checksum (superframe_hdr first)) with true.
  cbn [mbind outcome_bind]. rewrite (proj2 (Nat.ltb_ge _ _)) by lia. run_slices.
  rewrite H12. pose proof (co_thl _ _ Hp) as Hth. unfold tcp_hlen_at in Hth. rewrite <-Hth.
  pose proof (co_tcp _ _ Hp). rewrite (proj2 (Nat.ltb_ge _ 20)) by lia. cbn [orb].
  fold (header_len first). by rewrite (proj2 (Nat.ltb_ge _ _)) by lia.
Qed.

Lemma superframe_segmentable :
  segmentable (is_ipv6 first) (ip_header_len first) (header_len first) (payload_len first) ip.
Proof.
  destruct superframe_sizes as (Hi & Hh & Hl).
  constructor; try lia; try apply Hs; try apply Hp.
  - by rewrite (co_ip _ _ Hp).
  - intros Hv. pose proof (co_hdr _ _ Hp) as Hx. rewrite Hv in Hx.
    destruct Hx as (_ & _ & Hihl & Hpr & _).
    assert (Hb : forall i, (i < 10)%nat -> i <> 2%nat -> i <> 3%nat -> ip !!! i = p !!! i).
    { intros i ???. apply superframe_byte; try lia. rewrite Hv. simpl. lia. }
    unfold ihl_of. rewrite !Hb, Hihl by lia. split; [done|]. simpl. lia.
Qed.
End Superframe.

(** ** Groups *)

Lemma seq_at_uint p off : bytes_ok p -> (off + 8 <= length p)%nat -> is_uint 32 (seq_at p off).
Proof.
  intros Hb Hl. unfold seq_at.
  assert (Hbs : bytes_ok [p !!! (off + 4)%nat; p !!! (off + 5)%nat; p !!! (off + 6)%nat;
                          p !!! (off + 7)%nat]).
  { repeat constructor; apply bytes_ok_lookup; done || lia. }
  exact (be_value_bound _ Hbs).
Qed.

(** What relates a member [q] of a group, at position [i] of [n], to the first
    segment [p]. *)
Record group_member (p : list Z) (first : TcpSegmentMeta) (n i : nat) (q : list Z)
    (m : TcpSegmentMeta) : Prop := {
  gm_co : coalescible q m;
  gm_flow : forall k, flow_byte first k -> p !!! k = q !!! k;
  gm_hl : header_len m = header_len first;
  gm_off : ip_header_len m = ip_header_len first;
  gm_seq : seq m = wrap 32 (seq first + Z.of_nat (i * payload_len first));
  gm_size : (0 < payload_len m <= payload_len first)%nat;
  gm_full : (S i < n -> payload_len m = payload_len first)%nat;
}.

Lemma group_members p first rest i q :
  bytes_ok p -> coalescible p first ->
  chain_run (payload_len first) (header_len first + payload_len first) p first rest ->
  (p :: rest) !! i = Some q ->
  exists m, group_member p first (length (p :: rest)) i q m.
Proof.
  intros Hb Hp Hrun Hi. destruct (coalescible_header p first Hp). destruct i as [|i].
  - injection Hi as <-. exists first. pose proof (co_pay _ _ Hp). constructor; try done; try lia.
    rewrite Nat.mul_0_l, Z.add_0_r. symmetry. apply wrap_small.
    rewrite (co_seq _ _ Hp). apply seq_at_uint; [done|lia].
  - destruct (chain_run_member _ _ _ _ _ i q Hp eq_refl Hrun Hi)
      as (m & Hq & Hf & Hsq & Hle & Hfull).
    exists m. pose proof (co_pay _ _ Hq). constructor; try done.
    + intros k Hk. by eapply same_flow_bytes.
    + symmetry. by eapply same_flow_header.
    + symmetry. by eapply same_flow_ip.
    + cbn [length]. intros. apply Hfull. lia.
Qed.

(** The payloads of a group, cut at the first segment's payload size. *)
Lemma group_chunks p first rest :
  bytes_ok p -> coalescible p first ->
  chain_run (payload_len first) (header_len first + payload_len first) p first rest ->
  let hl := header_len first in
  let segs := p :: rest in
  chunk_count (length (payloads hl segs)) (payload_len first) = length segs /\
  forall i q, segs !! i = Some q ->
    take (payload_len first) (drop (i * payload_len first) (payloads hl segs)) = drop hl q.
Proof.
  intros Hb Hp Hrun hl segs. pose proof (co_pay _ _ Hp) as Hpos.
  destruct (uniform_chunks (payload_len first) (map (drop hl) segs)) as [Hc Hch]; try done.
  - intros i l Hl. rewrite list_lookup_fmap in Hl.
    destruct (segs !! i) as [q|] eqn:Hq; [|done]. injection Hl as <-.
    destruct (group_members p first rest i q Hb Hp Hrun Hq) as [m [Hco _ Hhl _ _ Hsz Hfull]].
    rewrite length_drop, length_map, (member_length q m _ Hco Hhl).
    fold hl. replace (hl + payload_len m - hl)%nat with (payload_len m) by lia. done.
  - rewrite length_map in Hc. split; [done|]. intros i q Hq. apply Hch.
    by rewrite list_lookup_fmap, Hq.
Qed.

(** A position compared by the coalescer is not one the segmenter rewrites. *)
Lemma flow_byte_kept p first i :
  coalescible p first -> flow_byte first i ->
  (i < header_len first)%nat /\ ~ rewritten (is_ipv6 first) (ip_header_len first) i /\
  ~ len_field (is_ipv6 first) i /\
  i <> (ip_header_len first + 16)%nat /\ i <> (ip_header_len first + 17)%nat.
Proof.
  intros Hp Hi. destruct (coalescible_header p first Hp) as [_ Hh].
  pose proof (co_ip _ _ Hp) as Hip. unfold flow_byte in Hi. unfold rewritten, len_field.
  destruct (is_ipv6 first); cbn [ip_hlen] in Hip; rewrite Hip in *; lia.
Qed.

(** A segment cut from the super-frame at the place of a member gives back
    what the coalescer compared. *)
Lemma resegmented_member p first pl ip n i q m last q' :
  let hl := header_len first in
  let off := ip_header_len first in
  coalescible p first -> superframe first p pl ip -> group_member p first n i q m ->
  plain_segment (is_ipv6 first) off hl ip (i * payload_len first) last (drop hl q) q' ->
  length q' = length q /\ drop hl q' = drop hl q /\ seq_at q' off = seq_at q off /\
  (forall k, flow_byte first k -> q' !!! k = q !!! k) /\
  ip_lengths_ok (is_ipv6 first) q' /\
  csum_valid (pseudo_sum (is_ipv6 first) q' (length q' - off) + word_sum (drop off q')).
Proof.
  intros hl off Hp Hs Hm Hps. destruct (coalescible_header p first Hp) as [Hh1 Hh2].
  pose proof (member_length q m hl (gm_co _ _ _ _ _ _ Hm) (gm_hl _ _ _ _ _ _ Hm)) as Hlq.
  split_and!; try apply Hps.
  - rewrite (ps_len _ _ _ _ _ _ _ _ Hps), length_drop. lia.
  - rewrite (ps_seq _ _ _ _ _ _ _ _ Hps).
    pose proof (co_seq _ _ (gm_co _ _ _ _ _ _ Hm)) as Hsq.
    rewrite (gm_off _ _ _ _ _ _ Hm), (gm_seq _ _ _ _ _ _ Hm), (co_seq _ _ Hp) in Hsq.
    unfold off. rewrite <-Hsq. do 2 f_equal. unfold seq_at. pose proof (co_ip _ _ Hp) as Hip.
    by rewrite !(superframe_byte p first pl ip Hs) by
      (unfold len_field; destruct (is_ipv6 first); cbn [ip_hlen] in Hip; lia).
  - intros k Hk. destruct (flow_byte_kept p first k Hp Hk) as (Hk1 & Hk2 & Hk3 & Hk4 & Hk5).
    rewrite (ps_header _ _ _ _ _ _ _ _ Hps) by done.
    rewrite (superframe_byte p first pl ip Hs) by done.
    by apply (gm_flow _ _ _ _ _ _ Hm).
Qed.

(** ** Properties *)

(** C1. Coalescing loses nothing it promises to keep: segmenting the
    super-frame assembled from a planned group yields exactly as many packets
    as the group had, the i-th with the payload, length, sequence number and
    every compared header byte (addresses, ports, ACK, window, options, TTL,
    ToS) of the i-th original, and with verifying checksums. *)
Theorem coalesce_segment_roundtrip segs :
  group_ok segs -> Forall bytes_ok segs ->
  exists first frame ip outs,
    assemble_tcp_gso_superframe segs = Ret frame /\
    split_tun_frame frame true = Ret (Some (superframe_hdr first), ip) /\
    segment_tcp_gso_packet (superframe_hdr first) ip = Ret outs /\
    length outs = length segs /\
    forall i q, segs !! i = Some q ->
      exists q', outs !! i = Some q' /\
        length q' = length q /\
        drop (header_len first) q' = drop (header_len first) q /\
        seq_at q' (ip_header_len first) = seq_at q (ip_header_len first) /\
        (forall k, flow_byte first k -> q' !!! k = q !!! k) /\
        ip_lengths_ok (is_ipv6 first) q' /\
        csum_valid (pseudo_sum (is_ipv6 first) q' (length q' - ip_header_len first)
                    + word_sum (drop (ip_header_len first) q')).
Proof.
  intros Hg Hb. destruct (assemble_spec segs Hg Hb) as (f & ip & Hf & Ha & Hs).
  destruct Hg as (p & first & rest & -> & Hne & Hp & Hrun).
  pose proof (coalescible_inj _ _ _ Hf Hp) as ->. change ((p :: rest) !!! 0%nat) with p in *.
  inversion Hb as [|?? Hbp _]; subst.
  set (segs := p :: rest) in *. set (hl := header_len first) in *.
  pose proof (group_total p first rest Hp Hne Hrun) as Hmax. fold segs in Hmax.
  destruct (group_chunks p first rest Hbp Hp Hrun) as [Hcnt Hch]. fold segs hl in Hcnt, Hch.
  destruct (coalescible_header p first Hp) as [Hh1 Hh2].
  pose proof (su_len _ _ _ _ Hs) as Hlen. fold hl in Hmax, Hh1, Hh2, Hlen.
  assert (Hlong : (payload_len first < length (payloads hl segs))%nat).
  { pose proof (chain_run_long _ _ _ _ _ Hp Hrun) as Hlr. destruct rest as [|r0 rest]; [done|].
    inversion_clear Hlr. unfold segs, payloads. cbn [map concat]. lengths. fold hl.
    pose proof (member_length p first hl Hp eq_refl). lia. }
  destruct (superframe_hdr_ok p first (length (payloads hl segs)) Hp Hmax ltac:(lia))
    as (Hwf & Hcar & Hgs & _).
  assert (Hsz : Z.to_nat (gso_size (superframe_hdr first)) = payload_len first) by lia.
  assert (Hpay : drop hl ip = payloads hl segs) by apply (su_payload _ _ _ _ Hs).
  assert (Hn : (length ip - hl)%nat = length (payloads hl segs)) by lia.
  destruct (chunks_build (is_ipv6 first) (ip_header_len first) hl (payload_len first) ip)
    as (outs & Hf2 & Hno & Hall); [by eapply superframe_segmentable | lia | ulia |].
  exists first, (to_bytes (superframe_hdr first) ++ ip), ip, outs.
  split_and!; [done| | | by rewrite Hno, Hn |].
  - rewrite split_encoded, Hcar; try done. intros ->. simpl in Hlen. lia.
  - unfold segment_tcp_gso_packet.
    rewrite (segment_into_run collect (is_ipv6 first) (ip_header_len first) hl);
      [|by eapply superframe_layout | rewrite Hsz; lia].
    rewrite Hsz, (emit_chunks_list _ _ _ outs) by done. by rewrite emit_list_collect.
  - intros i q Hq. destruct (group_members p first rest i q Hbp Hp Hrun Hq) as [m Hm].
    assert (Hi : (i < length outs)%nat).
    { rewrite Hno, Hn, Hcnt. by eapply lookup_lt_Some. }
    destruct (lookup_lt_is_Some_2 outs i Hi) as [q' Hq']. exists q'. split; [done|].
    pose proof (Hall i q' Hq') as Hps. rewrite Hpay, (Hch i q Hq) in Hps.
    by eapply resegmented_member.
Qed.

Definition sample_group : list (list Z) :=
  [sample_segment 0 16 [1; 2; 3; 4]%Z; sample_segment 4 16 [5; 6; 7; 8]%Z;
   sample_segment 8 24 [9]%Z].

Lemma sample_group_bytes : Forall bytes_ok sample_group.
Proof. repeat constructor; vm_compute; congruence. Qed.

(** The planner marks the sample for coalescing, so it is a group. *)
Lemma sample_group_ok : group_ok sample_group.
Proof.
  destruct (plan_loop_spec 3 0 sample_group sample_group) as (g & Hp & _ & Hg);
    [done | simpl; lia | simpl; lia |].
  vm_compute in Hp. injection Hp as <-. by inversion_clear Hg.
Qed.

Lemma coalesce_segment_roundtrip_witness :
  exists first frame ip outs,
    assemble_tcp_gso_superframe sample_group = Ret frame /\
    split_tun_frame frame true = Ret (Some (superframe_hdr first), ip) /\
    segment_tcp_gso_packet (superframe_hdr first) ip = Ret outs /\ length outs = 3%nat.
Proof.
  destruct (coalesce_segment_roundtrip sample_group) as (first & frame & ip & outs & H1 & H2 & H3 & H4 & _).
  - exact sample_group_ok.
  - exact sample_group_bytes.
  - exists first, frame, ip, outs. split; [exact H1|]. split; [exact H2|]. split; [exact H3|exact H4].
Defined.

(** Two adjacent segments of a flow: a plain one, and one with PSH, ACK and ECE set. *)
Definition plain_segment : list Z := sample_segment 0 16 [1; 2; 3; 4]%Z.
Definition flagged_segment : list Z := sample_segment 4 88 [5; 6; 7; 8]%Z.

(** The flags byte is not among what coalescing keeps: [can_chain] does not
    compare it and the super-frame takes the first segment's, so a group whose
    last member carries PSH and ECE (flags 0x58) comes back without them. *)
Theorem coalescing_drops_later_flags :
  plan_tun_write_groups [plain_segment; flagged_segment] = Ret [(0, 2, true)]%nat /\
  exists frame h ip outs,
    assemble_tcp_gso_superframe [plain_segment; flagged_segment] = Ret frame /\
    split_tun_frame frame true = Ret (Some h, ip) /\
    segment_tcp_gso_packet h ip = Ret outs /\
    flagged_segment !! 33%nat = Some 88%Z /\
    (exists b', outs !! 1%nat = Some b' /\ b' !! 33%nat = Some 16%Z).
Proof.
  split; [vm_compute; reflexivity|].
  do 4 eexists. split_and!; [vm_compute; reflexivity.. |].
  eexists. split; vm_compute; reflexivity.
Qed.
