(* ===== verification/Errors.v ===== *)
(** * Errors of the VPN ([src/error.rs])

    [VpnError] with its constructors.  A formatted message is kept as its
    format string and the numbers it prints; the boxed source errors that only
    serve display are dropped. *)

From S2P Require Import Prelude.

Record message : Type := Msg { text : string; args : list Z }.

#[export] Instance message_eq_dec : EqDecision message.
Proof. solve_decision. Defined.

Inductive VpnError : Type :=
| TunDevice (m : message)
| Network (m : message)
| Config (m : message)
| Signaling (m : message)
| AuthenticationFailed (m : message)
| IpAssignment (m : message)
| ConnectionLost (m : message)
| MaxReconnectAttemptsExceeded (n : Z)
| ServerConfigChanged (m : message)
| RouteOverlapsLocalNetwork (route local : Z * Z) (interface : string).

#[export] Instance VpnError_eq_dec : EqDecision VpnError.
Proof. solve_decision. Defined.

Abbreviation vres := (outcome VpnError).

(** A message without arguments. *)
Definition msg (s : string) : message := Msg s [].

(** [VpnError::config] and [VpnError::tun_device]. *)
Definition VpnError_config (m : message) : VpnError := Config m.
Definition VpnError_tun_device (m : message) : VpnError := TunDevice m.

Definition is_recoverable (self : VpnError) : bool :=
  match self with
  | ConnectionLost _ | Network _ | Signaling _ => true
  | _ => false
  end.
