(* ===== verification/Runtime.v ===== *)
(** * Runtime files and the single-instance lock ([src/runtime.rs])

    Directories and file names on Unix, the rules for instance names, the PID
    file, and [VpnLock] as a machine of processes that interleave at their
    file-system calls. *)

From stdpp Require Import sorting.
From S2P Require Import Prelude Text Errors.

#[local] Open Scope string_scope.

(** ** Paths *)

Inductive Unix : Type := Linux | MacOS.

(** [Path::join] on Unix: an absolute second part replaces the first. *)
Definition join (base path : string) : string :=
  if starts_with "/" path then path else
  match base, strip_suffix "/" base with
  | "", _ | _, Some _ => base +:+ path
  | _, None => base +:+ "/" +:+ path
  end.

Definition is_absolute (path : string) : bool := starts_with "/" path.

Section Dirs.
Context (os : Unix) (env : string -> option string).

(** An environment variable that is set and not empty. *)
Definition env_dir (var : string) : option string :=
  match env var with
  | Some "" | None => None
  | Some dir => Some dir
  end.

Definition platform_runtime_dir : string :=
  match os with Linux => "/run/ezvpn" | MacOS => "/var/run/ezvpn" end.
Definition runtime_dir : string := default platform_runtime_dir (env_dir "EZVPN_RUNTIME_DIR").

Definition platform_log_dir : string := "/var/log/ezvpn".
Definition log_dir : string := default platform_log_dir (env_dir "EZVPN_LOG_DIR").

Definition platform_config_dir : string :=
  match os with Linux => "/etc/ezvpn" | MacOS => "/usr/local/etc/ezvpn" end.
Definition config_dir : string := platform_config_dir.

Definition check_absolute_dir (var : string) (val : option string) : vres unit :=
  match val with
  | None | Some "" => Ret tt
  | Some val =>
      if is_absolute val then Ret tt
      else Fail (VpnError_config (msg "{var} must be an absolute path, got {:?}"))
  end.

Definition validate_dir_env : vres unit :=
  _ ← check_absolute_dir "EZVPN_RUNTIME_DIR" (env "EZVPN_RUNTIME_DIR");
  check_absolute_dir "EZVPN_LOG_DIR" (env "EZVPN_LOG_DIR").
End Dirs.

(** ** Names *)

Inductive LockRole : Type := Client | Server.

#[export] Instance LockRole_eq_dec : EqDecision LockRole.
Proof. solve_decision. Defined.

Definition slug (self : LockRole) : string :=
  match self with Client => "client" | Server => "server" end.

Definition description (self : LockRole) : string :=
  match self with Client => "VPN client" | Server => "VPN server" end.

Definition MAX_INSTANCE_NAME_LEN : nat := 64.

Definition runtime_base_name (role : LockRole) (instance : string) : string :=
  "ezvpn-" +:+ slug role +:+ "-" +:+ instance.

Definition name_char (c : Ascii.ascii) : bool :=
  is_ascii_alphanumeric c || Ascii.eqb c (Ascii.ascii_of_nat 95).

Definition validate_instance_name (name : string) : vres unit :=
  if String.eqb name "" then Fail (VpnError_config (msg "Instance name must not be empty")) else
  if (MAX_INSTANCE_NAME_LEN <? String.length name)%nat
  then Fail (VpnError_config (Msg "Instance name must be at most {MAX_INSTANCE_NAME_LEN} characters"
                                [Z.of_nat MAX_INSTANCE_NAME_LEN])) else
  if negb (all_chars name_char name)
  then Fail (VpnError_config (msg "Instance name may only contain ASCII letters, digits, and underscores"))
  else Ret tt.

Definition instance_from_lock_name (file_name : string) (role : LockRole) : option string :=
  rest ← strip_prefix ("ezvpn-" +:+ slug role +:+ "-") file_name;
  instance ← strip_suffix ".lock" rest;
  if String.eqb instance "" then None else Some instance.

(** [entries] is what [read_dir] of the runtime directory gives, [None] when it
    is unreadable. *)
Definition list_locked_instances (entries : option (list string)) (role : LockRole) : list string :=
  match entries with
  | None => []
  | Some names =>
      merge_sort String.le
        (omap (fun file_name =>
           instance ← instance_from_lock_name file_name role;
           match validate_instance_name instance with Ret _ => Some instance | _ => None end) names)
  end.

(** The files of an instance: the lock, the control socket and pipe
    ([src/control.rs]) and the daemon's log ([src/main.rs]). *)
Definition lock_path (dir : string) (role : LockRole) (instance : string) : string :=
  join dir (runtime_base_name role instance +:+ ".lock").
Definition socket_path (dir : string) (role : LockRole) (instance : string) : string :=
  join dir (runtime_base_name role instance +:+ ".sock").
Definition pipe_name (role : LockRole) (instance : string) : string :=
  "\\.\pipe\" +:+ runtime_base_name role instance.
Definition client_log_path (dir : string) (instance : string) : string :=
  join dir (runtime_base_name Client instance +:+ ".log").

(** ** The lock *)

(** The files and who holds a lock on them.  A lock belongs to the open file
    of a process and goes when the process closes it or exits. *)
Record Files : Type := mkFiles {
  contents : gmap string string;
  locks : gmap string N;
}.

Definition unlock (w : Files) (path : string) (pid : N) : Files :=
  if decide (locks w !! path = Some pid)
  then mkFiles (contents w) (delete path (locks w)) else w.

(** Where a process is in [VpnLock::acquire]: before [ensure_runtime_dir],
    [open], [try_lock], [set_len], [seek] and the write of the PID; then the
    [VpnLock] it returned, or the error; and after the drop of the lock. *)
Inductive lock_pc : Type :=
| Preparing | Opening | Locking | Truncating | Seeking | Writing
| Holding
| Failed (e : VpnError)
| Released.

Definition pid_line (pid : N) : string := pretty pid +:+ String LF "".

(** The next call of [acquire] (or, from [Holding], [Drop for VpnLock]); [ok]
    is whether the call succeeds, [partial] what a failed write leaves.  An
    error return drops [file], which releases a lock on it. *)
Definition lock_next (ok : bool) (partial : string) (role : LockRole) (path : string) (pid : N)
    (pc : lock_pc) (w : Files) : Files * lock_pc :=
  match pc with
  | Preparing =>
      if ok then (w, Opening)
      else (w, Failed (VpnError_config (msg "Failed to create runtime directory")))
  | Opening =>
      (* [write(true).create(true).truncate(false)] *)
      if ok then
        (match contents w !! path with
         | Some _ => w
         | None => mkFiles (<[path := ""]> (contents w)) (locks w)
         end, Locking)
      else (w, Failed (VpnError_config (msg "Failed to open lock file")))
  | Locking =>
      if ok then
        match locks w !! path with
        | None => (mkFiles (contents w) (<[path := pid]> (locks w)), Truncating)
        | Some _ =>
            (w, Failed (VpnError_config (msg ("Another " +:+ description role +:+
                  " is already running. Only one instance allowed."))))
        end
      else (w, Failed (VpnError_config (msg "Failed to acquire VPN lock")))
  | Truncating =>
      if ok then (mkFiles (<[path := ""]> (contents w)) (locks w), Seeking)
      else (unlock w path pid, Failed (VpnError_config (msg "Failed to truncate lock file")))
  | Seeking =>
      if ok then (w, Writing)
      else (unlock w path pid, Failed (VpnError_config (msg "Failed to seek lock file")))
  | Writing =>
      if ok then (mkFiles (<[path := pid_line pid]> (contents w)) (locks w), Holding)
      else (unlock (mkFiles (<[path := partial]> (contents w)) (locks w)) path pid,
            Failed (VpnError_config (msg "Failed to write PID to lock file")))
  | Holding => (unlock w path pid, Released)
  | Failed _ | Released => (w, pc)
  end.

(** [VpnLock::acquire] run without interruption, each of its six calls with
    its outcome; the result is the path of the lock. *)
Definition acquire (dir : string) (oks : list bool) (partial : string) (role : LockRole)
    (instance : string) (pid : N) (w : Files) : Files * vres string :=
  let path := lock_path dir role instance in
  match validate_instance_name instance with
  | Ret _ =>
      match fold_left (fun '(w, pc) ok => lock_next ok partial role path pid pc w)
              (take 6 oks) (w, Preparing) with
      | (w, Holding) => (w, Ret path)
      | (w, Failed e) => (w, Fail e)
      | (w, _) => (w, Panic)
      end
  | Fail e => (w, Fail e)
  | Panic => (w, Panic)
  end.

(** [read_instance_pid]; a missing file and an unreadable number give [None]. *)
Definition read_instance_pid (dir : string) (role : LockRole) (instance : string) (w : Files)
  : vres (option Z) :=
  match validate_instance_name instance with
  | Ret _ =>
      match contents w !! lock_path dir role instance with
      | Some c => Ret (parse_uint 32 (trim c))
      | None => Ret None
      end
  | Fail e => Fail e
  | Panic => Panic
  end.

(** ** Several processes *)

Record Host : Type := mkHost {
  disk : Files;
  procs : gmap N (LockRole * string * lock_pc);
}.

Section Host.
Context (dir : string).

(** A process starts an acquisition, makes its next call, or exits (its files
    are closed) at any point; the numbers of live processes are distinct. *)
Inductive host_step : Host -> Host -> Prop :=
| host_start h pid role instance :
    procs h !! pid = None -> (Z.of_N pid < 2 ^ 32)%Z ->
    validate_instance_name instance = Ret tt ->
    host_step h (mkHost (disk h) (<[pid := (role, instance, Preparing)]> (procs h)))
| host_call h pid role instance pc w pc' ok partial :
    procs h !! pid = Some (role, instance, pc) ->
    lock_next ok partial role (lock_path dir role instance) pid pc (disk h) = (w, pc') ->
    host_step h (mkHost w (<[pid := (role, instance, pc')]> (procs h)))
| host_exit h pid role instance pc :
    procs h !! pid = Some (role, instance, pc) ->
    host_step h (mkHost (unlock (disk h) (lock_path dir role instance) pid) (delete pid (procs h))).

Definition host_init (contents : gmap string string) : Host := mkHost (mkFiles contents ∅) ∅.

Definition host_reachable (h : Host) : Prop := exists c, rtc host_step (host_init c) h.
End Host.

(** ** Lemmas on names *)

Lemma validate_instance_iff name :
  validate_instance_name name = Ret tt <->
  name <> "" /\ (String.length name <= 64)%nat /\ all_chars name_char name = true.
Proof.
  unfold validate_instance_name, MAX_INSTANCE_NAME_LEN.
  destruct (String.eqb_spec name ""); [naive_solver|].
  destruct (Nat.ltb_spec 64 (String.length name)); [naive_solver lia|].
  destruct (all_chars name_char name); naive_solver.
Qed.

Lemma base_name_inj r r' i i' : runtime_base_name r i = runtime_base_name r' i' -> r = r' /\ i = i'.
Proof.
  unfold runtime_base_name. intros Hn%append_inj_l.
  destruct r, r'; cbn [slug] in Hn; try done; split; try done; by do 2 apply append_inj_l in Hn.
Qed.

Lemma join_relative_inj dir p q :
  is_absolute p = false -> is_absolute q = false -> join dir p = join dir q -> p = q.
Proof.
  unfold join, is_absolute. intros -> ->. destruct dir as [|c d]; [apply append_inj_l|].
  destruct (strip_suffix "/" (String c d)); [apply append_inj_l|].
  intros Hj%append_inj_l. by apply append_inj_l in Hj.
Qed.

Lemma base_name_relative r i suf : is_absolute (runtime_base_name r i +:+ suf) = false.
Proof. done. Qed.

Lemma instance_file_inj dir suf r r' i i' :
  join dir (runtime_base_name r i +:+ suf) = join dir (runtime_base_name r' i' +:+ suf) ->
  r = r' /\ i = i'.
Proof.
  intros Hj. apply base_name_inj. eapply append_inj_r, join_relative_inj, Hj; apply base_name_relative.
Qed.

Lemma lock_path_inj dir r r' i i' : lock_path dir r i = lock_path dir r' i' -> r = r' /\ i = i'.
Proof. apply instance_file_inj. Qed.

Lemma lock_name_iff file_name role instance :
  instance_from_lock_name file_name role = Some instance <->
  instance <> "" /\ file_name = runtime_base_name role instance +:+ ".lock".
Proof.
  unfold instance_from_lock_name, runtime_base_name.
  rewrite !append_assoc. set (pre := ("ezvpn-" +:+ slug role) +:+ "-"). split.
  - intros Hi. destruct (strip_prefix _ _) as [rest|] eqn:Hp; [|done]. cbn in Hi.
    destruct (strip_suffix _ _) as [inst|] eqn:Hs; [|done]. cbn in Hi.
    destruct (String.eqb_spec inst ""); [done|]. injection Hi as <-. split; [done|].
    apply strip_prefix_iff in Hp as ->. apply strip_suffix_iff in Hs as ->. by rewrite append_assoc.
  - intros [Hne ->]. rewrite <-append_assoc, (proj2 (strip_prefix_iff pre _ _) eq_refl). cbn.
    rewrite (proj2 (strip_suffix_iff ".lock" _ _) eq_refl). cbn.
    by destruct (String.eqb_spec instance "").
Qed.

(** ** The lock invariant *)

(** The process has the file locked. *)
Definition owns (pc : lock_pc) : bool :=
  match pc with Truncating | Seeking | Writing | Holding => true | _ => false end.

Section LockProofs.
Context (dir : string).

Record host_inv (h : Host) : Prop := {
  hi_owner : forall path pid, locks (disk h) !! path = Some pid ->
    exists role instance pc, procs h !! pid = Some (role, instance, pc) /\
      owns pc = true /\ path = lock_path dir role instance;
  hi_owned : forall pid role instance pc, procs h !! pid = Some (role, instance, pc) ->
    owns pc = true -> locks (disk h) !! lock_path dir role instance = Some pid;
  hi_pid : forall pid role instance, procs h !! pid = Some (role, instance, Holding) ->
    contents (disk h) !! lock_path dir role instance = Some (pid_line pid);
  hi_names : forall pid role instance pc, procs h !! pid = Some (role, instance, pc) ->
    (Z.of_N pid < 2 ^ 32)%Z /\ validate_instance_name instance = Ret tt;
}.

(** What a call may do, from the point of view of the other processes: it
    changes only its own file, and that only as the owner. *)
Lemma lock_next_effect ok partial role path pid pc w w' pc' :
  lock_next ok partial role path pid pc w = (w', pc') ->
  (owns pc = true <-> locks w !! path = Some pid) ->
  (forall q, q <> path -> locks w' !! q = locks w !! q /\ contents w' !! q = contents w !! q) /\
  (owns pc' = true <-> locks w' !! path = Some pid) /\
  (forall p, p <> pid -> locks w' !! path = Some p -> locks w !! path = Some p) /\
  (forall p, p <> pid -> locks w !! path = Some p ->
     locks w' !! path = Some p /\ (forall c, contents w !! path = Some c -> contents w' !! path = Some c)) /\
  (pc' = Holding -> contents w' !! path = Some (pid_line pid)).
Proof.
  intros Hn Ho. destruct w as [cs ls]. unfold lock_next, unlock in Hn.
  destruct pc; destruct ok; cbn [contents locks owns] in *;
    repeat (case_match; simplify_eq/=); simplify_eq/=;
    split_and!; intros; simplify_map_eq; try naive_solver.
Qed.

Lemma inv_owns h pid role instance pc :
  host_inv h -> procs h !! pid = Some (role, instance, pc) ->
  owns pc = true <-> locks (disk h) !! lock_path dir role instance = Some pid.
Proof.
  intros Hi Hp. split; [by apply (hi_owned _ Hi)|].
  intros Hl. apply (hi_owner _ Hi) in Hl as (r & i & pc' & Hp' & Ho & _). congruence.
Qed.

Lemma host_call_inv h pid role instance pc w pc' ok partial :
  host_inv h -> procs h !! pid = Some (role, instance, pc) ->
  lock_next ok partial role (lock_path dir role instance) pid pc (disk h) = (w, pc') ->
  host_inv (mkHost w (<[pid := (role, instance, pc')]> (procs h))).
Proof.
  intros Hi Hp Hn. set (path := lock_path dir role instance) in *.
  destruct (lock_next_effect _ _ _ _ _ _ _ _ _ Hn (inv_owns _ _ _ _ _ Hi Hp))
    as (Hq & Hown & Hback & Hkeep & Hhold).
  constructor; cbn [disk procs].
  - intros q p Hl. destruct (decide (p = pid)) as [->|Hne].
    + exists role, instance, pc'. rewrite lookup_insert_eq. split; [done|].
      destruct (decide (q = path)) as [->|Hqp]; [by rewrite Hown|].
      rewrite (proj1 (Hq q Hqp)) in Hl. apply (hi_owner _ Hi) in Hl as (r & i & ? & Hp' & _ & ->).
      exfalso. apply Hqp. rewrite Hp in Hp'. by injection Hp' as <- <- _.
    + rewrite lookup_insert_ne by done. apply (hi_owner _ Hi).
      destruct (decide (q = path)) as [->|Hqp]; [by apply Hback|].
      by rewrite <-(proj1 (Hq q Hqp)).
  - intros p r i pcp Hp' Ho. destruct (decide (p = pid)) as [->|Hne].
    + rewrite lookup_insert_eq in Hp'. injection Hp' as <- <- <-. by apply Hown.
    + rewrite lookup_insert_ne in Hp' by done. pose proof (hi_owned _ Hi _ _ _ _ Hp' Ho) as Hl.
      destruct (decide (lock_path dir r i = path)) as [He|Hqp].
      * rewrite He in *. by apply (Hkeep p Hne).
      * by rewrite (proj1 (Hq _ Hqp)).
  - intros p r i Hp'. destruct (decide (p = pid)) as [->|Hne].
    + rewrite lookup_insert_eq in Hp'. injection Hp' as <- <- ->. by apply Hhold.
    + rewrite lookup_insert_ne in Hp' by done. pose proof (hi_pid _ Hi _ _ _ Hp') as Hc.
      destruct (decide (lock_path dir r i = path)) as [He|Hqp].
      * rewrite He in *. eapply (Hkeep p Hne); [|done]. rewrite <-He. by eapply (hi_owned _ Hi).
      * by rewrite (proj2 (Hq _ Hqp)).
  - intros p r i pcp Hp'. destruct (decide (p = pid)) as [->|Hne].
    + rewrite lookup_insert_eq in Hp'. injection Hp' as <- <- <-. by apply (hi_names _ Hi _ _ _ _ Hp).
    + rewrite lookup_insert_ne in Hp' by done. by apply (hi_names _ Hi _ _ _ _ Hp').
Qed.

Lemma unlock_locks w path pid q :
  locks (unlock w path pid) !! q =
  (if decide (q = path /\ locks w !! path = Some pid) then None else locks w !! q).
Proof.
  unfold unlock. case_decide as Hl; cbn [locks].
  - case_decide as Hq; [destruct Hq as [-> _]; apply lookup_delete_eq|].
    rewrite lookup_delete_ne; [done|]. intros <-. by apply Hq.
  - by rewrite decide_False by tauto.
Qed.

Lemma unlock_contents w path pid : contents (unlock w path pid) = contents w.
Proof. unfold unlock. by case_decide. Qed.

Lemma host_exit_inv h pid role instance pc :
  host_inv h -> procs h !! pid = Some (role, instance, pc) ->
  host_inv (mkHost (unlock (disk h) (lock_path dir role instance) pid) (delete pid (procs h))).
Proof.
  intros Hi Hp. constructor; cbn [disk procs]; rewrite ?unlock_contents.
  - intros q p. rewrite unlock_locks. case_decide as Hd; [done|]. intros Hl.
    pose proof (hi_owner _ Hi _ _ Hl) as (r & i & pcp & Hp' & Ho & ->).
    assert (p <> pid) as Hne.
    { intros ->. apply Hd. rewrite Hp in Hp'. injection Hp' as <- <- <-. done. }
    exists r, i, pcp. by rewrite lookup_delete_ne.
  - intros p r i pcp Hp' Ho. apply lookup_delete_Some in Hp' as [Hne Hp'].
    rewrite unlock_locks. pose proof (hi_owned _ Hi _ _ _ _ Hp' Ho) as Hl.
    rewrite decide_False; [done|]. intros [He Hl']. congruence.
  - intros p r i Hp'. apply lookup_delete_Some in Hp' as [Hne Hp']. by apply (hi_pid _ Hi).
  - intros p r i pcp Hp'. apply lookup_delete_Some in Hp' as [Hne Hp']. by eapply (hi_names _ Hi).
Qed.

Lemma host_step_inv h h' : host_step dir h h' -> host_inv h -> host_inv h'.
Proof.
  intros [h0 pid role inst Hf Hpid Hv|h0 pid role inst pc w pc' ok partial Hp Hn|h0 pid role inst pc Hp] Hi.
  - constructor; cbn [disk procs].
    + intros q p Hl. apply (hi_owner _ Hi) in Hl as (r & i & pcp & Hp & ?). exists r, i, pcp.
      rewrite lookup_insert_ne; [done|]. congruence.
    + intros p r i pcp [[<- [= <- <- <-]]|[? Hp]]%lookup_insert_Some; [done|]. by apply (hi_owned _ Hi).
    + intros p r i [[? ?]|[? Hp]]%lookup_insert_Some; [done|]. by apply (hi_pid _ Hi).
    + intros p r i pcp [[<- [= <- <- <-]]|[? Hp]]%lookup_insert_Some; [done|]. by eapply (hi_names _ Hi).
  - by eapply host_call_inv.
  - by eapply host_exit_inv.
Qed.

Lemma host_reachable_inv h : host_reachable dir h -> host_inv h.
Proof.
  intros [c Hr]. assert (Hi : host_inv (host_init c)) by (by constructor).
  induction Hr as [|h1 h2 h3 Hs _ IH]; [done|]. apply IH. by eapply host_step_inv.
Qed.

(** When nobody has the file locked, the calls of [acquire] go through. *)
Lemma acquire_free role instance pid w :
  validate_instance_name instance = Ret tt ->
  locks w !! lock_path dir role instance = None ->
  exists w', acquire dir [true; true; true; true; true; true] "" role instance pid w =
               (w', Ret (lock_path dir role instance)) /\
    locks w' !! lock_path dir role instance = Some pid /\
    contents w' !! lock_path dir role instance = Some (pid_line pid).
Proof.
  intros Hv Hl. unfold acquire. rewrite Hv. cbn [take fold_left lock_next].
  destruct (contents w !! _); cbn [locks contents]; rewrite Hl;
    eexists; (split; [reflexivity|]); cbn [locks contents]; by rewrite !lookup_insert_eq.
Qed.

Lemma read_pid_line role instance pid w :
  validate_instance_name instance = Ret tt -> (Z.of_N pid < 2 ^ 32)%Z ->
  contents w !! lock_path dir role instance = Some (pid_line pid) ->
  read_instance_pid dir role instance w = Ret (Some (Z.of_N pid)).
Proof.
  intros Hv Hp Hc. unfold read_instance_pid, pid_line in *. rewrite Hv, Hc.
  by rewrite parse_pretty.
Qed.
End LockProofs.

(** ** Properties *)

(** C34. The single-instance lock, in every interleaving of any number of
    processes, with failing calls and exits at any point: at most one process
    holds the lock of a role and instance; while it does, the lock file names
    its PID to [read_instance_pid] and another acquisition fails as already
    running; and when no live process is past [try_lock], an acquisition goes
    through, so neither a crash nor a left-over file blocks an instance. *)
Theorem vpn_lock_exclusive dir h :
  host_reachable dir h ->
  (forall p q role instance, procs h !! p = Some (role, instance, Holding) ->
     procs h !! q = Some (role, instance, Holding) -> p = q) /\
  (forall p role instance, procs h !! p = Some (role, instance, Holding) ->
     read_instance_pid dir role instance (disk h) = Ret (Some (Z.of_N p)) /\
     forall q, acquire dir [true; true; true; true; true; true] "" role instance q (disk h) =
       (disk h, Fail (VpnError_config (msg ("Another " +:+ description role +:+
                  " is already running. Only one instance allowed."))))) /\
  (forall role instance pid, validate_instance_name instance = Ret tt ->
     (forall p pc, procs h !! p = Some (role, instance, pc) -> owns pc = false) ->
     exists w', acquire dir [true; true; true; true; true; true] "" role instance pid (disk h) =
                  (w', Ret (lock_path dir role instance)) /\
       locks w' !! lock_path dir role instance = Some pid).
Proof.
  intros Hi%host_reachable_inv. split_and!.
  - intros p q role inst Hp Hq. apply (hi_owned _ _ Hi) in Hp, Hq; [|done..]. congruence.
  - intros p role inst Hp. destruct (hi_names _ _ Hi _ _ _ _ Hp) as [Hpid Hv].
    pose proof (hi_pid _ _ Hi _ _ _ Hp) as Hc.
    split; [by apply read_pid_line|]. intros q.
    pose proof (hi_owned _ _ Hi _ _ _ _ Hp eq_refl) as Hl.
    unfold acquire. rewrite Hv. cbn [take fold_left lock_next]. by rewrite Hc, Hl.
  - intros role inst pid Hv Hnone. destruct (acquire_free dir role inst pid (disk h) Hv)
      as (w' & Ha & Hl & _); [|by exists w'].
    destruct (locks (disk h) !! _) as [p|] eqn:Hl; [|done].
    apply (hi_owner _ _ Hi) in Hl as (r & i & pc & Hp & Ho & [-> ->]%lock_path_inj).
    by rewrite (Hnone _ _ Hp) in Ho.
Qed.

(** Names and files correspond: for a valid instance name the lock file name
    gives the instance back for its role only, the listing of the runtime
    directory is, sorted, exactly the valid names whose lock file is there, and
    no two (role, instance) pairs share a lock, socket or pipe. *)
Theorem instance_files_exact dir entries :
  (forall role instance, validate_instance_name instance = Ret tt ->
     forall role', instance_from_lock_name (runtime_base_name role instance +:+ ".lock") role' =
       if decide (role = role') then Some instance else None) /\
  (forall role instance, instance ∈ list_locked_instances (Some entries) role <->
     validate_instance_name instance = Ret tt /\
     (runtime_base_name role instance +:+ ".lock") ∈ entries) /\
  (forall role, Sorted String.le (list_locked_instances (Some entries) role)) /\
  (forall r r' i i', lock_path dir r i = lock_path dir r' i' \/
     socket_path dir r i = socket_path dir r' i' \/ pipe_name r i = pipe_name r' i' ->
     r = r' /\ i = i').
Proof.
  split_and!.
  - intros role inst Hv role'. apply validate_instance_iff in Hv as [Hne _].
    case_decide as Hr; [subst; by apply lock_name_iff|].
    destruct (instance_from_lock_name _ _) as [i|] eqn:Hi; [|done].
    apply lock_name_iff in Hi as [_ Hi]. apply append_inj_r, base_name_inj in Hi as [? _]. done.
  - intros role inst. unfold list_locked_instances. rewrite merge_sort_Permutation, list_elem_of_omap.
    split.
    + intros (f & Hf & Hi). destruct (instance_from_lock_name f role) as [i|] eqn:He; [|done].
      cbn in Hi. destruct (validate_instance_name i) as [[]| |] eqn:Hv; simplify_eq.
      by apply lock_name_iff in He as [_ ->].
    + intros [Hv Hf]. eexists; split; [exact Hf|]. pose proof Hv as [Hne _]%validate_instance_iff.
      rewrite (proj2 (lock_name_iff _ _ _) (conj Hne eq_refl)). cbn. by rewrite Hv.
  - intros role. apply Sorted_merge_sort. apply _.
  - intros r r' i i' [Hp|[Hp|Hp]]; [by eapply instance_file_inj..|].
    by apply append_inj_l, base_name_inj in Hp.
Qed.

(** ** Evaluation *)

(** The next call of process [pid]. *)
Definition host_advance (dir : string) (pid : N) (h : Host) (ok : bool) : Host :=
  match procs h !! pid with
  | Some (role, instance, pc) =>
      let '(w, pc') := lock_next ok "" role (lock_path dir role instance) pid pc (disk h) in
      mkHost w (<[pid := (role, instance, pc')]> (procs h))
  | None => h
  end.

Lemma host_advance_reachable dir pid oks h :
  host_reachable dir h -> host_reachable dir (fold_left (host_advance dir pid) oks h).
Proof.
  revert h. induction oks as [|ok oks IH]; intros h Hr; [done|]. cbn [fold_left]. apply IH.
  unfold host_advance. destruct (procs h !! pid) as [[[role inst] pc]|] eqn:Hp; [|done].
  destruct (lock_next _ _ _ _ _ _ _) as [w pc'] eqn:Hn. destruct Hr as [c Hr]. exists c.
  eapply rtc_r; [exact Hr|]. by eapply host_call.
Qed.

(** Process 7 has started acquiring the lock of the client "work". *)
Definition sample_started : Host :=
  mkHost (mkFiles {["/run/ezvpn/ezvpn-client-work.lock" := "991"]} ∅)
    (<[7%N := (Client, "work", Preparing)]> ∅).
Definition sample_locked : Host :=
  fold_left (host_advance "/run/ezvpn" 7) [true; true; true; true; true; true] sample_started.

Lemma vpn_lock_exclusive_witness :
  procs sample_locked !! 7%N = Some (Client, "work", Holding) /\
  read_instance_pid "/run/ezvpn" Client "work" (disk sample_locked) = Ret (Some 7%Z) /\
  read_instance_pid "/run/ezvpn" Client "work" (disk sample_started) = Ret (Some 991%Z).
Proof.
  split; [reflexivity|]. split; [|reflexivity].
  assert (Hr : host_reachable "/run/ezvpn" sample_locked).
  { apply host_advance_reachable. eexists. eapply rtc_l; [|apply rtc_refl].
    apply (host_start _ (host_init _)); reflexivity. }
  destruct (vpn_lock_exclusive "/run/ezvpn" sample_locked Hr) as (_ & H & _).
  apply (H 7%N Client "work"). reflexivity.
Defined.
