(* ===== verification/LogFile.v ===== *)
(** * The daemon's log file ([src/main.rs])

    The size cap read from the environment and [drain_to_capped_log], which
    copies the daemon's output into a log that is rotated to one backup.  Every
    file-system call of the loop has its outcome as an input. *)

From S2P Require Import Prelude Text.

#[local] Open Scope string_scope.

Definition DAEMON_LOG_MAX_BYTES : Z := 10 * 1024 * 1024.

(** [raw] is the value of EZVPN_LOG_MAX_BYTES; a value that is not UTF-8
    ([to_str] gives [None]) is [Some None]. *)
Definition parse_log_max_bytes (raw : option (option string)) : Z :=
  match raw with
  | None | Some (Some "") => DAEMON_LOG_MAX_BYTES
  | Some s =>
      match s ≫= fun s => parse_uint 64 (trim s) with
      | Some n => if (0 <? n)%Z then n else DAEMON_LOG_MAX_BYTES
      | None => DAEMON_LOG_MAX_BYTES
      end
  end.

(** [rotated_log_path]: the name with ".1" appended. *)
Definition rotated_log_path (path : string) : string := path +:+ ".1".

Definition BUF_LEN : nat := 16 * 1024.

(** The log and its backup on disk, and the variables [file] (open or not) and
    [size].  An open [file] is the file at [path]: after a rename it is closed
    or reopened at once. *)
Record Log : Type := mkLog {
  active : option (list Z);
  backup : option (list Z);
  file_open : bool;
  log_size : Z;
}.

(** A read from the pipe, and the outcomes of the calls that may follow it:
    both [open_active], [metadata], [rename], and the number of bytes
    [write_all] gets out (all of them when it succeeds). *)
Record calls : Type := mkCalls {
  open_ok : bool;
  meta_ok : bool;
  rename_ok : bool;
  reopen_ok : bool;
  written : nat;
}.

Inductive pipe_read : Type :=
| Chunk (bytes : list Z) (c : calls)
| Interrupted
| Eof
| ReadError.

(** [create(true).append(true).open(path)] and [metadata().len()]. *)
Definition open_active (ok meta : bool) (l : Log) : Log :=
  if ok then
    let content := default [] (active l) in
    mkLog (Some content) (backup l) true (if meta then Z.of_nat (length content) else 0)
  else l.

(** The start of [drain_to_capped_log]. *)
Definition drain_open (ok meta : bool) (active backup : option (list Z)) : Log :=
  open_active ok meta (mkLog active backup false 0).

(** The body of the loop for [n] bytes read. *)
Definition drain_chunk (max_bytes : Z) (bytes : list Z) (c : calls) (l : Log) : Log :=
  let n := Z.of_nat (length bytes) in
  let l := if file_open l then l else open_active (open_ok c) (meta_ok c) l in
  let l :=
    if (0 <? log_size l)%Z && (max_bytes <? log_size l + n)%Z && rename_ok c
       && (match active l with Some _ => true | None => false end)
    then mkLog (if reopen_ok c then Some [] else None) (active l) (reopen_ok c) 0
    else l in
  if file_open l then
    let out := take (written c) bytes in
    mkLog (Some (default [] (active l) ++ out)%list) (backup l) true
      (if (length bytes <=? written c)%nat then log_size l + n else log_size l)%Z
  else l.

Fixpoint drain_loop (max_bytes : Z) (reads : list pipe_read) (l : Log) : Log :=
  match reads with
  | [] => l
  | Chunk bytes c :: reads => drain_loop max_bytes reads (drain_chunk max_bytes bytes c l)
  | Interrupted :: reads => drain_loop max_bytes reads l
  | Eof :: _ | ReadError :: _ => l
  end.

Definition drain_to_capped_log (max_bytes : Z) (ok meta : bool) (active backup : option (list Z))
    (reads : list pipe_read) : Log :=
  drain_loop max_bytes reads (drain_open ok meta active backup).

(** ** The loop under working file-system calls *)

Abbreviation bytes_of := (default (@nil Z)).

(** A read of at most a buffer whose metadata and rename calls work and whose
    write either succeeds or leaves nothing. *)
Definition sound_read (r : pipe_read) : Prop :=
  match r with
  | Chunk bytes c => (length bytes <= BUF_LEN)%nat /\ meta_ok c = true /\ rename_ok c = true /\
                     (written c = 0%nat \/ (length bytes <= written c)%nat)
  | _ => True
  end.

(** Every call works. *)
Definition good_read (r : pipe_read) : Prop :=
  sound_read r /\
  match r with
  | Chunk bytes c => open_ok c = true /\ reopen_ok c = true /\ (length bytes <= written c)%nat
  | _ => True
  end.

(** [size] is the length of an open log, and the sizes are within [b]. *)
Record log_inv (b : Z) (l : Log) : Prop := {
  li_size : file_open l = true -> log_size l = Z.of_nat (length (bytes_of (active l)));
  li_open : file_open l = true -> is_Some (active l);
  li_closed : file_open l = false -> log_size l = 0%Z;
  li_active : (Z.of_nat (length (bytes_of (active l))) <= b)%Z;
  li_backup : (Z.of_nat (length (bytes_of (backup l))) <= b)%Z;
}.

Lemma open_active_inv b ok l : log_inv b l -> file_open l = false -> log_inv b (open_active ok true l).
Proof.
  intros [Hs Ho Hc Ha Hb] Hf. unfold open_active. destruct ok; [|done].
  constructor; cbn [file_open log_size active backup from_option id]; try done.
Qed.

(** The rotation test and what follows it. *)
Lemma drain_chunk_inv b cap bytes c l :
  (cap <= b)%Z -> (Z.of_nat BUF_LEN <= b)%Z -> sound_read (Chunk bytes c) ->
  log_inv b l -> log_inv b (drain_chunk cap bytes c l).
Proof.
  intros Hcap Hbuf (Hlen & Hm & Hr & Hw) Hi. unfold drain_chunk. rewrite Hr, Hm.
  assert (Hi1 : log_inv b (if file_open l then l else open_active (open_ok c) true l)).
  { destruct (file_open l) eqn:Hf; [done|]. by apply open_active_inv. }
  revert Hi1. generalize (if file_open l then l else open_active (open_ok c) true l).
  clear Hi l. intros l [Hs Ho Hc Ha Hb]. rewrite andb_true_r.
  set (n := Z.of_nat (length bytes)) in *.
  destruct ((0 <? log_size l)%Z && (cap <? log_size l + n)%Z && _) eqn:Hrot; cbn [file_open].
  - destruct (reopen_ok c); [|constructor; cbn; try done; lia].
    constructor; cbn [file_open log_size active backup from_option id app]; try done.
    + intros _. rewrite length_take. destruct (Nat.leb_spec (length bytes) (written c)); lia.
    + rewrite length_take. lia.
  - destruct (file_open l) eqn:Hf; [|constructor; rewrite ?Hf; done].
    specialize (Hs eq_refl). specialize (Ho eq_refl) as [content Hc']. rewrite Hc' in *.
    rewrite andb_true_r in Hrot. cbn [from_option id] in *.
    assert (Hbound : (Z.of_nat (length content) + n <= b)%Z).
    { apply andb_false_iff in Hrot as [Hz|Hz]; apply Z.ltb_ge in Hz; lia. }
    constructor; cbn [file_open log_size active backup from_option id]; try done.
    + intros _. rewrite length_app, length_take. destruct (Nat.leb_spec (length bytes) (written c)); lia.
    + rewrite length_app, length_take. lia.
Qed.

Lemma drain_loop_inv b cap reads l :
  (cap <= b)%Z -> (Z.of_nat BUF_LEN <= b)%Z -> Forall sound_read reads ->
  log_inv b l -> log_inv b (drain_loop cap reads l).
Proof.
  intros Hcap Hbuf. revert l. induction reads as [|r reads IH]; intros l Hr Hi; [done|].
  apply Forall_cons in Hr as [Hr Hrs]. destruct r; cbn [drain_loop]; [|by apply IH|done..].
  apply IH; [done|]. by apply drain_chunk_inv.
Qed.

(** ** What the log holds *)

(** Backup and log are the end of everything written, and what fell off did so
    at a rotation that left more than the cap less a buffer in the backup. *)
Definition holds_end (cap : Z) (all : list Z) (l : Log) : Prop :=
  exists old, all = (old ++ bytes_of (backup l) ++ bytes_of (active l))%list /\
    (old <> [] -> (cap < Z.of_nat (length (bytes_of (backup l))) + Z.of_nat BUF_LEN)%Z).

Lemma drain_chunk_holds cap bytes c l all :
  good_read (Chunk bytes c) -> file_open l = true -> log_size l = Z.of_nat (length (bytes_of (active l))) ->
  is_Some (active l) -> holds_end cap all l ->
  holds_end cap (all ++ bytes)%list (drain_chunk cap bytes c l) /\
  file_open (drain_chunk cap bytes c l) = true /\
  log_size (drain_chunk cap bytes c l) = Z.of_nat (length (bytes_of (active (drain_chunk cap bytes c l)))) /\
  is_Some (active (drain_chunk cap bytes c l)).
Proof.
  intros [(Hlen & Hm & Hr & _) (Hop & Hre & Hw)] Hf Hs [content Hc] (old & -> & Hold).
  unfold drain_chunk. rewrite Hf, Hr, Hre, Hc, !andb_true_r. rewrite Hc in *. cbn [from_option id] in *.
  rewrite take_ge by done. rewrite (proj2 (Nat.leb_le _ _) Hw).
  destruct ((0 <? log_size l)%Z && (cap <? log_size l + Z.of_nat (length bytes))%Z) eqn:Hrot;
    cbn [file_open active backup log_size from_option id app]; rewrite ?Hf, ?Hc; cbn [file_open active backup log_size from_option id].
  - apply andb_true_iff in Hrot as [_ Hrot]. apply Z.ltb_lt in Hrot.
    split_and!; [|done|done|by eexists]. exists (old ++ bytes_of (backup l))%list.
    split; [by rewrite <-!app_assoc|]. intros _. cbn [backup from_option id]. lia.
  - split_and!; [|done| |by eexists].
    + exists old. cbn [active backup from_option id]. split; [by rewrite <-!app_assoc|done].
    + rewrite length_app. lia.
Qed.

(** The bytes read up to the end of the pipe. *)
Fixpoint all_read (reads : list pipe_read) : list Z :=
  match reads with
  | Chunk bytes _ :: reads => bytes ++ all_read reads
  | Interrupted :: reads => all_read reads
  | _ => []
  end.

Lemma drain_loop_holds cap reads l all :
  Forall good_read reads -> file_open l = true ->
  log_size l = Z.of_nat (length (bytes_of (active l))) -> is_Some (active l) -> holds_end cap all l ->
  holds_end cap (all ++ all_read reads)%list (drain_loop cap reads l).
Proof.
  revert l all. induction reads as [|r reads IH]; intros l all Hr Hf Hs Ha Hh; cbn [drain_loop all_read].
  { by rewrite app_nil_r. }
  apply Forall_cons in Hr as [Hr Hrs]. destruct r as [bytes c| | |]; [|by apply IH|by rewrite app_nil_r..].
  destruct (drain_chunk_holds cap bytes c l all Hr Hf Hs Ha Hh) as (H1 & H2 & H3 & H4).
  rewrite app_assoc. by apply IH.
Qed.

(** ** Properties *)

(** The daemon's log stays bounded and keeps the end of the output.  With
    writes that succeed or write nothing, whatever opens fail, neither the log
    nor its backup ever exceeds the larger of the cap, a buffer and what was
    there before; when all calls succeed, backup and log together are the end
    of everything that was there and was written since, and anything missing
    fell off at a rotation that kept more than the cap less a buffer. *)
Theorem daemon_log_bounded cap ok a b reads :
  Forall sound_read reads ->
  let l := drain_to_capped_log cap ok true a b reads in
  let bound := Z.max (Z.max cap (Z.of_nat BUF_LEN))
                 (Z.max (Z.of_nat (length (bytes_of a))) (Z.of_nat (length (bytes_of b)))) in
  (Z.of_nat (length (bytes_of (active l))) <= bound)%Z /\
  (Z.of_nat (length (bytes_of (backup l))) <= bound)%Z /\
  (ok = true -> Forall good_read reads ->
   holds_end cap (bytes_of b ++ bytes_of a ++ all_read reads)%list l).
Proof.
  intros Hr l bound. assert (Hi : log_inv bound l).
  { apply drain_loop_inv; [subst bound; lia..|done|]. apply open_active_inv; [|done].
    constructor; cbn; subst bound; [done|done|done|lia|lia]. }
  split; [apply Hi|]. split; [apply Hi|]. intros -> Hg. subst l. unfold drain_to_capped_log.
  rewrite app_assoc. apply drain_loop_holds; cbn [drain_open open_active file_open log_size active backup from_option id]; try done.
  exists []. cbn. by split.
Qed.

(** The cap is the value of the variable when that is a positive 64-bit
    decimal number (spaces around it ignored), and ten mebibytes otherwise, so
    it is always positive. *)
Theorem log_max_bytes_exact raw :
  (0 < parse_log_max_bytes raw <= U64_MAX)%Z /\
  (forall n, (0 < n)%N -> (Z.of_N n <= U64_MAX)%Z -> parse_log_max_bytes (Some (Some (pretty n))) = Z.of_N n) /\
  (parse_log_max_bytes raw <> DAEMON_LOG_MAX_BYTES ->
   exists s, raw = Some (Some s) /\ parse_uint 64 (trim s) = Some (parse_log_max_bytes raw)).
Proof.
  assert (Hr : forall s v, parse_uint 64 s = Some v -> (v <= U64_MAX)%Z).
  { intros s v. unfold parse_uint. case_match; [done|]. destruct (digits_value 0 _) as [x|]; [|done]. cbn.
    destruct (Z.ltb_spec x (2 ^ 64)); [intros [= <-]; ulia|done]. }
  assert (Hcases : parse_log_max_bytes raw = DAEMON_LOG_MAX_BYTES \/
    exists s n, raw = Some (Some s) /\ parse_uint 64 (trim s) = Some n /\ (0 < n)%Z /\
      parse_log_max_bytes raw = n).
  { unfold parse_log_max_bytes. destruct raw as [[[|a s]|]|]; try (by left). cbn [mbind option_bind].
    destruct (parse_uint 64 (trim (String a s))) as [n|] eqn:Hp; [|by left].
    destruct (Z.ltb_spec 0 n); [|by left]. right. by exists (String a s), n. }
  split_and!.
  1,2: destruct Hcases as [->|(s & n & -> & Hn & Hpos & ->)]; [unfold DAEMON_LOG_MAX_BYTES; ulia|];
    apply Hr in Hn; ulia.
  - intros n Hn Hu. unfold parse_log_max_bytes.
    pose proof (parse_pretty 64 n "" ltac:(ulia) eq_refl) as Hp. rewrite append_nil_r in Hp.
    destruct (pretty n) as [|c s] eqn:Hpn; [by vm_compute in Hp|]. cbn [mbind option_bind].
    rewrite Hp. by rewrite (proj2 (Z.ltb_lt 0 _)) by lia.
  - intros Hne. destruct Hcases as [He|(s & n & -> & Hn & _ & ->)]; [done|]. by exists s.
Qed.

(** ** Evaluation *)

Definition all_ok (n : nat) : calls := mkCalls true true true true n.

(** A cap of four bytes: the third chunk rotates, the fourth too. *)
Lemma daemon_log_bounded_witness :
  let reads := [Chunk [1; 2]%Z (all_ok 2); Interrupted; Chunk [3]%Z (all_ok 1);
                Chunk [4; 5; 6]%Z (all_ok 3); Chunk [7; 8]%Z (all_ok 2); Eof] in
  let l := drain_to_capped_log 4 true true None None reads in
  active l = Some [7; 8]%Z /\ backup l = Some [4; 5; 6]%Z /\
  holds_end 4 [1; 2; 3; 4; 5; 6; 7; 8]%Z l.
Proof.
  intros reads l. split; [reflexivity|]. split; [reflexivity|].
  assert (Hg : Forall good_read reads).
  { subst reads. repeat first [apply Forall_nil | apply Forall_cons; split];
      unfold good_read, sound_read, BUF_LEN; cbn [length written meta_ok rename_ok open_ok reopen_ok all_ok];
      repeat split; first [lia | right; lia]. }
  assert (Hs : Forall sound_read reads) by (eapply Forall_impl; [exact Hg|]; intros r Hr; exact (proj1 Hr)).
  destruct (daemon_log_bounded 4 true None None reads Hs) as (_ & _ & Hh).
  exact (Hh eq_refl Hg).
Defined.

(** A write that fails after some bytes is not counted: the log grows past the
    cap without being rotated. *)
Example partial_writes_uncounted :
  let failing := Chunk [1; 2; 3]%Z (mkCalls true true true true 2) in
  let l := drain_to_capped_log 4 true true None None [failing; failing; failing; failing] in
  active l = Some [1; 2; 1; 2; 1; 2; 1; 2]%Z /\ log_size l = 0%Z.
Proof. split; reflexivity. Qed.
