(* ===== verification/Dirs.v ===== *)
(** * Directories of the program ([src/runtime.rs])

    The directories on Windows, and the creation of the runtime and log
    directories on Unix with their permissions. *)

From S2P Require Import Prelude Text Runtime.

#[local] Open Scope string_scope.

(** ** Windows *)

(** [Path::join] of a relative part. *)
Definition win_join (base path : string) : string :=
  match base, strip_suffix "\" base with
  | "", _ | _, Some _ => base +:+ path
  | _, None => base +:+ "\" +:+ path
  end.

Section Windows.
Context (env : string -> option string) (known_folder : option string).

Definition program_data_dir : string :=
  match env_dir env "ProgramData" with
  | Some dir => dir
  | None => default "C:\ProgramData" known_folder
  end.

Definition win_runtime_dir : string := default (win_join program_data_dir "ezvpn") (env_dir env "EZVPN_RUNTIME_DIR").
Definition win_log_dir : string :=
  default (win_join (win_join program_data_dir "ezvpn") "logs") (env_dir env "EZVPN_LOG_DIR").
Definition win_config_dir : string := win_join program_data_dir "ezvpn".
End Windows.

(** ** Creating directories *)

(** The directories with their modes; a path is the list of its components,
    the last one first. *)
Abbreviation path := (list string).
Abbreviation dirs := (gmap (list string) Z).

(** The results of the calls of a process, and its [umask]. *)
Record dir_calls : Type := mkDirCalls { dc_mkdir : path -> bool; dc_chmod : bool; dc_umask : Z }.

Section Create.
Context (c : dir_calls).

(** [mkdir] of a missing directory. *)
Definition mkdir (fs : dirs) (dir : path) (mode : Z) : dirs * bool :=
  if dc_mkdir c dir then (<[dir := Z.land mode (Z.lnot (dc_umask c))]> fs, true) else (fs, false).

(** [DirBuilder] with [recursive(true)]: the missing ancestors are created too. *)
Fixpoint create_dir_all (fs : dirs) (dir : path) (mode : Z) : dirs * bool :=
  match fs !! dir with
  | Some _ => (fs, true)
  | None =>
      match dir with
      | [] => (fs, true)
      | _ :: parent =>
          match create_dir_all fs parent mode with
          | (fs, true) => mkdir fs dir mode
          | (fs, false) => (fs, false)
          end
      end
  end.

Definition ensure_dir (fs : dirs) (dir : path) (mode : Z) : dirs * option path :=
  match create_dir_all fs dir mode with
  | (fs, true) => (fs, Some dir)
  | (fs, false) => (fs, None)
  end.

(** 0755 and 0700. *)
Definition RUNTIME_MODE : Z := 493.
Definition LOG_MODE : Z := 448.

Definition ensure_runtime_dir (fs : dirs) (dir : path) : dirs * option path :=
  match ensure_dir fs dir RUNTIME_MODE with
  | (fs, Some dir) => if dc_chmod c then (<[dir := RUNTIME_MODE]> fs, Some dir) else (fs, None)
  | r => r
  end.

Definition ensure_log_dir (fs : dirs) (dir : path) : dirs * option path := ensure_dir fs dir LOG_MODE.

(** ** Who can get at them *)

(** What [create_dir_all] leaves: the directories that were there as they were,
    and new ones with no more than [mode]. *)
Definition extends_with (mode : Z) (fs fs' : dirs) : Prop :=
  forall p m, fs' !! p = Some m -> fs !! p = Some m \/ fs !! p = None /\ m = Z.land mode (Z.lnot (dc_umask c)).

Lemma create_dir_all_spec fs dir mode :
  let '(fs', ok) := create_dir_all fs dir mode in
  extends_with mode fs fs' /\ (forall p m, fs !! p = Some m -> fs' !! p = Some m) /\
  (ok = true -> dir <> [] -> is_Some (fs' !! dir)).
Proof.
  induction dir as [|name parent IH]; cbn [create_dir_all].
  - destruct (fs !! []) eqn:Hf; split_and!; try done; by left.
  - destruct (fs !! (name :: parent)) as [m0|] eqn:Hf; [split_and!; [by left|done|by rewrite Hf]|].
    destruct (create_dir_all fs parent mode) as [fs1 ok]. destruct IH as (He & Hk & _).
    destruct ok; [|by split_and!]. unfold mkdir. destruct (dc_mkdir c (name :: parent)); [|by split_and!].
    split_and!.
    + intros p m Hp. apply lookup_insert_Some in Hp as [[<- <-]|[Hne Hp]]; [by right|by apply He].
    + intros p m Hp. rewrite lookup_insert_ne; [by apply Hk|congruence].
    + intros _ _. rewrite lookup_insert_eq. by eexists.
Qed.

(** The bits of a new directory are among those asked for. *)
Lemma masked_bits mode others : Z.land mode others = 0%Z -> Z.land (Z.land mode (Z.lnot (dc_umask c))) others = 0%Z.
Proof. intros Hm. by rewrite <-Z.land_assoc, (Z.land_comm (Z.lnot _)), Z.land_assoc, Hm. Qed.

(** Preparing the directories, whatever the [umask]: the runtime directory ends
    up with mode 0755 or the call fails; nobody but the owner can write to it or
    to an ancestor that was created for it, and directories that were there keep
    their modes.  The log directory keeps its mode if it was there; if not, it
    and its new ancestors give the group and the others nothing. *)
Theorem ensured_dirs_exact (fs : dirs) (dir : path) :
  dir <> [] ->
  (let '(fs', r) := ensure_runtime_dir fs dir in
   (forall p m, p <> dir -> fs !! p = Some m -> fs' !! p = Some m) /\
   (forall p m, fs !! p = None -> fs' !! p = Some m -> Z.land m 18 = 0%Z) /\
   (r = Some dir /\ fs' !! dir = Some RUNTIME_MODE \/ r = None)) /\
  (let '(fs', r) := ensure_log_dir fs dir in
   (forall p m, fs !! p = Some m -> fs' !! p = Some m) /\
   (forall p m, fs !! p = None -> fs' !! p = Some m -> Z.land m 63 = 0%Z) /\
   (r = Some dir /\ is_Some (fs' !! dir) \/ r = None)).
Proof.
  intros Hne. unfold ensure_runtime_dir, ensure_log_dir, ensure_dir.
  assert (Hnew : forall mode others fs1, extends_with mode fs fs1 -> Z.land mode others = 0%Z ->
    forall p m, fs !! p = None -> fs1 !! p = Some m -> Z.land m others = 0%Z).
  { intros mode others fs1 He Hm p m Hn Hp. destruct (He p m Hp) as [?|[_ ->]]; [congruence|by apply masked_bits]. }
  split.
  - pose proof (create_dir_all_spec fs dir RUNTIME_MODE) as Hs. destruct (create_dir_all fs dir RUNTIME_MODE) as [fs1 ok].
    destruct Hs as (He & Hk & Hd). specialize (Hnew _ 18%Z _ He eq_refl).
    destruct ok; [destruct (dc_chmod c)|]; [|by split_and!; auto..]. split_and!.
    + intros p m Hp Hf. rewrite lookup_insert_ne by done. by apply Hk.
    + intros p m Hn Hp. apply lookup_insert_Some in Hp as [[_ <-]|[_ Hp]]; [done|by eapply Hnew].
    + left. by rewrite lookup_insert_eq.
  - pose proof (create_dir_all_spec fs dir LOG_MODE) as Hs. destruct (create_dir_all fs dir LOG_MODE) as [fs1 ok].
    destruct Hs as (He & Hk & Hd). specialize (Hnew _ 63%Z _ He eq_refl). destruct ok; split_and!; auto.
Qed.
End Create.

(** A log directory under a missing parent, with [umask] 022: both are private. *)
Example sample_log_dir :
  (ensure_log_dir (mkDirCalls (fun _ => true) true 18) (<[["var"] := 493%Z]> ∅) ["ezvpn"; "log"; "var"]).1 =
  <[["ezvpn"; "log"; "var"] := 448%Z]> (<[["log"; "var"] := 448%Z]> (<[["var"] := 493%Z]> ∅)).
Proof. reflexivity. Qed.
