(* ===== verification/Secrets.v ===== *)
(** * The server's secret key file ([src/secret.rs], [src/transport/endpoint.rs], [src/auth.rs])

    Writing a new key so that nobody else can read it and no existing key is
    lost, while other processes change the disk between the system calls; the
    commands around it; loading a key; and the signature context of the
    client's authentication. *)

From S2P Require Import Prelude Text.

#[local] Open Scope string_scope.

(** ** The disk *)

Record SecretFile : Type := mkSecretFile { sf_mode : Z; sf_content : string }.

(** Directory entries point to files, which an open descriptor keeps. *)
Record Disk : Type := mkDisk { entries : gmap string nat; inodes : gmap nat SecretFile }.

(** 0600. *)
Definition OWNER_ONLY : Z := 384.
(** The bits of the group and of the others, 0077. *)
Definition OTHERS : Z := 63.

Definition private_mode (mode : Z) : bool := (Z.land mode OTHERS =? 0)%Z.

Definition file_exists (d : Disk) (path : string) : bool :=
  match entries d !! path with Some _ => true | None => false end.

Definition set_file (d : Disk) (i : nat) (f : SecretFile) : Disk := mkDisk (entries d) (<[i := f]> (inodes d)).

Definition create_file (d : Disk) (path : string) (mode : Z) : Disk * nat :=
  let i := fresh (dom (inodes d)) in
  (mkDisk (<[path := i]> (entries d)) (<[i := mkSecretFile mode ""]> (inodes d)), i).

(** [OpenOptions::open] for writing with mode 0600: [create] and [truncate] when
    forced, else [create_new]. *)
Definition open_secret (umask : Z) (force : bool) (d : Disk) (path : string) : Disk * option nat :=
  match entries d !! path with
  | Some i =>
      if force then
        match inodes d !! i with
        | Some f => (set_file d i (mkSecretFile (sf_mode f) ""), Some i)
        | None => (d, None)
        end
      else (d, None)
  | None => let '(d, i) := create_file d path (Z.ldiff OWNER_ONLY umask) in (d, Some i)
  end.

Definition set_permissions (d : Disk) (i : nat) (mode : Z) : Disk :=
  match inodes d !! i with
  | Some f => set_file d i (mkSecretFile mode (sf_content f))
  | None => d
  end.

(** The first [n] bytes arrive, at the start of the file. *)
Definition write_bytes (d : Disk) (i : nat) (content : string) (n : nat) : Disk :=
  match inodes d !! i with
  | Some f => set_file d i (mkSecretFile (sf_mode f)
                (String.substring 0 n content +:+ String.substring n (String.length (sf_content f)) (sf_content f)))
  | None => d
  end.

(** ** [write_secret_file] *)

(** What the other processes do to the disk before a call, and whether the call
    goes through. *)
Record call : Type := mkCall { c_env : Disk -> Disk; c_ok : bool }.

Record write_calls : Type := mkWrite {
  wc_mkdir : call; wc_open : call; wc_chmod : call; wc_write : call; wc_written : nat;
}.

(** The disk before and after each call of ours, the final disk, the result. *)
Abbreviation written A := (list (Disk * Disk) * Disk * outcome string A)%type.

Definition write_secret_content (c : write_calls) (content : string) (i : nat) (d : Disk)
    (trace : list (Disk * Disk)) : written unit :=
  let d := c_env (wc_write c) d in
  let n := if c_ok (wc_write c) then String.length content else wc_written c in
  let d' := write_bytes d i content n in
  let trace := (trace ++ [(d, d')])%list in
  if c_ok (wc_write c) then (trace, d', Ret tt) else (trace, d', Fail "Failed to write secret key file").

Definition write_secret_file (unix : bool) (umask : Z) (c : write_calls) (output content : string) (force : bool)
    (d : Disk) : written unit :=
  if file_exists d output && negb force then ([], d, Fail "File already exists: {}. Use --force to overwrite.")
  else
    let d := c_env (wc_mkdir c) d in
    if negb (c_ok (wc_mkdir c)) then ([], d, Fail "Failed to create parent directory")
    else
      let d := c_env (wc_open c) d in
      if unix then
        if negb (c_ok (wc_open c)) then ([], d, Fail "Failed to open secret key file")
        else
          match open_secret umask force d output with
          | (d', None) => ([(d, d')], d', Fail "Failed to open secret key file")
          | (d', Some i) =>
              let trace := [(d, d')] in
              if force then
                let d := c_env (wc_chmod c) d' in
                if negb (c_ok (wc_chmod c)) then (trace, d, Fail "Failed to set secret key file permissions")
                else
                  let d' := set_permissions d i OWNER_ONLY in
                  write_secret_content c content i d' (trace ++ [(d, d')])%list
              else write_secret_content c content i d' trace
          end
      else
        (* [std::fs::write] creates or truncates. *)
        if negb (c_ok (wc_open c)) then ([], d, Fail "Failed to write secret key file")
        else
          let '(d', i) :=
            match entries d !! output with
            | Some i => (set_file d i (mkSecretFile (default 0%Z (sf_mode <$> inodes d !! i)) ""), i)
            | None => create_file d output 0
            end in
          write_secret_content c content i d' [(d, d')].

(** ** Keys and commands *)

(** The key and encoding libraries. *)
Class KeyApi (Key Id Bytes : Type) : Type := {
  to_bytes : Key -> Bytes;
  key_of_bytes : Bytes -> option Key;
  public : Key -> Id;
  show_endpoint_id : Id -> string;
  base64_encode : Bytes -> string;
  base64_decode : string -> option Bytes;
  valid_utf8 : string -> bool;
}.

Section Keys.
Context {Key Id Bytes : Type} `{KeyApi Key Id Bytes}.

Definition secret_to_endpoint_id (secret : Key) : Id := public secret.

Definition load_secret_from_string (base64_key : string) : outcome string Key :=
  bytes ← ok_or "Invalid base64 in secret key" (base64_decode base64_key);
  ok_or "Invalid secret key (must be 32 bytes)" (key_of_bytes bytes).

Definition read_to_string (d : Disk) (path : string) (ok : bool) : option string :=
  i ← entries d !! path; f ← inodes d !! i;
  if ok && valid_utf8 (sf_content f) then Some (sf_content f) else None.

Definition load_secret (d : Disk) (ok : bool) (path : string) : outcome string Key :=
  if negb (file_exists d path)
  then Fail "Secret key file not found: {}\nGenerate one with: ezvpn generate-server-key --output {}"
  else
    content ← ok_or "Failed to read secret key file" (read_to_string d path ok);
    load_secret_from_string (trim content).

Record KeygenReport : Type := mkReport {
  kr_endpoint_id : string; kr_path : option string; kr_secret_key : option string;
}.

(** What a command prints. *)
Inductive printed : Type :=
| Stdout (s : string)
| Stderr (s : string)
| Json (r : KeygenReport).

(** [generate_secret], for the key that was drawn. *)
Definition generate_secret (secret : Key) (unix : bool) (umask : Z) (c : write_calls) (output : string)
    (force json : bool) (d : Disk) : written (list printed) :=
  let secret_base64 := base64_encode (to_bytes secret) in
  let endpoint_id := show_endpoint_id (secret_to_endpoint_id secret) in
  if String.eqb output "-" then
    ([], d, Ret (if json then [Json (mkReport endpoint_id None (Some secret_base64))]
                 else [Stdout secret_base64; Stderr ("EndpointId: " +:+ endpoint_id)]))
  else
    let '(trace, d, r) := write_secret_file unix umask c output secret_base64 force d in
    (trace, d, _ ← r; Ret (if json then [Json (mkReport endpoint_id (Some output) None)]
                           else [Stdout ("EndpointId: " +:+ endpoint_id)])).

Definition show_id (d : Disk) (ok : bool) (secret_file : string) (json : bool) : outcome string (list printed) :=
  secret ← load_secret d ok secret_file;
  let endpoint_id := show_endpoint_id (secret_to_endpoint_id secret) in
  Ret (if json then [Json (mkReport endpoint_id None None)] else [Stdout endpoint_id]).
End Keys.

(** ** The signature context *)

(** The key files and signatures of the shared crates. *)
Class AuthApi (ClientKey PublicKey Id Keys : Type) : Type := {
  crate_sign : ClientKey -> string -> Id -> string;
  crate_verify : PublicKey -> string -> Id -> string -> bool;
  crate_load_private_key : string -> outcome string ClientKey;
  crate_load_authorized_keys : string -> outcome string Keys;
}.

Section Auth.
Context {ClientKey PublicKey Id Keys : Type} `{AuthApi ClientKey PublicKey Id Keys}.

Definition AUTH_CONTEXT : string := "ezvpn-client-auth-v1".

Definition sign_endpoint_id (key : ClientKey) (endpoint_id : Id) : string :=
  crate_sign key AUTH_CONTEXT endpoint_id.
Definition verify_endpoint_id_signature (public : PublicKey) (endpoint_id : Id) (signature_b64 : string) : bool :=
  crate_verify public AUTH_CONTEXT endpoint_id signature_b64.
Definition load_client_key_from_file (path : string) : outcome string ClientKey := crate_load_private_key path.
Definition load_authorized_keys (path : string) : outcome string Keys := crate_load_authorized_keys path.
End Auth.

(** ** Who can read the key *)

Lemma created_private umask : private_mode (Z.ldiff OWNER_ONLY umask) = true.
Proof.
  apply Z.eqb_eq, Z.bits_inj'. intros n Hn. rewrite Z.land_spec, Z.ldiff_spec, Z.bits_0.
  destruct (decide (n < 9)%Z) as [Hl|Hl].
  - assert (n = 0 \/ n = 1 \/ n = 2 \/ n = 3 \/ n = 4 \/ n = 5 \/ n = 6 \/ n = 7 \/ n = 8)%Z as Hc by lia.
    repeat destruct Hc as [->|Hc]; try (by rewrite ?andb_false_r); try subst n; by rewrite ?andb_false_r.
  - rewrite (Z.bits_above_log2 OTHERS); [by rewrite andb_false_r|done|]. change (Z.log2 OTHERS) with 5%Z. lia.
Qed.

(** A call leaves a file alone, or leaves it empty or private. *)
Definition harmless (i : nat) (before after : Disk) : Prop :=
  inodes after !! i = inodes before !! i \/
  exists f, inodes after !! i = Some f /\ (sf_content f = "" \/ private_mode (sf_mode f) = true).

(** Only the file [i] is changed. *)
Definition only (i : nat) (before after : Disk) : Prop :=
  forall j, j <> i -> inodes after !! j = inodes before !! j.

Definition is_private (d : Disk) (i : nat) : Prop :=
  exists f, inodes d !! i = Some f /\ private_mode (sf_mode f) = true.

(** The other processes may do anything to the directory and to the contents of
    files, but a file that is open stays and a private one is not opened up. *)
Definition respects (env : Disk -> Disk) : Prop :=
  (forall d i, is_private d i -> is_private (env d) i) /\
  (forall d i, is_Some (inodes d !! i) -> is_Some (inodes (env d) !! i)).

Lemma set_file_only d i f : only i d (set_file d i f).
Proof. intros j Hj. cbn. by rewrite lookup_insert_ne. Qed.

Lemma set_file_at d i f : inodes (set_file d i f) !! i = Some f.
Proof. cbn. by rewrite lookup_insert_eq. Qed.

Lemma open_only umask force d path d' oi :
  open_secret umask force d path = (d', oi) ->
  match oi with
  | Some i => only i d d' /\ (exists f, inodes d' !! i = Some f /\ sf_content f = "") /\
              (force = false -> inodes d !! i = None /\ is_private d' i)
  | None => d' = d
  end.
Proof.
  unfold open_secret. destruct (entries d !! path) as [i|] eqn:He.
  - destruct force; [|by intros [= <- <-]]. destruct (inodes d !! i) as [f|]; intros [= <- <-]; [|done].
    split_and!; [apply set_file_only| |done]. eexists. split; [apply set_file_at|done].
  - unfold create_file. set (i := fresh _). intros [= <- <-]. cbn [inodes].
    assert (Hn : inodes d !! i = None) by (apply not_elem_of_dom, is_fresh). split_and!.
    + intros j Hj. cbn [inodes]. by rewrite lookup_insert_ne.
    + eexists. by rewrite lookup_insert_eq.
    + intros _. split; [done|]. eexists. cbn [inodes]. rewrite lookup_insert_eq. split; [done|]. apply created_private.
Qed.

Lemma write_bytes_private d i content n : is_private d i -> is_private (write_bytes d i content n) i.
Proof. intros (f & Hf & Hp). unfold write_bytes. rewrite Hf. eexists. by rewrite set_file_at. Qed.

Lemma write_bytes_only d i content n : only i d (write_bytes d i content n).
Proof. unfold write_bytes. destruct (inodes d !! i); [apply set_file_only|by intros]. Qed.

Lemma chmod_only d i mode : only i d (set_permissions d i mode).
Proof. unfold set_permissions. destruct (inodes d !! i); [apply set_file_only|by intros]. Qed.

(** What is known of the calls made on the opened file [i]. *)
Definition trace_ok (i : nat) (trace : list (Disk * Disk)) : Prop :=
  Forall (fun '(before, after) => only i before after /\ harmless i before after) trace.

Lemma harmless_all i before after : only i before after -> harmless i before after -> forall j, harmless j before after.
Proof. intros Ho Hh j. destruct (decide (j = i)) as [->|Hj]; [done|]. left. by apply Ho. Qed.

Lemma write_content_ok c content i d trace :
  is_private d i -> respects (c_env (wc_write c)) -> trace_ok i trace ->
  trace_ok i (write_secret_content c content i d trace).1.1.
Proof.
  intros Hp Hk Ht. unfold write_secret_content.
  assert (Ho : forall n, trace_ok i (trace ++ [(c_env (wc_write c) d, write_bytes (c_env (wc_write c) d) i content n)])).
  { intros n. apply Forall_app. split; [done|]. apply Forall_singleton. split; [apply write_bytes_only|].
    right. destruct (write_bytes_private (c_env (wc_write c) d) i content n) as (f & Hf & Hm); [by apply Hk|]. eauto. }
  destruct (c_ok (wc_write c)); apply Ho.
Qed.

Lemma chmod_private d i : is_Some (inodes d !! i) -> is_private (set_permissions d i OWNER_ONLY) i.
Proof. intros [f Hf]. unfold set_permissions. rewrite Hf. eexists. by rewrite set_file_at. Qed.

(** The disk as it is when the file is opened. *)
Definition at_open (c : write_calls) (d : Disk) : Disk := c_env (wc_open c) (c_env (wc_mkdir c) d).

Lemma write_secret_trace umask c output content force d :
  respects (c_env (wc_chmod c)) -> respects (c_env (wc_write c)) ->
  let '(trace, _, r) := write_secret_file true umask c output content force d in
  (trace = [] /\ is_ret r = false) \/
  (trace = [(at_open c d, at_open c d)] /\ is_ret r = false) \/
  exists i, trace_ok i trace /\ (force = false -> inodes (at_open c d) !! i = None /\ entries (at_open c d) !! output = None).
Proof.
  intros Hch Hwr. unfold write_secret_file. fold (at_open c d).
  destruct (file_exists d output && negb force); [by left|].
  destruct (negb (c_ok (wc_mkdir c))); [by left|]. destruct (negb (c_ok (wc_open c))); [by left|].
  destruct (open_secret umask force (at_open c d) output) as [d1 oi] eqn:Ho. pose proof (open_only _ _ _ _ _ _ Ho) as Hi.
  destruct oi as [i|]; [|subst d1; right; by left]. destruct Hi as (Honly & (f & Hf & Hempty) & Hnew).
  assert (Ht1 : trace_ok i [(at_open c d, d1)]).
  { apply Forall_cons. split; [|done]. split; [done|]. right. eauto. }
  assert (He : force = false -> inodes (at_open c d) !! i = None /\ entries (at_open c d) !! output = None).
  { intros ->. split; [by destruct Hnew|]. unfold open_secret in Ho. by destruct (entries (at_open c d) !! output). }
  destruct force.
  - destruct (negb (c_ok (wc_chmod c))); [right; right; by exists i|]. cbv zeta.
    set (d2 := c_env (wc_chmod c) d1). assert (Hs : is_Some (inodes d2 !! i)) by (apply Hch; eauto).
    pose proof (chmod_private d2 i Hs) as Hp.
    assert (Ht2 : trace_ok i ([(at_open c d, d1)] ++ [(d2, set_permissions d2 i OWNER_ONLY)])).
    { apply Forall_app. split; [done|]. apply Forall_cons. split; [|done]. split; [apply chmod_only|].
      right. destruct Hp as (g & Hg & Hm). eauto. }
    pose proof (write_content_ok c content i _ _ Hp Hwr Ht2) as Ht.
    destruct (write_secret_content _ _ _ _ _) as [[tr d3] r]. right. right. by exists i.
  - destruct (Hnew eq_refl) as [_ Hp]. pose proof (write_content_ok c content i _ _ Hp Hwr Ht1) as Ht.
    destruct (write_secret_content _ _ _ _ _) as [[tr d3] r]. right. right. by exists i.
Qed.

(** C17. Writing the server's secret key, on Unix, with other processes changing
    the disk between any two of its system calls: every call leaves each file
    of the disk as it was, or empty, or without any permission for the group
    and the others, so that no byte of the key is ever in a file that others
    may read; and without [--force] no file that is there when the key file is
    opened is changed, not even one that has appeared since the check: then the
    command fails. *)
Theorem secret_file_private umask c output content force d :
  respects (c_env (wc_chmod c)) -> respects (c_env (wc_write c)) ->
  let '(trace, _, r) := write_secret_file true umask c output content force d in
  Forall (fun '(before, after) => forall i, harmless i before after) trace /\
  (force = false ->
     Forall (fun '(before, after) => forall i, i ∈ dom (inodes (at_open c d)) ->
       inodes after !! i = inodes before !! i) trace /\
     (file_exists d output = true \/ file_exists (at_open c d) output = true -> is_ret r = false)).
Proof.
  intros Hch Hwr. pose proof (write_secret_trace umask c output content force d Hch Hwr) as Ht.
  destruct (write_secret_file _ _ _ _ _ _ _) as [[trace d'] r] eqn:Hw.
  assert (Hex : force = false -> file_exists d output = true -> is_ret r = false).
  { intros -> Hx. unfold write_secret_file in Hw. rewrite Hx in Hw. by injection Hw as <- <- <-. }
  destruct Ht as [[-> Hr]|[[-> Hr]|(i & Ht & Hn)]].
  - split; [done|]. intros _. by split.
  - split; [|intros _; split; [|done]]; (apply Forall_cons; split; [|done]); intros j; [by left|done].
  - split.
    + eapply Forall_impl; [exact Ht|]. intros [before after] [Ho Hh] j. by eapply harmless_all.
    + intros ->. destruct (Hn eq_refl) as [Hni Hne]. split.
      * eapply Forall_impl; [exact Ht|]. intros [before after] [Ho _] j Hj. apply Ho. intros ->.
        by apply not_elem_of_dom in Hni.
      * intros [Hx|Hx]; [by apply Hex|]. unfold file_exists in Hx. by rewrite Hne in Hx.
Qed.

(** ** A new key can be loaded *)

(** What is relied on of the libraries: decoding inverts encoding, the
    encoding is text without white space, and a key is its bytes. *)
Class KeyLaws (Key Id Bytes : Type) `{KeyApi Key Id Bytes} : Prop := {
  kl_base64 : forall b, base64_decode (base64_encode b) = Some b;
  kl_text : forall b, all_chars no_space (base64_encode b) = true /\ valid_utf8 (base64_encode b) = true;
  kl_bytes : forall k, key_of_bytes (to_bytes k) = Some k;
}.

(** Nothing else happens and every call goes through. *)
Definition undisturbed : write_calls :=
  let c := mkCall (fun d => d) true in mkWrite c c c c 0.

Lemma substring_all (s : string) : String.substring 0 (String.length s) s = s.
Proof. induction s as [|c s IH]; [done|]. cbn. by rewrite IH. Qed.

Lemma substring_empty n m : String.substring n m "" = "".
Proof. by destruct n, m. Qed.

Lemma trim_nospace (s : string) : all_chars no_space s = true -> trim s = s.
Proof.
  intros Hs. unfold trim. rewrite trim_start_nospace by done. rewrite <-(append_nil_r s) at 1. by apply trim_end_nospace.
Qed.

(** Every directory entry has its file. *)
Definition disk_ok (d : Disk) : Prop := forall p i, entries d !! p = Some i -> is_Some (inodes d !! i).

Lemma write_undisturbed umask output content force d :
  disk_ok d -> file_exists d output && negb force = false ->
  let '(_, d', r) := write_secret_file true umask undisturbed output content force d in
  r = Ret tt /\ (exists i f, entries d' !! output = Some i /\ inodes d' !! i = Some f /\
     sf_content f = content /\ private_mode (sf_mode f) = true /\ only i d d') /\
  (forall p, p <> output -> entries d' !! p = entries d !! p).
Proof.
  intros Hd Hx. unfold write_secret_file. rewrite Hx. cbn [undisturbed c_env c_ok wc_mkdir wc_open wc_chmod wc_write negb].
  destruct (open_secret umask force d output) as [d1 oi] eqn:Ho. pose proof (open_only _ _ _ _ _ _ Ho) as Hi.
  assert (He : exists i, oi = Some i /\ entries d1 !! output = Some i /\ forall p, p <> output -> entries d1 !! p = entries d !! p).
  { unfold open_secret in Ho. unfold file_exists in Hx. destruct (entries d !! output) as [i|] eqn:Hen.
    - destruct force; [|done]. destruct (Hd _ _ Hen) as [f Hf]. rewrite Hf in Ho. injection Ho as <- <-. by exists i.
    - unfold create_file in Ho. injection Ho as <- <-. eexists. split; [done|]. cbn [entries].
      split; [by rewrite lookup_insert_eq|]. intros p Hp. by rewrite lookup_insert_ne. }
  destruct He as (i & -> & He & Hother). destruct Hi as (Honly & (f & Hf & Hempty) & Hnew).
  assert (Hgo : forall d2 trace, entries d2 = entries d1 -> only i d d2 ->
    (exists f2, inodes d2 !! i = Some f2 /\ sf_content f2 = "" /\ private_mode (sf_mode f2) = true) ->
    let '(_, d', r) := write_secret_content undisturbed content i d2 trace in
    r = Ret tt /\ (exists i f, entries d' !! output = Some i /\ inodes d' !! i = Some f /\
     sf_content f = content /\ private_mode (sf_mode f) = true /\ only i d d') /\
    (forall p, p <> output -> entries d' !! p = entries d !! p)).
  { intros d2 trace He2 Ho2 (f2 & Hf2 & Hc2 & Hm2). unfold write_secret_content.
    cbn [undisturbed c_env c_ok wc_write]. unfold write_bytes. rewrite Hf2, Hc2, substring_all, substring_empty, append_nil_r.
    split; [done|]. split; [|cbn [entries set_file]; by rewrite He2].
    exists i. eexists. rewrite set_file_at. cbn [entries set_file]. rewrite He2. split_and!; try done.
    intros j Hj. rewrite (set_file_only d2 i _ j Hj). by apply Ho2. }
  destruct force.
  - apply Hgo; [unfold set_permissions; by rewrite Hf| |].
    + intros j Hj. rewrite (chmod_only d1 i OWNER_ONLY j Hj). by apply Honly.
    + unfold set_permissions. rewrite Hf. eexists. by rewrite set_file_at.
  - apply Hgo; [done|done|]. destruct (Hnew eq_refl) as [_ (g & Hg & Hm)]. simplify_eq. eauto.
Qed.

(** A generated key can be loaded: [generate-server-key] into a file,
    followed by loading that file, gives the key that was generated, and
    [show-server-id] prints the endpoint id that was reported; the file is
    private to its owner and no other file has changed.  If the file exists and
    [--force] is not given, the command fails and the disk is as before. *)
Theorem secret_key_roundtrip {Key Id Bytes} `{KeyLaws Key Id Bytes} (secret : Key) umask output force json d :
  output <> "-" -> disk_ok d ->
  let '(trace, d', r) := generate_secret secret true umask undisturbed output force json d in
  let id := show_endpoint_id (secret_to_endpoint_id secret) in
  if file_exists d output && negb force then trace = [] /\ d' = d /\ is_ret r = false
  else
    r = Ret (if json then [Json (mkReport id (Some output) None)] else [Stdout ("EndpointId: " +:+ id)]) /\
    load_secret d' true output = Ret secret /\ show_id d' true output false = Ret [Stdout id] /\
    exists i, entries d' !! output = Some i /\ is_private d' i /\ only i d d' /\
      forall p, p <> output -> entries d' !! p = entries d !! p.
Proof.
  intros Hout Hd. unfold generate_secret. rewrite (proj2 (String.eqb_neq output "-") Hout).
  destruct (file_exists d output && negb force) eqn:Hx.
  { unfold write_secret_file. by rewrite Hx. }
  pose proof (write_undisturbed umask output (base64_encode (to_bytes secret)) force d Hd Hx) as Hw.
  destruct (write_secret_file _ _ _ _ _ _ _) as [[trace d'] r]. destruct Hw as (-> & (i & f & He & Hf & Hc & Hm & Ho) & Hp).
  destruct (kl_text (to_bytes secret)) as [Hns Hu].
  assert (Hl : load_secret d' true output = Ret secret).
  { unfold load_secret, file_exists, read_to_string. rewrite He. cbn [mbind option_bind]. rewrite Hf. cbn [negb mbind option_bind].
    rewrite Hc, Hu. cbn. rewrite trim_nospace by done. unfold load_secret_from_string. by rewrite kl_base64; cbn; rewrite kl_bytes. }
  split; [done|]. split; [done|]. split; [unfold show_id; by rewrite Hl|].
  exists i. split; [done|]. split; [by exists f|]. by split.
Qed.

(** ** Evaluation *)

(** Two keys, with their encodings. *)
#[local] Instance sample_keys : KeyApi bool bool bool := {|
  to_bytes k := k;
  key_of_bytes b := Some b;
  public k := k;
  show_endpoint_id (i : bool) := if i then "id1" else "id0";
  base64_encode (b : bool) := if b then "AQ==" else "AA==";
  base64_decode s := if String.eqb s "AQ==" then Some true else if String.eqb s "AA==" then Some false else None;
  valid_utf8 s := true;
|}.

#[local] Instance sample_key_laws : KeyLaws bool bool bool.
Proof. constructor; by intros []. Qed.

(** A disk with a file that everybody may read. *)
Definition sample_disk : Disk := mkDisk {["old" := 0]} {[0 := mkSecretFile 420 "old key"]}.

(** Somebody creates the file between the check and the opening. *)
Definition intruder (d : Disk) : Disk := mkDisk (<["new" := 0]> (entries d)) (inodes d).

Definition raced : write_calls :=
  let c := mkCall (fun d => d) true in mkWrite c (mkCall intruder true) c c 0.

Lemma respects_id : respects (fun d : Disk => d).
Proof. by split. Qed.

Lemma secret_file_private_witness :
  let r := write_secret_file true 18 raced "new" "AQ==" false sample_disk in
  file_exists sample_disk "new" = false /\ is_ret r.2 = false.
Proof.
  pose proof (secret_file_private 18 raced "new" "AQ==" false sample_disk respects_id respects_id) as Hs.
  destruct (write_secret_file true 18 raced "new" "AQ==" false sample_disk) as [[trace d'] r].
  split; [reflexivity|]. destruct Hs as [_ Hs]. apply (Hs eq_refl). right. reflexivity.
Defined.

Lemma secret_key_roundtrip_witness :
  let '(_, d', r) := generate_secret true true 18 undisturbed "old" true false sample_disk in
  r = Ret [Stdout "EndpointId: id1"] /\ load_secret d' true "old" = Ret true.
Proof.
  assert (Hd : disk_ok sample_disk).
  { intros p i Hp. cbn in Hp. apply lookup_singleton_Some in Hp as [_ <-]. by eexists. }
  pose proof (secret_key_roundtrip true 18 "old" true false sample_disk ltac:(discriminate) Hd) as Hs.
  destruct (generate_secret true true 18 undisturbed "old" true false sample_disk) as [[trace d'] r].
  destruct Hs as (Hr & Hl & _). exact (conj Hr Hl).
Defined.

(** Where there are no modes, the key is written with [std::fs::write], which
    does not refuse a file that has appeared since the check. *)
Example windows_write_race :
  let '(_, d', r) := write_secret_file false 18 raced "new" "AQ==" false sample_disk in
  r = Ret tt /\ (sf_content <$> inodes d' !! 0) = Some "AQ==".
Proof. vm_compute. split; reflexivity. Qed.
