(* ===== verification/Net.v ===== *)
(** * Addresses and prefixes

    An [Ipv4Addr] is a 32-bit and an [Ipv6Addr] a 128-bit unsigned integer
    (Rust's [u32::from] and [u128::from] of the address).  The [ipnet] crate is
    not part of the repository: its prefixes enter as a type with the
    operations the code calls, and the class [NetOps] states their documented
    behaviour.  [CNet] is a concrete instance, used to evaluate the model. *)

From S2P Require Import Prelude.

Definition V4_BITS : Z := 32.
Definition V6_BITS : Z := 128.
Definition U128_MAX : Z := 340282366920938463463374607431768211455.

Inductive IpAddr : Type :=
| V4 (a : Z)
| V6 (a : Z).

#[export] Instance IpAddr_eq_dec : EqDecision IpAddr.
Proof. solve_decision. Defined.

#[export] Instance IpAddr_countable : Countable IpAddr.
Proof.
  refine (inj_countable' (fun ip => match ip with V4 a => inl a | V6 a => inr a end)
            (fun s => match s with inl a => V4 a | inr a => V6 a end) _).
  by intros [].
Defined.

(** What the code uses of [Ipv4Net] / [Ipv6Net]: construction, the two parts,
    the first and last address, and membership. *)
Class NetOps (w : Z) (Net : Type) : Type := {
  net_new : Z -> Z -> option Net;
  net_addr : Net -> Z;
  net_prefix_len : Net -> Z;
  net_network : Net -> Z;
  net_broadcast : Net -> Z;
  net_contains : Net -> Z -> bool;
}.

(** Number of addresses of a prefix. *)
Definition block_size (w p : Z) : Z := 2 ^ (w - p).

(** The documented behaviour of those operations. *)
Class NetLaws (w : Z) (Net : Type) `{NetOps w Net} : Prop := {
  law_width : (0 < w)%Z;
  law_prefix : forall n, (0 <= net_prefix_len n <= w)%Z;
  law_addr : forall n, is_uint w (net_addr n);
  law_network : forall n,
    net_network n = (net_addr n - net_addr n mod block_size w (net_prefix_len n))%Z;
  law_broadcast : forall n,
    net_broadcast n = (net_network n + block_size w (net_prefix_len n) - 1)%Z;
  law_contains : forall n a,
    net_contains n a = (net_network n <=? a)%Z && (a <=? net_broadcast n)%Z;
  law_new : forall a p, is_uint w a -> (0 <= p <= w)%Z ->
    exists n, net_new a p = Some n /\ net_addr n = a /\ net_prefix_len n = p;
  law_new_none : forall a p, ~ (0 <= p <= w)%Z -> net_new a p = None;
  law_ext : forall n m, net_addr n = net_addr m -> net_prefix_len n = net_prefix_len m -> n = m;
}.

(** ** Consequences *)

Section Laws.
Context {w : Z} {Net : Type} `{NetLaws w Net}.

Lemma block_pos p : (0 <= p <= w)%Z -> (0 < block_size w p)%Z.
Proof. intros. apply Z.pow_pos_nonneg; lia. Qed.

Lemma block_divides p : (0 <= p <= w)%Z -> (2 ^ w = block_size w p * 2 ^ p)%Z.
Proof. intros. unfold block_size. rewrite <-Z.pow_add_r by lia. f_equal. lia. Qed.

Lemma network_multiple n :
  (net_network n mod block_size w (net_prefix_len n) = 0)%Z.
Proof.
  rewrite law_network. pose proof (block_pos _ (law_prefix n)).
  rewrite Zminus_mod, Z.mod_mod, Z.sub_diag by lia. apply Z.mod_0_l. lia.
Qed.

(** First and last address are addresses, and the given one lies between. *)
Lemma network_range n :
  (0 <= net_network n)%Z /\ (net_network n <= net_addr n <= net_broadcast n)%Z /\
  (net_broadcast n < 2 ^ w)%Z.
Proof.
  pose proof (law_prefix n) as Hp. pose proof (block_pos _ Hp) as Hb.
  pose proof (law_addr n) as Ha. unfold is_uint in Ha.
  pose proof (Z.mod_pos_bound (net_addr n) _ Hb) as Hm.
  pose proof (Z.mod_le (net_addr n) _ (proj1 Ha) Hb) as Hle.
  rewrite law_broadcast. pose proof (law_network n) as Hn. split; [lia|]. split; [lia|].
  pose proof (block_divides _ Hp) as Hd.
  pose proof (Z.div_mod (net_addr n) _ (Z.neq_sym _ _ (Z.lt_neq _ _ Hb))) as Hdm.
  set (b := block_size w (net_prefix_len n)) in *. set (q := (net_addr n / b)%Z) in *.
  assert (Hq : (net_network n = b * q)%Z) by lia.
  assert (q < 2 ^ net_prefix_len n)%Z by (apply Z.div_lt_upper_bound; lia). nia.
Qed.

Lemma contains_iff n a :
  net_contains n a = true <-> (net_network n <= a <= net_broadcast n)%Z.
Proof. rewrite law_contains. lia. Qed.

Lemma contains_self n : net_contains n (net_addr n) = true.
Proof. apply contains_iff. apply network_range. Qed.
End Laws.

(** ** A concrete instance *)

Definition cnet_valid (w : Z) (ap : Z * Z) : bool :=
  (0 <=? ap.1)%Z && (ap.1 <? 2 ^ w)%Z && (0 <=? ap.2)%Z && (ap.2 <=? w)%Z.

Definition CNet (w : Z) : Type := { ap : Z * Z | cnet_valid w ap = true }.

(** Build a valid pair, by the decision procedure of the validity test. *)
Definition cnet_new (w a p : Z) : option (CNet w) :=
  match bool_dec (cnet_valid w (a, p)) true with
  | left Hv => Some (exist _ (a, p) Hv)
  | right _ => None
  end.

#[export] Instance CNet_ops w : NetOps w (CNet w) := {|
  net_new := cnet_new w;
  net_addr n := (`n).1;
  net_prefix_len n := (`n).2;
  net_network n := ((`n).1 - (`n).1 mod block_size w (`n).2)%Z;
  net_broadcast n := ((`n).1 - (`n).1 mod block_size w (`n).2 + block_size w (`n).2 - 1)%Z;
  net_contains n a :=
    let lo := ((`n).1 - (`n).1 mod block_size w (`n).2)%Z in
    (lo <=? a)%Z && (a <=? lo + block_size w (`n).2 - 1)%Z;
|}.

Lemma CNet_laws w : (0 < w)%Z -> NetLaws w (CNet w).
Proof.
  intros Hw. constructor; simpl; try done.
  - intros [[a p] Hv]. unfold cnet_valid in Hv. simpl in *. lia.
  - intros [[a p] Hv]. unfold cnet_valid in Hv. unfold is_uint. simpl in *. lia.
  - intros a p Ha Hp. unfold cnet_new. destruct (bool_dec _ _) as [Hv|Hv].
    + by eexists.
    + exfalso. apply Hv. unfold cnet_valid, is_uint in *. simpl. lia.
  - intros a p Hp. unfold cnet_new. destruct (bool_dec _ _) as [Hv|Hv]; [|done].
    exfalso. apply Hp. unfold cnet_valid in Hv. simpl in Hv. lia.
  - intros [[a p] Hv] [[a' p'] Hv'] Ha Hp. simpl in *. subst. f_equal.
    apply Eqdep_dec.UIP_dec, bool_dec.
Qed.

#[export] Instance CNet4_laws : NetLaws V4_BITS (CNet V4_BITS).
Proof. by apply CNet_laws. Defined.

#[export] Instance CNet6_laws : NetLaws V6_BITS (CNet V6_BITS).
Proof. by apply CNet_laws. Defined.
