(* ===== verification/Signaling.v ===== *)
(** * The handshake protocol ([src/tunnel/signaling.rs])

    Messages, their validity rules, and the length-prefixed transport.  JSON
    (serde) is outside the repository: a type that derives [Serialize] and
    [Deserialize] is an instance of [Json], whose law is the round trip of
    serde.  A stream is what the peer wrote followed by its end. *)

From S2P Require Import Prelude Errors Net.

Definition VPN_PROTOCOL_VERSION : Z := 8.
Definition VPN_ALPN : string := "ezvpn/8".
Definition MAX_HANDSHAKE_SIZE : Z := 16 * 1024.

(** serde_json on a type: encoding may fail, decoding inverts it. *)
Class Json (A : Type) : Type := {
  to_vec : A -> option (list Z);
  from_slice : list Z -> option A;
}.

Class JsonLaws (A : Type) `{Json A} : Prop := {
  json_roundtrip : forall a bs, to_vec a = Some bs -> from_slice bs = Some a;
  json_bytes : forall a bs, to_vec a = Some bs -> bytes_ok bs;
}.

Record ClientAuthPayload : Type := mkClientAuthPayload {
  public_key : string;
  endpoint_id : string;
  signature : string;
}.

Record VpnHandshake : Type := mkVpnHandshake {
  hs_version : Z;
  device_id : Z;
  auth : ClientAuthPayload;
}.

Definition VpnHandshake_new (device_id : Z) (auth : ClientAuthPayload) : VpnHandshake :=
  mkVpnHandshake VPN_PROTOCOL_VERSION device_id auth.

(** [map_err] of a serde failure, with the message of the call site. *)
Definition json_or {A} (m : string) (o : option A) : vres A := ok_or (Signaling (msg m)) o.

Definition VpnHandshake_encode `{Json VpnHandshake} (self : VpnHandshake) : vres (list Z) :=
  json_or "Failed to encode handshake" (to_vec self).

Definition VpnHandshake_decode `{Json VpnHandshake} (data : list Z) : vres VpnHandshake :=
  handshake ← json_or "Failed to decode handshake" (from_slice data);
  if negb (hs_version handshake =? VPN_PROTOCOL_VERSION)%Z
  then Fail (Signaling (Msg "Unsupported handshake protocol version: {} (expected {})"
                          [hs_version handshake; VPN_PROTOCOL_VERSION]))
  else Ret handshake.

Definition is_none {A} (o : option A) : bool := match o with None => true | Some _ => false end.
Definition is_some {A} (o : option A) : bool := negb (is_none o).

(** The prefixes [Ipv4Net] and [Ipv6Net] are opaque values here. *)
Record VpnHandshakeResponse {Net4 Net6 : Type} : Type := mkResponse {
  version : Z;
  accepted : bool;
  assigned_ip : option Z;
  network : option Net4;
  server_ip : option Z;
  assigned_ip6 : option Z;
  network6 : option Net6;
  server_ip6 : option Z;
  reject_reason : option string;
  server_addrs : list IpAddr;
}.
Arguments VpnHandshakeResponse : clear implicits.

Section Response.
Context {Net4 Net6 : Type}.
Abbreviation Response := (VpnHandshakeResponse Net4 Net6).

Definition is_valid (self : Response) : bool :=
  if negb (accepted self) then true else
  if is_none (assigned_ip self) && is_none (assigned_ip6 self) then false else
  if is_some (assigned_ip self) && (is_none (network self) || is_none (server_ip self))
  then false else
  if is_some (assigned_ip6 self) && (is_none (network6 self) || is_none (server_ip6 self))
  then false else
  true.

Definition accepted_v4 (ip : Z) (net : Net4) (srv : Z) : Response :=
  mkResponse _ _ VPN_PROTOCOL_VERSION true (Some ip) (Some net) (Some srv) None None None None [].

Definition accepted_dual_stack (ip : Z) (net : Net4) (srv : Z) (ip6 : Z) (net6 : Net6) (srv6 : Z)
  : Response :=
  mkResponse _ _ VPN_PROTOCOL_VERSION true (Some ip) (Some net) (Some srv)
    (Some ip6) (Some net6) (Some srv6) None [].

Definition accepted_ipv6_only (ip6 : Z) (net6 : Net6) (srv6 : Z) : Response :=
  mkResponse _ _ VPN_PROTOCOL_VERSION true None None None (Some ip6) (Some net6) (Some srv6) None [].

Definition rejected (reason : string) : Response :=
  mkResponse _ _ VPN_PROTOCOL_VERSION false None None None None None None (Some reason) [].

Definition with_server_addrs (self : Response) (addrs : list IpAddr) : Response :=
  if accepted self then
    mkResponse _ _ (version self) (accepted self) (assigned_ip self) (network self)
      (server_ip self) (assigned_ip6 self) (network6 self) (server_ip6 self)
      (reject_reason self) addrs
  else self.

Definition invalid_response : VpnError :=
  Signaling (msg "Invalid handshake response: an accepted response must assign at least one address family, each with its network and gateway").

Definition Response_encode `{Json Response} (self : Response) : vres (list Z) :=
  if negb (is_valid self) then Fail invalid_response
  else json_or "Failed to encode response" (to_vec self).

Definition Response_decode `{Json Response} (data : list Z) : vres Response :=
  response ← json_or "Failed to decode response" (from_slice data);
  if negb (version response =? VPN_PROTOCOL_VERSION)%Z
  then Fail (Signaling (Msg "Unsupported handshake response protocol version: {} (expected {})"
                          [version response; VPN_PROTOCOL_VERSION]))
  else if negb (is_valid response) then Fail invalid_response
  else Ret response.
End Response.

(** ** Byte streams *)

(** How a receive stream ends after the bytes already written to it. *)
Inductive stream_end : Type := Finished | Broken.

(** A receive stream: what the peer wrote, then the end. *)
Record RecvStream : Type := mkRecvStream { inbound : list Z; end_of : stream_end }.

Inductive read_result : Type :=
| ReadOk (data : list Z) (rest : RecvStream)
| FinishedEarly (got : nat)
| ReadError.

(** [read_exact]: fill a buffer of [n] bytes, or report how many there were. *)
Definition read_exact (r : RecvStream) (n : nat) : read_result :=
  if (n <=? length (inbound r))%nat
  then ReadOk (take n (inbound r)) (mkRecvStream (drop n (inbound r)) (end_of r))
  else match end_of r with
       | Finished => FinishedEarly (length (inbound r))
       | Broken => ReadError
       end.

Section Writer.
Context {W : Type} (write_all : W -> list Z -> W * vres unit).

Definition write_message (writer : W) (data : list Z) : W * vres unit :=
  if (U32_MAX <? Z.of_nat (length data))%Z
  then (writer, Fail (Signaling (Msg "Message too large: {} bytes" [Z.of_nat (length data)])))
  else
    let (w1, r1) := write_all writer (be_bytes 4 (Z.of_nat (length data))) in
    match r1 with
    | Ret _ => write_all w1 data
    | Fail e => (w1, Fail e)
    | Panic => (w1, Panic)
    end.
End Writer.

(** [AsyncReadExt::read_exact] through the [?] operator: a short read is an
    I/O error. *)
Definition read_exact_io (r : RecvStream) (n : nat) : vres (list Z * RecvStream) :=
  match read_exact r n with
  | ReadOk data rest => Ret (data, rest)
  | FinishedEarly _ => Fail (Network (msg "unexpected end of file"))
  | ReadError => Fail (Network (msg "read error"))
  end.

Definition read_message (reader : RecvStream) (max_size : Z) : vres (list Z * RecvStream) :=
  '(len_buf, reader) ← read_exact_io reader 4;
  let len := be_value len_buf in
  if (max_size <? len)%Z then Fail (Signaling (Msg "Message too large: {} > {}" [len; max_size]))
  else read_exact_io reader (Z.to_nat len).

(** ** Control-channel messages *)

Inductive DataMessageType : Type := ServerAddrs | Ping | Pong.

#[export] Instance DataMessageType_eq_dec : EqDecision DataMessageType.
Proof. solve_decision. Defined.

Definition from_byte (b : Z) : option DataMessageType :=
  if (b =? 1)%Z then Some ServerAddrs
  else if (b =? 2)%Z then Some Ping
  else if (b =? 3)%Z then Some Pong
  else None.

Definition as_byte (self : DataMessageType) : Z :=
  match self with ServerAddrs => 1 | Ping => 2 | Pong => 3 end.

(** [TryFrom<u8>], with the rejected byte as its error. *)
Record InvalidMessageType : Type := mkInvalidType { invalid_byte : Z }.

Definition message_type_try_from (value : Z) : DataMessageType + InvalidMessageType :=
  match from_byte value with Some kind => inl kind | None => inr (mkInvalidType value) end.

Record ServerAddrsMsg : Type := mkServerAddrsMsg { addrs : list IpAddr }.

Definition ServerAddrsMsg_encode `{Json ServerAddrsMsg} (self : ServerAddrsMsg) : vres (list Z) :=
  json_or "Failed to encode server addrs" (to_vec self).

Definition ServerAddrsMsg_decode `{Json ServerAddrsMsg} (data : list Z) : vres ServerAddrsMsg :=
  json_or "Failed to decode server addrs" (from_slice data).

(** ** Lemmas *)

Lemma read_exact_enough r n d tl :
  length d = n -> inbound r = d ++ tl ->
  read_exact r n = ReadOk d (mkRecvStream tl (end_of r)).
Proof.
  intros Hd Hr. unfold read_exact. rewrite Hr, length_app, Hd.
  rewrite (proj2 (Nat.leb_le _ _)) by lia. by rewrite take_app_length', drop_app_length'.
Qed.

Lemma be_value_be32 n :
  (0 <= n <= U32_MAX)%Z -> be_value (be_bytes 4 n) = n.
Proof.
  intros. rewrite be_value_be_bytes. apply Z.mod_small. change (256 ^ Z.of_nat 4)%Z with (2 ^ 32)%Z. ulia.
Qed.

Lemma from_byte_as_byte k : from_byte (as_byte k) = Some k.
Proof. by destruct k. Qed.

Lemma from_byte_inv b k : from_byte b = Some k -> b = as_byte k.
Proof.
  unfold from_byte. destruct (Z.eqb_spec b 1), (Z.eqb_spec b 2), (Z.eqb_spec b 3);
    intros; simplify_eq; done.
Qed.

(** Exactly the bytes of the message types are accepted. *)
Lemma message_type_try_from_iff b k : message_type_try_from b = inl k <-> b = as_byte k.
Proof.
  unfold message_type_try_from. split; [|intros ->; by rewrite from_byte_as_byte].
  destruct (from_byte b) eqn:Hb; [|done]. intros [= <-]. by apply from_byte_inv.
Qed.

Lemma is_valid_with_addrs {Net4 Net6} (r : VpnHandshakeResponse Net4 Net6) l :
  is_valid (with_server_addrs r l) = is_valid r.
Proof. by destruct r as [? [] ]. Qed.

(** What a valid accepted response carries. *)
Lemma is_valid_spec {Net4 Net6} (r : VpnHandshakeResponse Net4 Net6) :
  is_valid r = true <->
  (accepted r = true ->
    (is_Some (assigned_ip r) \/ is_Some (assigned_ip6 r)) /\
    (is_Some (assigned_ip r) -> is_Some (network r) /\ is_Some (server_ip r)) /\
    (is_Some (assigned_ip6 r) -> is_Some (network6 r) /\ is_Some (server_ip6 r))).
Proof.
  destruct r as [v [] [] [] [] [] [] [] rr sa]; cbn; rewrite ?is_Some_alt; intuition done.
Qed.

(** A sink that records what is written to it. *)
Definition record_all (w : list Z) (d : list Z) : list Z * vres unit := (w ++ d, Ret tt).

Lemma write_message_record w data :
  (Z.of_nat (length data) <= U32_MAX)%Z ->
  write_message record_all w data = (w ++ be_bytes 4 (Z.of_nat (length data)) ++ data, Ret tt).
Proof.
  intros. unfold write_message. rewrite (proj2 (Z.ltb_ge _ _)) by done.
  unfold record_all. by rewrite <-app_assoc.
Qed.

(** Reading back one message. *)
Lemma read_message_framed data tl e max_size :
  (Z.of_nat (length data) <= U32_MAX)%Z ->
  read_message (mkRecvStream ((be_bytes 4 (Z.of_nat (length data)) ++ data) ++ tl) e) max_size =
    if (max_size <? Z.of_nat (length data))%Z
    then Fail (Signaling (Msg "Message too large: {} > {}" [Z.of_nat (length data); max_size]))
    else Ret (data, mkRecvStream tl e).
Proof.
  intros Hl. unfold read_message, read_exact_io.
  erewrite read_exact_enough; [|apply be_bytes_length | cbn [inbound]; by rewrite <-app_assoc].
  cbn [mbind outcome_bind end_of]. rewrite be_value_be32 by lia.
  destruct (max_size <? Z.of_nat (length data))%Z; [done|].
  by erewrite read_exact_enough; [| |done]; [|lia].
Qed.

(** ** Properties *)

(** Length-prefixed messages survive the stream: what [write_message]
    emits is read back by [read_message] with exactly the rest of the stream
    left, for every limit the message fits; a longer message is refused from
    its length prefix alone; a message that does not fit 32 bits writes
    nothing. *)
Theorem message_framing_roundtrip data tl e max_size :
  (Z.of_nat (length data) <= U32_MAX)%Z ->
  exists frame, write_message record_all [] data = (frame, Ret tt) /\
    read_message (mkRecvStream (frame ++ tl) e) max_size =
      if (max_size <? Z.of_nat (length data))%Z
      then Fail (Signaling (Msg "Message too large: {} > {}" [Z.of_nat (length data); max_size]))
      else Ret (data, mkRecvStream tl e).
Proof.
  intros Hl. eexists. split; [by rewrite write_message_record|]. by apply read_message_framed.
Qed.

Lemma message_framing_roundtrip_witness :
  exists frame, write_message record_all [] [1; 2; 3]%Z = (frame, Ret tt) /\
    read_message (mkRecvStream (frame ++ [9]%Z) Finished) MAX_HANDSHAKE_SIZE
    = Ret ([1; 2; 3]%Z, mkRecvStream [9]%Z Finished).
Proof.
  destruct (message_framing_roundtrip [1; 2; 3]%Z [9]%Z Finished MAX_HANDSHAKE_SIZE)
    as (frame & Hw & Hr).
  - vm_compute. discriminate.
  - exists frame. split; [exact Hw | exact Hr].
Defined.

(** The handshake response contract: a response that decodes has the
    current protocol version and satisfies the address-family rules of
    [is_valid]; every response the server's constructors build (with or
    without server addresses) encodes whenever serde can, and decodes to
    itself; an invalid response is never put on the wire. *)
Theorem response_wire_contract {Net4 Net6}
    `{JsonLaws (VpnHandshakeResponse Net4 Net6)} (r : VpnHandshakeResponse Net4 Net6) :
  (forall bs, Response_decode bs = Ret r ->
     version r = VPN_PROTOCOL_VERSION /\ is_valid r = true) /\
  (forall bs, Response_encode r = Ret bs -> version r = VPN_PROTOCOL_VERSION ->
     is_valid r = true /\ Response_decode bs = Ret r) /\
  (is_valid r = false -> Response_encode r = Fail invalid_response) /\
  (forall ip net srv ip6 net6 srv6 reason l,
     Forall (fun x => is_valid x = true /\ version x = VPN_PROTOCOL_VERSION)
       [with_server_addrs (accepted_v4 (Net6:=Net6) ip net srv) l;
        with_server_addrs (accepted_dual_stack ip net srv ip6 net6 srv6) l;
        with_server_addrs (accepted_ipv6_only (Net4:=Net4) ip6 net6 srv6) l;
        rejected (Net4:=Net4) (Net6:=Net6) reason]).
Proof.
  split_and!.
  - intros bs. unfold Response_decode, json_or. destruct (from_slice bs) as [r'|]; cbn; [|done].
    destruct (Z.eqb_spec (version r') VPN_PROTOCOL_VERSION); cbn; [|done].
    destruct (is_valid r') eqn:Hv; cbn; intros; by simplify_eq.
  - intros bs He Hver. unfold Response_encode, json_or in He.
    destruct (is_valid r) eqn:Hv; cbn in He; [|done]. split; [done|].
    destruct (to_vec r) as [b|] eqn:Ht; cbn in He; simplify_eq.
    unfold Response_decode, json_or. rewrite (json_roundtrip _ _ Ht). cbn.
    by rewrite Hver, Hv.
  - intros Hv. unfold Response_encode. by rewrite Hv.
  - intros. repeat constructor; by rewrite ?is_valid_with_addrs.
Qed.

(** A codec that knows one value, for evaluation. *)
Definition one_value_json {A} `{EqDecision A} (a0 : A) (bs0 : list Z) : Json A := {|
  to_vec a := if decide (a = a0) then Some bs0 else None;
  from_slice bs := if decide (bs = bs0) then Some a0 else None;
|}.

Lemma one_value_json_laws {A} `{EqDecision A} (a0 : A) bs0 :
  bytes_ok bs0 -> @JsonLaws A (one_value_json a0 bs0).
Proof.
  intros Hb. split; intros a bs; cbn; case_decide; intros; simplify_eq; [|done].
  by rewrite decide_True.
Qed.

#[export] Instance Response_eq_dec {N4 N6} `{EqDecision N4, EqDecision N6} :
  EqDecision (VpnHandshakeResponse N4 N6).
Proof. solve_decision. Defined.

Definition sample_response : VpnHandshakeResponse nat nat := accepted_v4 167772162 24%nat 167772161.

Lemma response_wire_contract_witness :
  let J := one_value_json sample_response [123; 125]%Z in
  @Response_encode _ _ J sample_response = Ret [123; 125]%Z /\
  @Response_decode _ _ J [123; 125]%Z = Ret sample_response.
Proof.
  intros J.
  assert (Hl : @JsonLaws _ J) by (apply one_value_json_laws; repeat constructor; done).
  destruct (response_wire_contract sample_response) as (_ & H & _).
  split; [reflexivity|]. apply H; reflexivity.
Defined.
