(* ===== verification/Stream.v ===== *)
(** * Data path and control framing ([src/tunnel/stream.rs])

    Preparation and batched sending of datagrams, and the framing of the
    control stream.  The QUIC connection is outside the repository: it is a
    state [C] with the two calls the code makes, whose one documented fact is
    that [try_send_many_datagrams] queues a prefix of what it is given. *)

From S2P Require Import Prelude Checksum Offload Coalesce Segment Errors Net Signaling.

Definition FRAME_LEN_PREFIX : nat := 4.
Definition MAX_FRAME_BODY : Z := 2 + Z.of_nat VIRTIO_NET_HDR_LEN + U16_MAX.
Definition HEARTBEAT_BODY_LEN : nat := (1 + 8)%nat.

Inductive Frame : Type :=
| FServerAddrs (body : list Z)
| FPing (seq : Z)
| FPong (seq : Z).

Record DatagramSendOutcome : Type := mkOutcome {
  sent : Z;
  dropped_too_large : Z;
  dropped_other : Z;
}.

Definition outcome_zero : DatagramSendOutcome := mkOutcome 0 0 0.

Definition outcome_add (self other : DatagramSendOutcome) : DatagramSendOutcome :=
  mkOutcome (sent self + sent other) (dropped_too_large self + dropped_too_large other)
            (dropped_other self + dropped_other other).

Definition add_sent (n : Z) (o : DatagramSendOutcome) : DatagramSendOutcome :=
  outcome_add o (mkOutcome n 0 0).
Definition add_too_large (n : Z) (o : DatagramSendOutcome) : DatagramSendOutcome :=
  outcome_add o (mkOutcome 0 n 0).
Definition add_other (n : Z) (o : DatagramSendOutcome) : DatagramSendOutcome :=
  outcome_add o (mkOutcome 0 0 n).

(** [SendDatagramError]: the code distinguishes only [TooLarge]. *)
Inductive SendDatagramError : Type :=
| TooLarge
| UnsupportedByPeer
| Disabled
| ConnLost.

(** ** Sending a batch *)

Section Send.
Context {C : Type}.
Context (try_send_many_datagrams : C -> list (list Z) -> C * (nat + SendDatagramError)).
Context (send_datagram_wait : C -> list Z -> C * (unit + SendDatagramError)).

(** The one-at-a-time fallback: [rest.iter().enumerate()]. *)
Fixpoint send_singly (conn : C) (rest : list (list Z)) (oc : DatagramSendOutcome)
  : C * DatagramSendOutcome * (unit + SendDatagramError) :=
  match rest with
  | [] => (conn, oc, inl tt)
  | datagram :: rest' =>
      match send_datagram_wait conn datagram with
      | (conn, inl _) => send_singly conn rest' (add_sent 1 oc)
      | (conn, inr TooLarge) => send_singly conn rest' (add_too_large 1 oc)
      | (conn, inr e) => (conn, add_other (Z.of_nat (length rest)) oc, inr e)
      end
  end.

(** The [while let] loop.  Every round that continues drops at least one
    datagram, so [length datagrams] rounds are enough; running out of fuel and
    the slice [&rest[queued..]] out of range are both [Panic]. *)
Fixpoint send_loop (fuel : nat) (conn : C) (rest : list (list Z)) (oc : DatagramSendOutcome)
  : outcome unit (C * DatagramSendOutcome * (unit + SendDatagramError)) :=
  match rest, fuel with
  | [], _ => Ret (conn, oc, inl tt)
  | _, O => Panic
  | first :: rest', S fuel' =>
      match try_send_many_datagrams conn rest with
      | (conn, inl 0%nat) =>
          match send_datagram_wait conn first with
          | (conn, inl _) => send_loop fuel' conn rest' (add_sent 1 oc)
          | (conn, inr TooLarge) => send_loop fuel' conn rest' (add_too_large 1 oc)
          | (conn, inr e) => Ret (conn, add_other (Z.of_nat (length rest)) oc, inr e)
          end
      | (conn, inl queued) =>
          if (queued <=? length rest)%nat
          then send_loop fuel' conn (drop queued rest) (add_sent (Z.of_nat queued) oc)
          else Panic
      | (conn, inr TooLarge) => Ret (send_singly conn rest oc)
      | (conn, inr e) => Ret (conn, add_other (Z.of_nat (length rest)) oc, inr e)
      end
  end.

Definition send_datagram_batch (conn : C) (datagrams : list (list Z))
    (oc : DatagramSendOutcome)
  : outcome unit (C * DatagramSendOutcome * (unit + SendDatagramError)) :=
  send_loop (length datagrams) conn datagrams oc.
End Send.

(** ** Preparing datagrams *)

(** [copy_packet_to_arena]: append, then split the packet's length off the
    front; correct only on an empty arena. *)
Definition copy_packet_to_arena (arena packet : list Z) : list Z * list Z :=
  let a := arena ++ packet in
  (drop (length packet) a, take (length packet) a).

(** What [prepare_ip_datagrams] threads: the arena, the pending datagrams and
    the counters. *)
Record prep_state : Type := mkPrep {
  arena : list Z;
  pending : list (list Z);
  counts : DatagramSendOutcome;
}.

Definition prepare_one_datagram (max_size : option nat) (packet : list Z) (s : prep_state)
  : prep_state :=
  match max_size with
  | Some max =>
      if (length packet <=? max)%nat then
        let (arena', datagram) := copy_packet_to_arena (arena s) packet in
        mkPrep arena' (pending s ++ [datagram]) (counts s)
      else mkPrep (arena s) (pending s) (add_too_large 1 (counts s))
  | None => mkPrep (arena s) (pending s) (add_other 1 (counts s))
  end.

Definition prepare_ip_datagrams (max_size : option nat) (offload : option VirtioNetHdr)
    (packet : list Z) (s : prep_state) : outcome unit prep_state :=
  match offload with
  | Some meta =>
      let (s', segmented) :=
        materialize_offload_into (fun s seg => (prepare_one_datagram max_size seg s, Ret tt))
          meta packet s in
      match segmented with
      | Ret _ => Ret s'
      | Fail _ => Ret (mkPrep (arena s') (pending s') (add_other 1 (counts s')))
      | Panic => Panic
      end
  | None => Ret (prepare_one_datagram max_size packet s)
  end.

(** ** Control frames *)

Definition classify (body : list Z) : vres Frame :=
  match body with
  | [] => Fail (Signaling (msg "Empty frame body"))
  | type_byte :: rest =>
      match from_byte type_byte with
      | Some ServerAddrs => Ret (FServerAddrs rest)
      | Some kind =>
          if (length rest =? 8)%nat then
            let seq := be_value rest in
            Ret (if decide (kind = Ping) then FPing seq else FPong seq)
          else Fail (Signaling (Msg "Heartbeat frame body of {} bytes" [Z.of_nat (length body)]))
      | None => Fail (Signaling (Msg "Unknown frame message type: 0x{:02x}" [type_byte]))
      end
  end.

(** The frame appended to [buf]; the returned count is its length. *)
Definition encode_server_addrs_frame `{Json ServerAddrsMsg} (buf : list Z) (m : ServerAddrsMsg)
  : vres (list Z * nat) :=
  body ← ServerAddrsMsg_encode m;
  let body_len := (1 + length body)%nat in
  if (MAX_FRAME_BODY <? Z.of_nat body_len)%Z
  then Fail (Signaling (Msg "Server addrs frame too large: {} > {}"
                          [Z.of_nat body_len; MAX_FRAME_BODY]))
  else Ret (buf ++ be_bytes 4 (Z.of_nat body_len) ++ [as_byte ServerAddrs] ++ body,
            (FRAME_LEN_PREFIX + body_len)%nat).

Definition encode_heartbeat_frame (kind : DataMessageType) (seq : Z) : list Z :=
  be_bytes 4 (Z.of_nat HEARTBEAT_BODY_LEN) ++ [as_byte kind] ++ be_bytes 8 seq.

Definition read_frame (recv : RecvStream) : vres (option (list Z) * RecvStream) :=
  match read_exact recv FRAME_LEN_PREFIX with
  | FinishedEarly 0 => Ret (None, recv)
  | FinishedEarly _ | ReadError =>
      Fail (ConnectionLost (msg "control stream read error"))
  | ReadOk len_buf recv =>
      let body_len := be_value len_buf in
      if (body_len =? 0)%Z || (MAX_FRAME_BODY <? body_len)%Z
      then Fail (Signaling (Msg "Invalid frame length {} (max {})" [body_len; MAX_FRAME_BODY]))
      else match read_exact recv (Z.to_nat body_len) with
           | ReadOk body recv => Ret (Some body, recv)
           | _ => Fail (ConnectionLost (msg "control stream read error mid-frame"))
           end
  end.

(** [write_frames]: the queued frames in order; [pending] is emptied only on
    success. *)
Definition write_frames {W} (write_all : W -> list Z -> W * vres unit) (send : W)
    (pending : list (list Z)) : W * list (list Z) * vres unit :=
  match write_all send (concat pending) with
  | (w, Ret _) => (w, [], Ret tt)
  | (w, Fail _) => (w, pending, Fail (ConnectionLost (msg "QUIC stream write error")))
  | (w, Panic) => (w, pending, Panic)
  end.

(** ** Counting *)

Definition accounted (o : DatagramSendOutcome) : Z :=
  (sent o + dropped_too_large o + dropped_other o)%Z.

Lemma accounted_add a b : accounted (outcome_add a b) = (accounted a + accounted b)%Z.
Proof. unfold accounted, outcome_add. cbn. lia. Qed.

Section SendLaws.
Context {C : Type}.
Context (try_many : C -> list (list Z) -> C * (nat + SendDatagramError)).
Context (wait_one : C -> list Z -> C * (unit + SendDatagramError)).

(** The documented behaviour of the connection: [queued] is what it has
    accepted so far; a batch call accepts a prefix, a failed call nothing. *)
Record conn_laws (queued : C -> list (list Z)) : Prop := {
  cl_try : forall c l c' k, try_many c l = (c', inl k) ->
    (k <= length l)%nat /\ queued c' = queued c ++ take k l;
  cl_try_err : forall c l c' e, try_many c l = (c', inr e) -> queued c' = queued c;
  cl_wait : forall c d c' u, wait_one c d = (c', inl u) -> queued c' = queued c ++ [d];
  cl_wait_err : forall c d c' e, wait_one c d = (c', inr e) -> queued c' = queued c;
}.

(** What a sending routine started on [rest] may do: the connection accepts a
    subsequence, in order; its length is counted as sent; every datagram is
    counted once; only a fatal error drops datagrams for another reason. *)
Definition sends (queued : C -> list (list Z)) (c : C) (rest : list (list Z))
    (o : DatagramSendOutcome) (r : C * DatagramSendOutcome * (unit + SendDatagramError)) : Prop :=
  let '(c', o', res) := r in
  (exists acc, queued c' = queued c ++ acc /\ acc `sublist_of` rest /\
     sent o' = (sent o + Z.of_nat (length acc))%Z) /\
  accounted o' = (accounted o + Z.of_nat (length rest))%Z /\
  match res with
  | inl _ => dropped_other o' = dropped_other o
  | inr e => e <> TooLarge
  end.

Lemma sends_cons queued c c1 d n rest o o1 r :
  (n <= 1)%nat -> queued c1 = queued c ++ take n [d] ->
  sent o1 = (sent o + Z.of_nat n)%Z -> accounted o1 = (accounted o + 1)%Z ->
  dropped_other o1 = dropped_other o ->
  sends queued c1 rest o1 r -> sends queued c (d :: rest) o r.
Proof.
  destruct r as [[c' o'] res]. intros Hn Hq Hs Ha Hd ((acc & Hacc & Hsub & Hsent) & Hacct & Hres).
  split_and!.
  - exists (take n [d] ++ acc). rewrite Hacc, Hq, <-app_assoc. split; [done|].
    split; [|rewrite Hsent, Hs; lengths; lia].
    destruct n as [|[|n]]; cbn; [by constructor|by constructor|lia].
  - rewrite Hacct, Ha. cbn [length]. lia.
  - destruct res; [congruence|done].
Qed.

Lemma sends_nil queued c o : sends queued c [] o (c, o, inl tt).
Proof.
  split_and!; [|unfold accounted; cbn; lia|done]. exists []. rewrite app_nil_r. cbn.
  split; [done|]. split; [done|lia].
Qed.

Lemma sends_fatal queued c c' rest o e :
  queued c' = queued c -> e <> TooLarge ->
  sends queued c rest o (c', add_other (Z.of_nat (length rest)) o, inr e).
Proof.
  intros Hq He. split_and!; [|by unfold add_other; rewrite accounted_add|done].
  exists []. rewrite app_nil_r. split; [done|]. split; [apply sublist_nil_l|]. cbn. lia.
Qed.

Context (queued : C -> list (list Z)) (Hlaws : conn_laws queued).

Lemma send_singly_spec c rest o : sends queued c rest o (send_singly wait_one c rest o).
Proof.
  revert c o. induction rest as [|d rest IH]; intros c o; cbn [send_singly].
  { apply sends_nil. }
  destruct (wait_one c d) as [c1 [u|e]] eqn:Hw.
  - eapply (sends_cons queued c c1 d 1); try apply IH; try done.
    + by apply (cl_wait _ Hlaws _ _ _ _ Hw).
    + unfold add_sent. rewrite accounted_add. by unfold accounted.
    + cbn. lia.
  - pose proof (cl_wait_err _ Hlaws _ _ _ _ Hw) as Hq.
    destruct e; try (by apply (sends_fatal queued c c1 (d :: rest))).
    eapply (sends_cons queued c c1 d 0); try apply IH; try lia.
    + by rewrite app_nil_r.
    + cbn. lia.
    + unfold add_too_large. rewrite accounted_add. by unfold accounted.
    + cbn. lia.
Qed.

Lemma sends_prefix c c1 k rest o r :
  (k <= length rest)%nat -> queued c1 = queued c ++ take k rest ->
  sends queued c1 (drop k rest) (add_sent (Z.of_nat k) o) r -> sends queued c rest o r.
Proof.
  destruct r as [[c' o'] res]. intros Hk Hq ((acc & Hacc & Hsub & Hsent) & Hacct & Hres).
  split_and!.
  - exists (take k rest ++ acc). rewrite Hacc, Hq, <-app_assoc. split; [done|].
    split; [|rewrite Hsent; cbn; lengths; lia].
    rewrite <-(take_drop k rest) at 2. by apply sublist_app.
  - rewrite Hacct, length_drop. unfold add_sent. rewrite accounted_add. unfold accounted. cbn. lia.
  - destruct res; [|done]. rewrite Hres. cbn. lia.
Qed.

Lemma send_loop_spec fuel c rest o :
  (length rest <= fuel)%nat ->
  exists r, send_loop try_many wait_one fuel c rest o = Ret r /\ sends queued c rest o r.
Proof.
  revert c rest o. induction fuel as [|fuel IH]; intros c rest o Hf.
  { destruct rest; [|simpl in Hf; lia]. eexists. split; [done|]. apply sends_nil. }
  destruct rest as [|d rest].
  { eexists. split; [done|]. apply sends_nil. }
  cbn [length] in Hf. cbn [send_loop].
  destruct (try_many c (d :: rest)) as [c1 [k|e]] eqn:Ht.
  - destruct (cl_try _ Hlaws _ _ _ _ Ht) as [Hk Hq]. destruct k as [|k].
    + rewrite app_nil_r in Hq. destruct (wait_one c1 d) as [c2 [u|e]] eqn:Hw.
      * destruct (IH c2 rest (add_sent 1 o) ltac:(lia)) as (r & Hr & Hs).
        exists r. split; [done|]. eapply (sends_cons queued c c2 d 1); try exact Hs; try done.
        -- rewrite (cl_wait _ Hlaws _ _ _ _ Hw). by rewrite Hq.
        -- unfold add_sent. rewrite accounted_add. by unfold accounted.
        -- cbn. lia.
      * pose proof (cl_wait_err _ Hlaws _ _ _ _ Hw) as Hq2. rewrite Hq in Hq2.
        destruct e; try (eexists; split; [done|]; by apply (sends_fatal queued c c2 (d :: rest))).
        destruct (IH c2 rest (add_too_large 1 o) ltac:(lia)) as (r & Hr & Hs).
        exists r. split; [done|]. eapply (sends_cons queued c c2 d 0); try exact Hs; try lia.
        -- by rewrite app_nil_r.
        -- cbn. lia.
        -- unfold add_too_large. rewrite accounted_add. by unfold accounted.
        -- cbn. lia.
    + rewrite (proj2 (Nat.leb_le _ _)) by done.
      destruct (IH c1 (drop (S k) (d :: rest)) (add_sent (Z.of_nat (S k)) o)) as (r & Hr & Hs).
      { rewrite length_drop. cbn [length]. lia. }
      exists r. split; [done|]. by eapply sends_prefix.
  - pose proof (cl_try_err _ Hlaws _ _ _ _ Ht) as Hq.
    destruct e; try (eexists; split; [done|]; by apply (sends_fatal queued c c1 (d :: rest))).
    eexists. split; [done|]. pose proof (send_singly_spec c1 (d :: rest) o) as Hs.
    destruct (send_singly wait_one c1 (d :: rest) o) as [[c' o'] res].
    unfold sends in *. by rewrite Hq in Hs.
Qed.
End SendLaws.

(** ** Preparation as a fold over the materialized packets *)

(** A callback that never fails only folds over the emitted packets. *)
Lemma emit_chunks_fold {St} (f : St -> list Z -> St) build offsets s out :
  let '(segs, r) := emit_chunks collect build offsets out in
  exists new, segs = out ++ new /\
    emit_chunks (fun s seg => (f s seg, Ret tt)) build offsets s = (fold_left f new s, r).
Proof.
  revert s out. induction offsets as [|o offsets IH]; intros s out; cbn [emit_chunks].
  { exists []. by rewrite app_nil_r. }
  destruct (build o) as [seg| |]; try (exists []; by rewrite app_nil_r).
  cbn [collect]. specialize (IH (f s seg) (out ++ [seg])).
  destruct (emit_chunks collect build offsets (out ++ [seg])) as [segs r].
  destruct IH as (new & -> & Hf). exists (seg :: new). rewrite <-app_assoc. by rewrite Hf.
Qed.

Lemma materialize_fold {St} (f : St -> list Z -> St) h ip s :
  let '(segs, r) := materialize_offload_into collect h ip [] in
  materialize_offload_into (fun s seg => (f s seg, Ret tt)) h ip s = (fold_left f segs s, r).
Proof.
  unfold materialize_offload_into, segment_tcp_gso_into, emit_result.
  assert (Hone : forall r : res (list Z),
    let '(segs, r') := match r with
                       | Ret p => collect [] p | Fail e => ([], Fail e) | Panic => ([], Panic) end in
    match r with
    | Ret p => (f s p, Ret tt) | Fail e => (s, Fail e) | Panic => (s, Panic) end
    = (fold_left f segs s, r')) by (by intros []).
  destruct (is_tcp_gso h).
  - destruct (segment_layout h ip) as [[[v off] hl]| |]; [|done..].
    destruct (slice_from ip hl) as [payload| |]; [|done..].
    destruct (length payload <=? _)%nat.
    + destruct (negb (needs_checksum h)); [done|]. apply Hone.
    + destruct (_ ≫= _) as [[b fl]| |]; [|done..].
      pose proof (emit_chunks_fold f (build_segment v off hl (Z.to_nat (gso_size h)) ip payload b fl)
        (step_by (length payload) (Z.to_nat (gso_size h))) s []) as Hf.
      destruct (emit_chunks collect _ _ []) as [segs r]. by destruct Hf as (new & -> & ->).
  - destruct (negb _); [done|].
    destruct (validate_checksum_offload h ip) as [[[a b]|]| |]; [apply Hone|done..].
Qed.

(** What one packet that fits, or does not, adds. *)
Definition fits (max_size : option nat) (p : list Z) : Prop :=
  match max_size with Some max => (length p <= max)%nat | None => False end.

#[export] Instance fits_dec max_size p : Decision (fits max_size p).
Proof. destruct max_size; unfold fits; apply _. Defined.

Definition drops (max_size : option nat) (n : nat) : DatagramSendOutcome :=
  match max_size with
  | Some _ => mkOutcome 0 (Z.of_nat n) 0
  | None => mkOutcome 0 0 (Z.of_nat n)
  end.

Lemma prepare_one_spec max_size p s :
  arena s = [] ->
  prepare_one_datagram max_size p s =
    if decide (fits max_size p)
    then mkPrep [] (pending s ++ [p]) (counts s)
    else mkPrep [] (pending s) (outcome_add (counts s) (drops max_size 1)).
Proof.
  intros Ha. unfold prepare_one_datagram, fits, drops, copy_packet_to_arena. rewrite Ha.
  destruct max_size as [max|].
  - destruct (Nat.leb_spec (length p) max).
    + rewrite decide_True by done. cbn [app]. by rewrite firstn_all, drop_all.
    + by rewrite decide_False by lia.
  - by rewrite decide_False by tauto.
Qed.

Lemma prepare_fold_spec max_size segs s :
  arena s = [] ->
  fold_left (fun s seg => prepare_one_datagram max_size seg s) segs s =
    mkPrep [] (pending s ++ filter (fits max_size) segs)
      (outcome_add (counts s)
         (drops max_size (length segs - length (filter (fits max_size) segs)))).
Proof.
  assert (Hz : forall o, outcome_add o (drops max_size 0) = o).
  { intros []. unfold outcome_add, drops. destruct max_size; cbn; f_equal; lia. }
  revert s. induction segs as [|p segs IH]; intros s Ha; cbn [fold_left].
  { cbn [length filter list_filter Nat.sub]. rewrite app_nil_r, Hz. by destruct s; cbn in *; subst. }
  pose proof (length_filter (fits max_size) segs) as Hle.
  rewrite prepare_one_spec by done. case_decide as Hf.
  - rewrite IH by done. rewrite filter_cons_True by done. cbn [pending counts length].
    by rewrite <-app_assoc, Nat.sub_succ.
  - rewrite IH by done. rewrite filter_cons_False by done. cbn [pending counts length].
    f_equal. set (k := length (filter (fits max_size) segs)) in *.
    replace (S (length segs) - k)%nat with (S (length segs - k)) by lia.
    destruct (counts s). unfold outcome_add, drops. destruct max_size; cbn; f_equal; lia.
Qed.

(** ** Properties *)

(** [send_datagram_batch] always finishes, without a slice out of range,
    and counts every datagram exactly once; the connection accepts a
    subsequence of the batch in order, as many as are counted sent; datagrams
    are dropped for a reason other than size only when a fatal error ends the
    batch, and an oversized datagram never ends it. *)
Theorem send_batch_accounts {C} try_many wait_one (queued : C -> list (list Z))
    (c : C) (datagrams : list (list Z)) (o : DatagramSendOutcome) :
  conn_laws try_many wait_one queued ->
  exists r, send_datagram_batch try_many wait_one c datagrams o = Ret r /\
            sends queued c datagrams o r.
Proof. intros Hl. by apply send_loop_spec. Qed.

(** A connection with room for two datagrams per call, refusing the ones over
    three bytes. *)
Definition sample_try (c : list (list Z)) (l : list (list Z)) : list (list Z) * (nat + SendDatagramError) :=
  if forallb (fun d => length d <=? 3)%nat l
  then (c ++ take 2 l, inl (Nat.min 2 (length l))) else (c, inr TooLarge).

Definition sample_wait (c : list (list Z)) (d : list Z) : list (list Z) * (unit + SendDatagramError) :=
  if (length d <=? 3)%nat then (c ++ [d], inl tt) else (c, inr TooLarge).

Lemma sample_conn_laws : conn_laws sample_try sample_wait id.
Proof.
  constructor; unfold sample_try, sample_wait; intros; case_match; simplify_eq; try done.
  split; [lia|]. unfold id. f_equal. destruct l as [|a [|b l]]; done.
Qed.

Lemma send_batch_accounts_witness :
  exists r, send_datagram_batch sample_try sample_wait [] [[1]; [1; 2; 3; 4]; [5]]%Z outcome_zero = Ret r /\
            sends id [] [[1]; [1; 2; 3; 4]; [5]]%Z outcome_zero r.
Proof. apply send_batch_accounts. exact sample_conn_laws. Defined.

(** The exact effect of [prepare_ip_datagrams] on a drained arena. *)
Lemma prepare_exact max_size offload packet s :
  arena s = [] ->
  let '(segs, r) := match offload with
                    | Some h => materialize_offload_into collect h packet []
                    | None => ([packet], Ret tt)
                    end in
  let lost := (length segs - length (filter (fits max_size) segs))%nat in
  r <> Panic /\
  prepare_ip_datagrams max_size offload packet s =
    Ret (mkPrep [] (pending s ++ filter (fits max_size) segs)
           (outcome_add (outcome_add (counts s) (drops max_size lost))
              (mkOutcome 0 0 (if is_ret r then 0 else 1)))).
Proof.
  intros Ha. assert (Hz : forall o, outcome_add o (mkOutcome 0 0 0) = o).
  { intros []. unfold outcome_add. cbn. f_equal; lia. }
  unfold prepare_ip_datagrams. destruct offload as [h|].
  - pose proof (materialize_fold (fun s seg => prepare_one_datagram max_size seg s) h packet s) as Hf.
    pose proof (materialize_not_panic collect h packet [] ltac:(done)) as Hnp.
    destruct (materialize_offload_into collect h packet []) as [segs r]. cbn [snd] in Hnp.
    rewrite Hf, prepare_fold_spec by done. destruct r as [[]| |].
    + split; [done|]. cbn [is_ret]. by rewrite Hz.
    + by split.
    + by destruct Hnp.
  - split; [done|]. cbn [is_ret]. rewrite Hz.
    rewrite <-(prepare_fold_spec max_size [packet]) by done. done.
Qed.

(** [prepare_ip_datagrams] never panics and loses no packet silently: the
    datagrams it appends are exactly the materialized packets that fit the
    connection's datagram size, byte for byte and in order, the arena is left
    drained, and every other packet (and an un-segmentable frame) is counted. *)
Theorem prepare_datagrams_exact max_size offload packet s :
  arena s = [] ->
  let '(segs, r) := match offload with
                    | Some h => materialize_offload_into collect h packet []
                    | None => ([packet], Ret tt)
                    end in
  let lost := (length segs - length (filter (fits max_size) segs))%nat in
  r <> Panic /\
  prepare_ip_datagrams max_size offload packet s =
    Ret (mkPrep [] (pending s ++ filter (fits max_size) segs)
           (outcome_add (outcome_add (counts s) (drops max_size lost))
              (mkOutcome 0 0 (if is_ret r then 0 else 1)))).
Proof. apply prepare_exact. Qed.

Lemma prepare_datagrams_exact_witness :
  exists s, prepare_ip_datagrams (Some 3%nat) None [1; 2]%Z (mkPrep [] [] outcome_zero) = Ret s /\
            pending s = [[1; 2]%Z].
Proof.
  pose proof (prepare_datagrams_exact (Some 3%nat) None [1; 2]%Z (mkPrep [] [] outcome_zero) eq_refl)
    as [_ H].
  eexists. split; [exact H|]. reflexivity.
Defined.

(** Reading a well-sized frame off the front of a stream. *)
Lemma read_frame_encoded body tl e :
  (1 <= Z.of_nat (length body) <= MAX_FRAME_BODY)%Z ->
  read_frame (mkRecvStream (be_bytes 4 (Z.of_nat (length body)) ++ body ++ tl) e)
  = Ret (Some body, mkRecvStream tl e).
Proof.
  intros Hl. unfold read_frame.
  erewrite read_exact_enough; [|apply be_bytes_length|done]. cbn [end_of].
  assert (MAX_FRAME_BODY = 65547)%Z as Hmax by reflexivity.
  rewrite be_value_be32 by ulia.
  destruct (Z.eqb_spec (Z.of_nat (length body)) 0); [lia|].
  destruct (Z.ltb_spec MAX_FRAME_BODY (Z.of_nat (length body))); [lia|]. cbn [orb].
  by erewrite read_exact_enough; [| |done]; [|lia].
Qed.

Lemma classify_heartbeat k seq :
  k <> ServerAddrs -> is_uint 64 seq ->
  classify ([as_byte k] ++ be_bytes 8 seq)
  = Ret (if decide (k = Ping) then FPing seq else FPong seq).
Proof.
  intros Hk Hs. cbn [classify app]. rewrite from_byte_as_byte, be_bytes_length.
  assert (be_value (be_bytes 8 seq) = seq) as ->.
  { rewrite be_value_be_bytes. apply Z.mod_small. exact Hs. }
  by destruct k.
Qed.

(** A heartbeat frame of either kind is read back as itself. *)
Lemma heartbeat_frame_read k seq tl e :
  k <> ServerAddrs -> is_uint 64 seq ->
  exists body,
    read_frame (mkRecvStream (encode_heartbeat_frame k seq ++ tl) e) = Ret (Some body, mkRecvStream tl e) /\
    classify body = Ret (if decide (k = Ping) then FPing seq else FPong seq).
Proof.
  intros Hk Hs. exists ([as_byte k] ++ be_bytes 8 seq). split; [|by apply classify_heartbeat].
  unfold encode_heartbeat_frame. rewrite <-app_assoc.
  change (Z.of_nat HEARTBEAT_BODY_LEN) with (Z.of_nat (length ([as_byte k] ++ be_bytes 8 seq))).
  apply read_frame_encoded. rewrite length_app, be_bytes_length. done.
Qed.

(** So is a published address list. *)
Lemma addrs_frame_read `{JsonLaws ServerAddrsMsg} m frame n tl e :
  encode_server_addrs_frame [] m = Ret (frame, n) ->
  n = length frame /\
  exists body json,
    read_frame (mkRecvStream (frame ++ tl) e) = Ret (Some body, mkRecvStream tl e) /\
    classify body = Ret (FServerAddrs json) /\ ServerAddrsMsg_decode json = Ret m.
Proof.
  intros He. unfold encode_server_addrs_frame, ServerAddrsMsg_encode, json_or in He.
  destruct (to_vec m) as [body|] eqn:Hv; cbn [ok_or mbind outcome_bind] in He; [|done].
  destruct (Z.ltb_spec MAX_FRAME_BODY (Z.of_nat (1 + length body))); [done|].
  apply Ret_inj, pair_equal_spec in He as [<- <-]. rewrite app_nil_l. split; [lengths; unfold FRAME_LEN_PREFIX; lia|].
  exists ([as_byte ServerAddrs] ++ body), body. rewrite <-app_assoc.
  split_and!; [|done|].
  - change (1 + length body)%nat with (length ([as_byte ServerAddrs] ++ body)).
    apply read_frame_encoded. rewrite length_app. cbn [length]. lia.
  - unfold ServerAddrsMsg_decode, json_or. by rewrite (json_roundtrip _ _ Hv).
Qed.

(** The control channel is lossless: every frame the encoders produce
    (a heartbeat of either kind with any 64-bit sequence number, a published
    address list) is read back by [read_frame] and [classify] as itself, with
    exactly the following bytes left on the stream. *)
Theorem control_frames_roundtrip `{JsonLaws ServerAddrsMsg} tl e :
  (forall k seq, k <> ServerAddrs -> is_uint 64 seq ->
     exists body,
       read_frame (mkRecvStream (encode_heartbeat_frame k seq ++ tl) e)
         = Ret (Some body, mkRecvStream tl e) /\
       classify body = Ret (if decide (k = Ping) then FPing seq else FPong seq)) /\
  (forall m frame n, encode_server_addrs_frame [] m = Ret (frame, n) ->
     n = length frame /\
     exists body json,
       read_frame (mkRecvStream (frame ++ tl) e) = Ret (Some body, mkRecvStream tl e) /\
       classify body = Ret (FServerAddrs json) /\ ServerAddrsMsg_decode json = Ret m).
Proof.
  split; intros; [by apply heartbeat_frame_read|by apply addrs_frame_read].
Qed.

#[export] Instance ServerAddrsMsg_eq_dec : EqDecision ServerAddrsMsg.
Proof. solve_decision. Defined.

Lemma control_frames_roundtrip_witness :
  let J := one_value_json (mkServerAddrsMsg [V4 167772161]) [91; 93]%Z in
  exists body,
    read_frame (mkRecvStream (encode_heartbeat_frame Ping 7 ++ [1]%Z) Finished)
      = Ret (Some body, mkRecvStream [1]%Z Finished) /\ classify body = Ret (FPing 7).
Proof.
  intros J. assert (Hl : @JsonLaws _ J) by (apply one_value_json_laws; repeat constructor; done).
  destruct (control_frames_roundtrip [1]%Z Finished) as [H _].
  destruct (H Ping 7%Z) as (body & H1 & H2); [discriminate | split; done |].
  exists body. split; [exact H1 | exact H2].
Defined.

(** [read_frame] on any stream: it yields no frame exactly at a clean end on
    a frame boundary, an announced length of zero or above [MAX_FRAME_BODY] is
    refused before the body is read, a frame it returns is the announced
    number of the following bytes, and a truncated frame is a lost
    connection. *)
Theorem read_frame_exact (s : RecvStream) :
  bytes_ok (inbound s) ->
  match read_frame s with
  | Ret (None, s') => s' = s /\ inbound s = [] /\ end_of s = Finished
  | Ret (Some body, s') =>
      (1 <= Z.of_nat (length body) <= MAX_FRAME_BODY)%Z /\
      inbound s = take 4 (inbound s) ++ body ++ inbound s' /\
      be_value (take 4 (inbound s)) = Z.of_nat (length body) /\ end_of s' = end_of s
  | Fail (Signaling _) =>
      (4 <= length (inbound s))%nat /\
      (be_value (take 4 (inbound s)) = 0 \/ MAX_FRAME_BODY < be_value (take 4 (inbound s)))%Z
  | Fail (ConnectionLost _) =>
      (length (inbound s) < 4)%nat /\ (inbound s <> [] \/ end_of s = Broken) \/
      (Z.of_nat (length (inbound s)) < 4 + be_value (take 4 (inbound s)))%Z
  | Fail _ => False
  | Panic => False
  end.
Proof.
  destruct s as [bs en]. cbn [inbound]. intros Hb.
  pose proof (be_value_bound (take 4 bs) ltac:(eauto with ezvpn)) as [Hpos _].
  unfold read_frame, read_exact, FRAME_LEN_PREFIX. cbn [inbound end_of].
  destruct (Nat.leb_spec 4 (length bs)).
  2:{ destruct en; [destruct bs; cbn [length]; [done|]|]; left; split; eauto. }
  destruct (Z.eqb_spec (be_value (take 4 bs)) 0); cbn [orb]; [split; [done|lia]|].
  destruct (Z.ltb_spec MAX_FRAME_BODY (be_value (take 4 bs))); [split; [done|lia]|].
  cbn [inbound end_of]. rewrite length_drop.
  destruct (Nat.leb_spec (Z.to_nat (be_value (take 4 bs))) (length bs - 4)).
  - cbn [inbound end_of]. set (k := Z.to_nat (be_value (take 4 bs))) in *.
    assert (Hlen : length (take k (drop 4 bs)) = k) by (lengths; lia).
    rewrite Hlen. split_and!; try lia; try done. by rewrite !take_drop.
  - destruct en; right; lia.
Qed.

Lemma read_frame_exact_witness :
  read_frame (mkRecvStream [0; 0; 0; 0]%Z Finished)
    = Fail (Signaling (Msg "Invalid frame length {} (max {})" [0; MAX_FRAME_BODY]%Z)) /\
  (4 <= 4)%nat.
Proof.
  pose proof (read_frame_exact (mkRecvStream [0; 0; 0; 0]%Z Finished)) as H.
  split; [reflexivity|]. apply H. repeat constructor; done.
Defined.
