(* ===== verification/Config.v ===== *)
(** * Configuration rules ([src/config/mod.rs])

    The validation shared by the configuration file layer, the runtime
    configuration and the IPv6 pool. *)

From S2P Require Import Prelude Errors Net.

Definition VPN_MTU : Z := 1280.

Inductive Ip6Strategy : Type := Sequential | NodeId.

#[export] Instance Ip6Strategy_eq_dec : EqDecision Ip6Strategy.
Proof. solve_decision. Defined.

Section Validate.
Context {Net4 Net6 : Type} `{NetOps V4_BITS Net4} `{NetOps V6_BITS Net6}.

Definition validate_ip6_strategy (strategy : Ip6Strategy) (network6 : option Net6)
    (server_ip6 : option Z) : outcome message unit :=
  if decide (strategy <> NodeId) then Ret tt else
  match network6 with
  | None => Fail (msg "ip6_strategy 'node-id' requires 'network6' to be set")
  | Some network6 =>
      if (64 <? net_prefix_len network6)%Z
      then Fail (Msg "ip6_strategy 'node-id' requires an IPv6 subnet of /64 or wider (got /{})"
                   [net_prefix_len network6])
      else match server_ip6 with
           | Some _ => Fail (msg "'server_ip6' cannot be combined with ip6_strategy 'node-id'")
           | None => Ret tt
           end
  end.

Definition validate_vpn_networks (network : option Net4) (server_ip : option Z)
    (network6 : option Net6) (server_ip6 : option Z) (ip6_strategy : Ip6Strategy)
  : outcome message unit :=
  match network, network6 with
  | None, None =>
      Fail (msg "At least one of 'network' (IPv4) or 'network6' (IPv6) must be configured")
  | _, _ =>
      match server_ip, network with
      | Some _, None => Fail (msg "'server_ip' requires 'network' to be set")
      | _, _ =>
          if (match server_ip, network with
              | Some ip, Some net => negb (net_contains net ip)
              | _, _ => false
              end)
          then Fail (msg "'server_ip' {} is not within 'network' {}") else
          match server_ip6, network6 with
          | Some _, None => Fail (msg "'server_ip6' requires 'network6' to be set")
          | _, _ =>
              if (match server_ip6, network6 with
                  | Some ip, Some net => negb (net_contains net ip)
                  | _, _ => false
                  end)
              then Fail (msg "'server_ip6' {} is not within 'network6' {}")
              else validate_ip6_strategy ip6_strategy network6 server_ip6
          end
      end
  end.

(** The networking fields of [VpnServerConfig]. *)
Record VpnServerConfig : Type := mkServerConfig {
  cfg_network : option Net4;
  cfg_network6 : option Net6;
  cfg_server_ip : option Z;
  cfg_server_ip6 : option Z;
  cfg_ip6_strategy : Ip6Strategy;
  max_clients : Z;
}.

Definition VpnServerConfig_validate (self : VpnServerConfig) : outcome message unit :=
  validate_vpn_networks (cfg_network self) (cfg_server_ip self) (cfg_network6 self)
    (cfg_server_ip6 self) (cfg_ip6_strategy self).

(** What a valid configuration guarantees. *)
Record config_ok (c : VpnServerConfig) : Prop := {
  ok_some : is_Some (cfg_network c) \/ is_Some (cfg_network6 c);
  ok_ip : forall ip, cfg_server_ip c = Some ip ->
    exists n, cfg_network c = Some n /\ net_contains n ip = true;
  ok_ip6 : forall ip, cfg_server_ip6 c = Some ip ->
    exists n, cfg_network6 c = Some n /\ net_contains n ip = true;
  ok_node_id : cfg_ip6_strategy c = NodeId ->
    cfg_server_ip6 c = None /\
    exists n, cfg_network6 c = Some n /\ (net_prefix_len n <= 64)%Z;
}.

Lemma validate_iff (c : VpnServerConfig) :
  VpnServerConfig_validate c = Ret tt <-> config_ok c.
Proof.
  destruct c as [n4 n6 ip ip6 st mc].
  unfold VpnServerConfig_validate, validate_vpn_networks, validate_ip6_strategy.
  cbn [cfg_network cfg_network6 cfg_server_ip cfg_server_ip6 cfg_ip6_strategy].
  split.
  - intros Hv. constructor; cbn [cfg_network cfg_network6 cfg_server_ip cfg_server_ip6 cfg_ip6_strategy].
    + destruct n4, n6; eauto; done.
    + intros a ->. destruct n4 as [n|]; [|by destruct n6].
      exists n. split; [done|]. by destruct (net_contains n a); [|destruct n6].
    + intros a ->. destruct n6 as [n|].
      2:{ destruct n4 as [m|]; [|done]. destruct ip as [i|]; [destruct (net_contains m i)|]; done. }
      exists n. split; [done|].
      destruct n4 as [m|], ip as [i|]; try done; try destruct (net_contains m i);
        try done; by destruct (net_contains n a).
    + intros ->. rewrite decide_False in Hv by (intros Hn; by apply Hn).
      destruct n4 as [m|], ip as [i|], n6 as [n|], ip6 as [i6|]; try done;
        try destruct (net_contains m i); try done; try destruct (net_contains n i6); try done;
        destruct (Z.ltb_spec 64 (net_prefix_len n)); try done; cbn in Hv; try done; eauto.
  - intros [Hs Hip Hip6 Hn]. cbn [cfg_network cfg_network6 cfg_server_ip cfg_server_ip6 cfg_ip6_strategy] in *.
    assert (Hst : (if decide (st <> NodeId) then Ret tt else
      match n6 with
      | None => Fail (msg "ip6_strategy 'node-id' requires 'network6' to be set")
      | Some network6 =>
          if (64 <? net_prefix_len network6)%Z
          then Fail (Msg "ip6_strategy 'node-id' requires an IPv6 subnet of /64 or wider (got /{})"
                   [net_prefix_len network6])
          else match ip6 with
           | Some _ => Fail (msg "'server_ip6' cannot be combined with ip6_strategy 'node-id'")
           | None => Ret tt
           end
      end) = Ret tt).
    { case_decide as Hd; [done|]. assert (st = NodeId) as -> by (by destruct st).
      destruct (Hn eq_refl) as (-> & n & -> & Hp). by rewrite (proj2 (Z.ltb_ge _ _)). }
    rewrite Hst. destruct ip as [i|].
    + destruct (Hip i eq_refl) as (n & -> & ->). cbn [negb]. destruct ip6 as [i6|]; [|done].
      by destruct (Hip6 i6 eq_refl) as (n' & -> & ->).
    + destruct ip6 as [i6|].
      * destruct (Hip6 i6 eq_refl) as (n' & -> & ->). by destruct n4.
      * destruct n4, n6; try done. by destruct Hs as [[]%is_Some_None|[]%is_Some_None].
Qed.

(** [VpnServerConfig::validate] accepts exactly the consistent
    configurations: some network is set, an explicit server address lies in
    its network, and node-id addressing has an IPv6 network of /64 or wider
    and no explicit server address. *)
Theorem server_config_validate_exact (c : VpnServerConfig) :
  (VpnServerConfig_validate c = Ret tt <-> config_ok c) /\ VpnServerConfig_validate c <> Panic.
Proof.
  split; [apply validate_iff|].
  unfold VpnServerConfig_validate, validate_vpn_networks, validate_ip6_strategy.
  repeat case_match; done.
Qed.
End Validate.
