(* ===== verification/FileConfig.v ===== *)
(** * Configuration files and command line ([src/config/file_config.rs])

    The file-level structures, their validation, the resolution into the
    runtime configuration with its precedence (defaults, file, command line),
    and the callers in [src/main.rs].  The text forms of addresses and
    prefixes, TOML and the relay configuration are outside the repository:
    their parsers are parameters. *)

From S2P Require Import Prelude Text Errors Runtime Net Config.

#[local] Open Scope string_scope.

(** ** Errors with context ([anyhow])

    An error is its chain of contexts, outermost first; a context keeps its
    format string and the texts it prints.  The error of a parser, at the end
    of a chain, is dropped. *)
Inductive cause : Type :=
| Because (text : string) (args : list string)
| Within (section : string) (e : message).

Abbreviation ares := (outcome (list cause)).

(** [.context] on an option or on a parser's result. *)
Definition context {A} (c : cause) (o : option A) : ares A := ok_or [c] o.
(** [.with_context] on a result. *)
Definition with_context {A} (c : cause) (m : ares A) : ares A := map_err (cons c) m.

(** ** The file-level structures *)

Inductive Role : Type := VpnServer | VpnClient.

#[export] Instance Role_eq_dec : EqDecision Role.
Proof. solve_decision. Defined.

Record ServerNetworkConfig : Type := mkServerNetwork {
  sn_network : option string;
  sn_server_ip : option string;
  sn_network6 : option string;
  sn_server_ip6 : option string;
  sn_ip6_strategy : Ip6Strategy;
}.

Record ServerAuthConfig : Type := mkServerAuth { authorized_keys_file : option string }.

Record VpnServerIrohConfig : Type := mkServerIroh {
  secret_file : option string;
  s_relay_urls : option (list string);
  s_relay_auth_token : option string;
}.

Record ClientNetworkConfig : Type := mkClientNetwork {
  cn_routes : option (list string);
  cn_routes6 : option (list string);
}.

Record ClientAuthConfig : Type := mkClientAuth { ca_auth_key_file : option string }.

Record VpnClientIrohConfig : Type := mkClientIroh {
  ci_server_node_id : option string;
  ci_relay_urls : option (list string);
  ci_relay_auth_token : option string;
  ci_exclude_direct_paths : option (list string);
}.

(** [VpnServerConfig] and [VpnClientConfig] of the file layer, which the
    program imports as [TomlServerConfig] and [TomlClientConfig]. *)
Record TomlServerConfig : Type := mkTomlServer {
  ts_role : option Role;
  ts_network : ServerNetworkConfig;
  ts_auth : ServerAuthConfig;
  ts_iroh : option VpnServerIrohConfig;
}.

Record TomlClientConfig : Type := mkTomlClient {
  tc_role : option Role;
  tc_network : ClientNetworkConfig;
  tc_auth : ClientAuthConfig;
  tc_auto_reconnect : option bool;
  tc_max_reconnect_attempts : option Z;
  tc_iroh : option VpnClientIrohConfig;
}.

(** ** Paths *)

Definition expand_tilde (home_dir : option string) (path : string) : string :=
  match strip_prefix "~/" path with
  | Some stripped =>
      match home_dir with
      | Some home => join home stripped
      | None => path
      end
  | None =>
      if String.eqb path "~" then default path home_dir else path
  end.

Section Loading.
Context {T : Type} (read_to_string : string -> option string) (from_toml : string -> option T).

Definition load_config (path : string) : ares T :=
  content ← context (Because "Failed to read config file: {}" [path]) (read_to_string path);
  context (Because "Failed to parse config file: {}" [path]) (from_toml content).

(** [load_vpn_server_config] and [load_vpn_client_config], with their default
    file name. *)
Definition load_vpn_config (os : Unix) (home_dir : option string) (file_name : string)
    (path : option string) : ares T :=
  load_config (match path with
               | Some p => expand_tilde home_dir p
               | None => join (config_dir os) file_name
               end).

(** [resolve_server_config] and [resolve_client_config] of [main.rs]. *)
Definition resolve_config (os : Unix) (home_dir : option string) (file_name : string)
    (config : option string) (default_config : bool) : ares (option T * bool) :=
  match config with
  | Some path => cfg ← load_vpn_config os home_dir file_name (Some path); Ret (Some cfg, true)
  | None =>
      if default_config then cfg ← load_vpn_config os home_dir file_name None; Ret (Some cfg, true)
      else Ret (None, false)
  end.
End Loading.

Section FileConfig.
Context {Net4 Net6 : Type} `{NetOps V4_BITS Net4} `{NetOps V6_BITS Net6}.
Context {RelayConfig : Type}.
Context (parse_net4 : string -> option Net4) (parse_net6 : string -> option Net6).
Context (parse_ip4 parse_ip6 : string -> option Z).
Context (from_urls_with_token : list string -> option string -> ares RelayConfig).

(** [IpNet::from_str]: an IPv4 or an IPv6 prefix. *)
Definition parse_net (s : string) : option (Net4 + Net6) :=
  match parse_net4 s with
  | Some n => Some (inl n)
  | None => inr <$> parse_net6 s
  end.

(** ** Validation *)

Definition validate_cidr (cidr : string) : ares unit :=
  _ ← context (Because "Invalid CIDR network '{}'. Expected format: 192.168.0.0/16 or ::1/128" [cidr])
        (parse_net cidr);
  Ret tt.

Definition validate_ipv6_cidr (cidr : string) : ares unit :=
  _ ← context (Because "Invalid IPv6 CIDR '{}'. Expected format: fd00::/64 or ::/0" [cidr])
        (parse_net6 cidr);
  Ret tt.

Definition route6_context (route : string) (section : option string) : cause :=
  match section with
  | Some s => Because "[{}] Invalid route6 CIDR '{}' (must be IPv6, e.g., ::/0)" [s; route]
  | None => Because "Invalid route6 CIDR '{}' (must be IPv6, e.g., ::/0)" [route]
  end.

(** [.map(|s| s.parse().with_context(..)).transpose()?] *)
Definition parse_opt {A} (parse : string -> option A) (c : string -> cause) (s : option string)
  : ares (option A) :=
  match s with
  | None => Ret None
  | Some s => a ← context (c s) (parse s); Ret (Some a)
  end.

(** [validate_vpn_networks] of the file layer. *)
Definition validate_network_texts (network server_ip network6 server_ip6 : option string)
    (ip6_strategy : Ip6Strategy) (section : string) : ares unit :=
  network ← parse_opt parse_net4
    (fun n => Because "[{}] Invalid network CIDR '{}'. Expected format: 10.0.0.0/24" [section; n]) network;
  server_ip ← parse_opt parse_ip4
    (fun ip => Because "[{}] Invalid server_ip '{}'. Expected IPv4 address" [section; ip]) server_ip;
  network6 ← parse_opt parse_net6
    (fun n => Because "[{}] Invalid network6 CIDR '{}'. Expected format: fd00::/64" [section; n]) network6;
  server_ip6 ← parse_opt parse_ip6
    (fun ip => Because "[{}] Invalid server_ip6 '{}'. Expected IPv6 address" [section; ip]) server_ip6;
  map_err (fun e => [Within section e])
    (validate_vpn_networks network server_ip network6 server_ip6 ip6_strategy).

Definition validate_network_section (net : ServerNetworkConfig) : ares unit :=
  validate_network_texts (sn_network net) (sn_server_ip net) (sn_network6 net)
    (sn_server_ip6 net) (sn_ip6_strategy net) "network".

Definition secret_file_required : cause :=
  Because "[iroh] 'secret_file' is required for server identity. Generate with: ezvpn generate-server-key -o ./vpn-server.key" [].
Definition authorized_keys_required : cause :=
  Because "[auth] 'authorized_keys_file' is required. Each client generates a keypair with: flexaccess-keys generate-auth-key -o <FILE>, then puts its authorized-key entry (one 'ed25519-pub:...' per line) in that file." [].

Definition TomlServerConfig_validate (self : TomlServerConfig) : ares unit :=
  role ← context (Because "Config file missing required 'role' field. Add: role = 'vpnserver'" []) (ts_role self);
  if decide (role <> VpnServer)
  then Fail [Because "Config file has wrong role for server. Expected role = 'vpnserver'" []] else
  iroh ← context (Because "Config file missing required [iroh] section. Add a [iroh] section with 'secret_file'." [])
    (ts_iroh self);
  match secret_file iroh with
  | None => Fail [secret_file_required]
  | Some _ =>
      match authorized_keys_file (ts_auth self) with
      | None => Fail [authorized_keys_required]
      | Some _ => validate_network_section (ts_network self)
      end
  end.

(** [for x in xs { check(x)?; }] *)
Fixpoint check_each {A} (check : A -> ares unit) (xs : list A) : ares unit :=
  match xs with
  | [] => Ret tt
  | x :: xs => _ ← check x; check_each check xs
  end.

Definition TomlClientConfig_validate (self : TomlClientConfig) : ares unit :=
  role ← context (Because "Config file missing required 'role' field. Add: role = 'vpnclient'" []) (tc_role self);
  if decide (role <> VpnClient)
  then Fail [Because "Config file has wrong role for client. Expected role = 'vpnclient'" []] else
  iroh ← context (Because "Config file missing required [iroh] section. Add a [iroh] section with 'server_node_id'." [])
    (tc_iroh self);
  match ci_server_node_id iroh with
  | None => Fail [Because "[iroh] 'server_node_id' is required for client config." []]
  | Some _ =>
      _ ← check_each (fun route =>
            with_context (Because "[network] Invalid route CIDR '{}'" [route]) (validate_cidr route))
            (default [] (cn_routes (tc_network self)));
      check_each (fun route6 =>
        with_context (route6_context route6 (Some "network")) (validate_ipv6_cidr route6))
        (default [] (cn_routes6 (tc_network self)))
  end.

(** ** The resolved server configuration *)

Record ResolvedVpnServerConfig : Type := mkResolvedServer {
  rs_network : option string;
  rs_server_ip : option string;
  rs_network6 : option string;
  rs_server_ip6 : option string;
  rs_ip6_strategy : Ip6Strategy;
  rs_secret_file : option string;
  rs_relay_config : RelayConfig;
  rs_authorized_keys_file : option string;
}.

Definition from_config (home_dir : option string) (cfg : TomlServerConfig)
  : ares ResolvedVpnServerConfig :=
  iroh ← context (Because "Missing [iroh] section in config file" []) (ts_iroh cfg);
  let net := ts_network cfg in
  let auth := ts_auth cfg in
  match secret_file iroh with
  | None => Fail [secret_file_required]
  | Some _ =>
      match authorized_keys_file auth with
      | None => Fail [authorized_keys_required]
      | Some _ =>
          _ ← validate_network_section net;
          relay ← from_urls_with_token (default [] (s_relay_urls iroh)) (s_relay_auth_token iroh);
          Ret (mkResolvedServer (sn_network net) (sn_server_ip net) (sn_network6 net)
                 (sn_server_ip6 net) (sn_ip6_strategy net) (secret_file iroh) relay
                 (expand_tilde home_dir <$> authorized_keys_file auth))
      end
  end.

(** ** The client's builder *)

Record ResolvedVpnClientConfig : Type := mkResolvedClient {
  rc_server_node_id : string;
  rc_auth_key : option string;
  rc_auth_key_file : option string;
  rc_routes : list string;
  rc_routes6 : list string;
  rc_relay_config : RelayConfig;
  rc_exclude_direct_paths : list (Net4 + Net6);
  rc_auto_reconnect : bool;
  rc_max_reconnect_attempts : option Z;
}.

Record VpnClientConfigBuilder : Type := mkBuilder {
  b_server_node_id : option string;
  b_auth_key : option string;
  b_auth_key_file : option string;
  b_routes : option (list string);
  b_routes6 : option (list string);
  b_relay_urls : option (list string);
  b_relay_auth_token : option string;
  b_exclude_direct_paths : option (list string);
  b_auto_reconnect : option bool;
  b_max_reconnect_attempts : option Z;
}.

Definition builder_new : VpnClientConfigBuilder :=
  mkBuilder None None None None None None None None None None.

Definition apply_defaults (self : VpnClientConfigBuilder) : VpnClientConfigBuilder :=
  mkBuilder (b_server_node_id self) (b_auth_key self) (b_auth_key_file self) (Some []) (Some [])
    (Some []) (b_relay_auth_token self) (b_exclude_direct_paths self) (b_auto_reconnect self)
    (b_max_reconnect_attempts self).

(** [if new.is_some() { old = new }] *)
Definition overwrite {A} (new old : option A) : option A :=
  match new with Some _ => new | None => old end.

Definition apply_config (home_dir : option string) (config : option TomlClientConfig)
    (self : VpnClientConfigBuilder) : VpnClientConfigBuilder :=
  match config with
  | None => self
  | Some cfg =>
      let self :=
        match tc_iroh cfg with
        | None => self
        | Some iroh =>
            mkBuilder (overwrite (ci_server_node_id iroh) (b_server_node_id self)) (b_auth_key self)
              (b_auth_key_file self) (b_routes self) (b_routes6 self)
              (overwrite (ci_relay_urls iroh) (b_relay_urls self))
              (overwrite (ci_relay_auth_token iroh) (b_relay_auth_token self))
              (overwrite (ci_exclude_direct_paths iroh) (b_exclude_direct_paths self))
              (b_auto_reconnect self) (b_max_reconnect_attempts self)
        end in
      mkBuilder (b_server_node_id self) (b_auth_key self)
        (overwrite (expand_tilde home_dir <$> ca_auth_key_file (tc_auth cfg)) (b_auth_key_file self))
        (overwrite (cn_routes (tc_network cfg)) (b_routes self))
        (overwrite (cn_routes6 (tc_network cfg)) (b_routes6 self))
        (b_relay_urls self) (b_relay_auth_token self) (b_exclude_direct_paths self)
        (overwrite (tc_auto_reconnect cfg) (b_auto_reconnect self))
        (overwrite (tc_max_reconnect_attempts cfg) (b_max_reconnect_attempts self))
  end.

(** [if !new.is_empty() { old = Some(new) }] *)
Definition overwrite_list {A} (new : list A) (old : option (list A)) : option (list A) :=
  match new with [] => old | _ => Some new end.

Definition apply_cli (server_node_id auth_key auth_key_file : option string)
    (routes routes6 relay_urls : list string) (relay_auth_token : option string)
    (exclude_direct_paths : list string) (auto_reconnect : option bool)
    (max_reconnect_attempts : option Z) (self : VpnClientConfigBuilder) : VpnClientConfigBuilder :=
  let keys :=
    match auth_key, auth_key_file with
    | None, None => (b_auth_key self, b_auth_key_file self)
    | _, _ => (auth_key, auth_key_file)
    end in
  mkBuilder (overwrite server_node_id (b_server_node_id self)) keys.1 keys.2
    (overwrite_list routes (b_routes self)) (overwrite_list routes6 (b_routes6 self))
    (overwrite_list relay_urls (b_relay_urls self))
    (overwrite relay_auth_token (b_relay_auth_token self))
    (overwrite_list exclude_direct_paths (b_exclude_direct_paths self))
    (overwrite auto_reconnect (b_auto_reconnect self))
    (overwrite max_reconnect_attempts (b_max_reconnect_attempts self)).

(** [.map(parse).collect::<Result<Vec<_>>>()] *)
Fixpoint parse_all {A} (parse : string -> option A) (c : string -> cause) (l : list string)
  : ares (list A) :=
  match l with
  | [] => Ret []
  | s :: l => a ← context (c s) (parse s); rest ← parse_all parse c l; Ret (a :: rest)
  end.

Definition build (self : VpnClientConfigBuilder) : ares ResolvedVpnClientConfig :=
  server_node_id ← context (Because "Server node ID is required. Provide --server-node-id or set server_node_id in config." [])
    (b_server_node_id self);
  let routes := default [] (b_routes self) in
  _ ← check_each (fun route =>
        with_context (Because "Invalid route CIDR '{}' (e.g., 0.0.0.0/0)" [route]) (validate_cidr route)) routes;
  let routes6 := default [] (b_routes6 self) in
  _ ← check_each (fun route6 =>
        with_context (route6_context route6 (Some "config")) (validate_ipv6_cidr route6)) routes6;
  exclude ← parse_all parse_net
    (fun net => Because "Invalid exclude_direct_paths CIDR '{net}' (e.g., 100.64.0.0/10 or fd7a:115c:a1e0::/48)" [net])
    (default [] (b_exclude_direct_paths self));
  match b_auth_key self, b_auth_key_file self with
  | Some _, Some _ =>
      Fail [Because "Cannot specify both auth_key and auth_key_file. Use one source for auth." []]
  | _, _ =>
      relay ← from_urls_with_token (default [] (b_relay_urls self)) (b_relay_auth_token self);
      Ret (mkResolvedClient server_node_id (b_auth_key self) (b_auth_key_file self) routes routes6
             relay exclude (default true (b_auto_reconnect self)) (b_max_reconnect_attempts self))
  end.

(** ** Starting ([src/main.rs]) *)

(** The options of [client start] that reach the configuration. *)
Record ClientStart : Type := mkClientStart {
  st_config : option string;
  st_default_config : bool;
  st_server_node_id : option string;
  st_relay_urls : list string;
  st_relay_auth_token : option string;
  st_auth_key : option string;
  st_auth_key_file : option string;
  st_routes : list string;
  st_routes6 : list string;
  st_exclude_direct_paths : list string;
  st_auto_reconnect : bool;
  st_no_auto_reconnect : bool;
  st_max_reconnect_attempts : option Z;
}.

(** [prepare_client_start]; [ensure_tun_permission] is the result of that call. *)
Definition prepare_client_start (os : Unix) (home_dir : option string)
    (read_to_string : string -> option string) (from_toml : string -> option TomlClientConfig)
    (ensure_tun_permission : ares unit) (o : ClientStart) : ares ResolvedVpnClientConfig :=
  r ← resolve_config read_to_string from_toml os home_dir "vpn_client.toml"
        (st_config o) (st_default_config o);
  let '(cfg, from_file) := r in
  _ ← (match from_file, cfg with
       | true, Some c => TomlClientConfig_validate c
       | _, _ => Ret tt
       end);
  auto_reconnect_opt ← (match st_auto_reconnect o, st_no_auto_reconnect o with
                        | true, false => Ret (Some true)
                        | false, true => Ret (Some false)
                        | false, false => Ret None
                        | true, true => Panic
                        end);
  _ ← ensure_tun_permission;
  build (apply_cli (st_server_node_id o) (st_auth_key o)
           (expand_tilde home_dir <$> st_auth_key_file o) (st_routes o) (st_routes6 o)
           (st_relay_urls o) (st_relay_auth_token o) (st_exclude_direct_paths o)
           auto_reconnect_opt (st_max_reconnect_attempts o)
           (apply_config home_dir cfg (apply_defaults builder_new))).

(** The routes [run_vpn_client] gives the client. *)
Definition client_routes (resolved : ResolvedVpnClientConfig) : ares (list Net4 * list Net6) :=
  parsed_routes ← parse_all parse_net4
    (fun _ => Because "Invalid route CIDR (e.g., 192.168.1.0/24)" []) (rc_routes resolved);
  parsed_routes6 ← parse_all parse_net6
    (fun _ => Because "Invalid route6 CIDR (e.g., ::/0 or fd00::/64)" []) (rc_routes6 resolved);
  Ret (parsed_routes, parsed_routes6).

(** The networks of the configuration [run_vpn_server] gives the server. *)
Definition server_networks (resolved : ResolvedVpnServerConfig) : ares (VpnServerConfig (Net4:=Net4) (Net6:=Net6)) :=
  network ← parse_opt parse_net4 (fun _ => Because "Invalid VPN network CIDR" []) (rs_network resolved);
  server_ip ← parse_opt parse_ip4 (fun _ => Because "Invalid server IP address" []) (rs_server_ip resolved);
  network6 ← parse_opt parse_net6 (fun _ => Because "Invalid IPv6 VPN network CIDR" []) (rs_network6 resolved);
  server_ip6 ← parse_opt parse_ip6 (fun _ => Because "Invalid server IPv6 address" []) (rs_server_ip6 resolved);
  Ret (mkServerConfig network network6 server_ip server_ip6 (rs_ip6_strategy resolved) 254).

(** ** What the operations compute *)

Lemma context_ret {A} c (o : option A) a : context c o = Ret a <-> o = Some a.
Proof. destruct o; cbn; split; intros; simplify_eq; done. Qed.

Lemma check_each_ret {A} (check : A -> ares unit) xs :
  check_each check xs = Ret tt <-> Forall (fun x => check x = Ret tt) xs.
Proof.
  induction xs as [|x xs IH]; cbn [check_each]; [by split|].
  rewrite Forall_cons, <-IH. destruct (check x) as [[]| |]; cbn; naive_solver.
Qed.

Lemma parse_all_ret {A} (parse : string -> option A) c l rs :
  parse_all parse c l = Ret rs <-> Forall2 (fun s a => parse s = Some a) l rs.
Proof.
  revert rs. induction l as [|s l IH]; intros rs; cbn [parse_all].
  - split; [intros [= <-]; constructor|]. intros Hp. by inversion Hp.
  - split.
    + intros Hp. bind_inv Hp. bind_inv Hp. apply context_ret in Hv. apply IH in Hv0.
      injection Hp as <-. by constructor.
    + intros Hp. inversion Hp as [|? a ? rs' Ha Hrs]; subst. rewrite Ha.
      apply IH in Hrs. cbn. by rewrite Hrs.
Qed.

Lemma parse_opt_ret {A} (parse : string -> option A) c s r :
  parse_opt parse c s = Ret r <->
  match s with None => r = None | Some s => exists a, parse s = Some a /\ r = Some a end.
Proof.
  unfold parse_opt. destruct s as [s|]; [|split; [by intros [= <-]|by intros ->]].
  destruct (parse s) as [a|]; cbn; naive_solver.
Qed.

Lemma validate_cidr_ret c s : with_context c (validate_cidr s) = Ret tt <-> is_Some (parse_net s).
Proof.
  unfold with_context, validate_cidr. rewrite map_err_ret. destruct (parse_net s); cbn.
  - split; [by eexists|done].
  - split; [done|by intros [??]].
Qed.

Lemma validate_ipv6_cidr_ret c s :
  with_context c (validate_ipv6_cidr s) = Ret tt <-> is_Some (parse_net6 s).
Proof.
  unfold with_context, validate_ipv6_cidr. rewrite map_err_ret. destruct (parse_net6 s); cbn.
  - split; [by eexists|done].
  - split; [done|by intros [??]].
Qed.

(** ** The precedence of the sources *)

(** A setting given by the command line or else by the file, and a list given
    (not empty) by the command line or else by the file. *)
Definition first_of {A} (cli file : option A) : option A :=
  match cli with Some _ => cli | None => file end.
Definition first_list {A} (cli : list A) (file : option (list A)) : list A :=
  match cli with [] => default [] file | _ => cli end.

Section Settings.
Context (home : option string) (o : ClientStart) (cfg : option TomlClientConfig).

Definition file_iroh : option VpnClientIrohConfig := cfg ≫= tc_iroh.
Definition file_network : option ClientNetworkConfig := tc_network <$> cfg.

Definition the_server_node_id : option string :=
  first_of (st_server_node_id o) (file_iroh ≫= ci_server_node_id).
Definition the_routes : list string := first_list (st_routes o) (file_network ≫= cn_routes).
Definition the_routes6 : list string := first_list (st_routes6 o) (file_network ≫= cn_routes6).
Definition the_relay_urls : list string := first_list (st_relay_urls o) (file_iroh ≫= ci_relay_urls).
Definition the_relay_token : option string :=
  first_of (st_relay_auth_token o) (file_iroh ≫= ci_relay_auth_token).
Definition the_excludes : list string :=
  first_list (st_exclude_direct_paths o) (file_iroh ≫= ci_exclude_direct_paths).
Definition the_max_attempts : option Z :=
  first_of (st_max_reconnect_attempts o) (cfg ≫= tc_max_reconnect_attempts).
Definition the_auto_reconnect : bool :=
  if st_auto_reconnect o then true else if st_no_auto_reconnect o then false
  else default true (cfg ≫= tc_auto_reconnect).

(** The keys come from one source as a whole: the command line when it names
    any, else the file, which can only name a key file. *)
Definition the_keys : option string * option string :=
  match st_auth_key o, st_auth_key_file o with
  | None, None => (None, expand_tilde home <$> (cfg ≫= fun c => ca_auth_key_file (tc_auth c)))
  | k, f => (k, expand_tilde home <$> f)
  end.

Record resolves (r : ResolvedVpnClientConfig) : Prop := {
  rv_id : the_server_node_id = Some (rc_server_node_id r);
  rv_keys : (rc_auth_key r, rc_auth_key_file r) = the_keys;
  rv_one_key : rc_auth_key r = None \/ rc_auth_key_file r = None;
  rv_routes : rc_routes r = the_routes;
  rv_routes_ok : Forall (fun s => is_Some (parse_net s)) the_routes;
  rv_routes6 : rc_routes6 r = the_routes6;
  rv_routes6_ok : Forall (fun s => is_Some (parse_net6 s)) the_routes6;
  rv_excludes : Forall2 (fun s n => parse_net s = Some n) the_excludes (rc_exclude_direct_paths r);
  rv_relay : from_urls_with_token the_relay_urls the_relay_token = Ret (rc_relay_config r);
  rv_auto : rc_auto_reconnect r = the_auto_reconnect;
  rv_max : rc_max_reconnect_attempts r = the_max_attempts;
}.

(** The builder's fields after the three stages. *)
Definition staged : VpnClientConfigBuilder :=
  apply_cli (st_server_node_id o) (st_auth_key o) (expand_tilde home <$> st_auth_key_file o)
    (st_routes o) (st_routes6 o) (st_relay_urls o) (st_relay_auth_token o)
    (st_exclude_direct_paths o)
    (if st_auto_reconnect o then Some true else if st_no_auto_reconnect o then Some false else None)
    (st_max_reconnect_attempts o) (apply_config home cfg (apply_defaults builder_new)).

Lemma staged_fields :
  b_server_node_id staged = the_server_node_id /\
  (b_auth_key staged, b_auth_key_file staged) = the_keys /\
  default [] (b_routes staged) = the_routes /\ default [] (b_routes6 staged) = the_routes6 /\
  default [] (b_relay_urls staged) = the_relay_urls /\ b_relay_auth_token staged = the_relay_token /\
  default [] (b_exclude_direct_paths staged) = the_excludes /\
  default true (b_auto_reconnect staged) = the_auto_reconnect /\
  b_max_reconnect_attempts staged = the_max_attempts.
Proof.
  unfold staged, apply_cli, the_server_node_id, the_keys, the_routes, the_routes6, the_relay_urls,
    the_relay_token, the_excludes, the_auto_reconnect, the_max_attempts, file_iroh, file_network.
  unfold overwrite, overwrite_list, first_of, first_list.
  destruct cfg as [[role [r r6] [f] ar ma [[id urls tok ex]|]]|]; cbn;
    unfold overwrite; split_and!; repeat case_match; simplify_eq/=; done.
Qed.

Lemma build_staged r : build staged = Ret r <-> resolves r.
Proof.
  destruct staged_fields as (Hid & Hk & Hr & Hr6 & Hu & Ht & He & Ha & Hm).
  generalize dependent staged. intros b Hid Hk Hr Hr6 Hu Ht He Ha Hm.
  unfold build. rewrite Hid, Hr, Hr6, Hu, Ht, He, Ha, Hm. split.
  - intros Hb. bind_inv Hb. apply context_ret in Hv. bind_inv Hb. bind_inv Hb. bind_inv Hb.
    destruct v0, v1. apply check_each_ret in Hv0, Hv1. apply parse_all_ret in Hv2.
    assert (Hfin : (b_auth_key b = None \/ b_auth_key_file b = None) /\
      (relay ← from_urls_with_token the_relay_urls the_relay_token;
       Ret (mkResolvedClient v (b_auth_key b) (b_auth_key_file b) the_routes the_routes6
         relay v2 the_auto_reconnect the_max_attempts)) = Ret r).
    { destruct (b_auth_key b), (b_auth_key_file b); try done; auto. }
    destruct Hfin as [Hone Hfin]. bind_inv Hfin. injection Hfin as <-.
    constructor; cbn; try done.
    + eapply Forall_impl; [exact Hv0|]. intros s. apply validate_cidr_ret.
    + eapply Forall_impl; [exact Hv1|]. intros s. apply validate_ipv6_cidr_ret.
  - intros []. destruct r as [id k f rs rs6 relay ex au ma]. cbn in *. subst.
    rewrite rv_id0. cbn.
    rewrite (proj2 (check_each_ret _ the_routes)).
    2:{ eapply Forall_impl; [exact rv_routes_ok0|]. intros s. apply validate_cidr_ret. }
    cbn. rewrite (proj2 (check_each_ret _ the_routes6)).
    2:{ eapply Forall_impl; [exact rv_routes6_ok0|]. intros s. apply validate_ipv6_cidr_ret. }
    cbn. rewrite (proj2 (parse_all_ret _ _ _ _) rv_excludes0). cbn.
    rewrite <-Hk in rv_keys0. injection rv_keys0 as -> ->. rewrite rv_relay0. cbn.
    destruct (b_auth_key b), (b_auth_key_file b); try done.
    by destruct rv_one_key0.
Qed.
End Settings.

(** ** The server's networks *)

(** The configuration the texts of the [network] section denote. *)
Definition denotes (net : ServerNetworkConfig) (c : VpnServerConfig (Net4:=Net4) (Net6:=Net6)) : Prop :=
  (forall cc, parse_opt parse_net4 cc (sn_network net) = Ret (cfg_network c)) /\
  (forall cc, parse_opt parse_ip4 cc (sn_server_ip net) = Ret (cfg_server_ip c)) /\
  (forall cc, parse_opt parse_net6 cc (sn_network6 net) = Ret (cfg_network6 c)) /\
  (forall cc, parse_opt parse_ip6 cc (sn_server_ip6 net) = Ret (cfg_server_ip6 c)) /\
  cfg_ip6_strategy c = sn_ip6_strategy net /\ max_clients c = 254%Z.

Lemma parse_opt_any {A} (parse : string -> option A) c c' s r :
  parse_opt parse c s = Ret r -> parse_opt parse c' s = Ret r.
Proof. rewrite !parse_opt_ret. done. Qed.

Lemma network_section_iff net :
  validate_network_section net = Ret tt <-> exists c, denotes net c /\ config_ok c.
Proof.
  unfold validate_network_section, validate_network_texts. split.
  - intros Hv. bind_inv Hv. bind_inv Hv. bind_inv Hv. bind_inv Hv. apply map_err_ret in Hv.
    exists (mkServerConfig v v1 v0 v2 (sn_ip6_strategy net) 254). split.
    + repeat split; intros cc; cbn; by eapply parse_opt_any.
    + by apply validate_iff.
  - intros (c & (H1 & H2 & H3 & H4 & H5 & _) & Hok). apply validate_iff in Hok.
    rewrite H1. cbn. rewrite H2. cbn. rewrite H3. cbn. rewrite H4. cbn.
    apply map_err_ret. by rewrite <-H5.
Qed.

Lemma denotes_server_networks net c r :
  denotes net c -> rs_network r = sn_network net -> rs_server_ip r = sn_server_ip net ->
  rs_network6 r = sn_network6 net -> rs_server_ip6 r = sn_server_ip6 net ->
  rs_ip6_strategy r = sn_ip6_strategy net -> server_networks r = Ret c.
Proof.
  intros (H1 & H2 & H3 & H4 & H5 & H6) E1 E2 E3 E4 E5. unfold server_networks.
  rewrite E1, H1. cbn. rewrite E2, H2. cbn. rewrite E3, H3. cbn. rewrite E4, H4. cbn.
  rewrite E5, <-H5, <-H6. by destruct c.
Qed.

(** ** Properties *)

(** C35. The client's configuration is resolved as documented, with every source
    present or absent: it succeeds exactly when the chosen file loads and
    validates, the conflicting flags are not both set, the device permission is
    there, and the effective settings are consistent; every effective setting
    is the command line's if given, else the file's, else the default, except
    that the two key settings are taken from one source as a whole. *)
Theorem client_config_precedence os home read_to_string from_toml permission o r :
  prepare_client_start os home read_to_string from_toml permission o = Ret r <->
  st_auto_reconnect o && st_no_auto_reconnect o = false /\ permission = Ret tt /\
  exists cfg from_file,
    resolve_config read_to_string from_toml os home "vpn_client.toml" (st_config o)
      (st_default_config o) = Ret (cfg, from_file) /\
    (forall c, cfg = Some c -> TomlClientConfig_validate c = Ret tt) /\
    resolves home o cfg r.
Proof.
  unfold prepare_client_start. destruct (resolve_config _ _ _ _ _ _ _) as [[cfg ff]| |] eqn:Hc;
    cbn [mbind outcome_bind]; [|split; [done|by intros (_ & _ & ? & ? & ? & _)]..].
  assert (Hff : forall c, cfg = Some c -> ff = true).
  { intros c ->. unfold resolve_config in Hc. destruct (st_config o); [by bind_inv Hc; injection Hc|].
    destruct (st_default_config o); [by bind_inv Hc; injection Hc|done]. }
  set (v := match ff with true => _ | false => _ end).
  assert (Hval : v = Ret tt <-> forall c, cfg = Some c -> TomlClientConfig_validate c = Ret tt).
  { subst v. destruct cfg as [c|].
    - rewrite (Hff c eq_refl). split; [by intros Hv c' [= <-]|by intros Hv; apply Hv].
    - by destruct ff. }
  split.
  - intros Hp. bind_inv Hp. destruct v0. bind_inv Hp. bind_inv Hp.
    assert (Hflags : st_auto_reconnect o && st_no_auto_reconnect o = false /\
      v0 = if st_auto_reconnect o then Some true else if st_no_auto_reconnect o then Some false else None).
    { destruct (st_auto_reconnect o), (st_no_auto_reconnect o); simplify_eq; done. }
    destruct Hflags as [Hfl ->]. destruct v1. split_and!; [done..|].
    exists cfg, ff. split_and!; [done|by apply Hval|]. by apply build_staged.
  - intros (Hfl & -> & cfg' & ff' & [= <- <-] & Hv & Hr). apply Hval in Hv. rewrite Hv.
    apply build_staged in Hr. unfold staged in Hr. cbn [mbind outcome_bind].
    destruct (st_auto_reconnect o), (st_no_auto_reconnect o); done.
Qed.

(** The server's file is checked completely before anything is started:
    [validate] accepts exactly the files with the server role, a secret file,
    an authorized-keys file and networks that denote a consistent runtime
    configuration; from an accepted file the resolution fails only for the
    relays, and the configuration the server is then created with parses and is
    that consistent configuration.  The authorized-keys path has its tilde
    expanded, the secret file's path has not. *)
Theorem server_file_config_exact home (cfg : TomlServerConfig) :
  (TomlServerConfig_validate cfg = Ret tt <->
   ts_role cfg = Some VpnServer /\
   exists iroh s k c, ts_iroh cfg = Some iroh /\ secret_file iroh = Some s /\
     authorized_keys_file (ts_auth cfg) = Some k /\ denotes (ts_network cfg) c /\ config_ok c) /\
  (TomlServerConfig_validate cfg = Ret tt ->
   exists iroh s k c, ts_iroh cfg = Some iroh /\ config_ok c /\
     match from_urls_with_token (default [] (s_relay_urls iroh)) (s_relay_auth_token iroh) with
     | Ret relay => exists r, from_config home cfg = Ret r /\ rs_relay_config r = relay /\
         server_networks r = Ret c /\ VpnServerConfig_validate c = Ret tt /\
         secret_file iroh = Some s /\ rs_secret_file r = Some s /\
         authorized_keys_file (ts_auth cfg) = Some k /\
         rs_authorized_keys_file r = Some (expand_tilde home k)
     | Fail e => from_config home cfg = Fail e
     | Panic => from_config home cfg = Panic
     end).
Proof.
  assert (Hiff : TomlServerConfig_validate cfg = Ret tt <->
   ts_role cfg = Some VpnServer /\
   exists iroh s k c, ts_iroh cfg = Some iroh /\ secret_file iroh = Some s /\
     authorized_keys_file (ts_auth cfg) = Some k /\ denotes (ts_network cfg) c /\ config_ok c).
  { unfold TomlServerConfig_validate. split.
    - intros Hv. bind_inv Hv. apply context_ret in Hv0. case_decide as Hr; [done|].
      bind_inv Hv. apply context_ret in Hv1. destruct (secret_file v0) as [s|] eqn:Hs; [|done].
      destruct (authorized_keys_file _) as [k|] eqn:Hk; [|done].
      apply network_section_iff in Hv as (c & ? & ?). split; [|by exists v0, s, k, c].
      rewrite Hv0. destruct v; [done|]. by destruct Hr.
    - intros (-> & iroh & s & k & c & -> & Hs & Hk & Hd). cbn. rewrite Hs, Hk.
      apply network_section_iff. by exists c. }
  split; [exact Hiff|]. intros (_ & iroh & s & k & c & Hi & Hs & Hk & Hd & Hok)%Hiff.
  exists iroh, s, k, c. split; [done|]. split; [done|]. unfold from_config. rewrite Hi. cbn.
  rewrite Hs, Hk. cbn. rewrite (proj2 (network_section_iff (ts_network cfg))) by (by exists c). cbn.
  destruct (from_urls_with_token _ _) as [relay|e|]; cbn; [|done..].
  eexists. split; [reflexivity|]. cbn. split; [done|].
  split; [by eapply (denotes_server_networks (ts_network cfg))|].
  split; [by apply validate_iff|done].
Qed.

(** The routes of a resolved client configuration reach the client exactly
    when every entry of [routes] is an IPv4 prefix: an IPv6 prefix there passes
    the validation of the file and of the builder, which accept both families,
    and fails when the client is started, after the process has gone to the
    background.  The entries of [routes6] never fail there. *)
Theorem client_routes_usable_exact home o cfg r :
  resolves home o cfg r ->
  (is_ret (client_routes r) = true <-> Forall (fun s => is_Some (parse_net4 s)) (rc_routes r)) /\
  Forall (fun s => is_Some (parse_net4 s) \/ is_Some (parse_net6 s)) (rc_routes r) /\
  (forall routes routes6, client_routes r = Ret (routes, routes6) ->
     Forall2 (fun s n => parse_net4 s = Some n) (rc_routes r) routes /\
     Forall2 (fun s n => parse_net6 s = Some n) (rc_routes6 r) routes6).
Proof.
  intros Hr. pose proof (rv_routes _ _ _ _ Hr) as E. pose proof (rv_routes6 _ _ _ _ Hr) as E6.
  assert (Hall : forall A (parse : string -> option A) l,
    Forall (fun s => is_Some (parse s)) l <-> exists ns, Forall2 (fun s n => parse s = Some n) l ns).
  { intros A parse l. split.
    - induction 1 as [|s l [n Hn] _ [ns IH]]; [by exists []|]. exists (n :: ns). by constructor.
    - intros [ns Hns]. induction Hns; constructor; [by eexists|done]. }
  split_and!.
  - unfold client_routes. rewrite Hall. split.
    + destruct (parse_all parse_net4 _ _) as [ns| |] eqn:Hp; try done. intros _.
      exists ns. by apply parse_all_ret in Hp.
    + intros [ns Hns]. rewrite (proj2 (parse_all_ret _ _ _ _) Hns). cbn.
      destruct (proj1 (Hall _ parse_net6 (rc_routes6 r))) as [ns6 Hns6];
        [rewrite E6; apply (rv_routes6_ok _ _ _ _ Hr)|].
      by rewrite (proj2 (parse_all_ret _ _ _ _) Hns6).
  - rewrite E. eapply Forall_impl; [apply (rv_routes_ok _ _ _ _ Hr)|]. intros s [n Hn].
    unfold parse_net in Hn. destruct (parse_net4 s); [left; by eexists|].
    right. destruct (parse_net6 s); [by eexists|done].
  - unfold client_routes. intros rs rs6 Hc. bind_inv Hc. bind_inv Hc. injection Hc as <- <-.
    by split; eapply parse_all_ret.
Qed.
End FileConfig.

(** ** Evaluation *)

(** Prefixes as their texts: the two sample prefixes of each family. *)
Definition sample_parse4 (s : string) : option (CNet V4_BITS) :=
  if String.eqb s "10.0.0.0/24" then cnet_new V4_BITS 167772160 24
  else if String.eqb s "0.0.0.0/0" then cnet_new V4_BITS 0 0 else None.
Definition sample_parse6 (s : string) : option (CNet V6_BITS) :=
  if String.eqb s "::/0" then cnet_new V6_BITS 0 0 else None.
Definition sample_relays (urls : list string) (token : option string) : ares (list string * option string) :=
  match urls, token with
  | [], Some _ => Fail [Because "relay_auth_token requires relay_urls" []]
  | _, _ => Ret (urls, token)
  end.

(** A file that names a node, a key file and an IPv6 prefix among [routes]. *)
Definition sample_toml : TomlClientConfig :=
  mkTomlClient (Some VpnClient) (mkClientNetwork (Some ["10.0.0.0/24"; "::/0"]) None)
    (mkClientAuth (Some "~/client.key")) None (Some 5%Z)
    (Some (mkClientIroh (Some "node-a") None None None)).
(** [client start -c vpn.toml --server-node-id node-b --no-auto-reconnect] *)
Definition sample_start : ClientStart :=
  mkClientStart (Some "vpn.toml") false (Some "node-b") [] None None None [] [] [] false true None.

Definition sample_resolved :=
  mkResolvedClient (Net4:=CNet V4_BITS) (Net6:=CNet V6_BITS)
    (RelayConfig:=(list string * option string)%type) "node-b" None (Some "/root/client.key")
    ["10.0.0.0/24"; "::/0"] [] ([], None) [] false (Some 5%Z).

Lemma sample_prepared :
  prepare_client_start sample_parse4 sample_parse6 sample_relays Linux (Some "/root")
    (fun path => if String.eqb path "vpn.toml" then Some "(toml)" else None)
    (fun _ => Some sample_toml) (Ret tt) sample_start = Ret sample_resolved.
Proof. reflexivity. Qed.

Lemma client_routes_usable_exact_witness :
  is_ret (client_routes sample_parse4 sample_parse6 sample_resolved) = false /\
  Forall (fun s => is_Some (sample_parse4 s) \/ is_Some (sample_parse6 s)) (rc_routes sample_resolved).
Proof.
  assert (Hr : resolves sample_parse4 sample_parse6 sample_relays (Some "/root") sample_start
    (Some sample_toml) sample_resolved).
  { constructor; try reflexivity; try (left; reflexivity).
    repeat (constructor; [eexists; reflexivity|]). constructor. }
  destruct (client_routes_usable_exact _ _ _ _ _ _ _ Hr) as (Ha & Hb & _).
  split; [|exact Hb]. reflexivity.
Defined.

Definition sample_server_toml : TomlServerConfig :=
  mkTomlServer (Some VpnServer) (mkServerNetwork (Some "10.0.0.0/24") None None None Sequential)
    (mkServerAuth (Some "~/keys")) (Some (mkServerIroh (Some "~/server.key") None None)).

Lemma server_file_config_exact_witness :
  exists r, from_config sample_parse4 sample_parse6 (fun _ => None) (fun _ => None) sample_relays
      (Some "/root") sample_server_toml = Ret r /\
    rs_secret_file r = Some "~/server.key" /\ rs_authorized_keys_file r = Some "/root/keys".
Proof.
  destruct (proj2 (server_file_config_exact sample_parse4 sample_parse6 (fun _ => None) (fun _ => None)
    sample_relays (Some "/root") sample_server_toml)) as (iroh & s & k & c & Hi & _ & Hm);
    [reflexivity|].
  injection Hi as <-. destruct Hm as (r & Hr & _ & _ & _ & Hs & Hrs & Hk & Hrk).
  injection Hs as <-. injection Hk as <-. exists r. split; [exact Hr|]. split; [exact Hrs|exact Hrk].
Defined.
