(* ===== verification/DeviceRoutes.v ===== *)
(** * Routes through the tunnel ([src/net/device.rs])

    Adding the configured routes on Linux, macOS and Windows, the expansion of
    default routes, the rollback of a partial addition and the guards that
    remove the routes again.  The operating system is a state [W] with the
    calls the code makes: running a program, and the Windows IP Helper
    functions.  Arguments keep what they print: an address, a prefix or text. *)

From S2P Require Import Prelude Text Errors Net.

#[local] Open Scope string_scope.

(** ** Calls into the system *)

Inductive Os : Type := LinuxOs | MacOs | WindowsOs.

Inductive arg : Type :=
| Word (s : string)
| Addr (ip : IpAddr)
| Cidr (ip : IpAddr) (prefix : Z)
| Num (n : Z).

#[export] Instance arg_eq_dec : EqDecision arg.
Proof. solve_decision. Defined.

#[export] Instance arg_countable : Countable arg.
Proof.
  refine (inj_countable'
    (fun a => match a with
              | Word s => inl (inl s) | Addr ip => inl (inr ip)
              | Cidr ip p => inr (inl (ip, p)) | Num n => inr (inr n)
              end)
    (fun x => match x with
              | inl (inl s) => Word s | inl (inr ip) => Addr ip
              | inr (inl (ip, p)) => Cidr ip p | inr (inr n) => Num n
              end) _).
  by intros [].
Defined.

(** [std::process::Output]. *)
Record Output : Type := mkOutput { success : bool; stdout : string; stderr : string }.

(** The fields of [MIB_IPFORWARD_ROW2] the code sets; the next hop is the
    unspecified address of the family of [row_dest]. *)
Record ForwardRow : Type := mkRow {
  row_luid : Z;
  row_dest : IpAddr;
  row_prefix_len : Z;
  row_metric : Z;
  row_valid_lifetime : Z;
  row_preferred_lifetime : Z;
}.

(** [None] when the program could not be started; a status code, and for the
    lookup of an interface its LUID. *)
Class System (W : Type) : Type := {
  run : W -> string -> list arg -> W * option Output;
  ConvertInterfaceAliasToLuid : W -> string -> Z * Z;
  CreateIpForwardEntry2 : W -> ForwardRow -> W * Z;
  DeleteIpForwardEntry2 : W -> ForwardRow -> W * Z;
}.

Definition NO_ERROR : Z := 0.
Definition ERROR_NOT_FOUND : Z := 1168.
Definition ERROR_OBJECT_ALREADY_EXISTS : Z := 5010.

Definition is_already_exists_error (stderr : string) : bool :=
  let lower := to_lowercase stderr in
  contains "file exists" lower || contains "eexist" lower || contains "already exists" lower.

Inductive RouteAddOutcome : Type := Added | AlreadyExisted.

#[export] Instance RouteAddOutcome_eq_dec : EqDecision RouteAddOutcome.
Proof. solve_decision. Defined.

(** ** Routes of either family *)

Class Route (R : Type) : Type := {
  LABEL : string;
  macos_add_args : R -> string -> list arg;
  macos_delete_args : R -> string -> list arg;
  linux_add_args : R -> string -> list arg;
  linux_delete_args : R -> string -> list arg;
  windows_prefix : R -> IpAddr * Z;
  (* the prefix as [Display] prints it *)
  route_net : R -> IpAddr * Z;
}.

(** [Ipv4Net::netmask]. *)
Definition netmask4 (prefix_len : Z) : Z := (2 ^ 32 - 2 ^ (32 - prefix_len))%Z.

#[export] Instance route_v4 {Net4} `{NetOps V4_BITS Net4} : Route Net4 := {|
  LABEL := "route";
  macos_add_args self tun_name :=
    [Word "add"; Word "-net"; Addr (V4 (net_network self)); Word "-netmask";
     Addr (V4 (netmask4 (net_prefix_len self))); Word "-interface"; Word tun_name];
  macos_delete_args self tun_name :=
    [Word "delete"; Word "-net"; Addr (V4 (net_network self)); Word "-netmask";
     Addr (V4 (netmask4 (net_prefix_len self))); Word "-interface"; Word tun_name];
  linux_add_args self tun_name :=
    [Word "route"; Word "add"; Cidr (V4 (net_addr self)) (net_prefix_len self); Word "dev"; Word tun_name];
  linux_delete_args self tun_name :=
    [Word "route"; Word "del"; Cidr (V4 (net_addr self)) (net_prefix_len self); Word "dev"; Word tun_name];
  windows_prefix self := (V4 (net_network self), net_prefix_len self);
  route_net self := (V4 (net_addr self), net_prefix_len self);
|}.

Definition route_v6 {Net6} `{NetOps V6_BITS Net6} : Route Net6 := {|
  LABEL := "IPv6 route";
  macos_add_args self tun_name :=
    [Word "add"; Word "-inet6"; Cidr (V6 (net_addr self)) (net_prefix_len self);
     Word "-interface"; Word tun_name];
  macos_delete_args self tun_name :=
    [Word "delete"; Word "-inet6"; Cidr (V6 (net_addr self)) (net_prefix_len self);
     Word "-interface"; Word tun_name];
  linux_add_args self tun_name :=
    [Word "-6"; Word "route"; Word "add"; Cidr (V6 (net_addr self)) (net_prefix_len self);
     Word "dev"; Word tun_name];
  linux_delete_args self tun_name :=
    [Word "-6"; Word "route"; Word "del"; Cidr (V6 (net_addr self)) (net_prefix_len self);
     Word "dev"; Word tun_name];
  windows_prefix self := (V6 (net_network self), net_prefix_len self);
  route_net self := (V6 (net_addr self), net_prefix_len self);
|}.
#[export] Existing Instance route_v6.

(** ** Windows IP Helper *)

Definition ROUTE_METRIC : Z := 256.

Definition forward_row (luid : Z) (dest : IpAddr) (prefix_len : Z) : ForwardRow :=
  mkRow luid dest prefix_len ROUTE_METRIC U32_MAX U32_MAX.

Section Windows.
Context {W : Type} `{System W}.

(** An [io::Error] is its code. *)
Definition interface_luid (w : W) (tun_name : string) : outcome Z Z :=
  match ConvertInterfaceAliasToLuid w tun_name with
  | (status, luid) => if (status =? NO_ERROR)%Z then Ret luid else Fail status
  end.

Definition windows_add_route (w : W) (tun_name : string) (dest : IpAddr) (prefix_len : Z)
  : W * outcome Z RouteAddOutcome :=
  match interface_luid w tun_name with
  | Ret luid =>
      let '(w, status) := CreateIpForwardEntry2 w (forward_row luid dest prefix_len) in
      (w, if (status =? NO_ERROR)%Z then Ret Added
          else if (status =? ERROR_OBJECT_ALREADY_EXISTS)%Z then Ret AlreadyExisted
          else Fail status)
  | Fail e => (w, Fail e)
  | Panic => (w, Panic)
  end.

Definition windows_delete_route (w : W) (tun_name : string) (dest : IpAddr) (prefix_len : Z)
  : W * outcome Z unit :=
  match interface_luid w tun_name with
  | Ret luid =>
      let '(w, status) := DeleteIpForwardEntry2 w (forward_row luid dest prefix_len) in
      (w, if (status =? NO_ERROR)%Z || (status =? ERROR_NOT_FOUND)%Z then Ret tt else Fail status)
  | Fail e => (w, if (e =? ERROR_NOT_FOUND)%Z then Ret tt else Fail e)
  | Panic => (w, Panic)
  end.
End Windows.

(** ** Adding and removing one route *)

Section Routes.
Context {W : Type} `{System W}.

Section One.
Context {R : Type} `{Route R}.

(** The text of a failed command. *)
Definition combined_output (output : Output) : string :=
  if String.eqb (trim (stderr output)) "" then trim (stdout output)
  else if String.eqb (trim (stdout output)) "" then trim (stderr output)
  else trim (stderr output) +:+ " " +:+ trim (stdout output).

Definition handle_route_add_output (output : Output) : vres RouteAddOutcome :=
  if success output then Ret Added else
  if is_already_exists_error (stderr output) || is_already_exists_error (stdout output)
  then Ret AlreadyExisted
  else Fail (VpnError_tun_device (msg ("Failed to add " +:+ LABEL +:+ " {}: " +:+ combined_output output))).

Definition add_route_generic (os : Os) (w : W) (tun_name : string) (route : R)
  : W * vres RouteAddOutcome :=
  let shell program args failure :=
    match run w program args with
    | (w, Some output) => (w, handle_route_add_output output)
    | (w, None) => (w, Fail (VpnError_tun_device (msg failure)))
    end in
  match os with
  | MacOs => shell "route" (macos_add_args route tun_name) "Failed to execute route command"
  | LinuxOs => shell "ip" (linux_add_args route tun_name) "Failed to execute ip route command"
  | WindowsOs =>
      let '(dest, prefix_len) := windows_prefix route in
      match windows_add_route w tun_name dest prefix_len with
      | (w, Ret outcome) => (w, Ret outcome)
      | (w, Fail e) =>
          (w, Fail (VpnError_tun_device (Msg ("Failed to add " +:+ LABEL +:+ " {} via {}: {}") [e])))
      | (w, Panic) => (w, Panic)
      end
  end.

(** The result of a removal is logged, only the failure to run the program is
    returned. *)
Definition remove_route_generic (os : Os) (w : W) (tun_name : string) (route : R) : W * vres unit :=
  let shell program args failure :=
    match run w program args with
    | (w, Some _) => (w, Ret tt)
    | (w, None) => (w, Fail (VpnError_tun_device (msg failure)))
    end in
  match os with
  | MacOs => shell "route" (macos_delete_args route tun_name) "Failed to execute route command"
  | LinuxOs => shell "ip" (linux_delete_args route tun_name) "Failed to execute ip route command"
  | WindowsOs =>
      let '(dest, prefix_len) := windows_prefix route in
      ((windows_delete_route w tun_name dest prefix_len).1, Ret tt)
  end.

Definition remove_route_sync_generic (os : Os) (w : W) (tun_name : string) (route : R) : W :=
  match os with
  | MacOs => (run w "route" (macos_delete_args route tun_name)).1
  | LinuxOs => (run w "ip" (linux_delete_args route tun_name)).1
  | WindowsOs =>
      let '(dest, prefix_len) := windows_prefix route in
      (windows_delete_route w tun_name dest prefix_len).1
  end.

(** ** Adding several routes *)

(** [for added_route in added.iter().rev() { remove_route(..) }], errors logged. *)
Definition rollback (os : Os) (w : W) (tun_name : string) (added : list R) : W :=
  fold_left (fun w r => (remove_route_generic os w tun_name r).1) (rev added) w.

(** The loop of [add_routes] and [add_routes6_with_src]; [add] adds one. *)
Fixpoint add_each (os : Os) (add : W -> R -> W * vres RouteAddOutcome) (tun_name : string)
    (w : W) (routes added : list R) : W * vres (list R) :=
  match routes with
  | [] => (w, Ret added)
  | route :: routes =>
      match add w route with
      | (w, Ret Added) => add_each os add tun_name w routes (added ++ [route])%list
      | (w, Ret AlreadyExisted) => add_each os add tun_name w routes added
      | (w, Fail e) => (rollback os w tun_name added, Fail e)
      | (w, Panic) => (w, Panic)
      end
  end.

(** [RouteGuard] and [Route6Guard], with [Drop]. *)
Record RouteGuard : Type := mkGuard { g_tun_name : string; g_routes : list R }.

Definition drop_guard (os : Os) (w : W) (g : RouteGuard) : W :=
  fold_left (fun w r => remove_route_sync_generic os w (g_tun_name g) r) (rev (g_routes g)) w.
End One.

Section Families.
Context {Net4 Net6 : Type} `{NetOps V4_BITS Net4} `{NetOps V6_BITS Net6}.

(** [Ipv4Net::new(..).expect(..)] panics on [None]. *)
Definition expect {A} (o : option A) : vres A := match o with Some a => Ret a | None => Panic end.

Definition expand_default_route4 (route : Net4) : vres (list Net4) :=
  if negb (net_prefix_len route =? 0)%Z then Ret [route] else
  low ← expect (net_new (w:=V4_BITS) 0 1);
  high ← expect (net_new (w:=V4_BITS) (2 ^ 31) 1);
  Ret [low; high].

Definition expand_default_route6 (route : Net6) : vres (list Net6) :=
  if negb (net_prefix_len route =? 0)%Z then Ret [route] else
  low ← expect (net_new (w:=V6_BITS) 0 1);
  high ← expect (net_new (w:=V6_BITS) (2 ^ 127) 1);
  Ret [low; high].

(** [routes.iter().flat_map(expand).collect()] *)
Fixpoint expand_all {R} (expand : R -> vres (list R)) (routes : list R) : vres (list R) :=
  match routes with
  | [] => Ret []
  | r :: routes => e ← expand r; rest ← expand_all expand routes; Ret (e ++ rest)%list
  end.

Definition add_routes (os : Os) (w : W) (tun_name : string) (routes : list Net4)
  : W * vres (RouteGuard (R:=Net4)) :=
  match expand_all expand_default_route4 routes with
  | Ret routes =>
      match add_each os (fun w r => add_route_generic os w tun_name r) tun_name w routes [] with
      | (w, Ret added) => (w, Ret (mkGuard tun_name added))
      | (w, Fail e) => (w, Fail e)
      | (w, Panic) => (w, Panic)
      end
  | Fail e => (w, Fail e)
  | Panic => (w, Panic)
  end.

(** [add_route6_with_src]: the source is given to the kernel on Linux only. *)
Definition add_route6_with_src (os : Os) (w : W) (tun_name : string) (route : Net6) (src : Z)
  : W * vres RouteAddOutcome :=
  match os with
  | LinuxOs =>
      match run w "ip" [Word "-6"; Word "route"; Word "add"; Cidr (V6 (net_addr route)) (net_prefix_len route);
                        Word "dev"; Word tun_name; Word "src"; Addr (V6 src)] with
      | (w, Some output) =>
          (w, if success output then Ret Added
              else if is_already_exists_error (stderr output) then Ret AlreadyExisted
              else Fail (VpnError_tun_device (msg ("Failed to add IPv6 route {}: " +:+ trim (stderr output)))))
      | (w, None) => (w, Fail (VpnError_tun_device (msg "Failed to execute ip route command")))
      end
  | MacOs | WindowsOs => add_route_generic os w tun_name route
  end.

Definition add_routes6_with_src (os : Os) (w : W) (tun_name : string) (routes : list Net6) (src : Z)
  : W * vres (RouteGuard (R:=Net6)) :=
  match expand_all expand_default_route6 routes with
  | Ret routes =>
      match add_each os (fun w r => add_route6_with_src os w tun_name r src) tun_name w routes [] with
      | (w, Ret added) => (w, Ret (mkGuard tun_name added))
      | (w, Fail e) => (w, Fail e)
      | (w, Panic) => (w, Panic)
      end
  | Fail e => (w, Fail e)
  | Panic => (w, Panic)
  end.
End Families.
End Routes.

(** ** The kernel's routing table *)

(** A route of the table: prefix (first address and length) and device. *)
Abbreviation route_key := (IpAddr * Z * string)%type.

Definition net_of (w a p : Z) : Z := (a - a mod block_size w p)%Z.

(** The commands, as documented: [ip route add|del PREFIX dev DEV [src ADDR]]
    and [route add|delete -net NET -netmask MASK -interface DEV], [route
    add|delete -inet6 PREFIX -interface DEV]. *)
Inductive add_command : string -> list arg -> route_key -> Prop :=
| add_linux4 a p d :
    add_command "ip" [Word "route"; Word "add"; Cidr (V4 a) p; Word "dev"; Word d]
      (V4 (net_of 32 a p), p, d)
| add_linux6 a p d :
    add_command "ip" [Word "-6"; Word "route"; Word "add"; Cidr (V6 a) p; Word "dev"; Word d]
      (V6 (net_of 128 a p), p, d)
| add_linux6_src a p d s :
    add_command "ip" [Word "-6"; Word "route"; Word "add"; Cidr (V6 a) p; Word "dev"; Word d; Word "src"; Addr s]
      (V6 (net_of 128 a p), p, d)
| add_macos4 n p d :
    (0 <= p <= 32)%Z ->
    add_command "route" [Word "add"; Word "-net"; Addr (V4 n); Word "-netmask"; Addr (V4 (netmask4 p));
      Word "-interface"; Word d] (V4 n, p, d)
| add_macos6 a p d :
    add_command "route" [Word "add"; Word "-inet6"; Cidr (V6 a) p; Word "-interface"; Word d]
      (V6 (net_of 128 a p), p, d).

Inductive delete_command : string -> list arg -> route_key -> Prop :=
| delete_linux4 a p d :
    delete_command "ip" [Word "route"; Word "del"; Cidr (V4 a) p; Word "dev"; Word d]
      (V4 (net_of 32 a p), p, d)
| delete_linux6 a p d :
    delete_command "ip" [Word "-6"; Word "route"; Word "del"; Cidr (V6 a) p; Word "dev"; Word d]
      (V6 (net_of 128 a p), p, d)
| delete_macos4 n p d :
    (0 <= p <= 32)%Z ->
    delete_command "route" [Word "delete"; Word "-net"; Addr (V4 n); Word "-netmask"; Addr (V4 (netmask4 p));
      Word "-interface"; Word d] (V4 n, p, d)
| delete_macos6 a p d :
    delete_command "route" [Word "delete"; Word "-inet6"; Cidr (V6 a) p; Word "-interface"; Word d]
      (V6 (net_of 128 a p), p, d).

(** A program that ran to its end and reported success. *)
Definition succeeded (o : option Output) : bool := match o with Some out => success out | None => false end.

(** Deleting [key]: a deletion that succeeds removes it; one that fails or
    cannot be started may have removed it or not, and touches nothing else. *)
Definition delete_effect {K} `{Countable K} (key : K) (ok : bool) (t t' : gset K) : Prop :=
  if ok then t' = t ∖ {[key]} else t ∖ {[key]} ⊆ t' /\ t' ⊆ t.

Lemma delete_bounds {K} `{Countable K} (key : K) ok t t' :
  delete_effect key ok t t' -> t ∖ {[key]} ⊆ t' /\ t' ⊆ t /\ (key ∈ t' -> ok = false).
Proof. destruct ok; cbn [delete_effect]; [intros ->; set_solver|intros [? ?]; done]. Qed.

(** A command that adds a route succeeds only when the route is new, and
    changes nothing otherwise.  Deletions are best effort: only a successful
    one is known to have removed the route.  An interface that cannot be looked
    up has no routes. *)
Class KernelLaws (W : Type) `{System W} (table : W -> gset route_key) : Prop := {
  law_add : forall prog args key w w' o,
    add_command prog args key -> run w prog args = (w', o) ->
    if succeeded o then (key ∉ table w) /\ table w' = {[key]} ∪ table w else table w' = table w;
  law_delete : forall prog args key w w' o,
    delete_command prog args key -> run w prog args = (w', o) ->
    delete_effect key (succeeded o) (table w) (table w');
  law_create : forall w d luid row w' s,
    ConvertInterfaceAliasToLuid w d = (NO_ERROR, luid) -> row_luid row = luid ->
    CreateIpForwardEntry2 w row = (w', s) ->
    if (s =? NO_ERROR)%Z
    then ((row_dest row, row_prefix_len row, d) ∉ table w) /\
         table w' = {[(row_dest row, row_prefix_len row, d)]} ∪ table w
    else table w' = table w;
  law_delete_entry : forall w d luid row w' s,
    ConvertInterfaceAliasToLuid w d = (NO_ERROR, luid) -> row_luid row = luid ->
    DeleteIpForwardEntry2 w row = (w', s) ->
    delete_effect (row_dest row, row_prefix_len row, d) ((s =? NO_ERROR) || (s =? ERROR_NOT_FOUND))%Z
      (table w) (table w');
  law_no_interface : forall w d s luid k,
    ConvertInterfaceAliasToLuid w d = (s, luid) -> s <> NO_ERROR -> (k, d) ∉ table w;
}.

Section Transaction.
Context {W : Type} `{System W} (table : W -> gset route_key) `{!KernelLaws W table}.

(** The effect of adding one route on the table. *)
Definition add_effect (key : route_key) (w : W) (r : W * vres RouteAddOutcome) : Prop :=
  match r.2 with
  | Ret Added => (key ∉ table w) /\ table r.1 = {[key]} ∪ table w
  | _ => table r.1 = table w
  end.

Lemma shell_first {A B C} (p : A * option B) (f : B -> C) (c : C) :
  (match p with (w, Some o) => (w, f o) | (w, None) => (w, c) end).1 = p.1.
Proof. by destruct p as [w [o|]]. Qed.

Lemma remove_sync_same {R} `{Route R} os w tun (r : R) :
  remove_route_sync_generic os w tun r = (remove_route_generic os w tun r).1.
Proof.
  destruct os; cbn [remove_route_sync_generic remove_route_generic]; rewrite ?shell_first; try done.
  by destruct (windows_prefix r).
Qed.

(** Whether a removal succeeded; the code logs it when it did not. *)
Definition removal_ok {R} `{Route R} (os : Os) (w : W) (tun_name : string) (r : R) : bool :=
  match os with
  | MacOs => succeeded (run w "route" (macos_delete_args r tun_name)).2
  | LinuxOs => succeeded (run w "ip" (linux_delete_args r tun_name)).2
  | WindowsOs => let '(dest, prefix_len) := windows_prefix r in is_ret (windows_delete_route w tun_name dest prefix_len).2
  end.

(** The routes whose removal failed when [rs] are removed in turn. *)
Fixpoint unremoved {R} `{Route R} (os : Os) (tun_name : string) (w : W) (rs : list R) : list R :=
  match rs with
  | [] => []
  | r :: rs =>
      (if removal_ok os w tun_name r then [] else [r]) ++
      unremoved os tun_name (remove_route_generic os w tun_name r).1 rs
  end.

Section Generic.
Context {R : Type} `{Route R} (key : R -> route_key) (os : Os) (tun : string).

(** Removing one route. *)
Definition removing : Prop := forall w r,
  delete_effect (key r) (removal_ok os w tun r) (table w) (table (remove_route_generic os w tun r).1).

Abbreviation keys rs := (list_to_set (key <$> rs) : gset route_key).

(** What a rollback or the drop of a guard does to the table. *)
Definition removed (w w' : W) (rs : list R) : Prop :=
  table w ∖ keys rs ⊆ table w' /\ table w' ⊆ table w /\
  table w' ∩ keys rs ⊆ keys (unremoved os tun w (rev rs)).

Section Removing.
Context (Hdel : removing).

Lemma delete_all w rs :
  let w' := fold_left (fun w r => (remove_route_generic os w tun r).1) rs w in
  table w ∖ keys rs ⊆ table w' /\ table w' ⊆ table w /\ table w' ∩ keys rs ⊆ keys (unremoved os tun w rs).
Proof.
  revert w. induction rs as [|r rs IH]; intros w; cbn [fold_left fmap list_fmap list_to_set unremoved]; [set_solver|].
  destruct (delete_bounds _ _ _ _ (Hdel w r)) as (H1 & H2 & H3).
  destruct (IH (remove_route_generic os w tun r).1) as (H4 & H5 & H6). cbv zeta.
  split_and!; [set_solver..|]. intros k [Hk [->%elem_of_singleton|Hin]%elem_of_union]%elem_of_intersection.
  - rewrite (H3 (H5 _ Hk)). set_solver.
  - destruct (removal_ok os w tun r); set_solver.
Qed.

Lemma drop_guard_rollback w rs : drop_guard os w (mkGuard tun rs) = rollback os w tun rs.
Proof.
  unfold drop_guard, rollback. cbn [g_tun_name g_routes].
  generalize (rev rs). intros l. revert w. induction l as [|r l IH]; intros w; [done|].
  cbn [fold_left]. by rewrite remove_sync_same, IH.
Qed.

Lemma rollback_table w rs : removed w (rollback os w tun rs) rs.
Proof.
  unfold removed, rollback. destruct (delete_all w (rev rs)) as (H1 & H2 & H3).
  assert (Hk : keys (rev rs) = keys rs).
  { apply set_eq. intros x. set_unfold. setoid_rewrite list_elem_of_In. by setoid_rewrite <-in_rev. }
  rewrite Hk in H1, H3. done.
Qed.

End Removing.

(** What the loop has done so far, starting from [w0]. *)
Definition added_so_far (w0 w : W) (added : list R) : Prop :=
  table w = table w0 ∪ keys added /\ (forall r, r ∈ added -> key r ∉ table w0).

(** Taking back all that was added leaves what was there before, and the
    routes whose deletion failed. *)
Lemma undone w0 w w' added :
  added_so_far w0 w added -> removed w w' added ->
  table w0 ⊆ table w' /\ table w' ∖ table w0 ⊆ keys (unremoved os tun w (rev added)).
Proof.
  intros [Ht Hnew] (H1 & H2 & H3). rewrite Ht in *. split.
  - intros k Hk. apply H1. apply elem_of_difference. split; [set_solver|].
    intros (r & -> & Hr)%elem_of_list_to_set%list_elem_of_fmap. by apply (Hnew r).
  - intros k [Hk Hn]%elem_of_difference. apply H3. specialize (H2 _ Hk). set_solver.
Qed.

Context (add : W -> R -> W * vres RouteAddOutcome).
Context (Hadd : forall w r, add_effect (key r) w (add w r)).
Context (Hpanic : forall w r, (add w r).2 <> Panic).

Lemma add_each_spec w0 w routes added w' res :
  added_so_far w0 w added -> add_each os add tun w routes added = (w', res) ->
  match res with
  | Ret final => added_so_far w0 w' final /\ exists new, final = (added ++ new)%list /\ new `sublist_of` routes
  | Fail _ => exists w1 new, added_so_far w0 w1 (added ++ new)%list /\ new `sublist_of` routes /\
                w' = rollback os w1 tun (added ++ new)%list
  | Panic => False
  end.
Proof.
  revert w added. induction routes as [|r routes IH]; intros w added Hs Hr; cbn [add_each] in Hr.
  { injection Hr as <- <-. split; [done|]. exists []. by rewrite app_nil_r. }
  pose proof (Hadd w r) as Ha. pose proof (Hpanic w r) as Hp. unfold add_effect in Ha.
  pose proof Hs as [Ht Hnew].
  destruct (add w r) as [w1 [[]|e|]]; cbn [fst snd] in *; [| | |done].
  - assert (Hs1 : added_so_far w0 w1 (added ++ [r])%list).
    { destruct Ha as [Hk Ha]. split.
      - rewrite Ha, Ht, fmap_app, list_to_set_app_L. cbn. set_solver.
      - intros x [Hx| ->%list_elem_of_singleton]%elem_of_app; [by apply Hnew|set_solver]. }
    specialize (IH w1 _ Hs1 Hr). destruct res as [final|e|]; [| |done].
    + destruct IH as [Hfin (new & -> & Hsub)]. split; [done|]. exists (r :: new).
      rewrite <-app_assoc. split; [done|by constructor].
    + destruct IH as (w2 & new & Hfin & Hsub & ->). exists w2, (r :: new). rewrite <-app_assoc in *.
      split; [done|]. split; [by constructor|done].
  - assert (Hs1 : added_so_far w0 w1 added) by (split; [congruence|done]).
    specialize (IH w1 _ Hs1 Hr). destruct res as [final|e|]; [| |done].
    + destruct IH as [Hfin (new & -> & Hsub)]. split; [done|]. exists new. split; [done|by constructor].
    + destruct IH as (w2 & new & Hfin & Hsub & ->). exists w2, new. split; [done|]. split; [by constructor|done].
  - injection Hr as <- <-. exists w1, []. rewrite app_nil_r. split; [split; [congruence|done]|].
    split; [apply sublist_nil_l|done].
Qed.
End Generic.

Section Families.
Context {Net4 Net6 : Type} `{NetLaws V4_BITS Net4} `{NetLaws V6_BITS Net6}.

Definition key4 (tun : string) (r : Net4) : route_key := (V4 (net_network r), net_prefix_len r, tun).
Definition key6 (tun : string) (r : Net6) : route_key := (V6 (net_network r), net_prefix_len r, tun).

(** The outcome reported for an [add_command]. *)
Lemma shell_add_effect prog args key w (f : Output -> vres RouteAddOutcome) e :
  add_command prog args key ->
  (forall out, f out = if success out then Ret Added else f out) ->
  (forall out, success out = false -> f out <> Ret Added) ->
  add_effect key w
    (match run w prog args with
     | (w, Some output) => (w, f output)
     | (w, None) => (w, Fail e)
     end).
Proof.
  intros Hc Hf Hn. unfold add_effect. destruct (run w prog args) as [w' [out|]] eqn:Hr;
    pose proof (law_add _ _ _ _ _ _ Hc Hr) as Hl; cbn [fst snd succeeded] in *; [|done].
  specialize (Hf out). specialize (Hn out). destruct (success out).
  - rewrite Hf. exact Hl.
  - specialize (Hn eq_refl). by destruct (f out) as [[]| |].
Qed.

Lemma handle_add_success {R} `{Route R} out :
  handle_route_add_output out = if success out then Ret Added else handle_route_add_output out.
Proof. unfold handle_route_add_output. by destruct (success out). Qed.

Lemma handle_add_failure {R} `{Route R} out :
  success out = false -> handle_route_add_output out <> Ret Added.
Proof. unfold handle_route_add_output. intros ->. by case_match. Qed.

Lemma windows_add_effect w tun dest p :
  add_effect (dest, p, tun) w
    (match windows_add_route w tun dest p with
     | (w, Ret outcome) => (w, Ret outcome)
     | (w, Fail e) => (w, Fail (VpnError_tun_device (msg "")))
     | (w, Panic) => (w, Panic)
     end).
Proof.
  unfold add_effect, windows_add_route, interface_luid.
  destruct (ConvertInterfaceAliasToLuid w tun) as [s luid] eqn:Hl.
  destruct (Z.eqb_spec s NO_ERROR) as [->|]; [|done].
  destruct (CreateIpForwardEntry2 w _) as [w' s'] eqn:Hc.
  pose proof (law_create w tun luid (forward_row luid dest p) w' s' Hl eq_refl Hc) as Hk. cbn [forward_row row_dest row_prefix_len] in Hk.
  destruct (s' =? NO_ERROR)%Z; [done|]. by destruct (s' =? ERROR_OBJECT_ALREADY_EXISTS)%Z.
Qed.

Lemma windows_delete_effect w tun dest p :
  delete_effect (dest, p, tun) (is_ret (windows_delete_route w tun dest p).2) (table w)
    (table (windows_delete_route w tun dest p).1).
Proof.
  unfold windows_delete_route, interface_luid.
  destruct (ConvertInterfaceAliasToLuid w tun) as [s luid] eqn:Hl.
  destruct (Z.eqb_spec s NO_ERROR) as [->|Hs].
  - destruct (DeleteIpForwardEntry2 w _) as [w' s'] eqn:Hd. cbn [fst snd].
    pose proof (law_delete_entry w tun luid (forward_row luid dest p) w' s' Hl eq_refl Hd) as Hk.
    cbn [forward_row row_dest row_prefix_len] in Hk. by destruct (_ || _).
  - pose proof (law_no_interface w tun s luid (dest, p) Hl Hs). cbn [fst snd].
    destruct (s =? ERROR_NOT_FOUND)%Z; cbn [is_ret delete_effect]; set_solver.
Qed.

Lemma add_route4_effect os w tun (r : Net4) :
  add_effect (key4 tun r) w (add_route_generic os w tun r).
Proof.
  unfold key4. destruct os; cbn [add_route_generic].
  - apply shell_add_effect; [|apply handle_add_success|apply handle_add_failure].
    rewrite law_network. apply add_linux4.
  - apply shell_add_effect; [constructor; apply law_prefix|apply handle_add_success|apply handle_add_failure].
  - pose proof (windows_add_effect w tun (V4 (net_network r)) (net_prefix_len r)) as He.
    cbn [windows_prefix route_v4]. unfold add_effect in *.
    by destruct (windows_add_route w tun _ _) as [w' [[]| |]].
Qed.

Lemma add_route6_effect os w tun src (r : Net6) :
  add_effect (key6 tun r) w (add_route6_with_src os w tun r src).
Proof.
  unfold key6. destruct os; cbn [add_route6_with_src add_route_generic].
  - apply shell_add_effect.
    + rewrite law_network. apply add_linux6_src.
    + intros out. by destruct (success out).
    + intros out ->. by destruct (is_already_exists_error (stderr out)).
  - apply shell_add_effect; [|apply handle_add_success|apply handle_add_failure].
    rewrite law_network. apply add_macos6.
  - pose proof (windows_add_effect w tun (V6 (net_network r)) (net_prefix_len r)) as He.
    cbn [windows_prefix route_v6]. unfold add_effect in *.
    by destruct (windows_add_route w tun _ _) as [w' [[]| |]].
Qed.

Lemma shell_delete_effect prog args key w :
  delete_command prog args key ->
  delete_effect key (succeeded (run w prog args).2) (table w) (table (run w prog args).1).
Proof. intros Hc. destruct (run w prog args) as [w' o] eqn:Hr. by eapply law_delete. Qed.

Lemma remove_route4_effect os tun : removing (key4 tun) os tun.
Proof.
  intros w r. unfold key4. destruct os; cbn [remove_route_generic removal_ok]; rewrite ?shell_first.
  - apply shell_delete_effect. rewrite law_network. apply delete_linux4.
  - apply shell_delete_effect. constructor. apply law_prefix.
  - cbn [windows_prefix route_v4 fst]. apply windows_delete_effect.
Qed.

Lemma remove_route6_effect os tun : removing (key6 tun) os tun.
Proof.
  intros w r. unfold key6. destruct os; cbn [remove_route_generic removal_ok]; rewrite ?shell_first.
  - apply shell_delete_effect. rewrite law_network. apply delete_linux6.
  - apply shell_delete_effect. rewrite law_network. apply delete_macos6.
  - cbn [windows_prefix route_v6 fst]. apply windows_delete_effect.
Qed.

Lemma add_route_no_panic {R} `{Route R} os w tun (r : R) : (add_route_generic os w tun r).2 <> Panic.
Proof.
  destruct os; cbn [add_route_generic]; unfold handle_route_add_output, windows_add_route, interface_luid;
    repeat case_match; simplify_eq/=; done.
Qed.

Lemma add_route6_no_panic os w tun src (r : Net6) : (add_route6_with_src os w tun r src).2 <> Panic.
Proof.
  destruct os; [|apply add_route_no_panic..]. cbn [add_route6_with_src].
  repeat case_match; simplify_eq/=; done.
Qed.

(** ** The halves of a default route *)

(** [rs] covers the same addresses as [r], without a default route. *)
Definition same_cover {w Net} `{NetOps w Net} (r : Net) (rs : list Net) : Prop :=
  (forall a, is_uint w a -> existsb (fun n => net_contains n a) rs = net_contains r a) /\
  Forall (fun n => net_prefix_len n <> 0%Z) rs.

Lemma halves_cover {w Net} `{NetLaws w Net} (r low high : Net) :
  net_prefix_len r = 0%Z -> net_addr low = 0%Z -> net_addr high = (2 ^ (w - 1))%Z ->
  net_prefix_len low = 1%Z -> net_prefix_len high = 1%Z -> same_cover r [low; high].
Proof.
  intros Hr Hl Hh Hpl Hph. pose proof (law_width (w:=w) (Net:=Net)) as Hw. split.
  2:{ repeat constructor; lia. }
  intros a Ha. unfold is_uint in Ha. cbn [existsb]. rewrite orb_false_r.
  pose proof (law_addr r) as Hra. unfold is_uint in Hra.
  assert (Hdbl : (2 ^ w = 2 * 2 ^ (w - 1))%Z).
  { rewrite <-Z.pow_succ_r by lia. f_equal. lia. }
  rewrite !law_contains, !law_broadcast, !law_network, Hr, Hl, Hh, Hpl, Hph.
  unfold block_size. replace (w - 0)%Z with w by lia.
  assert (0 < 2 ^ (w - 1))%Z by (apply Z.pow_pos_nonneg; lia).
  rewrite (Z.mod_0_l (2 ^ (w - 1))), (Z.mod_small (net_addr r)), Z.mod_same by lia. lia.
Qed.

Lemma expand4_cover (r : Net4) :
  exists rs, expand_default_route4 r = Ret rs /\ same_cover r rs.
Proof.
  unfold expand_default_route4. destruct (Z.eqb_spec (net_prefix_len r) 0) as [Hr|Hr]; cbn [negb].
  - destruct (law_new (w:=V4_BITS) (Net:=Net4) 0 1) as (low & -> & Ha & Hp); [done..|].
    destruct (law_new (w:=V4_BITS) (Net:=Net4) (2 ^ 31) 1) as (high & -> & Ha' & Hp'); [done..|].
    eexists. split; [reflexivity|]. by apply halves_cover.
  - exists [r]. split; [done|]. split; [intros; cbn [existsb]; by rewrite orb_false_r|by repeat constructor].
Qed.

Lemma expand6_cover (r : Net6) :
  exists rs, expand_default_route6 r = Ret rs /\ same_cover r rs.
Proof.
  unfold expand_default_route6. destruct (Z.eqb_spec (net_prefix_len r) 0) as [Hr|Hr]; cbn [negb].
  - destruct (law_new (w:=V6_BITS) (Net:=Net6) 0 1) as (low & -> & Ha & Hp); [done..|].
    destruct (law_new (w:=V6_BITS) (Net:=Net6) (2 ^ 127) 1) as (high & -> & Ha' & Hp'); [done..|].
    eexists. split; [reflexivity|]. by apply halves_cover.
  - exists [r]. split; [done|]. split; [intros; cbn [existsb]; by rewrite orb_false_r|by repeat constructor].
Qed.

(** The expanded list covers what the configured routes cover. *)
Definition expanded {w Net} `{NetOps w Net} (routes final : list Net) : Prop :=
  (forall a, is_uint w a ->
     existsb (fun n => net_contains n a) final = existsb (fun n => net_contains n a) routes) /\
  Forall (fun n => net_prefix_len n <> 0%Z) final.

Lemma expand_all_cover {w Net} `{NetOps w Net} (expand : Net -> vres (list Net)) routes :
  (forall r, exists rs, expand r = Ret rs /\ same_cover r rs) ->
  exists final, expand_all expand routes = Ret final /\ expanded routes final.
Proof.
  intros He. induction routes as [|r routes (final & Hf & Hc & Hn)]; cbn [expand_all].
  { exists []. split; [done|]. split; [done|constructor]. }
  destruct (He r) as (rs & -> & Hrc & Hrn). cbn [mbind outcome_bind]. rewrite Hf.
  eexists. split; [reflexivity|]. split; [|by apply Forall_app].
  intros a Ha. cbn [existsb]. by rewrite existsb_app, Hrc, Hc.
Qed.

(** ** Properties *)

(** What adding [routes] did.  A success added exactly the routes of the guard,
    all of them new and taken, in order, from the expansion of [routes]; dropping
    the guard in any state removes these and nothing else, but for those whose
    deletion failed.  A failure took back what had been added before it, again
    but for failed deletions, and removed nothing else. *)
Definition transactional {w0 Net} `{NetOps w0 Net} `{!Route Net} (key : Net -> route_key) (os : Os)
    (tun : string) (w : W) (routes : list Net) (r : W * vres (RouteGuard (R:=Net))) : Prop :=
  exists final, expanded routes final /\
  match r with
  | (w', Ret g) =>
      g_routes g `sublist_of` final /\ g_tun_name g = tun /\
        table w' = table w ∪ list_to_set (key <$> g_routes g) /\
        (forall n, n ∈ g_routes g -> key n ∉ table w) /\
        (forall w'', removed key os tun w'' (drop_guard os w'' g) (g_routes g)) /\
        table w ⊆ table (drop_guard os w' g) /\
        table (drop_guard os w' g) ∖ table w ⊆ list_to_set (key <$> unremoved os tun w' (rev (g_routes g)))
  | (w', Fail _) =>
      exists w1 added, added `sublist_of` final /\ w' = rollback os w1 tun added /\
        table w ⊆ table w' /\
        table w' ∖ table w ⊆ list_to_set (key <$> unremoved os tun w1 (rev added))
  | (_, Panic) => False
  end.

Lemma add_each_transactional {w0 Net} `{NetOps w0 Net} `{!Route Net} (key : Net -> route_key)
    os tun (add : W -> Net -> W * vres RouteAddOutcome) w routes final :
  (forall w r, add_effect (key r) w (add w r)) -> (forall w r, (add w r).2 <> Panic) ->
  removing key os tun -> expanded routes final ->
  transactional key os tun w routes
    (match add_each os add tun w final [] with
     | (w, Ret added) => (w, Ret (mkGuard tun added))
     | (w, Fail e) => (w, Fail e)
     | (w, Panic) => (w, Panic)
     end).
Proof.
  intros Ha Hp Hd Hx. destruct (add_each os add tun w final []) as [w' res] eqn:Hr.
  assert (Hs0 : added_so_far key w w []) by (split; [set_solver|by intros ? ?%not_elem_of_nil]).
  pose proof (add_each_spec key os tun add Ha Hp w w final [] w' res Hs0 Hr) as Hspec.
  exists final. split; [done|]. destruct res as [added|e|]; [| |done].
  - destruct Hspec as [Hs (new & -> & Hsub)]. cbn [app g_routes g_tun_name] in *.
    assert (Hdrop : forall w'', removed key os tun w'' (drop_guard os w'' (mkGuard tun new)) new).
    { intros w''. rewrite drop_guard_rollback. by apply rollback_table. }
    destruct (undone key os tun w w' _ new Hs (Hdrop w')) as [Hd1 Hd2]. destruct Hs as [Ht Hnew]. by split_and!.
  - destruct Hspec as (w1 & new & Hs & Hsub & ->). exists w1, new. cbn [app] in *.
    destruct (undone key os tun w w1 _ new Hs (rollback_table key os tun Hd w1 new)). by split_and!.
Qed.

Lemma add_routes_transactional os tun w (routes : list Net4) :
  transactional (key4 tun) os tun w routes (add_routes os w tun routes).
Proof.
  unfold add_routes. destruct (expand_all_cover expand_default_route4 routes) as (final & -> & Hx);
    [apply expand4_cover|].
  apply add_each_transactional; [intros; apply add_route4_effect|intros; apply add_route_no_panic| |done].
  apply remove_route4_effect.
Qed.

Lemma add_routes6_transactional os tun w (routes6 : list Net6) src :
  transactional (key6 tun) os tun w routes6 (add_routes6_with_src os w tun routes6 src).
Proof.
  unfold add_routes6_with_src. destruct (expand_all_cover expand_default_route6 routes6) as (final & -> & Hx);
    [apply expand6_cover|].
  apply add_each_transactional; [intros; apply add_route6_effect|intros; apply add_route6_no_panic| |done].
  apply remove_route6_effect.
Qed.

End Families.
End Transaction.

(** ** Evaluation *)

(** A Linux host: a set of routes, and a device the kernel refuses. *)
Record SampleHost : Type := mkSampleHost { sh_table : gset route_key }.

Definition sample_add (w : SampleHost) (k : route_key) : SampleHost * option Output :=
  if decide (k ∈ sh_table w) then (w, Some (mkOutput false "" "RTNETLINK answers: File exists"))
  else if (k.1.2 =? 13)%Z then (w, Some (mkOutput false "" "RTNETLINK answers: Network is down"))
  else (mkSampleHost ({[k]} ∪ sh_table w), Some (mkOutput true "" "")).

(** Deleting a route with a /14 prefix fails. *)
Definition sample_delete (w : SampleHost) (k : route_key) : SampleHost * option Output :=
  if (k.1.2 =? 14)%Z then (w, Some (mkOutput false "" "RTNETLINK answers: Operation not permitted")) else
  (mkSampleHost (sh_table w ∖ {[k]}), Some (mkOutput true "" "")).

Definition sample_run (w : SampleHost) (prog : string) (args : list arg) : SampleHost * option Output :=
  match args with
  | [Word "route"; Word "add"; Cidr (V4 a) p; Word "dev"; Word d] =>
      sample_add w (V4 (net_of 32 a p), p, d)
  | [Word "-6"; Word "route"; Word "add"; Cidr (V6 a) p; Word "dev"; Word d]
  | [Word "-6"; Word "route"; Word "add"; Cidr (V6 a) p; Word "dev"; Word d; Word "src"; Addr _] =>
      sample_add w (V6 (net_of 128 a p), p, d)
  | [Word "route"; Word "del"; Cidr (V4 a) p; Word "dev"; Word d] =>
      sample_delete w (V4 (net_of 32 a p), p, d)
  | [Word "-6"; Word "route"; Word "del"; Cidr (V6 a) p; Word "dev"; Word d] =>
      sample_delete w (V6 (net_of 128 a p), p, d)
  | [Word "add"; Word "-net"; Addr (V4 n); Word "-netmask"; Addr (V4 m); Word "-interface"; Word d] =>
      sample_add w (V4 n, 32 - Z.log2 (2 ^ 32 - m), d)%Z
  | [Word "delete"; Word "-net"; Addr (V4 n); Word "-netmask"; Addr (V4 m); Word "-interface"; Word d] =>
      sample_delete w (V4 n, 32 - Z.log2 (2 ^ 32 - m), d)%Z
  | [Word "add"; Word "-inet6"; Cidr (V6 a) p; Word "-interface"; Word d] =>
      sample_add w (V6 (net_of 128 a p), p, d)
  | [Word "delete"; Word "-inet6"; Cidr (V6 a) p; Word "-interface"; Word d] =>
      sample_delete w (V6 (net_of 128 a p), p, d)
  | _ => (w, None)
  end.

Definition sample_entry (f : SampleHost -> route_key -> SampleHost * option Output) (w : SampleHost)
    (row : ForwardRow) : SampleHost * Z :=
  match decode (Z.to_pos (row_luid row)) with
  | Some d =>
      match f w (row_dest row, row_prefix_len row, d) with
      | (w, Some o) => (w, if success o then NO_ERROR else ERROR_OBJECT_ALREADY_EXISTS)
      | (w, None) => (w, ERROR_NOT_FOUND)
      end
  | None => (w, ERROR_NOT_FOUND)
  end.

#[export] Instance sample_system : System SampleHost := {|
  run := sample_run;
  ConvertInterfaceAliasToLuid w d := (NO_ERROR, Z.pos (encode d));
  CreateIpForwardEntry2 := sample_entry sample_add;
  DeleteIpForwardEntry2 := sample_entry sample_delete;
|}.

Lemma sample_add_spec w key w' o :
  sample_add w key = (w', o) ->
  if succeeded o then (key ∉ sh_table w) /\ sh_table w' = {[key]} ∪ sh_table w else sh_table w' = sh_table w.
Proof.
  unfold sample_add. case_decide; [by intros [= <- <-]|].
  destruct (_ =? 13)%Z; by intros [= <- <-].
Qed.

Lemma sample_delete_spec w key w' o :
  sample_delete w key = (w', o) -> delete_effect key (succeeded o) (sh_table w) (sh_table w').
Proof. unfold sample_delete. destruct (_ =? 14)%Z; intros [= <- <-]; cbn; set_solver. Qed.

Lemma netmask4_prefix p : (0 <= p <= 32)%Z -> (32 - Z.log2 (2 ^ 32 - netmask4 p) = p)%Z.
Proof.
  intros Hp. unfold netmask4. replace (2 ^ 32 - (2 ^ 32 - 2 ^ (32 - p)))%Z with (2 ^ (32 - p))%Z by lia.
  rewrite Z.log2_pow2 by lia. lia.
Qed.

#[export] Instance sample_kernel : KernelLaws SampleHost sh_table.
Proof.
  constructor.
  - intros prog args key w w' o Hc Hr. destruct Hc; cbn [run sample_system sample_run] in Hr;
      rewrite ?netmask4_prefix in Hr by done; by apply sample_add_spec in Hr.
  - intros prog args key w w' o Hc Hr. destruct Hc; cbn [run sample_system sample_run] in Hr;
      rewrite ?netmask4_prefix in Hr by done; by apply sample_delete_spec in Hr.
  - intros w d luid row w' s [= <-] Hl Hc. cbn [CreateIpForwardEntry2 sample_system] in Hc.
    unfold sample_entry in Hc. rewrite Hl in Hc. cbn [Z.to_pos] in Hc. rewrite decode_encode in Hc.
    destruct (sample_add w _) as [w1 o] eqn:Ha. apply sample_add_spec in Ha.
    destruct o as [out|]; [|by injection Hc as <- <-]. cbn [succeeded] in Ha.
    destruct (success out); injection Hc as <- <-; by cbn.
  - intros w d luid row w' s [= <-] Hl Hc. cbn [DeleteIpForwardEntry2 sample_system] in Hc.
    unfold sample_entry in Hc. rewrite Hl in Hc. cbn [Z.to_pos] in Hc. rewrite decode_encode in Hc.
    destruct (sample_delete w _) as [w1 o] eqn:Ha. pose proof Ha as Hd. apply sample_delete_spec in Hd.
    unfold sample_delete in Ha. destruct (_ =? 14)%Z; injection Ha as <- <-; injection Hc as <- <-; exact Hd.
  - intros w d s luid k [= <- <-] Hs. done.
Qed.

#[local] Instance sample_laws4 : NetLaws V4_BITS (CNet V4_BITS) := CNet_laws V4_BITS eq_refl.
#[local] Instance sample_laws6 : NetLaws V6_BITS (CNet V6_BITS) := CNet_laws V6_BITS eq_refl.

Definition cnets (w : Z) (l : list (Z * Z)) : list (CNet w) := omap (fun '(a, p) => cnet_new w a p) l.

(** 0.0.0.0/0 and 10.0.0.0/8, on a host that already has 128.0.0.0/1. *)
Definition sample_before : SampleHost := mkSampleHost {[(V4 (2 ^ 31), 1%Z, "tun0")]}.

(** The routes of the guard a run returned. *)
Definition guard_nets (r : SampleHost * vres (RouteGuard (R:=CNet V4_BITS))) : option (list (Z * Z)) :=
  match r.2 with Ret g => Some (map (fun n => `n) (g_routes g)) | _ => None end.

