(* ===== verification/Bypass.v ===== *)
(** * Bypass routes for the transport's own addresses ([src/net/device.rs])

    Querying the route to a peer, the parsers of the tools' output, the choice
    between the queried route and the gateway captured before the tunnel's
    routes went up, and the host route with its guard.  [IpAddr]'s parser and
    printer are parameters. *)

From S2P Require Import Prelude Text Errors Net DeviceRoutes.

#[local] Open Scope string_scope.

Record BypassRouteInfo : Type := mkInfo {
  i_peer_ip : IpAddr;
  i_device : string;
  i_gateway : option IpAddr;
  i_gateway_str : option string;
  i_if_index : option Z;
}.

Record UnderlayGateway : Type := mkUnderlay {
  u_device : string;
  u_gateway : option IpAddr;
  u_gateway_str : option string;
  u_if_index : option Z;
}.

Definition is_ipv4 (ip : IpAddr) : bool := match ip with V4 _ => true | V6 _ => false end.
Definition is_unspecified (ip : IpAddr) : bool := match ip with V4 a | V6 a => (a =? 0)%Z end.
Definition unspecified_addr (is_ipv6 : bool) : IpAddr := if is_ipv6 then V6 0 else V4 0.

(** ** Parsing the output of the tools *)

Definition PERCENT : Ascii.ascii := Ascii.ascii_of_nat 37.
Definition COLON : Ascii.ascii := Ascii.ascii_of_nat 58.
Definition DOT : Ascii.ascii := Ascii.ascii_of_nat 46.
Definition HYPHEN : Ascii.ascii := Ascii.ascii_of_nat 45.
Definition UNDERSCORE : Ascii.ascii := Ascii.ascii_of_nat 95.
Definition TAB : Ascii.ascii := Ascii.ascii_of_nat 9.

Definition addr_char (c : Ascii.ascii) : bool :=
  is_ascii_hexdigit c || Ascii.eqb c COLON || Ascii.eqb c DOT.
Definition scope_char (c : Ascii.ascii) : bool :=
  is_ascii_alphanumeric c || Ascii.eqb c UNDERSCORE || Ascii.eqb c HYPHEN.

Definition is_valid_gateway_str (s : string) : bool :=
  if String.eqb s "" then false else
  let '(addr_part, scope_part) := split_once PERCENT s in
  if negb (all_chars addr_char addr_part) then false else
  match scope_part with
  | Some scope => negb (String.eqb scope "") && all_chars scope_char scope
  | None => true
  end.

Section Parsers.
Context (parse_ip : string -> option IpAddr) (show_ip : IpAddr -> string).

(** What the loops of the parsers have found: device, gateway and its text. *)
Record found : Type := mkFound {
  f_device : option string;
  f_gateway : option IpAddr;
  f_gateway_str : option string;
}.
Definition nothing_found : found := mkFound None None None.

(** One round of the loop of [parse_linux_route_get]: token [t], followed by [n]. *)
Definition linux_token (t n : string) (f : found) : found :=
  let f := if String.eqb t "dev" then mkFound (Some n) (f_gateway f) (f_gateway_str f) else f in
  if String.eqb t "via" then
    if is_valid_gateway_str n then mkFound (f_device f) (parse_ip n) (Some n) else f
  else f.

Fixpoint linux_tokens (tokens : list string) (f : found) : found :=
  match tokens with
  | t :: ((n :: _) as rest) => linux_tokens rest (linux_token t n f)
  | _ => f
  end.

Definition route_info (peer_ip : IpAddr) (failure : string) (f : found) : vres BypassRouteInfo :=
  device ← ok_or (VpnError_tun_device (msg failure)) (f_device f);
  Ret (mkInfo peer_ip device (f_gateway f) (f_gateway_str f) None).

Definition parse_linux_route_get (output : string) (peer_ip : IpAddr) : vres BypassRouteInfo :=
  route_info peer_ip "Could not determine device for route to {}"
    (linux_tokens (String.words output) nothing_found).

Definition macos_line (f : found) (line : string) : found :=
  let line := trim line in
  let f := match strip_prefix "interface:" line with
           | Some rest => mkFound (Some (trim rest)) (f_gateway f) (f_gateway_str f)
           | None => f
           end in
  match strip_prefix "gateway:" line with
  | Some rest =>
      let gw_str := trim rest in
      if is_valid_gateway_str gw_str
      then mkFound (f_device f) (parse_ip (split_once PERCENT gw_str).1) (Some gw_str)
      else f
  | None => f
  end.

Definition parse_macos_route_get (output : string) (peer_ip : IpAddr) : vres BypassRouteInfo :=
  route_info peer_ip "Could not determine interface for route to {}"
    (fold_left macos_line (lines output) nothing_found).

Definition parse_windows_next_hop (s : string) : option IpAddr :=
  ip ← parse_ip s;
  if is_unspecified ip then None else Some ip.

Record WindowsRouteLine : Type := mkLine { wl_if_index : Z; wl_next_hop : option IpAddr; wl_alias : string }.

Definition parse_windows_route_line (stdout : string) : vres WindowsRouteLine :=
  line ← ok_or (VpnError_tun_device (msg "PowerShell route query returned no output"))
    (head (filter (fun l => l <> "") (map trim (lines stdout))));
  (* [line.splitn(3, '\t')] *)
  let '(idx_str, r1) := split_once TAB line in
  let '(next_hop_str, r2) := split_once TAB (default "" r1) in
  let alias := trim (default "" r2) in
  if_index ← ok_or (VpnError_tun_device (msg "Unexpected interface index in route query output: {:?}"))
    (parse_uint 32 (trim idx_str));
  Ret (mkLine if_index (parse_windows_next_hop (trim next_hop_str)) alias).

(** ** Querying the system *)

Section Queries.
Context {W : Type} `{System W}.

(** A PowerShell script is kept as its cmdlet and the values put into it. *)
Definition powershell (w : W) (script : list arg) : W * option Output :=
  run w "powershell.exe" ([Word "-NoProfile"; Word "-NonInteractive"; Word "-Command"] ++ script).

(** A query: run, check the status, parse the output. *)
Definition query {A} (r : W * option Output) (not_run failed : string) (parse : string -> vres A)
  : W * vres A :=
  match r with
  | (w, None) => (w, Fail (VpnError_tun_device (msg not_run)))
  | (w, Some output) =>
      (w, if success output then parse (stdout output)
          else Fail (VpnError_tun_device (msg failed)))
  end.

Definition from_windows (peer_ip : IpAddr) (stdout : string) : vres BypassRouteInfo :=
  parsed ← parse_windows_route_line stdout;
  Ret (mkInfo peer_ip (wl_alias parsed) (wl_next_hop parsed) (show_ip <$> wl_next_hop parsed)
         (Some (wl_if_index parsed))).

Definition underlay_of (info : BypassRouteInfo) : UnderlayGateway :=
  mkUnderlay (i_device info) (i_gateway info) (i_gateway_str info) (i_if_index info).

Definition query_default_gateway (os : Os) (w : W) (is_ipv6 : bool) : W * vres UnderlayGateway :=
  let peer := unspecified_addr is_ipv6 in
  let '(w, r) :=
    match os with
    | LinuxOs =>
        query (run w "ip" [Word (if is_ipv6 then "-6" else "-4"); Word "route"; Word "show"; Word "default"])
          "Failed to query default route" "Failed to query default route: {}"
          (fun stdout =>
             let line := default "" (head (filter (fun l => trim l <> "") (lines stdout))) in
             parse_linux_route_get line peer)
    | MacOs =>
        query (run w "route" ([Word "-n"; Word "get"] ++ (if is_ipv6 then [Word "-inet6"] else []) ++ [Word "default"]))
          "Failed to query default route" "Failed to query default route: {}"
          (fun stdout => parse_macos_route_get stdout peer)
    | WindowsOs =>
        query (powershell w [Word "Get-NetRoute"; Cidr peer 0])
          "Failed to execute PowerShell" "Failed to query default route: {}" (from_windows peer)
    end in
  (w, info ← r; Ret (underlay_of info)).

Definition query_route_linux (w : W) (ip : IpAddr) : W * vres BypassRouteInfo :=
  query (run w "ip" ((if is_ipv4 ip then [] else [Word "-6"]) ++ [Word "route"; Word "get"; Addr ip]))
    "Failed to query route" "Failed to query route for {}: {}"
    (fun stdout => parse_linux_route_get stdout ip).

Definition query_route_macos (w : W) (ip : IpAddr) : W * vres BypassRouteInfo :=
  query (run w "route" ([Word "get"] ++ (if is_ipv4 ip then [] else [Word "-inet6"]) ++ [Addr ip]))
    "Failed to query route" "Failed to query route for {}: {}"
    (fun stdout => parse_macos_route_get stdout ip).

Definition query_route_windows (w : W) (ip : IpAddr) : W * vres BypassRouteInfo :=
  query (powershell w [Word "Find-NetRoute"; Addr ip])
    "Failed to execute PowerShell" "Failed to query route for {}: {}" (from_windows ip).

(** One of the three, by platform. *)
Definition query_route_for_ip (os : Os) (w : W) (ip : IpAddr) : W * vres BypassRouteInfo :=
  match os with
  | LinuxOs => query_route_linux w ip
  | MacOs => query_route_macos w ip
  | WindowsOs => query_route_windows w ip
  end.

(** ** Choosing the route *)

Definition repin_via_fallback (info : BypassRouteInfo) (fb : UnderlayGateway) : BypassRouteInfo :=
  mkInfo (i_peer_ip info) (u_device fb) (u_gateway fb) (u_gateway_str fb) (u_if_index fb).

Definition resolve_bypass_route_info (info : BypassRouteInfo) (disallow_device : option string)
    (underlay_fallback : option UnderlayGateway) : vres BypassRouteInfo :=
  let via_fallback failure :=
    match underlay_fallback with
    | Some fb =>
        match u_gateway fb with
        | Some _ => Ret (repin_via_fallback info fb)
        | None => Fail (VpnError_tun_device (msg failure))
        end
    | None => Fail (VpnError_tun_device (msg failure))
    end in
  if (match disallow_device with Some d => String.eqb (i_device info) d | None => false end)
  then via_fallback "Refusing bypass route for {}: route lookup resolved via VPN tunnel interface {} (no captured underlay gateway to fall back to)"
  else match i_gateway info with
       | None => via_fallback "Refusing bypass route for {}: no next-hop gateway resolved via {} and no captured underlay gateway to fall back to (would create a link-scope route that black-holes the address)"
       | Some _ => Ret info
       end.

(** ** The host route *)

Definition host_prefix (ip : IpAddr) : Z := if is_ipv4 ip then 32 else 128.

Definition link_scope_refused : VpnError :=
  VpnError_tun_device (msg "Refusing link-scope bypass route for {} (no gateway)").

(** The command that adds the route on each platform. *)
Definition bypass_add_command (os : Os) (info : BypassRouteInfo) : vres (string * list arg) :=
  let peer := i_peer_ip info in
  match os with
  | LinuxOs =>
      gw ← ok_or link_scope_refused (i_gateway info);
      Ret ("ip", (if is_ipv4 peer then [] else [Word "-6"]) ++
        [Word "route"; Word "add"; Cidr peer (host_prefix peer); Word "via"; Addr gw;
         Word "dev"; Word (i_device info)])%list
  | MacOs =>
      gw_str ← ok_or link_scope_refused (i_gateway_str info);
      Ret ("route", [Word "add"] ++ (if is_ipv4 peer then [] else [Word "-inet6"]) ++
        [Word "-host"; Addr peer; Word gw_str])%list
  | WindowsOs =>
      gw ← ok_or link_scope_refused (i_gateway info);
      if_index ← ok_or (VpnError_tun_device (msg "Refusing bypass route for {} (no interface index resolved)"))
        (i_if_index info);
      Ret ("powershell.exe", [Word "-NoProfile"; Word "-NonInteractive"; Word "-Command"] ++
        [Word "New-NetRoute"; Cidr peer (host_prefix peer); Num if_index; Addr gw])%list
  end.

Definition bypass_exists (os : Os) (output : Output) : bool :=
  match os with
  | WindowsOs => is_already_exists_error (stderr output) || is_already_exists_error (stdout output)
  | _ => is_already_exists_error (stderr output)
  end.

Definition add_bypass_route_impl (os : Os) (w : W) (info : BypassRouteInfo) : W * vres RouteAddOutcome :=
  match bypass_add_command os info with
  | Ret (prog, args) =>
      match run w prog args with
      | (w, None) =>
          (w, Fail (VpnError_tun_device (msg (match os with
                WindowsOs => "Failed to execute PowerShell" | _ => "Failed to add bypass route" end))))
      | (w, Some output) =>
          (w, if success output then Ret Added
              else if bypass_exists os output then Ret AlreadyExisted
              else Fail (VpnError_tun_device (msg "Failed to add bypass route {}/{}: {}")))
      end
  | Fail e => (w, Fail e)
  | Panic => (w, Panic)
  end.

Record BypassRouteGuard : Type := mkBypassGuard {
  bg_peer_ip : IpAddr;
  bg_device : string;
  bg_gateway : option IpAddr;
  bg_gateway_str : option string;
  bg_if_index : option Z;
  bg_owned : bool;
}.

Definition add_bypass_route (os : Os) (w : W) (peer_ip : IpAddr) (disallow_device : option string)
    (underlay_fallback : option UnderlayGateway) : W * vres BypassRouteGuard :=
  match query_route_for_ip os w peer_ip with
  | (w, Ret info) =>
      match resolve_bypass_route_info info disallow_device underlay_fallback with
      | Ret info =>
          match add_bypass_route_impl os w info with
          | (w, Ret outcome) =>
              (w, Ret (mkBypassGuard peer_ip (i_device info) (i_gateway info) (i_gateway_str info)
                         (i_if_index info) (bool_decide (outcome = Added))))
          | (w, Fail e) => (w, Fail e)
          | (w, Panic) => (w, Panic)
          end
      | Fail e => (w, Fail e)
      | Panic => (w, Panic)
      end
  | (w, Fail e) => (w, Fail e)
  | (w, Panic) => (w, Panic)
  end.

(** [remove_bypass_route_sync]: the command, if there is one to run. *)
Definition bypass_delete_command (os : Os) (g : BypassRouteGuard) : option (string * list arg) :=
  let peer := bg_peer_ip g in
  match os with
  | LinuxOs =>
      Some ("ip", (if is_ipv4 peer then [] else [Word "-6"]) ++
        [Word "route"; Word "del"; Cidr peer (host_prefix peer)] ++
        (match bg_gateway g with Some gw => [Word "via"; Addr gw] | None => [] end) ++
        [Word "dev"; Word (bg_device g)])%list
  | MacOs =>
      Some ("route", [Word "delete"] ++ (if is_ipv4 peer then [] else [Word "-inet6"]) ++
        [Word "-host"; Addr peer] ++
        (match bg_gateway_str g with Some s => [Word s] | None => [] end))%list
  | WindowsOs =>
      if_index ← bg_if_index g;
      Some ("powershell.exe", [Word "-NoProfile"; Word "-NonInteractive"; Word "-Command"] ++
        [Word "Remove-NetRoute"; Cidr peer (host_prefix peer); Num if_index] ++
        (match bg_gateway g with Some gw => [Addr gw] | None => [] end))%list
  end.

Definition drop_bypass_guard (os : Os) (w : W) (g : BypassRouteGuard) : W :=
  if negb (bg_owned g) then w else
  match bypass_delete_command os g with
  | Some (prog, args) => (run w prog args).1
  | None => w
  end.
End Queries.
End Parsers.

(** ** The parsers' loops *)

(** The tokens that follow an occurrence of [k]. *)
Fixpoint after (k : string) (tokens : list string) : list string :=
  match tokens with
  | t :: ((n :: _) as rest) => if String.eqb t k then n :: after k rest else after k rest
  | _ => []
  end.

(** The last element that passes [ok], else [d]. *)
Definition last_ok (ok : string -> bool) (l : list string) (d : option string) : option string :=
  fold_left (fun r s => if ok s then Some s else r) l d.

Section ParserProofs.
Context (parse_ip : string -> option IpAddr).

Lemma linux_token_eq t n f :
  linux_token parse_ip t n f =
  mkFound (if String.eqb t "dev" then Some n else f_device f)
    (if String.eqb t "via" && is_valid_gateway_str n then parse_ip n else f_gateway f)
    (if String.eqb t "via" && is_valid_gateway_str n then Some n else f_gateway_str f).
Proof.
  unfold linux_token. destruct f as [d g s].
  destruct (String.eqb_spec t "dev") as [->|]; cbn; [done|].
  destruct (String.eqb t "via"), (is_valid_gateway_str n); done.
Qed.

Lemma linux_tokens_spec tokens f :
  (f_gateway f = f_gateway_str f ≫= parse_ip) ->
  let r := linux_tokens parse_ip tokens f in
  f_device r = last_ok (fun _ => true) (after "dev" tokens) (f_device f) /\
  f_gateway_str r = last_ok is_valid_gateway_str (after "via" tokens) (f_gateway_str f) /\
  f_gateway r = f_gateway_str r ≫= parse_ip.
Proof.
  revert f. induction tokens as [|t rest IH]; intros f Hg; [done|].
  destruct rest as [|n rest]; [done|].
  change (linux_tokens parse_ip (t :: n :: rest) f)
    with (linux_tokens parse_ip (n :: rest) (linux_token parse_ip t n f)).
  assert (Hafter : forall k, after k (t :: n :: rest) =
    if String.eqb t k then n :: after k (n :: rest) else after k (n :: rest)) by done.
  rewrite !Hafter. clear Hafter.
  destruct (IH (linux_token parse_ip t n f)) as (H1 & H2 & H3).
  { rewrite linux_token_eq. cbn [f_gateway f_gateway_str].
    destruct (String.eqb t "via" && is_valid_gateway_str n); done. }
  cbn zeta in *. rewrite H3, H1, H2, linux_token_eq. cbn [f_device f_gateway_str].
  split_and!; [by destruct (String.eqb t "dev")| |done].
  destruct (String.eqb t "via"); [|done]. cbn [last_ok fold_left andb].
  unfold last_ok. cbn [fold_left]. by destruct (is_valid_gateway_str n).
Qed.

Lemma split_once_spec c s :
  match split_once c s with
  | (l, None) => l = s /\ all_chars (fun d => negb (Ascii.eqb d c)) s = true
  | (l, Some r) => s = l +:+ String c r /\ all_chars (fun d => negb (Ascii.eqb d c)) l = true
  end.
Proof.
  induction s as [|a s IH]; cbn [split_once]; [done|].
  destruct (Ascii.eqb_spec a c) as [->|Hne]; [done|].
  destruct (split_once c s) as [l [r|]]; cbn [all_chars].
  - destruct IH as [-> Hl]. rewrite Hl, append_cons. destruct (Ascii.eqb_spec a c); done.
  - destruct IH as [-> Hl]. rewrite Hl. destruct (Ascii.eqb_spec a c); done.
Qed.

Lemma addr_char_not_percent c : addr_char c = true -> negb (Ascii.eqb c PERCENT) = true.
Proof. destruct (Ascii.eqb_spec c PERCENT) as [->|]; done. Qed.

Lemma all_chars_impl (f g : Ascii.ascii -> bool) s :
  (forall c, f c = true -> g c = true) -> all_chars f s = true -> all_chars g s = true.
Proof.
  intros Hfg. induction s as [|c s IH]; [done|]. cbn [all_chars].
  intros [Hc Hs]%andb_true_iff. by rewrite (Hfg _ Hc), IH.
Qed.

Lemma split_once_none c s :
  all_chars (fun d => negb (Ascii.eqb d c)) s = true -> split_once c s = (s, None).
Proof.
  induction s as [|a s IH]; [done|]. cbn [all_chars split_once].
  intros [Ha Hs]%andb_true_iff. destruct (Ascii.eqb a c); [done|]. by rewrite (IH Hs).
Qed.

Lemma split_once_some c l r :
  all_chars (fun d => negb (Ascii.eqb d c)) l = true -> split_once c (l +:+ String c r) = (l, Some r).
Proof.
  induction l as [|a l IH]; intros Hl.
  - change ("" +:+ String c r) with (String c r). cbn [split_once]. by rewrite Ascii.eqb_refl.
  - cbn [all_chars] in Hl. apply andb_true_iff in Hl as [Ha Hl]. rewrite append_cons. cbn [split_once].
    destruct (Ascii.eqb a c); [done|]. by rewrite (IH Hl).
Qed.

(** The accepted gateways: address characters, or address characters, a
    percent sign and a non-empty interface name. *)
Lemma valid_gateway_iff s :
  is_valid_gateway_str s = true <->
  (s <> "" /\ all_chars addr_char s = true) \/
  (exists a scope, s = a +:+ String PERCENT scope /\ all_chars addr_char a = true /\
     scope <> "" /\ all_chars scope_char scope = true).
Proof.
  unfold is_valid_gateway_str. split.
  - destruct (String.eqb_spec s "") as [->|Hne]; [done|].
    pose proof (split_once_spec PERCENT s) as Hs. destruct (split_once PERCENT s) as [l [r|]].
    + destruct (all_chars addr_char l) eqn:Hl; [|done]. cbn [negb]. intros [Hr Hsc]%andb_true_iff.
      right. exists l, r. destruct Hs as [-> _]. split_and!; try done.
      intros ->. done.
    + destruct Hs as [-> _]. destruct (all_chars addr_char s) eqn:Hl; [|done]. by left.
  - intros [[Hne Ha]|(a & scope & -> & Ha & Hsc & Hs)].
    + destruct (String.eqb_spec s ""); [done|].
      rewrite (split_once_none PERCENT) by (by eapply all_chars_impl, Ha; apply addr_char_not_percent).
      by rewrite Ha.
    + destruct (String.eqb_spec (a +:+ String PERCENT scope) "") as [He|_].
      { by destruct a. }
      rewrite split_once_some by (by eapply all_chars_impl, Ha; apply addr_char_not_percent).
      rewrite Ha, Hs. cbn [negb]. by destruct (String.eqb_spec scope "").
Qed.
End ParserProofs.

(** ** The host routes of the kernel *)

(** A host route: the peer and what the tools name as its way out (gateway and
    device, gateway text, or interface index and gateway). *)
Abbreviation host_key := (IpAddr * list arg)%type.

Definition via_of (os : Os) (device : string) (gateway : option IpAddr) (gateway_str : option string)
    (if_index : option Z) : list arg :=
  match os with
  | LinuxOs => match gateway with Some gw => [Addr gw; Word device] | None => [] end
  | MacOs => match gateway_str with Some s => [Word s] | None => [] end
  | WindowsOs => match if_index, gateway with Some i, Some gw => [Num i; Addr gw] | _, _ => [] end
  end.

Definition info_key (os : Os) (i : BypassRouteInfo) : host_key :=
  (i_peer_ip i, via_of os (i_device i) (i_gateway i) (i_gateway_str i) (i_if_index i)).
Definition guard_key (os : Os) (g : BypassRouteGuard) : host_key :=
  (bg_peer_ip g, via_of os (bg_device g) (bg_gateway g) (bg_gateway_str g) (bg_if_index g)).

(** The commands of a query. *)
Definition query_args (os : Os) (v4 : bool) (ip : IpAddr) : string * list arg :=
  match os with
  | LinuxOs => ("ip", (if v4 then [] else [Word "-6"]) ++ [Word "route"; Word "get"; Addr ip])%list
  | MacOs => ("route", [Word "get"] ++ (if v4 then [] else [Word "-inet6"]) ++ [Addr ip])%list
  | WindowsOs => ("powershell.exe", [Word "-NoProfile"; Word "-NonInteractive"; Word "-Command";
                                     Word "Find-NetRoute"; Addr ip])
  end.

(** The documented effect of the commands on the host routes: an addition
    succeeds only when the route is new; a deletion that succeeds removes the
    route, one that fails or cannot be started may have removed it or not; what
    only queries changes nothing.  [undeleted] is a history of the system: the
    routes whose last deletion did not succeed (the code logs these). *)
Class HostRouteLaws (W : Type) `{System W} (hosts undeleted : W -> gset host_key) : Prop := {
  law_host_add : forall os info prog args w w' o,
    bypass_add_command os info = Ret (prog, args) -> run w prog args = (w', o) ->
    if succeeded o
    then (info_key os info ∉ hosts w) /\ hosts w' = {[info_key os info]} ∪ hosts w /\
         undeleted w' = undeleted w ∖ {[info_key os info]}
    else hosts w' = hosts w /\ undeleted w' = undeleted w;
  law_host_delete : forall os g prog args w w' o,
    bypass_delete_command os g = Some (prog, args) -> is_Some (bg_gateway g) -> run w prog args = (w', o) ->
    delete_effect (guard_key os g) (succeeded o) (hosts w) (hosts w') /\
    undeleted w' = if succeeded o then undeleted w ∖ {[guard_key os g]} else {[guard_key os g]} ∪ undeleted w;
  law_host_query : forall os v4 ip w, let '(prog, args) := query_args os v4 ip in
    hosts (run w prog args).1 = hosts w /\ undeleted (run w prog args).1 = undeleted w;
}.

(** The host routes but for those that could not be deleted.  Of these, a
    deletion removes the route whether it succeeds or not. *)
Definition accounted {W} (hosts undeleted : W -> gset host_key) (w : W) : gset host_key := hosts w ∖ undeleted w.

Class HostAccount (W : Type) `{System W} (hosts : W -> gset host_key) : Prop := {
  account_add : forall os info prog args w w' o,
    bypass_add_command os info = Ret (prog, args) -> run w prog args = (w', o) ->
    if succeeded o then (info_key os info ∉ hosts w) /\ hosts w' = {[info_key os info]} ∪ hosts w
    else hosts w' = hosts w;
  account_delete : forall os g prog args w,
    bypass_delete_command os g = Some (prog, args) -> is_Some (bg_gateway g) ->
    hosts (run w prog args).1 = hosts w ∖ {[guard_key os g]};
  account_query : forall os v4 ip w, let '(prog, args) := query_args os v4 ip in
    hosts (run w prog args).1 = hosts w;
}.

#[export] Instance accounted_hosts {W} `{System W} (hosts undeleted : W -> gset host_key)
    `{!HostRouteLaws W hosts undeleted} : HostAccount W (accounted hosts undeleted).
Proof.
  unfold accounted. constructor.
  - intros os info prog args w w' o Hc Hr. pose proof (law_host_add _ _ _ _ _ _ _ Hc Hr) as Hl.
    destruct (succeeded o); [|by destruct Hl as [-> ->]]. destruct Hl as (Hn & -> & ->). split; [set_solver|].
    apply set_eq. intros k. destruct (decide (k = info_key os info)) as [->|]; set_solver.
  - intros os g prog args w Hc Hg. destruct (run w prog args) as [w' o] eqn:Hr. cbn [fst].
    destruct (law_host_delete _ _ _ _ _ _ _ Hc Hg Hr) as [Hd ->].
    destruct (succeeded o); cbn [delete_effect] in Hd; [rewrite Hd|destruct Hd as [? ?]]; apply set_eq; intros k;
      destruct (decide (k = guard_key os g)) as [->|]; set_solver.
  - intros os v4 ip w. pose proof (law_host_query (hosts:=hosts) os v4 ip w) as Hq.
    destruct (query_args os v4 ip). by destruct Hq as [-> ->].
Qed.

Section Proofs.
Context (parse_ip : string -> option IpAddr) (show_ip : IpAddr -> string).
Context {W : Type} `{System W} (hosts : W -> gset host_key) `{!HostAccount W hosts}.

Lemma query_first {A} (r : W * option Output) a b (f : string -> vres A) : (query r a b f).1 = r.1.
Proof. by destruct r as [w [o|]]. Qed.

Lemma query_keeps_hosts os w ip : hosts (query_route_for_ip parse_ip show_ip os w ip).1 = hosts w.
Proof.
  unfold query_route_for_ip, query_route_linux, query_route_macos, query_route_windows; destruct os; rewrite query_first.
  - apply (account_query LinuxOs).
  - apply (account_query MacOs).
  - apply (account_query WindowsOs true).
Qed.

Lemma linux_route_info out ip info :
  parse_linux_route_get parse_ip out ip = Ret info -> i_peer_ip info = ip.
Proof. unfold parse_linux_route_get, route_info. intros Hi. bind_inv Hi. by injection Hi as <-. Qed.

Lemma query_peer os w ip w' info :
  query_route_for_ip parse_ip show_ip os w ip = (w', Ret info) -> i_peer_ip info = ip.
Proof.
  assert (Hq : forall (r : W * option Output) a b f, query r a b f = (w', Ret info) ->
    exists s, f s = Ret info).
  { intros [w1 [o|]] a b f; cbn [query]; [|done].
    destruct (success o); [|done]. intros [= _ Hf]. by eexists. }
  unfold query_route_for_ip, query_route_linux, query_route_macos, query_route_windows; destruct os; intros [s Hs]%Hq.
  - by eapply linux_route_info.
  - unfold parse_macos_route_get, route_info in Hs. bind_inv Hs. by injection Hs as <-.
  - unfold from_windows in Hs. bind_inv Hs. by injection Hs as <-.
Qed.

(** When the queried route is used as it is. *)
Definition usable (disallow : option string) (info : BypassRouteInfo) : bool :=
  match disallow with Some d => negb (String.eqb (i_device info) d) | None => true end &&
  match i_gateway info with Some _ => true | None => false end.

Lemma resolve_cases info disallow fb :
  match resolve_bypass_route_info info disallow fb with
  | Ret r =>
      is_Some (i_gateway r) /\
      if usable disallow info then r = info
      else exists f, fb = Some f /\ is_Some (u_gateway f) /\ r = repin_via_fallback info f
  | Fail _ => usable disallow info = false /\ forall f, fb = Some f -> u_gateway f = None
  | Panic => False
  end.
Proof.
  unfold resolve_bypass_route_info, usable.
  assert (Hfb : forall s,
    match (match fb with
           | Some fb => match u_gateway fb with Some _ => Ret (repin_via_fallback info fb) | None => Fail s end
           | None => Fail s end : vres BypassRouteInfo) with
    | Ret r => is_Some (i_gateway r) /\
               exists f, fb = Some f /\ is_Some (u_gateway f) /\ r = repin_via_fallback info f
    | Fail _ => forall f, fb = Some f -> u_gateway f = None
    | Panic => False
    end).
  { intros s. destruct fb as [f|]; [|done]. destruct (u_gateway f) eqn:Hg; [|by intros ? [= <-]].
    cbn. rewrite Hg. split; [by eexists|]. exists f. rewrite Hg. split_and!; [done|by eexists|done]. }
  destruct disallow as [d|]; [destruct (String.eqb (i_device info) d)|]; cbn [negb andb].
  - by specialize (Hfb (VpnError_tun_device (msg "Refusing bypass route for {}: route lookup resolved via VPN tunnel interface {} (no captured underlay gateway to fall back to)"))); case_match.
  - destruct (i_gateway info) eqn:Hg; [split; [by rewrite Hg|done]|].
    by specialize (Hfb (VpnError_tun_device (msg "Refusing bypass route for {}: no next-hop gateway resolved via {} and no captured underlay gateway to fall back to (would create a link-scope route that black-holes the address)"))); case_match.
  - destruct (i_gateway info) eqn:Hg; [split; [by rewrite Hg|done]|].
    by specialize (Hfb (VpnError_tun_device (msg "Refusing bypass route for {}: no next-hop gateway resolved via {} and no captured underlay gateway to fall back to (would create a link-scope route that black-holes the address)"))); case_match.
Qed.

Lemma bypass_impl_effect os w info :
  match add_bypass_route_impl os w info with
  | (w', Ret Added) => (info_key os info ∉ hosts w) /\ hosts w' = {[info_key os info]} ∪ hosts w /\
                       is_ret (bypass_add_command os info) = true
  | (w', Panic) => False
  | (w', _) => hosts w' = hosts w
  end.
Proof.
  unfold add_bypass_route_impl. destruct (bypass_add_command os info) as [[prog args]|e|] eqn:Hc.
  - destruct (run w prog args) as [w' o] eqn:Hr. pose proof (account_add _ _ _ _ _ _ _ Hc Hr) as Hl.
    destruct o as [out|]; [|done]. cbn [succeeded] in Hl. destruct (success out); [by destruct Hl|].
    by destruct (bypass_exists os out).
  - done.
  - destruct os; cbn in Hc; destruct (i_gateway info), (i_gateway_str info), (i_if_index info); done.
Qed.

Lemma delete_command_exists os info g :
  is_ret (bypass_add_command os info) = true -> bg_if_index g = i_if_index info ->
  exists prog args, bypass_delete_command os g = Some (prog, args).
Proof.
  intros Ha Hi. destruct os; cbn [bypass_delete_command bypass_add_command] in *; [by eexists _, _..|].
  rewrite Hi. destruct (i_gateway info); [|done]. cbn in Ha. destruct (i_if_index info); [|done].
  by eexists _, _.
Qed.

Lemma route_info_no_panic peer s f : route_info peer s f <> Panic.
Proof. unfold route_info. by destruct (f_device f). Qed.

Lemma query_no_panic os w ip : (query_route_for_ip parse_ip show_ip os w ip).2 <> Panic.
Proof.
  assert (Hq : forall (r : W * option Output) a b (f : string -> vres BypassRouteInfo),
    (forall s, f s <> Panic) -> (query r a b f).2 <> Panic).
  { intros [w1 [o|]] a b f Hf; cbn [query snd]; [|done]. by destruct (success o). }
  unfold query_route_for_ip, query_route_linux, query_route_macos, query_route_windows; destruct os; apply Hq; intros s; [apply route_info_no_panic..|].
  unfold from_windows, parse_windows_route_line. destruct (head _) as [l|]; [|done]. cbn.
  destruct (split_once TAB l) as [a b]. destruct (split_once TAB (default "" b)) as [c d].
  by destruct (parse_uint 32 (trim a)).
Qed.

(** Where the traffic of a guard's route goes. *)
Definition guard_way (g : BypassRouteGuard) :=
  (bg_device g, bg_gateway g, bg_gateway_str g, bg_if_index g).
Definition info_way (i : BypassRouteInfo) := (i_device i, i_gateway i, i_gateway_str i, i_if_index i).
Definition underlay_way (u : UnderlayGateway) :=
  (u_device u, u_gateway u, u_gateway_str u, u_if_index u).

(** Dropping a guard removes its route if it owns one. *)
Lemma drop_bypass_hosts os w g :
  is_Some (bg_gateway g) -> (bg_owned g = true -> is_Some (bypass_delete_command os g)) ->
  hosts (drop_bypass_guard os w g) =
    if bg_owned g then hosts w ∖ {[guard_key os g]} else hosts w.
Proof.
  unfold drop_bypass_guard. intros Hg. destruct (bg_owned g); [|done]. intros Ho.
  destruct (Ho eq_refl) as [[prog args] Hc]. cbn [negb]. rewrite Hc. by eapply account_delete.
Qed.

Lemma add_bypass_spec os w peer disallow fb :
  match add_bypass_route parse_ip show_ip os w peer disallow fb with
  | (w', Ret g) =>
      exists info, (query_route_for_ip parse_ip show_ip os w peer).2 = Ret info /\
        bg_peer_ip g = peer /\ is_Some (bg_gateway g) /\
        (if usable disallow info then guard_way g = info_way info
         else exists f, fb = Some f /\ guard_way g = underlay_way f) /\
        (forall d, disallow = Some d -> (forall f, fb = Some f -> u_device f <> d) -> bg_device g <> d) /\
        (if bg_owned g
         then (guard_key os g ∉ hosts w) /\ hosts w' = {[guard_key os g]} ∪ hosts w /\
              is_Some (bypass_delete_command os g)
         else hosts w' = hosts w)
  | (w', Fail _) => hosts w' = hosts w
  | (_, Panic) => False
  end.
Proof.
  unfold add_bypass_route. pose proof (query_keeps_hosts os w peer) as Hk.
  pose proof (query_no_panic os w peer) as Hnp. pose proof (query_peer os w peer) as Hpeer.
  destruct (query_route_for_ip parse_ip show_ip os w peer) as [w1 [info|e|]]; cbn [fst snd] in *; [|done..].
  specialize (Hpeer w1 info eq_refl).
  pose proof (resolve_cases info disallow fb) as Hres.
  destruct (resolve_bypass_route_info info disallow fb) as [info'|e|]; [|done..].
  destruct Hres as [Hgw Hway]. pose proof (bypass_impl_effect os w1 info') as He.
  assert (Hp' : i_peer_ip info' = peer).
  { destruct (usable disallow info); [by subst|]. by destruct Hway as (f & _ & _ & ->). }
  set (mk o := mkBypassGuard peer (i_device info') (i_gateway info') (i_gateway_str info')
                 (i_if_index info') o).
  assert (Hkey : forall o, guard_key os (mk o) = info_key os info') by (intros o; unfold guard_key, info_key; by rewrite Hp').
  assert (Hdev : forall d, disallow = Some d -> (forall f, fb = Some f -> u_device f <> d) ->
    i_device info' <> d).
  { intros d -> Hf. destruct (usable (Some d) info) eqn:Hu.
    - subst. unfold usable in Hu. by destruct (String.eqb_spec (i_device info) d).
    - destruct Hway as (f & Hfb & _ & ->). by apply Hf. }
  assert (Hway' : forall o, if usable disallow info then guard_way (mk o) = info_way info
     else exists f, fb = Some f /\ guard_way (mk o) = underlay_way f).
  { intros o. destruct (usable disallow info); [by subst|].
    destruct Hway as (f & Hfb & _ & ->). by exists f. }
  destruct (add_bypass_route_impl os w1 info') as [w2 [[]|e|]]; [| |congruence|done].
  - rewrite bool_decide_true by done. fold (mk true). destruct He as (Hnew & Ht & Hret).
    exists info. cbn [bg_owned mk]. rewrite Hkey, <-Hk. split_and!; try done; [by apply Hway'|].
    destruct (delete_command_exists os info' (mk true) Hret eq_refl) as (prog & args & ->). by eexists.
  - rewrite bool_decide_false by done. fold (mk false). exists info. cbn [bg_owned mk].
    split_and!; try done; [by apply Hway'|congruence].
Qed.

(** Reading the tools' output: on Linux the loop finds the token after the
    last [dev] and the last acceptable token after a [via]; and on Linux and
    macOS a gateway text handed on to the route command consists of address
    characters, possibly followed by a percent sign and an interface name, and
    so never starts like an option. *)
Theorem route_output_parsed out peer :
  parse_linux_route_get parse_ip out peer =
    (let tokens := String.words out in
     let gw := last_ok is_valid_gateway_str (after "via" tokens) None in
     match last_ok (fun _ => true) (after "dev" tokens) None with
     | Some device => Ret (mkInfo peer device (gw ≫= parse_ip) gw None)
     | None => Fail (VpnError_tun_device (msg "Could not determine device for route to {}"))
     end) /\
  (forall info s, parse_linux_route_get parse_ip out peer = Ret info \/
     parse_macos_route_get parse_ip out peer = Ret info ->
     i_gateway_str info = Some s ->
     starts_with "-" s = false /\
     ((s <> "" /\ all_chars addr_char s = true) \/
      (exists a scope, s = a +:+ String PERCENT scope /\ all_chars addr_char a = true /\
         scope <> "" /\ all_chars scope_char scope = true))).
Proof.
  pose proof (linux_tokens_spec parse_ip (String.words out) nothing_found eq_refl) as (H1 & H2 & H3).
  split.
  - unfold parse_linux_route_get, route_info. rewrite H1, H3, H2. cbn.
    by destruct (last_ok (fun _ => true) _ None).
  - assert (Hlast : forall l d s, (forall s, d = Some s -> is_valid_gateway_str s = true) ->
      last_ok is_valid_gateway_str l d = Some s -> is_valid_gateway_str s = true).
    { unfold last_ok. induction l as [|x l IH]; intros d s Hd; cbn [fold_left]; [apply Hd|].
      apply IH. destruct (is_valid_gateway_str x) eqn:Hx; [by intros ? [= <-]|done]. }
    intros info s Hp Hs.
    assert (Hv : is_valid_gateway_str s = true).
    { destruct Hp as [Hp|Hp].
      - unfold parse_linux_route_get, route_info in Hp. bind_inv Hp. injection Hp as <-. cbn in Hs.
        rewrite H2 in Hs. by eapply Hlast, Hs.
      - unfold parse_macos_route_get, route_info in Hp. bind_inv Hp. injection Hp as <-. cbn in Hs.
        clear -Hs. revert Hs. assert (Hn : forall s, f_gateway_str nothing_found = Some s -> is_valid_gateway_str s = true) by done.
        revert Hn. generalize nothing_found. induction (lines out) as [|l ls IH]; intros f Hf; cbn [fold_left]; [apply Hf|].
        apply IH. unfold macos_line. intros s'. repeat case_match; cbn; try apply Hf; intros [= <-]; done. }
    apply valid_gateway_iff in Hv. split; [|done].
    destruct Hv as [[Hne Ha]|(a & scope & -> & Ha & _)].
    + destruct s as [|c s]; [done|]. cbn [all_chars] in Ha. apply andb_true_iff in Ha as [Ha _].
      unfold starts_with. cbn [strip_prefix]. case_match eqn:Hc; [|done]. case_match eqn:Hc'; [|done].
      apply Ascii.eqb_eq in Hc'. by subst c.
    + destruct a as [|c a]; [done|]. cbn [all_chars] in Ha. apply andb_true_iff in Ha as [Ha _].
      rewrite append_cons. unfold starts_with. cbn [strip_prefix]. case_match eqn:Hc; [|done].
      case_match eqn:Hc'; [|done]. apply Ascii.eqb_eq in Hc'. by subst c.
Qed.
End Proofs.

(** A bypass route never black-holes its peer and is accounted for: whenever
    [add_bypass_route] succeeds, on any platform, the host route goes out
    through a gateway, over the queried route if that is usable and over the
    captured underlay gateway otherwise, hence not over the tunnel if that
    gateway is not; the route is recorded as owned exactly when it was created,
    and dropping the guard leaves the host routes as they were before, but for
    a route whose deletion failed.  A failure changes nothing. *)
Theorem bypass_route_exact (parse_ip : string -> option IpAddr) (show_ip : IpAddr -> string) {W} `{System W}
    (hosts undeleted : W -> gset host_key) `{!HostRouteLaws W hosts undeleted} os w peer disallow fb :
  let acc := accounted hosts undeleted in
  match add_bypass_route parse_ip show_ip os w peer disallow fb with
  | (w', Ret g) =>
      exists info, (query_route_for_ip parse_ip show_ip os w peer).2 = Ret info /\
        bg_peer_ip g = peer /\ is_Some (bg_gateway g) /\
        (if usable disallow info then guard_way g = info_way info
         else exists f, fb = Some f /\ guard_way g = underlay_way f) /\
        (forall d, disallow = Some d -> (forall f, fb = Some f -> u_device f <> d) -> bg_device g <> d) /\
        (if bg_owned g
         then (guard_key os g ∉ acc w) /\ acc w' = {[guard_key os g]} ∪ acc w
         else acc w' = acc w) /\
        acc (drop_bypass_guard os w' g) = acc w
  | (w', Fail _) => acc w' = acc w
  | (_, Panic) => False
  end.
Proof.
  intros acc. pose proof (add_bypass_spec parse_ip show_ip acc os w peer disallow fb) as Hs.
  destruct (add_bypass_route parse_ip show_ip os w peer disallow fb) as [w' [g|e|]]; [|done..].
  destruct Hs as (info & Hq & Hp & Hg & Hway & Hdev & Hown). exists info. split_and!; try done.
  - by destruct (bg_owned g); [destruct Hown as (? & ? & _)|].
  - destruct (bg_owned g) eqn:Ho.
    + destruct Hown as (Hn & Ht & Hc). rewrite (drop_bypass_hosts acc), Ho, Ht by done. set_solver.
    + rewrite (drop_bypass_hosts acc), Ho by (done || congruence). done.
Qed.

(** ** Evaluation *)

Record SampleNet : Type := mkSampleNet { sn_hosts : gset host_key; sn_undeleted : gset host_key; sn_answer : string }.

Definition add_host (w : SampleNet) (k : host_key) : SampleNet * option Output :=
  if decide (k ∈ sn_hosts w) then (w, Some (mkOutput false "" "RTNETLINK answers: File exists"))
  else (mkSampleNet ({[k]} ∪ sn_hosts w) (sn_undeleted w ∖ {[k]}) (sn_answer w), Some (mkOutput true "" "")).

(** The route to 203.0.113.11 cannot be deleted. *)
Definition delete_host (w : SampleNet) (k : host_key) : SampleNet * option Output :=
  if decide (k.1 = V4 3405803787)
  then (mkSampleNet (sn_hosts w) ({[k]} ∪ sn_undeleted w) (sn_answer w),
        Some (mkOutput false "" "RTNETLINK answers: Operation not permitted"))
  else (mkSampleNet (sn_hosts w ∖ {[k]}) (sn_undeleted w ∖ {[k]}) (sn_answer w), Some (mkOutput true "" "")).

Definition sample_ip (w : SampleNet) (args : list arg) : SampleNet * option Output :=
  match args with
  | [Word "route"; Word "add"; Cidr peer _; Word "via"; gw; Word "dev"; d] => add_host w (peer, [gw; d])
  | [Word "route"; Word "del"; Cidr peer _; Word "via"; gw; Word "dev"; d] => delete_host w (peer, [gw; d])
  | [Word "route"; Word "del"; Cidr peer _; Word "dev"; d] => delete_host w (peer, [])
  | _ => (w, Some (mkOutput true (sn_answer w) ""))
  end.

Definition sample_route (w : SampleNet) (args : list arg) : SampleNet * option Output :=
  match args with
  | [Word "add"; Word "-host"; Addr peer; gw] | [Word "add"; Word "-inet6"; Word "-host"; Addr peer; gw] =>
      add_host w (peer, [gw])
  | [Word "delete"; Word "-host"; Addr peer; gw] | [Word "delete"; Word "-inet6"; Word "-host"; Addr peer; gw] =>
      delete_host w (peer, [gw])
  | [Word "delete"; Word "-host"; Addr peer] | [Word "delete"; Word "-inet6"; Word "-host"; Addr peer] =>
      delete_host w (peer, [])
  | _ => (w, Some (mkOutput true (sn_answer w) ""))
  end.

Definition sample_powershell (w : SampleNet) (args : list arg) : SampleNet * option Output :=
  match args with
  | [_; _; _; Word "New-NetRoute"; Cidr peer _; i; gw] => add_host w (peer, [i; gw])
  | [_; _; _; Word "Remove-NetRoute"; Cidr peer _; i; gw] => delete_host w (peer, [i; gw])
  | [_; _; _; Word "Remove-NetRoute"; Cidr peer _; i] => delete_host w (peer, [])
  | _ => (w, Some (mkOutput true (sn_answer w) ""))
  end.

#[export] Instance sample_net_system : System SampleNet := {|
  run w prog args :=
    if String.eqb prog "ip" then
      sample_ip w (match args with Word "-6" :: args => args | _ => args end)
    else if String.eqb prog "route" then sample_route w args
    else sample_powershell w args;
  ConvertInterfaceAliasToLuid w d := (ERROR_NOT_FOUND, 0%Z);
  CreateIpForwardEntry2 w row := (w, ERROR_NOT_FOUND);
  DeleteIpForwardEntry2 w row := (w, ERROR_NOT_FOUND);
|}.

Lemma add_host_spec w k w' o :
  add_host w k = (w', o) ->
  if succeeded o
  then (k ∉ sn_hosts w) /\ sn_hosts w' = {[k]} ∪ sn_hosts w /\ sn_undeleted w' = sn_undeleted w ∖ {[k]}
  else sn_hosts w' = sn_hosts w /\ sn_undeleted w' = sn_undeleted w.
Proof. unfold add_host. case_decide; intros [= <- <-]; done. Qed.

Lemma delete_host_spec w k w' o :
  delete_host w k = (w', o) ->
  delete_effect k (succeeded o) (sn_hosts w) (sn_hosts w') /\
  sn_undeleted w' = if succeeded o then sn_undeleted w ∖ {[k]} else {[k]} ∪ sn_undeleted w.
Proof. unfold delete_host. case_decide; intros [= <- <-]; cbn; set_solver. Qed.

#[export] Instance sample_host_laws : HostRouteLaws SampleNet sn_hosts sn_undeleted.
Proof.
  constructor.
  - intros os [peer dev gw gs idx] prog args w w' o Hc Hr. unfold info_key, via_of.
    cbn [i_peer_ip i_device i_gateway i_gateway_str i_if_index].
    apply add_host_spec.
    destruct os, gw as [gw|], gs as [gs|], idx as [idx|]; cbn in Hc; try done;
      injection Hc as <- <-; destruct peer; exact Hr.
  - intros os [peer dev gw gs idx owned] prog args w w' o Hc _ Hr. unfold guard_key, via_of.
    cbn [bg_peer_ip bg_device bg_gateway bg_gateway_str bg_if_index].
    apply delete_host_spec.
    destruct os, gw as [gw|], gs as [gs|], idx as [idx|]; cbn in Hc; try done;
      injection Hc as <- <-; destruct peer; exact Hr.
  - by intros [] [] ip w.
Qed.

(** A parser of the two sample addresses. *)
Definition sample_parse_ip (s : string) : option IpAddr :=
  if String.eqb s "192.168.1.1" then Some (V4 3232235777)
  else if String.eqb s "fe80::1" then Some (V6 1) else None.

(** The route to the peer already goes through the tunnel; the gateway captured
    before is used. *)
Lemma bypass_route_exact_witness :
  let w := mkSampleNet ∅ ∅ "203.0.113.9 dev tun0 src 10.0.0.2 uid 0" in
  let fb := mkUnderlay "eth0" (Some (V4 3232235777)) (Some "192.168.1.1") None in
  exists w' g, add_bypass_route sample_parse_ip (fun _ => "") LinuxOs w (V4 3405803785) (Some "tun0") (Some fb)
      = (w', Ret g) /\
    bg_device g <> "tun0" /\ accounted sn_hosts sn_undeleted (drop_bypass_guard LinuxOs w' g) = ∅.
Proof.
  intros w fb.
  pose proof (bypass_route_exact sample_parse_ip (fun _ => "") sn_hosts sn_undeleted LinuxOs w (V4 3405803785)
    (Some "tun0") (Some fb)) as Hb.
  assert (Hok : is_ret (add_bypass_route sample_parse_ip (fun _ => "") LinuxOs w (V4 3405803785)
    (Some "tun0") (Some fb)).2 = true) by (vm_compute; reflexivity).
  destruct (add_bypass_route sample_parse_ip (fun _ => "") LinuxOs w (V4 3405803785) (Some "tun0") (Some fb))
    as [w' [g|e|]]; [|discriminate Hok|discriminate Hok].
  exists w', g. split; [reflexivity|]. destruct Hb as (info & _ & _ & _ & _ & Hd & _ & Hdrop).
  split; [|exact Hdrop]. apply (Hd "tun0" eq_refl). intros f [= <-]. discriminate.
Defined.

Example route_output_example :
  parse_linux_route_get sample_parse_ip "203.0.113.9 via 192.168.1.1 dev eth0 src 10.0.0.2 uid 0" (V4 5) =
    Ret (mkInfo (V4 5) "eth0" (Some (V4 3232235777)) (Some "192.168.1.1") None) /\
  is_valid_gateway_str "fe80::1%en0" = true /\ is_valid_gateway_str "1.1.1.1;reboot" = false.
Proof. split_and!; reflexivity. Qed.
