(* ===== verification/Device.v ===== *)
(** * The TUN device ([src/net/device.rs])

    The configuration of the device, its creation on Linux, macOS and Windows,
    the assignment of the IPv6 address and the packet-information header of
    macOS.  The [tun] crate and the system calls on the device are the class
    [TunApi]; programs are run through [System]. *)

From S2P Require Import Prelude Text Errors Net Offload DeviceRoutes.

#[local] Open Scope string_scope.

(** ** Configuration *)

Record TunConfig : Type := mkTunConfig {
  tc_name : option string;
  tc_address : Z;
  tc_netmask : Z;
  tc_destination : Z;
  tc_address6 : option Z;
  tc_prefix_len6 : option Z;
  tc_mtu : Z;
  tc_enable_gso : bool;
}.

Definition validate_prefix_len6 (prefix_len6 : Z) : vres unit :=
  if (128 <? prefix_len6)%Z
  then Fail (VpnError_config (Msg "Invalid IPv6 prefix length {}: must be 0-128" [prefix_len6]))
  else Ret tt.

Definition TunConfig_new (address netmask destination : Z) : TunConfig :=
  mkTunConfig None address netmask destination None None 1280 true.

Definition with_mtu (mtu : Z) (self : TunConfig) : TunConfig :=
  mkTunConfig (tc_name self) (tc_address self) (tc_netmask self) (tc_destination self)
    (tc_address6 self) (tc_prefix_len6 self) mtu (tc_enable_gso self).

Definition with_gso (enable_gso : bool) (self : TunConfig) : TunConfig :=
  mkTunConfig (tc_name self) (tc_address self) (tc_netmask self) (tc_destination self)
    (tc_address6 self) (tc_prefix_len6 self) (tc_mtu self) enable_gso.

Definition with_ipv6 (address6 prefix_len6 : Z) (self : TunConfig) : vres TunConfig :=
  _ ← validate_prefix_len6 prefix_len6;
  Ret (mkTunConfig (tc_name self) (tc_address self) (tc_netmask self) (tc_destination self)
         (Some address6) (Some prefix_len6) (tc_mtu self) (tc_enable_gso self)).

(** [u16::rotate_left]. *)
Definition rotate_left16 (x n : Z) : Z :=
  Z.lor (wrap 16 (Z.shiftl x n)) (Z.shiftr x (16 - n)).

(** The loop over the octets with their positions. *)
Fixpoint placeholder_hash (hash : Z) (idx : Z) (octets : list Z) : Z :=
  match octets with
  | [] => hash
  | byte :: rest =>
      placeholder_hash (Z.lxor (rotate_left16 hash 5) (wrap 16 (byte + idx))) (idx + 1) rest
  end.

(** [Ipv4Addr::new]. *)
Definition ipv4_of (a b c d : Z) : Z := (((a * 256 + b) * 256 + c) * 256 + d)%Z.

Definition placeholder_ip (address6 : Z) : Z :=
  let hash := placeholder_hash 40503 0 (be_bytes 16 address6) in
  let third := (wrap 8 hash mod 254 + 1)%Z in
  let fourth := (wrap 8 (Z.shiftr hash 8) mod 254 + 1)%Z in
  ipv4_of 169 254 third fourth.

Definition ipv6_only (address6 prefix_len6 mtu : Z) : vres TunConfig :=
  _ ← validate_prefix_len6 prefix_len6;
  let ip := placeholder_ip address6 in
  Ret (mkTunConfig None ip (ipv4_of 255 255 255 255) ip (Some address6) (Some prefix_len6) mtu true).

(** ** The device *)

Record TunOffloadStatus : Type := mkOffload { off_enabled : bool; off_reason : option string }.

Definition offload_on : TunOffloadStatus := mkOffload true None.
Definition offload_off (reason : string) : TunOffloadStatus := mkOffload false (Some reason).

(** What the [tun] crate is asked for. *)
Record Configuration : Type := mkConfiguration {
  c_mtu : Z;
  c_up : bool;
  c_address : option (Z * Z);
  c_destination : option Z;
  c_name : option string;
  c_vnet_hdr : bool;
}.

(** The calls on a device, which is named by a handle. *)
Class TunApi (W : Type) : Type := {
  create_as_async : W -> Configuration -> W * option Z;
  tun_name : W -> Z -> option string;
  tun_index : W -> Z -> option Z;
  set_vnet_hdr_size : W -> Z -> Z -> W * option string;
  set_offload : W -> Z -> Z -> W * option string;
  set_ipv4_address : W -> string -> Z -> Z -> Z -> W * bool;
  add_subnet_route : W -> Z -> Z * Z -> W * option Z;
  close_device : W -> Z -> W;
}.

Record TunDevice : Type := mkTunDevice {
  td_handle : Z;
  td_name : string;
  td_mtu : Z;
  td_vnet_hdr_enabled : bool;
  td_offload_status : TunOffloadStatus;
}.

Definition is_linux (os : Os) : bool := match os with LinuxOs => true | _ => false end.

Definition PACKET_INFORMATION_LENGTH : Z := 4.

Definition device_buffer_size (self : TunDevice) : Z :=
  if td_vnet_hdr_enabled self then (65535 + Z.of_nat VIRTIO_NET_HDR_LEN)%Z
  else (td_mtu self + PACKET_INFORMATION_LENGTH)%Z.

(** TUN_F_CSUM, TUN_F_TSO4 and TUN_F_TSO6. *)
Definition OFFLOAD_FLAGS : Z := Z.lor 1 (Z.lor 2 4).

Definition EEXIST : Z := 17.

Section Device.
Context {W : Type} `{System W} `{TunApi W}.

(** An ioctl gives its error text on failure. *)
Definition configure_linux_tun_offload (w : W) (device : Z) (enable_gso : bool) : W * TunOffloadStatus :=
  match set_vnet_hdr_size w device (Z.of_nat VIRTIO_NET_HDR_LEN) with
  | (w, Some e) => (w, offload_off ("TUNSETVNETHDRSZ failed: " +:+ e))
  | (w, None) =>
      if negb enable_gso then (w, offload_off "disabled by peer capability") else
      match set_offload w device OFFLOAD_FLAGS with
      | (w, Some e) => (w, offload_off ("TUNSETOFFLOAD(TSO4/TSO6) failed: " +:+ e))
      | (w, None) => (w, offload_on)
      end
  end.

Context {Net4 : Type} `{NetOps V4_BITS Net4}.

(** [with_netmask] is [Ipv4Net::with_netmask]: it refuses a mask that is not
    a prefix. *)
Definition configure_macos_ipv4 (with_netmask : Z -> Z -> option Net4) (w : W) (device : Z) (name : string)
    (config : TunConfig) : W * vres unit :=
  match with_netmask (tc_address config) (tc_netmask config) with
  | None => (w, Fail (VpnError_config (msg "Invalid TUN netmask {}")))
  | Some net =>
      let subnet := (net_network net, net_prefix_len net) in
      match set_ipv4_address w name (tc_address config) (tc_destination config)
              (netmask4 (net_prefix_len net)) with
      | (w, false) => (w, Fail (VpnError_tun_device (msg "Failed to assign {} to {name}")))
      | (w, true) =>
          if (net_prefix_len net =? 32)%Z then (w, Ret tt) else
          match tun_index w device with
          | None => (w, Fail (VpnError_tun_device (msg "Failed to get interface index of {name}")))
          | Some if_index =>
              if (U16_MAX <? if_index)%Z
              then (w, Fail (VpnError_tun_device (msg "Failed to get interface index of {name}"))) else
              match add_subnet_route w if_index subnet with
              | (w, None) => (w, Ret tt)
              | (w, Some errno) =>
                  (w, Fail (VpnError_tun_device (msg
                        (if (errno =? EEXIST)%Z
                         then "Failed to add route {subnet} via {name}: another interface already routes it"
                         else "Failed to add route {subnet} via {name}"))))
              end
          end
      end
  end.

Definition configure_tun_ipv6_command (os : Os) (tun_name : string) (addr prefix_len : Z)
  : string * list arg :=
  match os with
  | MacOs => ("ifconfig", [Word tun_name; Word "inet6"; Word "add"; Addr (V6 addr); Word "prefixlen";
                           Num prefix_len])
  | LinuxOs => ("ip", [Word "-6"; Word "addr"; Word "add"; Cidr (V6 addr) prefix_len; Word "dev";
                       Word tun_name])
  | WindowsOs => ("netsh", [Word "interface"; Word "ipv6"; Word "add"; Word "address";
                            Word ("interface=" +:+ tun_name); Cidr (V6 addr) prefix_len])
  end.

Definition configure_tun_ipv6 (os : Os) (w : W) (tun_name : string) (addr prefix_len : Z) : W * vres unit :=
  let '(prog, args) := configure_tun_ipv6_command os tun_name addr prefix_len in
  match run w prog args with
  | (w, None) => (w, Fail (VpnError_tun_device (msg "Failed to configure IPv6")))
  | (w, Some output) =>
      if success output then (w, Ret tt) else
      let exists_already :=
        match os with
        | MacOs =>
            contains "already exists" (to_lowercase (stderr output)) ||
            contains "file exists" (to_lowercase (stderr output))
        | LinuxOs => is_already_exists_error (stderr output)
        | WindowsOs => is_already_exists_error (stderr output) || is_already_exists_error (stdout output)
        end in
      if exists_already then (w, Ret tt) else
      let detail :=
        match os with
        | WindowsOs => if String.eqb (trim (stderr output)) "" then trim (stdout output)
                       else trim (stderr output)
        | _ => trim (stderr output)
        end in
      (w, Fail (VpnError_tun_device (msg ("IPv6 configuration failed: " +:+ detail))))
  end.

Definition tun_configuration (os : Os) (config : TunConfig) : Configuration :=
  mkConfiguration (tc_mtu config) true
    (match os with MacOs => None | _ => Some (tc_address config, tc_netmask config) end)
    (match os with LinuxOs => Some (tc_destination config) | _ => None end)
    (tc_name config) (is_linux os).

(** [TunDevice::create]; an error after the creation drops the device. *)
Definition TunDevice_create (with_netmask : Z -> Z -> option Net4) (os : Os) (w : W) (config : TunConfig)
  : W * vres TunDevice :=
  match create_as_async w (tun_configuration os config) with
  | (w, None) => (w, Fail (VpnError_tun_device (msg "Failed to create TUN device")))
  | (w, Some device) =>
      match tun_name w device with
      | None => (close_device w device, Fail (VpnError_tun_device (msg "Failed to get TUN name")))
      | Some name =>
          let '(w, offload_status) :=
            match os with
            | LinuxOs => configure_linux_tun_offload w device (tc_enable_gso config)
            | _ => (w, offload_off "TUN offload not supported on this platform")
            end in
          let '(w, r) :=
            match os with
            | MacOs => configure_macos_ipv4 with_netmask w device name config
            | _ => (w, Ret tt)
            end in
          let '(w, r) :=
            match r with
            | Ret _ =>
                match tc_address6 config, tc_prefix_len6 config with
                | Some addr6, Some prefix => configure_tun_ipv6 os w name addr6 prefix
                | _, _ => (w, Ret tt)
                end
            | _ => (w, r)
            end in
          match r with
          | Ret _ => (w, Ret (mkTunDevice device name (tc_mtu config) (is_linux os) offload_status))
          | Fail e => (close_device w device, Fail e)
          | Panic => (w, Panic)
          end
      end
  end.
End Device.

(** The frame header of a macOS device. *)
Definition AF_INET : Z := 2.
Definition AF_INET6 : Z := 30.

Definition darwin_packet_information (ip_packet : list Z) : vres (list Z) :=
  match ip_packet with
  | [] => Fail (VpnError_tun_device (msg "cannot write empty IP payload to utun"))
  | first_byte :: _ =>
      let version := Z.shiftr first_byte 4 in
      family ← (if (version =? 4)%Z then Ret AF_INET
                else if (version =? 6)%Z then Ret AF_INET6
                else Fail (VpnError_tun_device (Msg "unsupported IP version {} for utun write" [version])));
      Ret (be_bytes 4 family)
  end.

(** ** The placeholder address *)

Lemma placeholder_range address6 : exists third fourth,
  placeholder_ip address6 = ipv4_of 169 254 third fourth /\
  (1 <= third <= 254)%Z /\ (1 <= fourth <= 254)%Z.
Proof.
  eexists _, _. split; [reflexivity|].
  split; match goal with |- context [(?x mod 254)%Z] => pose proof (Z.mod_pos_bound x 254 ltac:(lia)) end; lia.
Qed.

(** What a successful creation has built, whichever calls it took. *)
Lemma create_device_fields {W} `{System W} `{TunApi W} {Net4} `{NetOps V4_BITS Net4} wn os w config w' d :
  TunDevice_create (Net4:=Net4) wn os w config = (w', Ret d) ->
  td_mtu d = tc_mtu config /\ td_vnet_hdr_enabled d = is_linux os /\
  (off_enabled (td_offload_status d) = true -> os = LinuxOs /\ tc_enable_gso config = true).
Proof.
  unfold TunDevice_create. destruct (create_as_async _ _) as [w1 [dev|]]; [|done].
  destruct (tun_name _ _) as [name|]; [|done].
  destruct (match os with LinuxOs => configure_linux_tun_offload _ _ _ | _ => _ end) as [w2 st] eqn:Ho.
  destruct (match os with MacOs => configure_macos_ipv4 _ _ _ _ _ | _ => _ end) as [w3 r].
  destruct (match r with Ret _ => _ | _ => _ end) as [w4 r']. destruct r' as [[]|e|]; [|done..].
  intros [= <- <-]. cbn. split; [done|]. split; [done|]. destruct os; [|by injection Ho as <- <-..].
  intros He. split; [done|]. unfold configure_linux_tun_offload in Ho.
  destruct (set_vnet_hdr_size _ _ _) as [w5 [e|]]; [by injection Ho as <- <-|].
  destruct (tc_enable_gso config); [done|]. by injection Ho as <- <-.
Qed.
