(* ===== verification/Status.v ===== *)
(** * Status of a running instance ([src/control.rs], [src/transport/paths.rs])

    The snapshot types, the client's live status handle, the description of
    the connection paths, and the text the status commands print (as the list
    of printed lines).  Instants and durations are nanoseconds.  Addresses,
    URLs, round-trip times and errors enter as the text the program prints for
    them. *)

From S2P Require Import Prelude Text Errors Runtime.

#[local] Open Scope string_scope.

(** ** Connection paths *)

Inductive TransportAddr : Type :=
| AddrIp (text : string)
| AddrRelay (text : string)
| AddrOther (text : string).

(** A path of the transport, its round-trip time as printed. *)
Record Path : Type := mkPath {
  remote_addr : TransportAddr;
  path_rtt : string;
  path_selected : bool;
}.

Definition path_part (path : Path) : string :=
  let sel := if path_selected path then " (selected)" else "" in
  let tail := sel +:+ " (rtt " +:+ path_rtt path +:+ ")" in
  match remote_addr path with
  | AddrIp addr => "Direct " +:+ addr +:+ tail
  | AddrRelay url => "Relay " +:+ url +:+ tail
  | AddrOther other => other +:+ tail
  end.

(** [parts.join(sep)] *)
Fixpoint join_with (sep : string) (l : list string) : string :=
  match l with
  | [] => ""
  | [x] => x
  | x :: rest => x +:+ sep +:+ join_with sep rest
  end.

Definition format_connection_paths (paths : list Path) : string :=
  match paths with
  | [] => "establishing..."
  | _ =>
      match path_part <$> paths with
      | [] => "no paths"
      | parts => join_with ", " parts
      end
  end.

Inductive ConnPathKind : Type := KDirect | KRelay | KOther.

Record ConnPath : Type := mkConnPath {
  cp_kind : ConnPathKind;
  cp_display : string;
  cp_selected : bool;
}.

Definition connection_paths_from (paths : list Path) : list ConnPath :=
  (fun path =>
     let rtt := " (rtt " +:+ path_rtt path +:+ ")" in
     let '(kind, display) :=
       match remote_addr path with
       | AddrIp addr => (KDirect, "Direct " +:+ addr +:+ rtt)
       | AddrRelay url => (KRelay, "Relay " +:+ url +:+ rtt)
       | AddrOther other => (KOther, other +:+ rtt)
       end in
     mkConnPath kind display (path_selected path)) <$> paths.

Record CustomRelayStatus : Type := mkRelayStatus {
  url : string;
  working : option bool;
  relay_error : option string;
}.

Record ConnectionSnapshot : Type := mkConnectionSnapshot {
  cn_description : string;
  cn_paths : list ConnPath;
  cn_custom_relays : list CustomRelayStatus;
}.

(** What came of the request for a relay's [/healthz]. *)
Inductive healthz : Type :=
| BadUrl (e : string)
| HttpResponse (status : Z) (shown : string)
| NoResponse (e : string).

Definition probe_relay_healthz (url : string) (answer : healthz) : CustomRelayStatus :=
  match answer with
  | BadUrl e => mkRelayStatus url (Some false) (Some ("invalid relay URL: " +:+ e))
  | HttpResponse status shown =>
      if (200 <=? status)%Z && (status <? 300)%Z then mkRelayStatus url (Some true) None
      else mkRelayStatus url (Some false) (Some ("/healthz returned HTTP " +:+ shown))
  | NoResponse e => mkRelayStatus url (Some false) (Some e)
  end.

(** [client] is the result of building the HTTP client. *)
Definition probe_custom_relay_health (client : string + unit) (answer : string -> healthz)
    (urls : list string) : list CustomRelayStatus :=
  match urls with
  | [] => []
  | _ =>
      match client with
      | inl e =>
          let err := "failed to build health-check client: " +:+ e in
          (fun url => mkRelayStatus url None (Some err)) <$> urls
      | inr _ => (fun url => probe_relay_healthz url (answer url)) <$> urls
      end
  end.

Definition connection_snapshot (client : string + unit) (answer : string -> healthz)
    (paths : list Path) (urls : list string) : ConnectionSnapshot :=
  mkConnectionSnapshot (format_connection_paths paths) (connection_paths_from paths)
    (probe_custom_relay_health client answer urls).

(** ** Snapshots *)

Record ClientEntry : Type := mkClientEntry {
  ce_endpoint_id : string;
  ce_device_id : string;
  ce_session_id : Z;
  ce_assigned_ip : option string;
  ce_assigned_ip6 : option string;
  ce_connection : option string;
}.

Record ServerStatsView : Type := mkStatsView {
  sv_tun_packets_read : Z;
  sv_packets_to_clients : Z;
  sv_packets_no_route : Z;
  sv_packets_unknown_version : Z;
  sv_packets_dropped_full : Z;
  sv_packets_from_clients : Z;
  sv_packets_tun_write_failed : Z;
  sv_packets_spoofed : Z;
  sv_packets_inter_client_blocked : Z;
}.

Record ServerStatus : Type := mkServerStatus {
  ss_node_id : string;
  ss_uptime_secs : Z;
  ss_mode : string;
  ss_network : option string;
  ss_network6 : option string;
  ss_connected_clients : nat;
  ss_active_connections : Z;
  ss_clients : list ClientEntry;
  ss_stats : ServerStatsView;
  ss_bypass_addrs : list string;
}.

Record ClientStatus : Type := mkClientStatus {
  cs_instance : string;
  cs_state : string;
  cs_server_node_id : string;
  cs_device_id : string;
  cs_connected_since_secs : option Z;
  cs_failed_attempts : Z;
  cs_next_attempt_secs : option Z;
  cs_last_error : option string;
  cs_mode : string;
  cs_assigned_ip : option string;
  cs_network : option string;
  cs_gateway : option string;
  cs_assigned_ip6 : option string;
  cs_network6 : option string;
  cs_gateway6 : option string;
  cs_mtu : option Z;
  cs_routes : list string;
  cs_routes6 : list string;
  cs_connection : option string;
  cs_custom_relays : list CustomRelayStatus;
  cs_bypass_addrs : list string;
  cs_log_file : option string;
}.

Inductive StatusSnapshot : Type :=
| SServer (s : ServerStatus)
| SClient (c : ClientStatus).

#[export] Instance CustomRelayStatus_eq_dec : EqDecision CustomRelayStatus.
Proof. solve_decision. Defined.
#[export] Instance ClientEntry_eq_dec : EqDecision ClientEntry.
Proof. solve_decision. Defined.
#[export] Instance ServerStatsView_eq_dec : EqDecision ServerStatsView.
Proof. solve_decision. Defined.
#[export] Instance ServerStatus_eq_dec : EqDecision ServerStatus.
Proof. solve_decision. Defined.
#[export] Instance ClientStatus_eq_dec : EqDecision ClientStatus.
Proof. solve_decision. Defined.
#[export] Instance StatusSnapshot_eq_dec : EqDecision StatusSnapshot.
Proof. solve_decision. Defined.

(** ** The client's status handle *)

(** [format!("{:016x}")] of a [u64]. *)
Definition hex_digit (d : Z) : Ascii.ascii :=
  Ascii.ascii_of_nat (Z.to_nat (if (d <? 10)%Z then 48 + d else 87 + d)).

Fixpoint hex_fixed (n : nat) (z : Z) : string :=
  match n with
  | O => ""
  | S n => hex_fixed n (z / 16) +:+ String (hex_digit (z mod 16)) ""
  end.

Definition hex16 (z : Z) : string := hex_fixed 16 z.

Definition NANOS : Z := 1000000000.
Definition as_secs (d : Z) : Z := d / NANOS.

Record ClientConnectedInfo : Type := mkConnectedInfo {
  in_assigned_ip : option string;
  in_network : option string;
  in_gateway : option string;
  in_assigned_ip6 : option string;
  in_network6 : option string;
  in_gateway6 : option string;
  in_mtu : Z;
  in_routes : list string;
  in_routes6 : list string;
}.

Definition connected_info_default : ClientConnectedInfo :=
  mkConnectedInfo None None None None None None 0 [] [].

Record ReconnectState : Type := mkReconnect {
  failed_attempts : Z;
  last_error : option string;
  next_attempt_at : option Z;
}.

Definition reconnect_default : ReconnectState := mkReconnect 0 None None.

Section Handle.
(** The probes: a live connection, and the shared set of bypass addresses. *)
Context {Conn Bypass : Type}.

Record ClientStateInner : Type := mkStateInner {
  h_instance : string;
  h_connected : bool;
  h_server_node_id : string;
  h_device_id : string;
  h_connected_at : option Z;
  h_info : ClientConnectedInfo;
  h_connection_probe : option Conn;
  h_bypass_routes_probe : option Bypass;
  h_reconnect : ReconnectState;
  h_log_file : option string;
}.

(** [ClientStatusHandle::new] *)
Definition handle_new (instance server_node_id : string) (device_id : Z) : ClientStateInner :=
  mkStateInner instance false server_node_id (hex16 device_id) None connected_info_default None None
    reconnect_default None.

Definition set_log_file (path : option string) (h : ClientStateInner) : ClientStateInner :=
  mkStateInner (h_instance h) (h_connected h) (h_server_node_id h) (h_device_id h) (h_connected_at h)
    (h_info h) (h_connection_probe h) (h_bypass_routes_probe h) (h_reconnect h) path.

Definition set_connected (now : Z) (info : ClientConnectedInfo) (connection : Conn)
    (bypass : option Bypass) (h : ClientStateInner) : ClientStateInner :=
  mkStateInner (h_instance h) true (h_server_node_id h) (h_device_id h) (Some now) info
    (Some connection) bypass reconnect_default (h_log_file h).

Definition set_disconnected (h : ClientStateInner) : ClientStateInner :=
  mkStateInner (h_instance h) false (h_server_node_id h) (h_device_id h) None connected_info_default
    None None (h_reconnect h) (h_log_file h).

Definition set_reconnecting (failures : Z) (error : string) (at_ : Z) (h : ClientStateInner)
  : ClientStateInner :=
  mkStateInner (h_instance h) (h_connected h) (h_server_node_id h) (h_device_id h) (h_connected_at h)
    (h_info h) (h_connection_probe h) (h_bypass_routes_probe h)
    (mkReconnect failures (Some error) (Some at_)) (h_log_file h).

(** What the probes return when they are called. *)
Context (probe : Conn -> ConnectionSnapshot) (collected : Bypass -> list string).

Definition status_mode (connected : bool) (info : ClientConnectedInfo) : string :=
  if negb connected then "none"
  else match in_assigned_ip info, in_assigned_ip6 info with
       | None, _ => "ipv6"
       | Some _, Some _ => "dual-stack"
       | Some _, None => "ipv4"
       end.

Definition client_status (now : Z) (h : ClientStateInner) : ClientStatus * option Conn :=
  let info := h_info h in
  (mkClientStatus (h_instance h)
     (if h_connected h then "connected" else "disconnected")
     (h_server_node_id h) (h_device_id h)
     ((fun t => as_secs (Z.max 0 (now - t))) <$> h_connected_at h)
     (failed_attempts (h_reconnect h))
     ((fun t => as_secs (Z.max 0 (t - now))) <$> next_attempt_at (h_reconnect h))
     (last_error (h_reconnect h))
     (status_mode (h_connected h) info)
     (in_assigned_ip info) (in_network info) (in_gateway info)
     (in_assigned_ip6 info) (in_network6 info) (in_gateway6 info)
     (if h_connected h then Some (in_mtu info) else None)
     (in_routes info) (in_routes6 info) None []
     (default [] (collected <$> h_bypass_routes_probe h)) (h_log_file h),
   h_connection_probe h).

Definition with_connection (c : ConnectionSnapshot) (s : ClientStatus) : ClientStatus :=
  mkClientStatus (cs_instance s) (cs_state s) (cs_server_node_id s) (cs_device_id s)
    (cs_connected_since_secs s) (cs_failed_attempts s) (cs_next_attempt_secs s) (cs_last_error s)
    (cs_mode s) (cs_assigned_ip s) (cs_network s) (cs_gateway s) (cs_assigned_ip6 s) (cs_network6 s)
    (cs_gateway6 s) (cs_mtu s) (cs_routes s) (cs_routes6 s) (Some (cn_description c))
    (cn_custom_relays c) (cs_bypass_addrs s) (cs_log_file s).

Definition client_snapshot (now : Z) (h : ClientStateInner) : ClientStatus :=
  match client_status now h with
  | (status, Some p) => with_connection (probe p) status
  | (status, None) => status
  end.

(** [ClientStatusHandle::snapshot] *)
Definition snapshot (now : Z) (h : ClientStateInner) : StatusSnapshot :=
  SClient (client_snapshot now h).

Definition snapshot_without_connection (now : Z) (h : ClientStateInner) : StatusSnapshot :=
  SClient (client_status now h).1.

Definition handle_connection_snapshot (h : ClientStateInner) : option ConnectionSnapshot :=
  probe <$> h_connection_probe h.
End Handle.
Arguments ClientStateInner : clear implicits.

(** ** Printed text *)

(** [println!] of a [u64]. *)
Definition show (z : Z) : string := pretty (Z.to_N z).

Definition fmt_opt (v : option string) : string := default "-" v.

Definition fmt_uptime (secs : Z) : string :=
  let h := (secs / 3600)%Z in
  let m := (secs mod 3600 / 60)%Z in
  let s := (secs mod 60)%Z in
  if (0 <? h)%Z then show h +:+ "h" +:+ show m +:+ "m" +:+ show s +:+ "s"
  else if (0 <? m)%Z then show m +:+ "m" +:+ show s +:+ "s"
  else show s +:+ "s".

(** One line per [Some]. *)
Definition if_some (label : string) (v : option string) : list string :=
  match v with Some s => [label +:+ s] | None => [] end.

Definition server_client_lines (c : ClientEntry) : list string :=
  ("  - " +:+ ce_endpoint_id c +:+ " (device " +:+ ce_device_id c +:+ ", session " +:+
   show (ce_session_id c) +:+ ") ipv4=" +:+ fmt_opt (ce_assigned_ip c) +:+
   " ipv6=" +:+ fmt_opt (ce_assigned_ip6 c)) ::
  if_some "      connection: " (ce_connection c).

Definition print_server_text (s : ServerStatus) : list string :=
  let st := ss_stats s in
  (["Role:           server";
    "State:          running";
    "Node ID:        " +:+ ss_node_id s;
    "Uptime:         " +:+ fmt_uptime (ss_uptime_secs s);
    "Mode:           " +:+ ss_mode s] ++
   if_some "Network:        " (ss_network s) ++
   if_some "Network6:       " (ss_network6 s) ++
   ["Clients:        " +:+ show (Z.of_nat (ss_connected_clients s));
    "Active conns:   " +:+ show (ss_active_connections s)] ++
   match ss_bypass_addrs s with
   | [] => ["Bypass addrs:   (none discovered yet)"]
   | addrs => ["Bypass addrs:   " +:+ join_with ", " addrs;
               "                (published to clients for bypass routing)"]
   end ++
   match ss_clients s with
   | [] => []
   | clients => [""; "Connected clients:"] ++ (clients ≫= server_client_lines)
   end ++
   [""; "Packet stats:";
    "  tun_read=" +:+ show (sv_tun_packets_read st) +:+
      "  to_clients=" +:+ show (sv_packets_to_clients st) +:+
      "  from_clients=" +:+ show (sv_packets_from_clients st);
    "  no_route=" +:+ show (sv_packets_no_route st) +:+
      "  unknown_version=" +:+ show (sv_packets_unknown_version st) +:+
      "  dropped_full=" +:+ show (sv_packets_dropped_full st);
    "  tun_write_failed=" +:+ show (sv_packets_tun_write_failed st) +:+
      "  spoofed=" +:+ show (sv_packets_spoofed st) +:+
      "  inter_client_blocked=" +:+ show (sv_packets_inter_client_blocked st)])%list.

Definition reconnecting_lines (c : ClientStatus) : list string :=
  if (0 <? cs_failed_attempts c)%Z then
    let next :=
      match cs_next_attempt_secs c with
      | Some secs => if (0 <? secs)%Z then "next in " +:+ fmt_uptime secs else "trying now"
      | None => "trying now"
      end in
    let plural := if (cs_failed_attempts c =? 1)%Z then "" else "s" in
    ("Reconnecting:   " +:+ show (cs_failed_attempts c) +:+ " failed attempt" +:+ plural +:+
     ", " +:+ next) :: if_some "Last error:     " (cs_last_error c)
  else [].

Definition relay_lines (relay : CustomRelayStatus) : list string :=
  let state :=
    match working relay with
    | Some true => "working"
    | Some false => "not working"
    | None => "status unavailable"
    end in
  ("Custom relay:   " +:+ url relay +:+ " (" +:+ state +:+ ")") ::
  if_some "                " (relay_error relay).

Definition connected_lines (c : ClientStatus) : list string :=
  (["Mode:           " +:+ cs_mode c;
    "VPN IPv4:       " +:+ fmt_opt (cs_assigned_ip c);
    "Network:        " +:+ fmt_opt (cs_network c);
    "Gateway:        " +:+ fmt_opt (cs_gateway c)] ++
   match cs_assigned_ip6 c, cs_network6 c with
   | None, None => []
   | _, _ => ["VPN IPv6:       " +:+ fmt_opt (cs_assigned_ip6 c);
              "Network6:       " +:+ fmt_opt (cs_network6 c);
              "Gateway6:       " +:+ fmt_opt (cs_gateway6 c)]
   end ++
   if_some "MTU:            " (show <$> cs_mtu c) ++
   match cs_routes c with
   | [] => ["Routes:         (none)"]
   | routes => ["Routes:         " +:+ join_with ", " routes]
   end ++
   match cs_routes6 c with
   | [] => []
   | routes => ["Routes6:        " +:+ join_with ", " routes]
   end ++
   if_some "Connection:     " (cs_connection c) ++
   match cs_bypass_addrs c with
   | [] => ["Bypass addrs:   (none collected)"]
   | addrs => ["Bypass addrs:   " +:+ join_with ", " addrs;
               "                (collected, not necessarily applied successfully;";
               "                 verify with the OS routing table, e.g. netstat -nr)"]
   end)%list.

Definition print_client_text (c : ClientStatus) : list string :=
  (["Role:           client";
    "Instance:       " +:+ cs_instance c;
    "State:          " +:+ cs_state c;
    "Server:         " +:+ cs_server_node_id c;
    "Device ID:      " +:+ cs_device_id c] ++
   if_some "Log file:       " (cs_log_file c) ++
   if_some "Connected for:  " (fmt_uptime <$> cs_connected_since_secs c) ++
   reconnecting_lines c ++
   (cs_custom_relays c ≫= relay_lines) ++
   (if String.eqb (cs_state c) "connected" then connected_lines c else []))%list.

(** The text form of [print_status]. *)
Definition print_status (s : StatusSnapshot) : list string :=
  match s with
  | SServer s => print_server_text s
  | SClient c => print_client_text c
  end.

(** ** Lemmas *)

Lemma digit_value c : is_ascii_digit c = true -> (0 <= digit c <= 9)%Z.
Proof.
  unfold is_ascii_digit, between, digit. intros [H1%Nat.leb_le H2%Nat.leb_le]%andb_true_iff. lia.
Qed.

(** A number is delimited by a letter. *)
Lemma show_delimited (a b : Z) (c d : Ascii.ascii) (s t : string) :
  (0 <= a)%Z -> (0 <= b)%Z -> is_ascii_digit c = false -> is_ascii_digit d = false ->
  show a +:+ String c s = show b +:+ String d t -> a = b /\ c = d /\ s = t.
Proof.
  intros Ha Hb Hc Hd. unfold show.
  assert (Hgen : forall x y, all_chars is_ascii_digit x = true -> all_chars is_ascii_digit y = true ->
    x +:+ String c s = y +:+ String d t -> x = y /\ c = d /\ s = t).
  { induction x as [|e x IH]; intros [|f y] Hx Hy He; cbn in *.
    - by injection He as -> ->.
    - injection He as -> _. by rewrite Hc in Hy.
    - injection He as <- _. by rewrite Hd in Hx.
    - injection He as -> He. apply andb_true_iff in Hx as [_ Hx], Hy as [_ Hy].
      by destruct (IH y Hx Hy He) as (-> & -> & ->). }
  intros He. apply Hgen in He as (Hp & -> & ->); [|by eapply digits_value_all, pretty_digits..].
  apply (inj pretty) in Hp. split; [|done]. lia.
Qed.

Lemma uptime_parts secs : (0 <= secs)%Z ->
  (secs = 3600 * (secs / 3600) + 60 * (secs mod 3600 / 60) + secs mod 60 /\
   0 <= secs / 3600 /\ 0 <= secs mod 3600 / 60 < 60 /\ 0 <= secs mod 60 < 60)%Z.
Proof.
  intros Hs. assert (secs mod 60 = (secs mod 3600) mod 60)%Z as Hm.
  { change 3600%Z with (60 * 60)%Z. rewrite Z.rem_mul_r by lia.
    by rewrite Z.mul_comm, Z.mod_add, Z.mod_mod by lia. }
  rewrite Hm. pose proof (Z.div_mod secs 3600 ltac:(lia)). pose proof (Z.mod_pos_bound secs 3600 ltac:(lia)).
  pose proof (Z.div_mod (secs mod 3600) 60 ltac:(lia)).
  pose proof (Z.mod_pos_bound (secs mod 3600) 60 ltac:(lia)).
  pose proof (Z.div_pos secs 3600 ltac:(lia) ltac:(lia)). lia.
Qed.

(** The printed duration determines the seconds. *)
Lemma fmt_uptime_inj a b : (0 <= a)%Z -> (0 <= b)%Z -> fmt_uptime a = fmt_uptime b -> a = b.
Proof.
  intros Ha Hb. destruct (uptime_parts a Ha) as (Ea & Ha1 & Ha2 & Ha3).
  destruct (uptime_parts b Hb) as (Eb & Hb1 & Hb2 & Hb3). unfold fmt_uptime.
  destruct (Z.ltb_spec 0 (a / 3600)) as [Hah|Hah], (Z.ltb_spec 0 (b / 3600)) as [Hbh|Hbh];
    repeat match goal with |- context [(0 <? ?x)%Z] => destruct (Z.ltb_spec 0 x) end;
    intros He; repeat (apply show_delimited in He as (? & ? & He); [|lia || reflexivity..]);
    try discriminate; lia.
Qed.

(** The name printed for a device determines it. *)
Lemma hex_digit_inj a b : (0 <= a < 16)%Z -> (0 <= b < 16)%Z -> hex_digit a = hex_digit b -> a = b.
Proof.
  unfold hex_digit. intros Ha Hb He. apply (f_equal Ascii.nat_of_ascii) in He.
  destruct (Z.ltb_spec a 10), (Z.ltb_spec b 10);
    rewrite !Ascii.nat_ascii_embedding in He by lia; lia.
Qed.

Lemma append_last (s t : string) c d : s +:+ String c "" = t +:+ String d "" -> s = t /\ c = d.
Proof.
  revert t. induction s as [|a s IH]; intros [|b t] He; cbn in *.
  - by injection He as ->.
  - injection He as -> He. by destruct t.
  - injection He as -> He. by destruct s.
  - injection He as -> He. by destruct (IH t He) as [-> ->].
Qed.

Lemma hex_fixed_inj n a b :
  (0 <= a < 16 ^ Z.of_nat n)%Z -> (0 <= b < 16 ^ Z.of_nat n)%Z -> hex_fixed n a = hex_fixed n b -> a = b.
Proof.
  revert a b. induction n as [|n IH]; intros a b; [cbn; lia|].
  rewrite Nat2Z.inj_succ, Z.pow_succ_r by lia. intros Ha Hb He. cbn [hex_fixed] in He.
  apply append_last in He as [He Hd]. apply hex_digit_inj in Hd; [|apply Z.mod_pos_bound; lia..].
  apply IH in He; [|split; [apply Z.div_pos|apply Z.div_lt_upper_bound]; lia..].
  rewrite (Z.div_mod a 16), (Z.div_mod b 16) by lia. by rewrite He, Hd.
Qed.

Lemma hex16_inj a b : is_uint 64 a -> is_uint 64 b -> hex16 a = hex16 b -> a = b.
Proof. intros Ha Hb. apply hex_fixed_inj; exact Ha || exact Hb. Qed.

(** ** The handle's invariant *)

Section HandleProofs.
Context {Conn Bypass : Type} (probe : Conn -> ConnectionSnapshot) (collected : Bypass -> list string).

(** The calls of the client on its handle. *)
Inductive status_call : Type :=
| LogFileCall (path : option string)
| ConnectedCall (now : Z) (info : ClientConnectedInfo) (c : Conn) (b : option Bypass)
| DisconnectedCall
| ReconnectingCall (failures : Z) (error : string) (at_ : Z).

Definition status_apply (h : ClientStateInner Conn Bypass) (c : status_call)
  : ClientStateInner Conn Bypass :=
  match c with
  | LogFileCall path => set_log_file path h
  | ConnectedCall now info c b => set_connected now info c b h
  | DisconnectedCall => set_disconnected h
  | ReconnectingCall n e t => set_reconnecting n e t h
  end.

Definition status_run (h : ClientStateInner Conn Bypass) (cs : list status_call)
  : ClientStateInner Conn Bypass := fold_left status_apply cs h.

(** The session the calls leave open, if any. *)
Definition open_session (acc : option (Z * ClientConnectedInfo * Conn * option Bypass)) (c : status_call) :=
  match c with
  | ConnectedCall now info c b => Some (now, info, c, b)
  | DisconnectedCall => None
  | _ => acc
  end.

(** The state of the handle while [o] is open. *)
Definition handle_for (o : option (Z * ClientConnectedInfo * Conn * option Bypass))
    (h : ClientStateInner Conn Bypass) : Prop :=
  match o with
  | Some (now, info, c, b) => h_connected h = true /\ h_connected_at h = Some now /\ h_info h = info /\
      h_connection_probe h = Some c /\ h_bypass_routes_probe h = b
  | None => h_connected h = false /\ h_connected_at h = None /\ h_info h = connected_info_default /\
      h_connection_probe h = None /\ h_bypass_routes_probe h = None
  end.

Lemma status_run_for o h cs :
  handle_for o h -> handle_for (fold_left open_session cs o) (status_run h cs).
Proof.
  revert o h. induction cs as [|c cs IH]; intros o h Hh; [done|]. cbn [fold_left status_run].
  apply IH. destruct c; cbn [status_apply open_session]; [|done..|].
  - by destruct o as [[[[]]]|].
  - by destruct o as [[[[]]]|].
Qed.

(** The reconnect state the calls leave. *)
Definition open_outage (acc : ReconnectState) (c : status_call) : ReconnectState :=
  match c with
  | ConnectedCall _ _ _ _ => reconnect_default
  | ReconnectingCall n e t => mkReconnect n (Some e) (Some t)
  | _ => acc
  end.

Lemma status_run_fields h cs :
  h_reconnect (status_run h cs) = fold_left open_outage cs (h_reconnect h) /\
  h_instance (status_run h cs) = h_instance h /\ h_server_node_id (status_run h cs) = h_server_node_id h /\
  h_device_id (status_run h cs) = h_device_id h.
Proof.
  revert h. induction cs as [|c cs IH]; intros h; [done|]. cbn [status_run fold_left].
  destruct (IH (status_apply h c)) as (H1 & H2 & H3 & H4). unfold status_run in *. rewrite H1, H2, H3, H4.
  by destruct c.
Qed.

(** The status a client reports is that of its session: after any sequence
    of calls on the handle, and whenever it is read, the snapshot shows the
    last session opened and not closed since (its addresses, routes, age, and
    what the probes of its connection return now), and shows none of these
    when there is none; the failures, last error and remaining wait are those
    of the outage since the last connection; and two devices never show the
    same name. *)
Theorem client_status_exact instance node dev calls now :
  let h := status_run (handle_new instance node dev) calls in
  let s := client_snapshot probe collected now h in
  let o := fold_left open_outage calls reconnect_default in
  cs_instance s = instance /\ cs_server_node_id s = node /\
  (forall dev', is_uint 64 dev -> is_uint 64 dev' -> cs_device_id s = hex16 dev' -> dev' = dev) /\
  cs_failed_attempts s = failed_attempts o /\ cs_last_error s = last_error o /\
  cs_next_attempt_secs s = (fun t => as_secs (Z.max 0 (t - now))) <$> next_attempt_at o /\
  match fold_left open_session calls None with
  | Some (since, info, c, b) =>
      cs_state s = "connected" /\ cs_connected_since_secs s = Some (as_secs (Z.max 0 (now - since))) /\
      (cs_assigned_ip s, cs_network s, cs_gateway s) = (in_assigned_ip info, in_network info, in_gateway info) /\
      (cs_assigned_ip6 s, cs_network6 s, cs_gateway6 s) =
        (in_assigned_ip6 info, in_network6 info, in_gateway6 info) /\
      cs_mtu s = Some (in_mtu info) /\ cs_routes s = in_routes info /\ cs_routes6 s = in_routes6 info /\
      cs_connection s = Some (cn_description (probe c)) /\ cs_custom_relays s = cn_custom_relays (probe c) /\
      cs_bypass_addrs s = default [] (collected <$> b) /\ cs_mode s <> "none"
  | None =>
      cs_state s = "disconnected" /\ cs_mode s = "none" /\ cs_connected_since_secs s = None /\
      (cs_assigned_ip s, cs_network s, cs_gateway s) = (None, None, None) /\
      (cs_assigned_ip6 s, cs_network6 s, cs_gateway6 s) = (None, None, None) /\
      cs_mtu s = None /\ cs_routes s = [] /\ cs_routes6 s = [] /\ cs_connection s = None /\
      cs_custom_relays s = [] /\ cs_bypass_addrs s = []
  end.
Proof.
  intros h s o. pose proof (status_run_for None (handle_new instance node dev) calls) as Hf.
  destruct (status_run_fields (handle_new instance node dev) calls) as (Hr & Hi & Hn & Hd). fold h in Hf, Hr, Hi, Hn, Hd.
  assert (Hdev : forall dev', is_uint 64 dev -> is_uint 64 dev' -> h_device_id h = hex16 dev' -> dev' = dev).
  { intros dev' Hu Hu'. rewrite Hd. intros He. symmetry. by apply hex16_inj. }
  change (h_reconnect (handle_new instance node dev)) with reconnect_default in Hr. fold o in Hr.
  specialize (Hf ltac:(by split_and!)). unfold s, client_snapshot, client_status.
  destruct (fold_left open_session calls None) as [[[[t info] c] b]|];
    destruct Hf as (H1 & H2 & H3 & H4 & H5); rewrite H1, H2, H3, H4, H5, Hr;
    cbn; (split_and!; try done; try (by rewrite ?Hr)).
  destruct (in_assigned_ip info), (in_assigned_ip6 info); done.
Qed.
End HandleProofs.
Arguments status_call : clear implicits.
