(* ===== verification/Control.v ===== *)
(** * The control endpoint ([src/control.rs], [src/main.rs])

    The listener that serves status snapshots, the query, the listing of
    instances and [stop_client], over the socket files of the runtime
    directory.  What a connection gives the querier (the bytes received and
    how the stream ended within the timeout) is an input; serde_json is the
    class [Json] with its round trip, and its tolerance of trailing white
    space. *)

From stdpp Require Import sorting.
From S2P Require Import Prelude Text Errors Runtime Signaling Status.

#[local] Open Scope string_scope.

Definition QUERY_TIMEOUT_SECS : Z := 2.
Definition MAX_SNAPSHOT_SIZE : Z := Z.shiftl 1 20.

Inductive ErrorKind : Type := NotFound | ConnectionRefused | PermissionDenied | OtherKind.

(** How the reading ends: the peer closes, [QUERY_TIMEOUT] passes, or an error. *)
Inductive ending : Type := PeerClosed | TimedOut | ReadFailed.

Inductive connecting : Type :=
| ConnectTimeout
| ConnectError (kind : ErrorKind)
| Connected (received : list Z) (e : ending).

Definition is_not_running (kind : ErrorKind) : bool :=
  match kind with NotFound | ConnectionRefused => true | _ => false end.

(** [stream.take(MAX_SNAPSHOT_SIZE + 1)] ends by itself once that many bytes
    have come. *)
Definition read_all (received : list Z) (e : ending) : vres (list Z) :=
  let full := (MAX_SNAPSHOT_SIZE + 1 <=? Z.of_nat (length received))%Z in
  let buf := if full then take (Z.to_nat (MAX_SNAPSHOT_SIZE + 1)) received else received in
  let e := if full then PeerClosed else e in
  match e with
  | TimedOut => Fail (VpnError_config (msg "Timed out reading status response"))
  | ReadFailed => Fail (Network (msg "read error"))
  | PeerClosed =>
      if (MAX_SNAPSHOT_SIZE <? Z.of_nat (length buf))%Z
      then Fail (VpnError_config (msg "Status response exceeds maximum size"))
      else Ret buf
  end.

(** On Unix, a connect with a timeout to the socket; on Windows, the open of
    the pipe, which does not wait. *)
Definition read_snapshot_bytes (windows : bool) (conn : connecting) : vres (option (list Z)) :=
  match conn with
  | ConnectTimeout => Fail (VpnError_config (msg "Timed out connecting to control socket"))
  | ConnectError kind =>
      if is_not_running kind then Ret None
      else match kind, windows with
           | PermissionDenied, false =>
               Fail (VpnError_config (msg "Permission denied connecting to the control socket (daemon started by an older ezvpn version? restart it, or retry with sudo)"))
           | _, _ => Fail (Network (msg "connect error"))
           end
  | Connected received e => Some <$> read_all received e
  end.

Section Query.
Context `{Json StatusSnapshot}.

(** The bytes [serve_one] writes before it closes the stream. *)
Definition serve_one (s : StatusSnapshot) : list Z :=
  match to_vec s with
  | Some bytes => (bytes ++ [10%Z])%list
  | None => []
  end.

Definition query_status (windows : bool) (connect : connecting) (instance : string)
  : vres (option StatusSnapshot) :=
  _ ← validate_instance_name instance;
  raw ← read_snapshot_bytes windows connect;
  match raw with
  | None => Ret None
  | Some bytes =>
      Some <$> ok_or (VpnError_config (msg "Malformed status response")) (from_slice bytes)
  end.

Record InstanceInfo : Type := mkInstanceInfo {
  ii_instance : string;
  ii_status : option StatusSnapshot;
  ii_error : option VpnError;
}.

Definition probe_instance (instance : string) (r : vres (option StatusSnapshot)) : option InstanceInfo :=
  match r with
  | Ret status => Some (mkInstanceInfo instance status None)
  | Fail e => Some (mkInstanceInfo instance None (Some e))
  | Panic => None
  end.

(** [query] gives the result of the probe of each candidate. *)
Fixpoint probe_instances (query : string -> vres (option StatusSnapshot)) (instances : list string)
  : vres (list InstanceInfo) :=
  match instances with
  | [] => Ret []
  | instance :: rest =>
      match probe_instance instance (query instance) with
      | Some info => out ← probe_instances query rest; Ret (info :: out)
      | None => Panic
      end
  end.

Definition list_instances (entries : option (list string)) (role : LockRole)
    (query : string -> vres (option StatusSnapshot)) : vres (list InstanceInfo) :=
  probe_instances query (list_locked_instances entries role).

(** [{:<n}] *)
Definition pad (n : nat) (s : string) : string :=
  s +:+ String.concat "" (replicate (n - String.length s) " ").

Context (to_string : VpnError -> string).

(** The text form of [print_instances]. *)
Definition print_instances (role : LockRole) (instances : list InstanceInfo) : list string :=
  let label := slug role in
  match instances with
  | [] => ["No ezvpn " +:+ label +:+ " instances found."]
  | _ =>
      ("ezvpn " +:+ label +:+ " instances:") ::
      ((fun info =>
          let detail :=
            match ii_status info, ii_error info with
            | Some (SClient c), _ => pad 13 (cs_state c) +:+ " " +:+ fmt_opt (cs_assigned_ip c)
            | Some (SServer s), _ =>
                pad 13 "running" +:+ " " +:+ show (Z.of_nat (ss_connected_clients s)) +:+ " client(s)"
            | None, Some e => "error: " +:+ to_string e
            | None, None => "not responding (stale lock)"
            end in
          "  " +:+ pad 16 (ii_instance info) +:+ " " +:+ detail) <$> instances)
  end.

(** ** [stop_client] *)

Inductive stop_result : Type := NotRunning | Stopped (pid : Z) | SignalSent (pid : Z).

Inductive stop_error : Type := Vpn (e : VpnError) | NoPid | KillFailed (pid : Z).

Definition STOP_POLLS : nat := 50.

(** The queries after the signal, one per 100 ms. *)
Fixpoint wait_stopped (pid : Z) (polls : list (vres (option StatusSnapshot))) : outcome stop_error stop_result :=
  match polls with
  | [] => Ret (SignalSent pid)
  | r :: rest =>
      match r with
      | Ret None => Ret (Stopped pid)
      | Ret (Some _) => wait_stopped pid rest
      | Fail e => Fail (Vpn e)
      | Panic => Panic
      end
  end.

(** [pid as libc::pid_t] *)
Definition as_pid_t (pid : Z) : Z := if (pid <? 2 ^ 31)%Z then pid else (pid - 2 ^ 32)%Z.

(** The arguments of the successful [kill] calls, and the result; [kill] is
    whether a call succeeds. *)
Definition stop_client (instance : string) (first : vres (option StatusSnapshot))
    (lock_pid : vres (option Z)) (kill : Z -> bool) (polls : list (vres (option StatusSnapshot)))
  : list Z * outcome stop_error stop_result :=
  match validate_instance_name instance with
  | Ret _ =>
      match first with
      | Ret None => ([], Ret NotRunning)
      | Ret (Some _) =>
          match lock_pid with
          | Ret (Some pid) =>
              if kill (as_pid_t pid) then ([as_pid_t pid], wait_stopped pid (take STOP_POLLS polls))
              else ([], Fail (KillFailed pid))
          | Ret None => ([], Fail NoPid)
          | Fail e => ([], Fail (Vpn e))
          | Panic => ([], Panic)
          end
      | Fail e => ([], Fail (Vpn e))
      | Panic => ([], Panic)
      end
  | Fail e => ([], Fail (Vpn e))
  | Panic => ([], Panic)
  end.
End Query.

(** ** Listeners *)

(** A socket file with a process accepting on it, or left behind. *)
Inductive sock : Type := Listening (pid : N) | StaleSock.

#[export] Instance sock_eq_dec : EqDecision sock.
Proof. solve_decision. Defined.

Abbreviation Socks := (gmap string sock).

(** [spawn_status_listener] on Unix; the flags are the outcomes of
    [remove_file], [bind] (which refuses an existing file in any case) and
    [set_permissions], whose failure drops the listener and leaves its file. *)
Definition spawn_status_listener (dir : string) (removes binds chmods : bool) (role : LockRole)
    (instance : string) (pid : N) (w : Socks) : Socks * vres string :=
  match validate_instance_name instance with
  | Ret _ =>
      let path := socket_path dir role instance in
      let w := if removes then delete path w else w in
      if binds && bool_decide (w !! path = None) then
        if chmods then (<[path := Listening pid]> w, Ret path)
        else (<[path := StaleSock]> w,
              Fail (VpnError_config (msg "Failed to set control socket permissions")))
      else (w, Fail (VpnError_config (msg "Failed to bind control socket")))
  | Fail e => (w, Fail e)
  | Panic => (w, Panic)
  end.

(** The end of the accept loop, and [Drop for StatusListenerGuard]. *)
Definition stop_listening (path : string) (w : Socks) : Socks :=
  match w !! path with Some _ => <[path := StaleSock]> w | None => w end.

Definition drop_listener (removes : bool) (path : string) (w : Socks) : Socks :=
  if removes then delete path w else stop_listening path w.

(** The listeners of a process end with it. *)
Definition exit_listeners (pid : N) (w : Socks) : Socks :=
  (fun s => if decide (s = Listening pid) then StaleSock else s) <$> w.

(** A connection attempt, a listener answering in time. *)
Definition connect_socket `{Json StatusSnapshot} (served : N -> StatusSnapshot) (path : string) (w : Socks)
  : connecting :=
  match w !! path with
  | None => ConnectError NotFound
  | Some StaleSock => ConnectError ConnectionRefused
  | Some (Listening pid) => Connected (serve_one (served pid)) PeerClosed
  end.

(** Several processes with their locks, and the listener guards they hold
    ([true] while the accept loop runs). *)
Record Running : Type := mkRunning {
  host : Host;
  socks : Socks;
  guards : gmap N bool;
}.

Section Running.
Context (dir : string).

(** A process starts, goes through [VpnLock::acquire], spawns its listener
    while it holds the lock, drops its guard before the lock, or exits at any
    point; an accept loop may end. *)
Inductive running_step : Running -> Running -> Prop :=
| run_start c pid role instance :
    procs (host c) !! pid = None -> (Z.of_N pid < 2 ^ 32)%Z ->
    validate_instance_name instance = Ret tt ->
    running_step c (mkRunning (mkHost (disk (host c)) (<[pid := (role, instance, Preparing)]> (procs (host c))))
                      (socks c) (guards c))
| run_call c pid role instance pc w pc' ok partial :
    procs (host c) !! pid = Some (role, instance, pc) -> guards c !! pid = None ->
    lock_next ok partial role (lock_path dir role instance) pid pc (disk (host c)) = (w, pc') ->
    running_step c (mkRunning (mkHost w (<[pid := (role, instance, pc')]> (procs (host c)))) (socks c) (guards c))
| run_spawn c pid role instance w r removes binds chmods :
    procs (host c) !! pid = Some (role, instance, Holding) -> guards c !! pid = None ->
    spawn_status_listener dir removes binds chmods role instance pid (socks c) = (w, r) ->
    running_step c (mkRunning (host c) w
      (match r with Ret _ => <[pid := true]> (guards c) | _ => guards c end))
| run_break c pid role instance pc :
    procs (host c) !! pid = Some (role, instance, pc) -> guards c !! pid = Some true ->
    running_step c (mkRunning (host c) (stop_listening (socket_path dir role instance) (socks c))
      (<[pid := false]> (guards c)))
| run_drop c pid role instance pc alive removes :
    procs (host c) !! pid = Some (role, instance, pc) -> guards c !! pid = Some alive ->
    running_step c (mkRunning (host c) (drop_listener removes (socket_path dir role instance) (socks c))
      (delete pid (guards c)))
| run_exit c pid role instance pc :
    procs (host c) !! pid = Some (role, instance, pc) ->
    running_step c (mkRunning
      (mkHost (unlock (disk (host c)) (lock_path dir role instance) pid) (delete pid (procs (host c))))
      (exit_listeners pid (socks c)) (delete pid (guards c))).

(** Whatever files earlier processes left behind. *)
Inductive running_reachable : Running -> Prop :=
| reach_init contents left :
    map_Forall (fun _ s => s = StaleSock) left ->
    running_reachable (mkRunning (host_init contents) left ∅)
| reach_step c c' : running_reachable c -> running_step c c' -> running_reachable c'.

(** ** The invariant *)

Record running_inv (c : Running) : Prop := {
  ri_host : host_inv dir (host c);
  ri_guard : forall p alive, guards c !! p = Some alive ->
    exists r i, procs (host c) !! p = Some (r, i, Holding);
  ri_live : forall p r i pc, guards c !! p = Some true -> procs (host c) !! p = Some (r, i, pc) ->
    socks c !! socket_path dir r i = Some (Listening p);
  ri_sock : forall path p, socks c !! path = Some (Listening p) ->
    guards c !! p = Some true /\ exists r i, procs (host c) !! p = Some (r, i, Holding) /\
      path = socket_path dir r i;
}.

(** The holder of an instance is unique. *)
Lemma holder_unique h p q r i :
  host_inv dir h -> procs h !! p = Some (r, i, Holding) -> procs h !! q = Some (r, i, Holding) -> p = q.
Proof. intros Hi Hp Hq. apply (hi_owned _ _ Hi) in Hp, Hq; [|done..]. congruence. Qed.

Lemma socket_path_inj r i r' i' : socket_path dir r i = socket_path dir r' i' -> r = r' /\ i = i'.
Proof. intros He. by eapply instance_file_inj. Qed.

(** Only the holder's own path can be touched, and the guard of no other
    process is there. *)
Lemma other_path c p q r i r' i' :
  running_inv c -> procs (host c) !! p = Some (r, i, Holding) ->
  procs (host c) !! q = Some (r', i', Holding) -> p <> q -> socket_path dir r i <> socket_path dir r' i'.
Proof.
  intros Hc Hp Hq Hne [-> ->]%socket_path_inj. apply Hne. by eapply holder_unique; [apply ri_host|..].
Qed.

Lemma spawn_effect removes binds chmods role instance pid w w' r :
  spawn_status_listener dir removes binds chmods role instance pid w = (w', r) ->
  validate_instance_name instance = Ret tt ->
  (forall q, q <> socket_path dir role instance -> w' !! q = w !! q) /\
  match r with
  | Ret path => path = socket_path dir role instance /\ w' !! path = Some (Listening pid)
  | Fail _ => forall p, w' !! socket_path dir role instance = Some (Listening p) ->
      w !! socket_path dir role instance = Some (Listening p)
  | Panic => False
  end.
Proof.
  unfold spawn_status_listener. intros Hs Hv. rewrite Hv in Hs.
  set (path := socket_path dir role instance) in *.
  assert (Hrest : forall q, q <> path -> (if removes then delete path w else w) !! q = w !! q).
  { intros q Hq. destruct removes; [by rewrite lookup_delete_ne|done]. }
  destruct (binds && _); [destruct chmods|]; injection Hs as <- <-.
  - split; [|split; [done|apply lookup_insert_eq]]. intros q Hq. rewrite lookup_insert_ne by done. by apply Hrest.
  - split; [|by intros p; rewrite lookup_insert_eq].
    intros q Hq. rewrite lookup_insert_ne by done. by apply Hrest.
  - split; [done|]. intros p. destruct removes; [by rewrite lookup_delete_eq|done].
Qed.

Lemma stop_effect removes path w q :
  (q <> path -> drop_listener removes path w !! q = w !! q) /\
  (forall p, drop_listener removes path w !! path <> Some (Listening p)).
Proof.
  unfold drop_listener, stop_listening. split.
  - intros Hq. destruct removes; [by rewrite lookup_delete_ne|].
    destruct (w !! path); [by rewrite lookup_insert_ne|done].
  - intros p. destruct removes; [by rewrite lookup_delete_eq|].
    destruct (w !! path) eqn:Hw; [by rewrite lookup_insert_eq|by rewrite Hw].
Qed.

(** A step of the holder [pid] on its own socket. *)
Lemma own_socket_inv c pid role instance w g :
  running_inv c -> procs (host c) !! pid = Some (role, instance, Holding) ->
  (forall q, q <> socket_path dir role instance -> w !! q = socks c !! q) ->
  (forall p, p <> pid -> g !! p = guards c !! p) ->
  (forall p, w !! socket_path dir role instance = Some (Listening p) <-> p = pid /\ g !! pid = Some true) ->
  running_inv (mkRunning (host c) w g).
Proof.
  intros Hc Hp Hw Hg Hs. constructor; cbn [host socks guards]; [by apply ri_host| | |].
  - intros p alive Ha. destruct (decide (p = pid)) as [->|Hne]; [eauto|].
    rewrite Hg in Ha by done. by eapply ri_guard.
  - intros p r i pc Ha Hp'. destruct (decide (p = pid)) as [->|Hne].
    { rewrite Hp in Hp'. injection Hp' as <- <- _. by apply Hs. }
    rewrite Hg in Ha by done. destruct (ri_guard _ Hc _ _ Ha) as (r' & i' & Hh).
    rewrite Hh in Hp'. injection Hp' as -> -> <-.
    rewrite Hw by (by eapply other_path; [..|done]). by eapply ri_live.
  - intros path p Hl. destruct (decide (path = socket_path dir role instance)) as [->|Hq].
    { apply Hs in Hl as [-> Hl]. eauto. }
    rewrite Hw in Hl by done. destruct (ri_sock _ Hc _ _ Hl) as (Ha & r & i & Hh & ->).
    assert (p <> pid) as Hne. { intros ->. rewrite Hp in Hh. by injection Hh as <- <-. }
    rewrite Hg by done. eauto.
Qed.

(** A step of a process without a guard on its lock. *)
Lemma lock_step_inv c h' :
  running_inv c -> host_inv dir h' ->
  (forall p, is_Some (guards c !! p) -> procs h' !! p = procs (host c) !! p) ->
  running_inv (mkRunning h' (socks c) (guards c)).
Proof.
  intros Hc Hi Hs. constructor; cbn [host socks guards]; [done| | |].
  - intros p alive Ha. rewrite Hs by eauto. by eapply ri_guard.
  - intros p r i pc Ha. rewrite Hs by eauto. by apply ri_live.
  - intros path p Hl. destruct (ri_sock _ Hc _ _ Hl) as (Ha & Hh). rewrite Hs by eauto. done.
Qed.

Lemma guard_holding c pid role instance pc alive :
  running_inv c -> procs (host c) !! pid = Some (role, instance, pc) -> guards c !! pid = Some alive ->
  procs (host c) !! pid = Some (role, instance, Holding).
Proof. intros Hc Hp Ha. destruct (ri_guard _ Hc _ _ Ha) as (r & i & Hh). congruence. Qed.

Lemma exit_listeners_lookup pid w q p :
  exit_listeners pid w !! q = Some (Listening p) <-> p <> pid /\ w !! q = Some (Listening p).
Proof.
  unfold exit_listeners. rewrite lookup_fmap. destruct (w !! q) as [s|]; cbn; [|naive_solver].
  case_decide; naive_solver.
Qed.

Lemma running_step_inv c c' : running_step c c' -> running_inv c -> running_inv c'.
Proof.
  intros Hs Hc. pose proof (ri_host _ Hc) as Hi. destruct Hs as
    [c pid role inst Hn Hpid Hv|c pid role inst pc w pc' ok partial Hp Hg Hl
    |c pid role inst w r removes binds chmods Hp Hg Hs|c pid role inst pc Hp Hg
    |c pid role inst pc alive removes Hp Hg|c pid role inst pc Hp].
  - apply lock_step_inv; [done|by eapply host_step_inv; [apply host_start|]|].
    intros p [alive Ha]. destruct (ri_guard _ Hc _ _ Ha) as (r & i & Hh). cbn [procs].
    rewrite lookup_insert_ne; [done|]. congruence.
  - apply lock_step_inv; [done|by eapply host_call_inv|].
    intros p [alive Ha]. cbn [procs]. rewrite lookup_insert_ne; [done|]. congruence.
  - destruct (spawn_effect _ _ _ _ _ _ _ _ _ Hs) as [Hq Hr]; [by eapply (hi_names _ _ Hi)|].
    destruct r as [path|e|]; [|..|done].
    + destruct Hr as [-> Hr]. eapply own_socket_inv; [done..| |].
      * intros p Hne. by rewrite lookup_insert_ne.
      * intros p. rewrite Hr, lookup_insert_eq. naive_solver.
    + eapply own_socket_inv; [done..|]. intros p. rewrite Hg. split; [|naive_solver].
      intros Hl%Hr. destruct (ri_sock _ Hc _ _ Hl) as (Ha & r & i & Hh & Hpath).
      apply socket_path_inj in Hpath as [<- <-]. exfalso.
      rewrite (holder_unique _ _ _ _ _ Hi Hh Hp) in Ha. congruence.
  - pose proof (guard_holding _ _ _ _ _ _ Hc Hp Hg) as Hh.
    eapply own_socket_inv; [done..| | |].
    + intros q Hq. by apply (stop_effect false).
    + intros p Hne. by rewrite lookup_insert_ne.
    + intros p. rewrite lookup_insert_eq. split; [|naive_solver]. intros Hl.
      by apply (stop_effect false _ _ "") in Hl.
  - pose proof (guard_holding _ _ _ _ _ _ Hc Hp Hg) as Hh.
    eapply own_socket_inv; [done..| | |].
    + intros q Hq. by apply stop_effect.
    + intros p Hne. by rewrite lookup_delete_ne.
    + intros p. rewrite lookup_delete_eq. split; [|naive_solver]. intros Hl.
      by apply (stop_effect removes _ _ "") in Hl.
  - constructor; cbn [host socks guards procs].
    + by eapply host_exit_inv.
    + intros p alive [Hne Ha]%lookup_delete_Some. rewrite lookup_delete_ne by done. by eapply ri_guard.
    + intros p r i pc' [Hne Ha]%lookup_delete_Some. rewrite lookup_delete_ne by done. intros Hp'.
      apply exit_listeners_lookup. split; [done|]. by eapply ri_live.
    + intros path p [Hne Hl]%exit_listeners_lookup. rewrite !lookup_delete_ne by done. by apply ri_sock.
Qed.

Lemma running_reachable_inv c : running_reachable c -> running_inv c.
Proof.
  induction 1 as [contents left Hleft|c c' _ IH Hs]; [|by eapply running_step_inv].
  constructor; cbn [host socks guards]; [by constructor|done..|].
  intros path p Hl. by apply Hleft in Hl.
Qed.
End Running.

(** ** Properties *)

(** serde_json ignores white space after the value. *)
Class JsonLine (A : Type) `{Json A} : Prop :=
  json_line : forall a bs, to_vec a = Some bs -> from_slice (bs ++ [10%Z])%list = Some a.

Section ControlProofs.
Context `{Json StatusSnapshot} `{!JsonLine StatusSnapshot}.

(** A snapshot the querier accepts. *)
Definition snapshot_fits (s : StatusSnapshot) : Prop :=
  exists bs, to_vec s = Some bs /\ (Z.of_nat (length bs) < MAX_SNAPSHOT_SIZE)%Z.

Lemma query_served windows s instance :
  validate_instance_name instance = Ret tt -> snapshot_fits s ->
  query_status windows (Connected (serve_one s) PeerClosed) instance = Ret (Some s).
Proof.
  intros Hv (bs & Hb & Hl). unfold query_status, read_snapshot_bytes, read_all, serve_one.
  rewrite Hv, Hb. cbn [mbind outcome_bind mret].
  set (l := (bs ++ [10%Z])%list). assert (Hlen : length l = (length bs + 1)%nat) by (unfold l; by rewrite length_app).
  assert ((MAX_SNAPSHOT_SIZE + 1 <=? Z.of_nat (length l))%Z = false) as -> by (apply Z.leb_gt; lia).
  assert ((MAX_SNAPSHOT_SIZE <? Z.of_nat (length l))%Z = false) as -> by (apply Z.ltb_ge; lia).
  cbn. unfold l. by rewrite (json_line s bs Hb).
Qed.

(** The process that serves an instance. *)
Definition serving (c : Running) (p : N) (role : LockRole) (instance : string) : Prop :=
  guards c !! p = Some true /\ procs (host c) !! p = Some (role, instance, Holding).

Section Host.
Context (dir : string) (c : Running) (served : N -> StatusSnapshot).

Definition query_host (role : LockRole) (instance : string) : vres (option StatusSnapshot) :=
  query_status false (connect_socket served (socket_path dir role instance) (socks c)) instance.

Context (Hc : running_inv dir c) (Hfits : forall p, snapshot_fits (served p)).

Lemma query_host_exact role instance :
  validate_instance_name instance = Ret tt ->
  (forall p, serving c p role instance -> query_host role instance = Ret (Some (served p))) /\
  ((forall p, ~ serving c p role instance) -> query_host role instance = Ret None).
Proof.
  intros Hv. unfold query_host, connect_socket. split.
  - intros p [Hg Hp]. rewrite (ri_live _ _ Hc _ _ _ _ Hg Hp). by apply query_served.
  - intros Hn. destruct (socks c !! _) as [[p|]|] eqn:Hs.
    + destruct (ri_sock _ _ Hc _ _ Hs) as (Hg & r & i & Hp & [<- <-]%socket_path_inj).
      by destruct (Hn p).
    + unfold query_status. by rewrite Hv.
    + unfold query_status. by rewrite Hv.
Qed.

Lemma query_host_ret role instance :
  validate_instance_name instance = Ret tt -> exists o, query_host role instance = Ret o.
Proof.
  intros Hv. unfold query_host, connect_socket.
  destruct (socks c !! _) as [[p|]|]; [rewrite query_served by done|unfold query_status; rewrite Hv..]; by eexists.
Qed.

Lemma probe_instances_ret role l :
  Forall (fun i => validate_instance_name i = Ret tt) l ->
  exists infos, probe_instances (query_host role) l = Ret infos /\ ii_instance <$> infos = l /\
    Forall (fun info => ii_error info = None /\ query_host role (ii_instance info) = Ret (ii_status info)) infos.
Proof.
  induction 1 as [|i l Hi _ (infos & Hr & Hn & Hall)]; [by exists []|].
  destruct (query_host_ret role i Hi) as [o Ho]. exists (mkInstanceInfo i o None :: infos).
  cbn [probe_instances]. rewrite Ho. cbn [probe_instance]. rewrite Hr. cbn.
  split; [done|]. split; [by f_equal|]. by constructor.
Qed.

Lemma serving_pid p role instance :
  serving c p role instance ->
  validate_instance_name instance = Ret tt /\
  read_instance_pid dir role instance (disk (host c)) = Ret (Some (Z.of_N p)) /\
  is_Some (contents (disk (host c)) !! lock_path dir role instance).
Proof.
  intros [_ Hp]. pose proof (ri_host _ _ Hc) as Hi. destruct (hi_names _ _ Hi _ _ _ _ Hp) as [Hpid Hv].
  pose proof (hi_pid _ _ Hi _ _ _ Hp) as Hcont. split; [done|]. split; [by apply read_pid_line|eauto].
Qed.
End Host.

Lemma locked_instances_valid entries role :
  Forall (fun i => validate_instance_name i = Ret tt) (list_locked_instances entries role).
Proof.
  apply Forall_forall. intros i. unfold list_locked_instances. destruct entries as [names|]; [|by intros ?%elem_of_nil].
  rewrite merge_sort_Permutation, list_elem_of_omap. intros (f & _ & Hi).
  destruct (instance_from_lock_name f role) as [j|]; [|done]. cbn in Hi.
  destruct (validate_instance_name j) as [[]| |] eqn:Hv; by simplify_eq.
Qed.

Lemma locked_instances_complete entries role i :
  validate_instance_name i = Ret tt -> (runtime_base_name role i +:+ ".lock") ∈ entries ->
  i ∈ list_locked_instances (Some entries) role.
Proof.
  intros Hv Hf. cbn [list_locked_instances]. rewrite merge_sort_Permutation, list_elem_of_omap.
  eexists; split; [exact Hf|]. pose proof Hv as [Hne _]%validate_instance_iff.
  rewrite (proj2 (lock_name_iff _ _ _) (conj Hne eq_refl)). cbn. by rewrite Hv.
Qed.

(** C16. The control endpoint tells the truth about the instances of a host, in
    every interleaving of starting, serving, stopping and crashing processes
    and with any files left behind: a query for an instance returns the
    snapshot of the process that serves it, which no other process can have
    disturbed, and "not running" when there is none; the listing contains
    every served instance and reports each of its entries as the query does,
    without errors; and [stop_client] signals the serving process and no
    other, and nothing when none is serving. *)
Theorem control_endpoint_exact dir c served entries :
  running_reachable dir c -> (forall p, snapshot_fits (served p)) ->
  (forall role i, (runtime_base_name role i +:+ ".lock") ∈ entries <->
     is_Some (contents (disk (host c)) !! lock_path dir role i)) ->
  let query := query_host dir c served in
  (forall role i, validate_instance_name i = Ret tt ->
     (forall p, serving c p role i -> query role i = Ret (Some (served p))) /\
     ((forall p, ~ serving c p role i) -> query role i = Ret None)) /\
  (forall role, exists infos, list_instances (Some entries) role (query role) = Ret infos /\
     Forall (fun info => ii_error info = None /\ query role (ii_instance info) = Ret (ii_status info)) infos /\
     Sorted String.le (ii_instance <$> infos) /\
     (forall p i, serving c p role i -> mkInstanceInfo i (Some (served p)) None ∈ infos)) /\
  (forall i kill polls, validate_instance_name i = Ret tt ->
     let pid := read_instance_pid dir Client i (disk (host c)) in
     (forall p, serving c p Client i -> (Z.of_N p < 2 ^ 31)%Z -> kill (Z.of_N p) = true ->
        stop_client i (query Client i) pid kill polls =
          ([Z.of_N p], wait_stopped (Z.of_N p) (take STOP_POLLS polls))) /\
     ((forall p, ~ serving c p Client i) -> stop_client i (query Client i) pid kill polls = ([], Ret NotRunning))).
Proof.
  intros Hc%running_reachable_inv Hfits Hentries query.
  pose proof (query_host_exact dir c served Hc Hfits) as Hq. split; [exact Hq|]. split.
  - intros role. destruct (probe_instances_ret dir c served Hfits role _
      (locked_instances_valid (Some entries) role)) as (infos & Hr & Hn & Hall).
    exists infos. split; [exact Hr|]. split; [done|]. rewrite Hn.
    split; [apply Sorted_merge_sort; apply _|]. intros p i Hs.
    destruct (serving_pid dir c Hc _ _ _ Hs) as (Hv & _ & Hf).
    pose proof (locked_instances_complete entries role i Hv (proj2 (Hentries _ _) Hf)) as Hin.
    rewrite <-Hn in Hin. apply list_elem_of_fmap in Hin as ([i' o e] & -> & Hinfo).
    rewrite Forall_forall in Hall. destruct (Hall _ Hinfo) as [He Hqi]. cbn in *.
    destruct (Hq role i' Hv) as [Hlive _]. rewrite (Hlive p Hs) in Hqi. by simplify_eq.
  - intros i kill polls Hv pid. destruct (Hq Client i Hv) as [Hlive Hdead]. unfold stop_client. rewrite Hv. split.
    + intros p Hs Hp Hk. unfold query, pid. rewrite (Hlive p Hs).
      destruct (serving_pid dir c Hc _ _ _ Hs) as (_ & -> & _).
      unfold as_pid_t. rewrite (proj2 (Z.ltb_lt _ _) Hp). by rewrite Hk.
    + intros Hn. unfold query. by rewrite (Hdead Hn).
Qed.
End ControlProofs.

(** ** Evaluation *)

Definition sample_status : StatusSnapshot :=
  SClient (client_snapshot (Conn:=unit) (Bypass:=unit)
             (fun _ => mkConnectionSnapshot "Direct 198.51.100.7:4433 (selected) (rtt 12ms)" [] [])
             (fun _ => [])
             (62 * NANOS)
             (set_connected 0
                (mkConnectedInfo (Some "10.0.0.2") (Some "10.0.0.1/32") (Some "10.0.0.1") None None None
                   1280 ["192.168.50.0/24"] [])
                tt None (handle_new "work" "server" 255))).

(** A codec for that one snapshot. *)
Definition sample_json : Json StatusSnapshot := {|
  to_vec s := if decide (s = sample_status) then Some [123; 125]%Z else None;
  from_slice bs := if decide (bs = [123; 125; 10]%Z) then Some sample_status else None;
|}.

Lemma sample_json_line : JsonLine StatusSnapshot (H:=sample_json).
Proof.
  intros a bs. unfold to_vec, sample_json. destruct (decide (a = sample_status)) as [->|]; [|done].
  by intros [= <-].
Qed.

(** Process 7 serves the client "work", after a crash left its socket and the
    lock of another instance behind. *)
Definition sample_left : Socks := {["/run/ezvpn/ezvpn-client-work.sock" := StaleSock]}.

Lemma sample_left_stale : map_Forall (fun _ s => s = StaleSock) sample_left.
Proof. intros k s Hs. unfold sample_left in Hs. by apply lookup_singleton_Some in Hs as [_ <-]. Qed.

Definition sample_guarded : Running :=
  mkRunning sample_locked
    (spawn_status_listener "/run/ezvpn" true true true Client "work" 7 sample_left).1
    {[7%N := true]}.

Lemma run_calls dir pid oks c :
  guards c !! pid = None -> running_reachable dir c ->
  running_reachable dir (mkRunning (fold_left (host_advance dir pid) oks (host c)) (socks c) (guards c)).
Proof.
  revert c. induction oks as [|ok oks IH]; intros [h w g] Hg Hr; cbn [host socks guards fold_left]; [done|].
  unfold host_advance at 2. destruct (procs h !! pid) as [[[role inst] pc]|] eqn:Hp;
    [|by apply (IH (mkRunning h w g))].
  destruct (lock_next _ _ _ _ _ _ _) as [f pc'] eqn:Hn.
  apply (IH (mkRunning (mkHost f (<[pid := (role, inst, pc')]> (procs h))) w g)); [done|].
  eapply reach_step; [exact Hr|]. by eapply (run_call _ (mkRunning h w g)).
Qed.

Lemma sample_guarded_reachable : running_reachable "/run/ezvpn" sample_guarded.
Proof.
  eapply reach_step.
  - eapply (run_calls _ 7%N [true; true; true; true; true; true]
      (mkRunning sample_started sample_left ∅)); [reflexivity|].
    eapply reach_step; [apply (reach_init _ (contents (disk sample_started)) sample_left sample_left_stale)|].
    apply (run_start _ (mkRunning (host_init (contents (disk sample_started))) _ _)); reflexivity.
  - apply (run_spawn _ (mkRunning sample_locked sample_left ∅) 7%N Client "work" _
      (Ret "/run/ezvpn/ezvpn-client-work.sock") true true true); reflexivity.
Qed.

Lemma control_endpoint_exact_witness :
  query_host (H:=sample_json) "/run/ezvpn" sample_guarded (fun _ => sample_status) Client "work" =
    Ret (Some sample_status) /\
  query_host (H:=sample_json) "/run/ezvpn" sample_guarded (fun _ => sample_status) Server "default" = Ret None /\
  firstn 3 (print_status sample_status) = ["Role:           client"; "Instance:       work";
    "State:          connected"].
Proof.
  assert (Hfits : forall p : N, snapshot_fits (H:=sample_json) sample_status).
  { intros _. exists [123; 125]%Z. split; [vm_compute|]; reflexivity. }
  destruct (control_endpoint_exact (H:=sample_json) (JsonLine0:=sample_json_line) "/run/ezvpn" sample_guarded
              (fun _ => sample_status) ["ezvpn-client-work.lock"] sample_guarded_reachable Hfits) as [Hq _].
  - intros role i. rewrite list_elem_of_singleton. split.
    + intros He. change "ezvpn-client-work.lock" with (runtime_base_name Client "work" +:+ ".lock") in He.
      apply append_inj_r, base_name_inj in He as [-> ->]. exists (pid_line 7). reflexivity.
    + intros [x Hx]. change (contents (disk (host sample_guarded))) with
        ({["/run/ezvpn/ezvpn-client-work.lock" := "7" +:+ String LF ""]} : gmap string string) in Hx.
      apply lookup_singleton_Some in Hx as [Hx _].
      change "/run/ezvpn/ezvpn-client-work.lock" with (lock_path "/run/ezvpn" Client "work") in Hx.
      by apply lock_path_inj in Hx as [<- <-].
  - split; [|split; [|reflexivity]].
    + apply (Hq Client "work" eq_refl) with (p := 7%N). split; reflexivity.
    + apply (Hq Server "default" eq_refl). intros p [Hg Hp].
      change (guards sample_guarded) with ({[7%N := true]} : gmap N bool) in Hg.
      apply lookup_singleton_Some in Hg as [<- _]. by vm_compute in Hp.
Defined.
