(* ===== verification/IpPool.v ===== *)
(** * The IPv4 address pool ([src/tunnel/server.rs], [IpPool])

    State and operations of the pool that assigns tunnel addresses.  [u32]
    arithmetic that the code writes with plain operators is [add32]/[sub32]:
    out of range it panics in a debug build and wraps in a release build
    ([checks] says which).  The invariant [pool_inv] is the contract the
    server relies on. *)

From S2P Require Import Prelude Errors Net Config.

(** Plain [a + b] and [a - b] on [w]-bit integers. *)
Definition add_w {E} (w : Z) (checks : bool) (a b : Z) : outcome E Z :=
  if decide (is_uint w (a + b)) then Ret (a + b)%Z
  else if checks then Panic else Ret (wrap w (a + b)).

Definition sub_w {E} (w : Z) (checks : bool) (a b : Z) : outcome E Z :=
  if decide (is_uint w (a - b)) then Ret (a - b)%Z
  else if checks then Panic else Ret (wrap w (a - b)).

(** [Vec::pop]. *)
Definition vec_pop {A} (v : list A) : option (A * list A) :=
  match rev v with
  | [] => None
  | x :: r => Some (x, rev r)
  end.

Section IpPool.
Context {EndpointId : Type} `{Countable EndpointId}.
Context {w : Z} {Net4 : Type} `{NetOps w Net4}.

(** (client endpoint ID, device ID) *)
Abbreviation ClientKey := (EndpointId * Z)%type.

Record IpPool : Type := mkIpPool {
  pool_network : Net4;
  pool_server_ip : Z;
  next_ip : Z;
  max_ip : Z;
  in_use : gmap ClientKey Z;
  released : list Z;
  reserved : gset Z;
}.

(** Some client holds the address. *)
Definition assigned (p : IpPool) (ip : Z) : bool :=
  bool_decide (map_Exists (fun _ a => a = ip) (in_use p)).

Inductive reserve_error : Type :=
| NotInNetwork | EqualsServerIp | NotUsableHost | AlreadyAssigned.

Definition with_reserved (p : IpPool) (released' : list Z) (reserved' : gset Z) : IpPool :=
  mkIpPool (pool_network p) (pool_server_ip p) (next_ip p) (max_ip p) (in_use p)
    released' reserved'.

Definition reserve_ip (p : IpPool) (ip : Z) : outcome reserve_error IpPool :=
  if negb (net_contains (pool_network p) ip) then Fail NotInNetwork else
  if (ip =? pool_server_ip p)%Z then Fail EqualsServerIp else
  if (ip =? net_network (pool_network p))%Z || (ip =? net_broadcast (pool_network p))%Z
  then Fail NotUsableHost else
  if bool_decide (ip ∈ reserved p) then Ret p else
  if assigned p ip then Fail AlreadyAssigned else
  Ret (with_reserved p (filter (fun a => a <> ip) (released p)) ({[ip]} ∪ reserved p)).

(** The loop of [next_unreserved_ip] skips reserved addresses only, so one
    round more than there are of them is enough ([next_loop_spec]).
    [next_ip += 1] stays in range because [next_ip <= max_ip]. *)
Fixpoint next_loop (fuel : nat) (next max : Z) (reserved : gset Z) : Z * option Z :=
  match fuel with
  | O => (next, None)
  | S f =>
      if (next <=? max)%Z then
        if bool_decide (next ∈ reserved) then next_loop f (next + 1) max reserved
        else (next + 1, Some next)%Z
      else (next, None)
  end.

Definition next_unreserved_ip (p : IpPool) : IpPool * option Z :=
  let (next', ip) := next_loop (S (size (reserved p))) (next_ip p) (max_ip p) (reserved p) in
  (mkIpPool (pool_network p) (pool_server_ip p) next' (max_ip p) (in_use p)
     (released p) (reserved p), ip).

Definition reserve_next_available (p : IpPool) : IpPool * option Z :=
  let (p', ip) := next_unreserved_ip p in
  match ip with
  | None => (p', None)
  | Some ip => (with_reserved p' (released p') ({[ip]} ∪ reserved p'), Some ip)
  end.

(** The descending scan of [reserve_last_available], from [ip] down to
    [next_ip]: at most as many addresses are skipped as are reserved or
    assigned, plus the server's own. *)
Fixpoint last_loop (fuel : nat) (ip : Z) (p : IpPool) : option Z :=
  match fuel with
  | O => None
  | S f =>
      if (ip <? next_ip p)%Z then None else
      if (ip =? pool_server_ip p)%Z || bool_decide (ip ∈ reserved p) || assigned p ip
      then last_loop f (ip - 1) p
      else Some ip
  end.

Definition reserve_last_available (p : IpPool) : IpPool * option Z :=
  if (max_ip p <? next_ip p)%Z then (p, None) else
  match last_loop (2 + size (reserved p) + size (in_use p)) (max_ip p) p with
  | None => (p, None)
  | Some ip =>
      (with_reserved p (filter (fun a => a <> ip) (released p)) ({[ip]} ∪ reserved p), Some ip)
  end.

(** The [while let Some(ip) = self.released.pop()] loop, on the reversed
    vector. *)
Fixpoint pop_unreserved (rev_released : list Z) (reserved : gset Z) : list Z * option Z :=
  match rev_released with
  | [] => ([], None)
  | ip :: r => if bool_decide (ip ∈ reserved) then pop_unreserved r reserved else (r, Some ip)
  end.

Definition with_use (p : IpPool) (in_use' : gmap ClientKey Z) (released' : list Z) : IpPool :=
  mkIpPool (pool_network p) (pool_server_ip p) (next_ip p) (max_ip p) in_use' released' (reserved p).

Definition allocate (p : IpPool) (endpoint_id : EndpointId) (device_id : Z) : IpPool * option Z :=
  let key := (endpoint_id, device_id) in
  match in_use p !! key with
  | Some ip => (p, Some ip)
  | None =>
      match pop_unreserved (rev (released p)) (reserved p) with
      | (r, Some ip) => (with_use p (<[key := ip]> (in_use p)) (rev r), Some ip)
      | (r, None) =>
          let p := with_use p (in_use p) (rev r) in
          match next_unreserved_ip p with
          | (p, Some ip) => (with_use p (<[key := ip]> (in_use p)) (released p), Some ip)
          | (p, None) => (p, None)
          end
      end
  end.

Definition release (p : IpPool) (endpoint_id : EndpointId) (device_id : Z) : IpPool :=
  match in_use p !! (endpoint_id, device_id) with
  | Some ip => with_use p (delete (endpoint_id, device_id) (in_use p)) (released p ++ [ip])
  | None => p
  end.
End IpPool.
Arguments IpPool _ {_ _} _.

Definition IpPool_new {EndpointId} `{Countable EndpointId} {Net4} `{NetOps V4_BITS Net4}
    (checks : bool) (network : Net4) (server_ip : option Z)
  : outcome unit (IpPool EndpointId Net4) :=
  let net_addr := net_network network in
  let broadcast := net_broadcast network in
  server_ip ← (match server_ip with
               | Some ip => Ret ip
               | None => add_w 32 checks net_addr 1
               end);
  next ← add_w 32 checks server_ip 1;
  max ← sub_w 32 checks broadcast 1;
  Ret (mkIpPool network server_ip next max ∅ [] ∅).

(** ** The scans *)

Lemma next_loop_spec fuel next max (R : gset Z) :
  (size (filter (fun a => (next <= a)%Z) R) < fuel)%nat ->
  match next_loop fuel next max R with
  | (n, Some ip) => (next <= ip <= max)%Z /\ (ip ∉ R) /\ n = (ip + 1)%Z /\
                    (forall a, (next <= a < ip)%Z -> a ∈ R)
  | (n, None) => n = Z.max next (max + 1) /\ forall a, (next <= a <= max)%Z -> a ∈ R
  end.
Proof.
  revert next. induction fuel as [|fuel IH]; intros next Hf; [lia|]. cbn [next_loop].
  destruct (Z.leb_spec next max); [|split; lia].
  case_bool_decide as Hin.
  - assert (Hlt : (size (filter (fun a => (next + 1 <= a)%Z) R) < fuel)%nat).
    { assert (size (filter (fun a => (next + 1 <= a)%Z) R)
              < size (filter (fun a => (next <= a)%Z) R))%nat; [|lia].
      apply subset_size. split.
      - intros a. rewrite !elem_of_filter. intros [? ?]. split; [lia|done].
      - intros Hsub. specialize (Hsub next). rewrite !elem_of_filter in Hsub.
        destruct Hsub; [done|lia]. }
    specialize (IH (next + 1)%Z Hlt).
    destruct (next_loop fuel (next + 1) max R) as [n [ip|]].
    + destruct IH as (? & ? & ? & Hall). split_and!; try lia; try done.
      intros a Ha. destruct (decide (a = next)) as [->|]; [done|]. apply Hall. lia.
    + destruct IH as (-> & Hall). split; [lia|].
      intros a Ha. destruct (decide (a = next)) as [->|]; [done|]. apply Hall. lia.
  - split_and!; try lia; done.
Qed.

Lemma filter_size_le (P : Z -> Prop) `{forall a, Decision (P a)} (R : gset Z) :
  (size (filter P R) <= size R)%nat.
Proof. apply subseteq_size. set_solver. Qed.

Lemma map_img_size_le {K} `{Countable K} (m : gmap K Z) :
  (size (map_img m : gset Z) <= size m)%nat.
Proof.
  induction m as [|k a m Hk IH] using map_ind; [by rewrite map_img_empty, size_empty|].
  rewrite map_img_insert_notin, map_size_insert_None by done.
  rewrite size_union_alt, size_singleton.
  pose proof (subseteq_size (map_img m ∖ {[a]}) (map_img (SA:=gset Z) m) ltac:(set_solver)). lia.
Qed.

Lemma pop_unreserved_spec l (R : gset Z) :
  match pop_unreserved l R with
  | (r, Some ip) => exists skipped, l = skipped ++ ip :: r /\ (ip ∉ R) /\
                                    (forall a, a ∈ skipped -> a ∈ R)
  | (r, None) => r = [] /\ forall a, a ∈ l -> a ∈ R
  end.
Proof.
  induction l as [|x l IH]; cbn [pop_unreserved].
  { split; [done|]. intros a Ha. by apply not_elem_of_nil in Ha. }
  case_bool_decide as Hx.
  - destruct (pop_unreserved l R) as [r [ip|]].
    + destruct IH as (sk & -> & ? & Hs). exists (x :: sk). split_and!; try done.
      intros a [->|?]%elem_of_cons; eauto.
    + destruct IH as [-> Hs]. split; [done|]. intros a [->|?]%elem_of_cons; eauto.
  - exists []. split_and!; try done. intros a Ha. by apply not_elem_of_nil in Ha.
Qed.

Section PoolProofs.
Context {EndpointId : Type} `{Countable EndpointId}.
Context {w : Z} {Net4 : Type} `{NetLaws w Net4}.
Implicit Types (p : IpPool EndpointId Net4) (k : EndpointId * Z).

(** ** The invariant *)

Record pool_inv p : Prop := {
  pi_net : (net_network (pool_network p) <= pool_server_ip p)%Z;
  pi_max : max_ip p = (net_broadcast (pool_network p) - 1)%Z;
  pi_server : (pool_server_ip p + 1 <= next_ip p)%Z;
  pi_next : (next_ip p <= max_ip p + 1)%Z \/ next_ip p = (pool_server_ip p + 1)%Z;
  pi_use : forall k a, in_use p !! k = Some a ->
    (pool_server_ip p < a < next_ip p)%Z /\ a ∉ reserved p;
  pi_rel : forall a, a ∈ released p -> (pool_server_ip p < a < next_ip p)%Z;
  pi_nodup : NoDup (released p);
  pi_disj : forall k a, in_use p !! k = Some a -> a ∉ released p;
  pi_inj : forall k k' a, in_use p !! k = Some a -> in_use p !! k' = Some a -> k = k';
  pi_cover : forall a, (pool_server_ip p < a < next_ip p)%Z ->
    (exists k, in_use p !! k = Some a) \/ a ∈ released p \/ a ∈ reserved p;
}.

(** An address a client may hold: a host address of the network, not the
    server's. *)
Definition usable p (a : Z) : Prop :=
  (pool_server_ip p < a <= max_ip p)%Z.

Lemma inv_in_range p a :
  pool_inv p -> (pool_server_ip p < a < next_ip p)%Z -> usable p a.
Proof. intros Hi Ha. unfold usable. destruct (pi_next _ Hi); lia. Qed.

Lemma usable_in_network p a :
  pool_inv p -> usable p a ->
  net_contains (pool_network p) a = true /\ a <> pool_server_ip p /\
  a <> net_network (pool_network p) /\ a <> net_broadcast (pool_network p).
Proof.
  intros Hi [Ha Hb]. pose proof (pi_net _ Hi). pose proof (pi_max _ Hi) as Hm.
  rewrite contains_iff. lia.
Qed.

Lemma next_unreserved_spec p :
  match next_unreserved_ip p with
  | (p', Some ip) =>
      p' = mkIpPool (pool_network p) (pool_server_ip p) (ip + 1) (max_ip p) (in_use p)
             (released p) (reserved p) /\
      (next_ip p <= ip <= max_ip p)%Z /\ (ip ∉ reserved p) /\
      (forall a, (next_ip p <= a < ip)%Z -> a ∈ reserved p)
  | (p', None) =>
      p' = mkIpPool (pool_network p) (pool_server_ip p) (Z.max (next_ip p) (max_ip p + 1))
             (max_ip p) (in_use p) (released p) (reserved p) /\
      (forall a, (next_ip p <= a <= max_ip p)%Z -> a ∈ reserved p)
  end.
Proof.
  unfold next_unreserved_ip.
  pose proof (next_loop_spec (S (size (reserved p))) (next_ip p) (max_ip p) (reserved p)
    ltac:(apply Nat.lt_succ_r, filter_size_le)) as Hs.
  destruct (next_loop _ _ _ _) as [n [ip|]].
  - destruct Hs as (? & ? & -> & ?). done.
  - by destruct Hs as (-> & ?).
Qed.

(** Advancing [next_ip] over reserved addresses only. *)
Lemma advance_inv p n :
  pool_inv p -> (next_ip p <= n)%Z -> (n <= max_ip p + 1)%Z \/ n = next_ip p ->
  (forall a, (next_ip p <= a < n)%Z -> a ∈ reserved p) ->
  pool_inv (mkIpPool (pool_network p) (pool_server_ip p) n (max_ip p) (in_use p)
              (released p) (reserved p)).
Proof.
  intros [] Hn Hm Hr. constructor; cbn; try done; try lia.
  - intros k a Ha. destruct (pi_use0 k a Ha). split; [lia|done].
  - intros a Ha. specialize (pi_rel0 a Ha). lia.
  - intros a Ha. destruct (decide (a < next_ip p)%Z); [apply pi_cover0; lia|].
    right; right. apply Hr. lia.
Qed.

(** Handing an address that nobody holds to a key that has none. *)
Lemma assign_inv p k a r :
  pool_inv p -> in_use p !! k = None -> (pool_server_ip p < a < next_ip p)%Z ->
  a ∉ reserved p -> (forall k', in_use p !! k' <> Some a) ->
  NoDup r -> a ∉ r -> (forall x, x ∈ r -> x ∈ released p) ->
  (forall x, x ∈ released p -> x ∈ r \/ x = a \/ x ∈ reserved p) ->
  pool_inv (with_use p (<[k := a]> (in_use p)) r).
Proof.
  intros [] Hk Ha Hres Hfree Hnd Har Hsub Hcov.
  constructor; cbn; try done.
  - intros k' a' Hk'. destruct (decide (k' = k)) as [->|Hne].
    + rewrite lookup_insert_eq in Hk'. by simplify_eq.
    + rewrite lookup_insert_ne in Hk' by done. by apply (pi_use0 k').
  - intros x Hx. by apply pi_rel0, Hsub.
  - intros k' a' Hk'. destruct (decide (k' = k)) as [->|Hne].
    + rewrite lookup_insert_eq in Hk'. by simplify_eq.
    + rewrite lookup_insert_ne in Hk' by done. intros Hx. by apply (pi_disj0 k' a'), Hsub.
  - intros k1 k2 a' [[<- <-]|[? Hk1]]%lookup_insert_Some [[<- Ha2]|[? Hk2]]%lookup_insert_Some.
    + done.
    + by destruct (Hfree k2).
    + subst a'. by destruct (Hfree k1).
    + by eapply pi_inj0.
  - intros x Hx. destruct (pi_cover0 x Hx) as [[k' Hk']|[Hr|Hr]]; [| |by auto].
    + left. exists k'. rewrite lookup_insert_ne; [done|]. intros ->. congruence.
    + destruct (Hcov x Hr) as [?|[->|?]]; [by auto| |by auto].
      left. exists k. apply lookup_insert_eq.
Qed.

(** Handing out a fresh address: [next_ip] itself. *)
Lemma extend_inv p k :
  pool_inv p -> in_use p !! k = None -> (next_ip p <= max_ip p)%Z -> next_ip p ∉ reserved p ->
  pool_inv (mkIpPool (pool_network p) (pool_server_ip p) (next_ip p + 1) (max_ip p)
              (<[k := next_ip p]> (in_use p)) (released p) (reserved p)).
Proof.
  intros [] Hk Hm Hres.
  assert (Hfree : forall k', in_use p !! k' <> Some (next_ip p)).
  { intros k' Hk'. destruct (pi_use0 k' _ Hk'). lia. }
  constructor; cbn; try done; try lia.
  - intros k' a' Hk'. destruct (decide (k' = k)) as [->|Hne].
    + rewrite lookup_insert_eq in Hk'. simplify_eq. split; [lia|done].
    + rewrite lookup_insert_ne in Hk' by done. destruct (pi_use0 k' a' Hk'). split; [lia|done].
  - intros x Hx. specialize (pi_rel0 x Hx). lia.
  - intros k' a' Hk'. destruct (decide (k' = k)) as [->|Hne].
    + rewrite lookup_insert_eq in Hk'. simplify_eq. intros Hx. specialize (pi_rel0 _ Hx). lia.
    + rewrite lookup_insert_ne in Hk' by done. by apply (pi_disj0 k').
  - intros k1 k2 a' [[<- <-]|[? Hk1]]%lookup_insert_Some [[<- Ha2]|[? Hk2]]%lookup_insert_Some.
    + done.
    + by destruct (Hfree k2).
    + subst a'. by destruct (Hfree k1).
    + by eapply pi_inj0.
  - intros x Hx. destruct (decide (x = next_ip p)) as [->|].
    { left. exists k. apply lookup_insert_eq. }
    destruct (pi_cover0 x ltac:(lia)) as [[k' Hk']|?]; [|by auto].
    left. exists k'. rewrite lookup_insert_ne; [done|]. intros ->. congruence.
Qed.

Lemma allocate_inv p e d : pool_inv p -> pool_inv (allocate p e d).1.
Proof.
  intros Hi. unfold allocate. destruct (in_use p !! (e, d)) as [ip|] eqn:Hk; [done|].
  pose proof (pop_unreserved_spec (rev (released p)) (reserved p)) as Hp.
  pose proof (pi_nodup _ Hi) as Hnd.
  destruct (pop_unreserved (rev (released p)) (reserved p)) as [r [ip|]].
  - destruct Hp as (sk & Hrev & Hres & Hsk). cbn [fst].
    assert (Hel : forall x, x ∈ released p <-> x ∈ sk ++ ip :: r).
    { intros x. rewrite <-Hrev. rewrite !list_elem_of_In. apply in_rev. }
    assert (Hnd' : NoDup (sk ++ ip :: r)).
    { rewrite <-Hrev. apply NoDup_ListNoDup, NoDup_rev. by apply NoDup_ListNoDup. }
    apply NoDup_app in Hnd' as (_ & _ & [Hnr Hndr]%NoDup_cons).
    assert (Hrr : forall x, x ∈ rev r <-> x ∈ r).
    { intros x. rewrite !list_elem_of_In. symmetry. apply in_rev. }
    apply assign_inv; try done.
    + apply (pi_rel _ Hi), Hel. set_solver.
    + intros k' Hk'. apply (pi_disj _ Hi k' ip Hk'), Hel. set_solver.
    + apply NoDup_ListNoDup, NoDup_rev. by apply NoDup_ListNoDup.
    + by rewrite Hrr.
    + intros x Hx%Hrr. apply Hel. set_solver.
    + intros x [?|[->|?]%elem_of_cons]%Hel%elem_of_app; [by auto|by auto|]. left. by apply Hrr.
  - destruct Hp as [-> Hall]. cbn [rev].
    set (p0 := with_use p (in_use p) []).
    assert (Hi0 : pool_inv p0).
    { destruct Hi. constructor; cbn; try done.
      - intros a Ha. by apply not_elem_of_nil in Ha.
      - constructor.
      - intros k a _. apply not_elem_of_nil.
      - intros a Ha. destruct (pi_cover0 a Ha) as [?|[Hr|?]]; [by auto| |by auto].
        right; right. apply Hall. rewrite list_elem_of_In, <-in_rev. by apply list_elem_of_In. }
    pose proof (next_unreserved_spec p0) as Hs.
    destruct (next_unreserved_ip p0) as [p' [ip|]]; cbn [fst].
    + destruct Hs as (-> & Hr & Hres & Hbelow).
      assert (Hi1 : pool_inv (mkIpPool (pool_network p0) (pool_server_ip p0) ip (max_ip p0)
        (in_use p0) (released p0) (reserved p0))) by (apply advance_inv; done || lia).
      apply (extend_inv _ (e, d) Hi1 Hk); [cbn in *; lia | done].
    + destruct Hs as (-> & Hall'). apply advance_inv; try done; lia || (intros; apply Hall'; lia).
Qed.

(** What the fixed parts of a pool are. *)
Definition same_config p p' : Prop :=
  pool_network p' = pool_network p /\ pool_server_ip p' = pool_server_ip p /\
  max_ip p' = max_ip p /\ reserved p' = reserved p.

Lemma allocate_spec p e d :
  pool_inv p ->
  let '(p', r) := allocate p e d in
  same_config p p' /\
  match r with
  | Some ip => in_use p' = <[(e, d) := ip]> (in_use p) /\ usable p ip /\ ip ∉ reserved p
  | None => in_use p' = in_use p /\ in_use p !! (e, d) = None /\
            (forall a, usable p a -> (exists k, in_use p !! k = Some a) \/ a ∈ reserved p)
  end.
Proof.
  intros Hi. pose proof (allocate_inv p e d Hi) as Hi'. unfold allocate in *.
  destruct (in_use p !! (e, d)) as [ip|] eqn:Hk.
  { split; [done|]. split; [by rewrite insert_id|]. destruct (pi_use _ Hi _ _ Hk) as [Hr ?].
    split; [by apply inv_in_range | done]. }
  pose proof (pop_unreserved_spec (rev (released p)) (reserved p)) as Hp.
  destruct (pop_unreserved (rev (released p)) (reserved p)) as [r [ip|]]; cbn [fst] in *.
  - split; [done|]. split; [done|].
    destruct (pi_use _ Hi' (e, d) ip) as [Hr Hres]; [apply lookup_insert_eq|].
    split; [by apply inv_in_range | done].
  - destruct Hp as [-> Hall].
    pose proof (next_unreserved_spec (with_use p (in_use p) (rev []))) as Hs.
    destruct (next_unreserved_ip _) as [p' [ip|]]; cbn [fst] in *.
    + destruct Hs as (-> & Hr & Hres & _). split; [done|]. split; [done|]. cbn in Hr, Hres.
      split; [|done]. pose proof (pi_server _ Hi). unfold usable. lia.
    + destruct Hs as (-> & Hfull). split; [done|]. cbn in Hfull |- *. split_and!; try done.
      intros a [Ha1 Ha2]. destruct (decide (a < next_ip p)%Z).
      * destruct (pi_cover _ Hi a) as [?|[Hr|?]]; [lia|by auto| |by auto].
        right. apply Hall. rewrite list_elem_of_In, <-in_rev. by apply list_elem_of_In.
      * right. apply Hfull. lia.
Qed.

Lemma release_inv p e d : pool_inv p -> pool_inv (release p e d).
Proof.
  intros Hi. unfold release. destruct (in_use p !! (e, d)) as [ip|] eqn:Hk; [|done].
  pose proof Hi as []. constructor; cbn; try done.
  - intros k a Ha. apply lookup_delete_Some in Ha as [? ?]. eauto.
  - intros a [?|Ha%list_elem_of_singleton]%elem_of_app; [eauto|]. subst. by apply (pi_use0 (e, d)).
  - apply NoDup_app. split_and!; [done| |apply NoDup_singleton].
    intros x Hx Hx'%list_elem_of_singleton. subst. by apply (pi_disj0 (e, d) ip).
  - intros k a [Hne Ha]%lookup_delete_Some [Hin|Hin%list_elem_of_singleton]%elem_of_app.
    + by apply (pi_disj0 k a).
    + subst. apply Hne. by eapply pi_inj0.
  - intros k k' a [_ Ha]%lookup_delete_Some [_ Ha']%lookup_delete_Some. by eapply pi_inj0.
  - intros a Ha. destruct (pi_cover0 a Ha) as [[k Hka]|[?|?]].
    + destruct (decide (k = (e, d))) as [->|].
      * right; left. apply elem_of_app. right. simplify_eq. by apply list_elem_of_singleton.
      * left. exists k. by rewrite lookup_delete_ne.
    + right; left. apply elem_of_app. by left.
    + by auto.
Qed.

(** Reserving an address nobody holds. *)
Lemma reserve_inv p ip :
  pool_inv p -> (forall k, in_use p !! k <> Some ip) ->
  pool_inv (with_reserved p (filter (fun a => a <> ip) (released p)) ({[ip]} ∪ reserved p)).
Proof.
  intros Hi Hfree. pose proof Hi as []. constructor; cbn; try done.
  - intros k a Ha. destruct (pi_use0 k a Ha). split; [done|].
    intros [Hx%elem_of_singleton|?]%elem_of_union; [|done]. subst. by apply (Hfree k).
  - intros a [_ Ha]%list_elem_of_filter. by apply pi_rel0.
  - by apply NoDup_filter.
  - intros k a Ha [_ Hin]%list_elem_of_filter. by apply (pi_disj0 k a).
  - intros a Ha. destruct (pi_cover0 a Ha) as [?|[?|?]]; [by auto| |set_solver].
    destruct (decide (a = ip)) as [->|]; [set_solver|]. right; left.
    by apply list_elem_of_filter.
Qed.

Lemma not_assigned p ip : assigned p ip = false -> forall k, in_use p !! k <> Some ip.
Proof.
  unfold assigned. intros Hn%bool_decide_eq_false k Hk. apply Hn. by exists k, ip.
Qed.

Lemma reserve_ip_inv p ip p' : pool_inv p -> reserve_ip p ip = Ret p' -> pool_inv p'.
Proof.
  intros Hi. unfold reserve_ip. destruct (negb _); [done|]. destruct (ip =? _)%Z; [done|].
  destruct (_ || _); [done|]. case_bool_decide; [by intros; simplify_eq|].
  destruct (assigned p ip) eqn:Ha; [done|]. intros; simplify_eq.
  apply reserve_inv; [done|]. by apply not_assigned.
Qed.

Lemma reserve_next_inv p : pool_inv p -> pool_inv (reserve_next_available p).1.
Proof.
  intros Hi. unfold reserve_next_available. pose proof (next_unreserved_spec p) as Hs.
  pose proof (pi_server _ Hi).
  destruct (next_unreserved_ip p) as [p' [ip|]]; cbn [fst].
  - destruct Hs as (-> & Hr & Hres & Hbelow). pose proof Hi as [].
    constructor; cbn; try done; try lia.
    + intros k a Ha. destruct (pi_use0 k a Ha). split; [lia|].
      intros [Hx%elem_of_singleton|?]%elem_of_union; [lia|done].
    + intros a Ha. specialize (pi_rel0 a Ha). lia.
    + intros a Ha. destruct (decide (a = ip)) as [->|]; [set_solver|].
      destruct (decide (a < next_ip p)%Z).
      * destruct (pi_cover0 a ltac:(lia)) as [?|[?|?]]; [by auto|by auto|set_solver].
      * right; right. specialize (Hbelow a ltac:(lia)). set_solver.
  - destruct Hs as (-> & Hall). apply advance_inv; try done; lia || (intros; apply Hall; lia).
Qed.

(** The addresses the descending scan skips. *)
Definition taken (p : IpPool EndpointId Net4) : gset Z :=
  {[pool_server_ip p]} ∪ reserved p ∪ map_img (in_use p).

Lemma taken_size p : (size (taken p) <= 1 + size (reserved p) + size (in_use p))%nat.
Proof.
  unfold taken. rewrite !size_union_alt, size_singleton.
  pose proof (subseteq_size (reserved p ∖ {[pool_server_ip p]}) (reserved p) ltac:(set_solver)).
  pose proof (subseteq_size (map_img (in_use p) ∖ ({[pool_server_ip p]} ∪ reserved p))
    (map_img (SA:=gset Z) (in_use p)) ltac:(set_solver)).
  pose proof (map_img_size_le (in_use p)). lia.
Qed.

Lemma elem_of_taken p ip :
  ip ∈ taken p <->
  (ip =? pool_server_ip p)%Z || bool_decide (ip ∈ reserved p) || assigned p ip = true.
Proof.
  unfold taken, assigned. rewrite !orb_true_iff, Z.eqb_eq, !bool_decide_eq_true, !elem_of_union,
    elem_of_singleton, elem_of_map_img.
  assert ((exists k, in_use p !! k = Some ip) <-> map_Exists (fun _ a => a = ip) (in_use p)) as ->; [|done].
  split; [intros [k Hk]; by exists k, ip|intros (k & a & Hk & ->); by exists k].
Qed.

(** With more fuel than taken addresses the scan finds the highest free one. *)
Lemma last_loop_spec fuel ip p :
  (size (filter (fun a => (a <= ip)%Z) (taken p)) < fuel)%nat ->
  match last_loop fuel ip p with
  | Some a => (next_ip p <= a <= ip)%Z /\ (a ∉ taken p) /\ forall b, (a < b <= ip)%Z -> b ∈ taken p
  | None => forall b, (next_ip p <= b <= ip)%Z -> b ∈ taken p
  end.
Proof.
  revert ip. induction fuel as [|fuel IH]; intros ip Hf; [lia|]. cbn [last_loop].
  destruct (Z.ltb_spec ip (next_ip p)); [intros; lia|].
  pose proof (elem_of_taken p ip) as Ht. destruct (_ || assigned p ip).
  - assert (Hin : ip ∈ taken p) by (by apply Ht).
    assert (Hlt : (size (filter (fun a => (a <= ip - 1)%Z) (taken p)) < fuel)%nat).
    { apply (Nat.lt_le_trans _ (size (filter (fun a => (a <= ip)%Z) (taken p)))); [|lia].
      apply subset_size. split.
      - intros a. rewrite !elem_of_filter. intros [? ?]. split; [lia|done].
      - intros Hsub. specialize (Hsub ip). rewrite !elem_of_filter in Hsub.
        destruct Hsub; [done|lia]. }
    assert (Hext : forall lo, (forall b, (lo < b <= ip - 1)%Z -> b ∈ taken p) ->
      forall b, (lo < b <= ip)%Z -> b ∈ taken p).
    { intros lo Hall b Hb. destruct (decide (b = ip)) as [->|]; [done|]. apply Hall. lia. }
    specialize (IH _ Hlt). destruct (last_loop fuel (ip - 1) p) as [a|].
    + destruct IH as (? & ? & Hall). split_and!; [lia..|done|]. by apply Hext.
    + intros b Hb. apply (Hext (next_ip p - 1)%Z); [|lia]. intros; apply IH; lia.
  - split_and!; [lia..| |intros; lia]. intros Hin%Ht. done.
Qed.

(** [reserve_last_available] reserves the highest address not yet handed out
    that is free, and fails exactly when there is none. *)
Lemma reserve_last_available_spec p :
  match (reserve_last_available p).2 with
  | Some a => (next_ip p <= a <= max_ip p)%Z /\ (a ∉ taken p) /\
              (forall b, (a < b <= max_ip p)%Z -> b ∈ taken p) /\
              (reserve_last_available p).1 =
                with_reserved p (filter (fun b => b <> a) (released p)) ({[a]} ∪ reserved p)
  | None => (reserve_last_available p).1 = p /\
            forall b, (next_ip p <= b <= max_ip p)%Z -> b ∈ taken p
  end.
Proof.
  unfold reserve_last_available.
  destruct (Z.ltb_spec (max_ip p) (next_ip p)); [split; [done|intros; lia]|].
  pose proof (last_loop_spec (2 + size (reserved p) + size (in_use p)) (max_ip p) p) as Hl.
  pose proof (taken_size p).
  pose proof (filter_size_le (fun a => (a <= max_ip p)%Z) (taken p)).
  specialize (Hl ltac:(lia)).
  destruct (last_loop _ _ _) as [a|]; cbn [fst snd]; [|done].
  destruct Hl as (? & ? & ?). done.
Qed.

Lemma reserve_last_inv p : pool_inv p -> pool_inv (reserve_last_available p).1.
Proof.
  intros Hi. pose proof (reserve_last_available_spec p) as Hs.
  destruct (reserve_last_available p) as [p' [a|]]; cbn [fst snd] in *; [|by destruct Hs as [-> _]].
  destruct Hs as (_ & Hn & _ & ->). apply reserve_inv; [done|]. apply not_assigned.
  destruct (assigned p a) eqn:Ha; [|done]. exfalso. apply Hn, elem_of_taken.
  by rewrite Ha, orb_true_r.
Qed.

End PoolProofs.

(** ** A new pool *)

Lemma add_w_ok {E} w checks a b : is_uint w (a + b) -> add_w (E:=E) w checks a b = Ret (a + b)%Z.
Proof. intros. unfold add_w. by rewrite decide_True. Qed.

Lemma sub_w_ok {E} w checks a b : is_uint w (a - b) -> sub_w (E:=E) w checks a b = Ret (a - b)%Z.
Proof. intros. unfold sub_w. by rewrite decide_True. Qed.

Section NewPool.
Context {EndpointId : Type} `{Countable EndpointId}.
Context {Net4 : Type} `{NetLaws V4_BITS Net4}.

(** The server address a pool is created with. *)
Definition server_ip_of (network : Net4) (server_ip : option Z) : Z :=
  default (net_network network + 1)%Z server_ip.

Lemma IpPool_new_ok checks network server_ip :
  (net_prefix_len network <= 30)%Z ->
  (forall ip, server_ip = Some ip -> net_contains network ip = true /\ (ip < U32_MAX)%Z) ->
  exists p, IpPool_new (EndpointId:=EndpointId) checks network server_ip = Ret p /\
    pool_inv p /\ pool_network p = network /\ pool_server_ip p = server_ip_of network server_ip /\
    next_ip p = (server_ip_of network server_ip + 1)%Z /\
    in_use p = ∅ /\ reserved p = ∅ /\
    net_contains network (pool_server_ip p) = true.
Proof.
  intros Hp Hs. destruct (network_range network) as (Hn0 & _ & Hb).
  change (2 ^ V4_BITS)%Z with 4294967296%Z in Hb.
  pose proof (law_prefix network) as Hpr. pose proof (law_broadcast network) as Hbc.
  assert (4 <= block_size V4_BITS (net_prefix_len network))%Z.
  { unfold block_size. change V4_BITS with 32%Z at 1. change 4%Z with (2 ^ 2)%Z. apply Z.pow_le_mono_r; lia. }
  assert (Hsrv : net_contains network (server_ip_of network server_ip) = true /\
                 (server_ip_of network server_ip < U32_MAX)%Z).
  { destruct server_ip as [ip|]; [by apply Hs|]. cbn. rewrite contains_iff. ulia. }
  destruct Hsrv as [Hc Hlt]. pose proof Hc as Hc'. rewrite contains_iff in Hc'.
  unfold IpPool_new.
  assert (Hsi : (match server_ip with Some ip => Ret ip
     | None => add_w 32 checks (net_network network) 1 end)
     = Ret (E:=unit) (server_ip_of network server_ip)).
  { destruct server_ip; [done|]. apply add_w_ok. ulia. }
  rewrite Hsi. cbn [mbind outcome_bind].
  rewrite add_w_ok by ulia. cbn [mbind outcome_bind]. rewrite sub_w_ok by ulia.
  cbn [mbind outcome_bind]. eexists. split; [done|].
  split; [|done]. constructor; cbn; try done; try lia;
    try (intros a Ha; by apply not_elem_of_nil in Ha). constructor.
Qed.
End NewPool.

(** ** Sequences of operations *)

Section PoolRuns.
Context {EndpointId : Type} `{Countable EndpointId}.
Context {w : Z} {Net4 : Type} `{NetLaws w Net4}.
Implicit Types (p : IpPool EndpointId Net4).

Inductive pool_op : Type :=
| OpAllocate (e : EndpointId) (d : Z)
| OpRelease (e : EndpointId) (d : Z)
| OpReserveIp (ip : Z)
| OpReserveNext
| OpReserveLast.

Definition pool_step p (op : pool_op) : IpPool EndpointId Net4 :=
  match op with
  | OpAllocate e d => (allocate p e d).1
  | OpRelease e d => release p e d
  | OpReserveIp ip => match reserve_ip p ip with Ret p' => p' | _ => p end
  | OpReserveNext => (reserve_next_available p).1
  | OpReserveLast => (reserve_last_available p).1
  end.

Definition pool_run p (ops : list pool_op) : IpPool EndpointId Net4 := fold_left pool_step ops p.

Lemma pool_step_inv p op : pool_inv p -> pool_inv (pool_step p op).
Proof.
  intros Hi. destruct op; cbn [pool_step].
  - by apply allocate_inv.
  - by apply release_inv.
  - destruct (reserve_ip p ip) eqn:Hr; [by eapply reserve_ip_inv | done..].
  - by apply reserve_next_inv.
  - by apply reserve_last_inv.
Qed.

Lemma pool_run_inv p ops : pool_inv p -> pool_inv (pool_run p ops).
Proof.
  revert p. induction ops as [|op ops IH]; intros p Hi; [done|]. by apply IH, pool_step_inv.
Qed.

(** [allocate] and [release] keep their contract in every reachable pool:
    allocation is idempotent per client; a successful one records exactly one
    new usable address; it fails only when every usable address is held or
    reserved; and a released client's address can be allocated again at
    once. *)
Theorem ip_pool_allocate_contract p e d :
  pool_inv p ->
  (forall ip, in_use p !! (e, d) = Some ip -> allocate p e d = (p, Some ip)) /\
  (let '(p', r) := allocate p e d in
   pool_inv p' /\
   match r with
   | Some ip => in_use p' = <[(e, d) := ip]> (in_use p) /\ usable p ip
   | None => in_use p' = in_use p /\
       (forall a, usable p a -> (exists k, in_use p !! k = Some a) \/ a ∈ reserved p)
   end) /\
  (forall ip, in_use p !! (e, d) = Some ip ->
     let p' := release p e d in
     pool_inv p' /\ in_use p' = delete (e, d) (in_use p) /\
     forall e' d', (allocate p' e' d').2 <> None).
Proof.
  intros Hi. split_and!.
  - intros ip Hk. unfold allocate. by rewrite Hk.
  - pose proof (allocate_spec p e d Hi) as Hs. pose proof (allocate_inv p e d Hi) as Hi'.
    destruct (allocate p e d) as [p' [ip|]]; cbn [fst] in Hi'; intuition done.
  - intros ip Hk p'. assert (Hi' : pool_inv p') by (by apply release_inv).
    assert (Hp' : in_use p' = delete (e, d) (in_use p) /\ reserved p' = reserved p /\
      max_ip p' = max_ip p /\ pool_server_ip p' = pool_server_ip p).
    { unfold p', release. by rewrite Hk. }
    destruct Hp' as (Hu & Hres & Hm & Hsv). split_and!; try done.
    intros e' d' Hn. pose proof (allocate_spec p' e' d' Hi') as Hs.
    destruct (allocate p' e' d') as [p'' [ip'|]]; [done|]. destruct Hs as (_ & _ & _ & Hfull).
    destruct (pi_use _ Hi (e, d) ip Hk) as [Hr Hnres].
    destruct (Hfull ip) as [[k Hk']|Hin].
    + pose proof (inv_in_range p ip Hi Hr) as [??]. unfold usable. lia.
    + rewrite Hu, lookup_delete_Some in Hk'. destruct Hk' as [Hne Hk'].
      apply Hne. symmetry. by eapply (pi_inj _ Hi).
    + by rewrite Hres in Hin.
Qed.
End PoolRuns.

(** C18. Address assignment is safe in every history: starting from the pool of
    a validated network of /30 or wider, after any sequence of allocations,
    releases and reservations two clients never hold the same address, and
    every held address is a host address of the network that is neither the
    server's nor the network or broadcast address nor reserved. *)
Theorem ip_pool_assignments_safe {EndpointId} `{Countable EndpointId} {Net4} `{NetLaws V4_BITS Net4}
    checks (network : Net4) server_ip (p0 : IpPool EndpointId Net4) ops :
  (net_prefix_len network <= 30)%Z ->
  (forall ip, server_ip = Some ip -> net_contains network ip = true /\ (ip < U32_MAX)%Z) ->
  IpPool_new checks network server_ip = Ret p0 ->
  let p := pool_run p0 ops in
  (forall k k' a, in_use p !! k = Some a -> in_use p !! k' = Some a -> k = k') /\
  (forall k a, in_use p !! k = Some a ->
     net_contains (pool_network p) a = true /\ a <> pool_server_ip p /\
     a <> net_network (pool_network p) /\ a <> net_broadcast (pool_network p) /\
     (a ∉ reserved p)).
Proof.
  intros Hp Hs Hnew p. destruct (IpPool_new_ok (EndpointId:=EndpointId) checks network server_ip Hp Hs)
    as (q & Hq & Hi & _).
  rewrite Hnew in Hq. simplify_eq. apply (pool_run_inv _ ops) in Hi. fold p in Hi.
  split; [apply (pi_inj _ Hi)|]. intros k a Ha. destruct (pi_use _ Hi k a Ha) as [Hr Hres].
  destruct (usable_in_network p a Hi (inv_in_range p a Hi Hr)) as (? & ? & ? & ?). done.
Qed.

(** ** Evaluation *)

Definition sample_net4 : CNet V4_BITS := exist _ (167772160, 29)%Z eq_refl.

Definition sample_pool : IpPool Z (CNet V4_BITS) :=
  mkIpPool sample_net4 167772161 167772162 167772166 ∅ [] ∅.

Lemma ip_pool_assignments_safe_witness :
  let p := pool_run sample_pool [OpAllocate 1 1; OpReserveNext; OpAllocate 2 1; OpRelease 1 1; OpAllocate 3 9]%Z in
  in_use p !! (3, 9)%Z = Some 167772162%Z /\
  (forall k a, in_use p !! k = Some a -> net_contains (pool_network p) a = true).
Proof.
  destruct (ip_pool_assignments_safe true sample_net4 None sample_pool
    [OpAllocate 1 1; OpReserveNext; OpAllocate 2 1; OpRelease 1 1; OpAllocate 3 9]%Z) as [_ Hs].
  - vm_compute. discriminate.
  - discriminate.
  - reflexivity.
  - split; [reflexivity|]. intros k a Ha. apply (Hs k a Ha).
Defined.

Lemma sample_pool_inv : pool_inv sample_pool.
Proof.
  destruct (IpPool_new_ok (EndpointId:=Z) true sample_net4 None) as (q & Hq & Hi & _);
    [vm_compute; discriminate | done |].
  assert (Hn : IpPool_new (EndpointId:=Z) true sample_net4 None = Ret sample_pool) by reflexivity.
  rewrite Hn in Hq. injection Hq as <-. exact Hi.
Qed.

Lemma ip_pool_allocate_contract_witness :
  exists p', allocate sample_pool 5%Z 0%Z = (p', Some 167772162%Z) /\ pool_inv p'.
Proof.
  destruct (ip_pool_allocate_contract sample_pool 5%Z 0%Z sample_pool_inv) as (_ & H & _).
  eexists. split; [reflexivity|]. apply H.
Defined.

(** A /32 network passes validation but gives an unusable pool: the default
    server address lies outside the network. *)
Theorem host_prefix_server_outside {EndpointId} `{Countable EndpointId} {Net4} `{NetLaws V4_BITS Net4}
    {Net6} `{NetOps V6_BITS Net6} (checks : bool) (network : Net4) :
  net_prefix_len network = 32%Z -> (net_addr network + 2 < 2 ^ 32)%Z -> (0 < net_addr network)%Z ->
  validate_vpn_networks (Net6:=Net6) (Some network) None None None Sequential = Ret tt /\
  exists p : IpPool EndpointId Net4, IpPool_new checks network None = Ret p /\
    net_contains network (pool_server_ip p) = false.
Proof.
  intros Hp Ha Hpos. split; [done|]. change (2 ^ 32)%Z with 4294967296%Z in Ha.
  pose proof (law_network network) as Hn. pose proof (law_broadcast network) as Hb.
  rewrite Hp in Hn, Hb. change (block_size V4_BITS 32) with 1%Z in Hn, Hb.
  rewrite Z.mod_1_r in Hn. unfold IpPool_new.
  rewrite add_w_ok by ulia. cbn [mbind outcome_bind].
  rewrite add_w_ok by ulia. cbn [mbind outcome_bind].
  rewrite sub_w_ok by ulia. cbn [mbind outcome_bind].
  eexists. split; [done|]. cbn [pool_server_ip]. rewrite law_contains. lia.
Qed.

Definition sample_host_net : CNet V4_BITS := exist _ (167772165, 32)%Z eq_refl.

Lemma host_prefix_server_outside_witness :
  exists p : IpPool Z (CNet V4_BITS), IpPool_new true sample_host_net None = Ret p /\
    net_contains sample_host_net (pool_server_ip p) = false.
Proof.
  destruct (host_prefix_server_outside (EndpointId:=Z) (Net6:=CNet V6_BITS) true sample_host_net)
    as [_ H]; [reflexivity | vm_compute; reflexivity | vm_compute; reflexivity | exact H].
Defined.
