(* ===== verification/Ip6Pool.v ===== *)
(** * The IPv6 address pool ([src/tunnel/server.rs], [Ip6Pool])

    The sequential strategy is shown to refine the IPv4 pool of [IpPool] with
    nothing reserved, so that its invariant and contract carry over; the
    node-id strategy derives addresses from the client's endpoint id.
    SHA-256 and the byte form of an endpoint id are outside the repository and
    are parameters. *)

From S2P Require Import Prelude Errors Net Config IpPool.

(** [a << n] of a [u128]: a shift by 128 or more panics in a debug build; a
    release build takes the amount modulo 128. *)
Definition shl128 {E} (checks : bool) (a n : Z) : outcome E Z :=
  if (n <? 128)%Z then Ret (wrap 128 (Z.shiftl a n))
  else if checks then Panic else Ret (wrap 128 (Z.shiftl a (n mod 128))).

(** The bytes of ["ezvpn ipv6 addr v1"]. *)
Definition IP6_DOMAIN : list Z :=
  [101; 122; 118; 112; 110; 32; 105; 112; 118; 54; 32; 97; 100; 100; 114; 32; 118; 49]%Z.

Section Ip6Pool.
Context {EndpointId : Type} `{Countable EndpointId}.
Context {Net6 : Type} `{NetOps V6_BITS Net6}.
Context (sha256 : list Z -> list Z) (endpoint_bytes : EndpointId -> list Z).

(** [u64::from_be_bytes(digest[..8])]. *)
Definition derive_ip6_suffix (node_id : EndpointId) : Z :=
  be_value (take 8 (sha256 (IP6_DOMAIN ++ endpoint_bytes node_id))).

Definition derived_ip6 (network : Net6) (node_id : EndpointId) : Z :=
  let host_bits := (128 - net_prefix_len network)%Z in
  let mask := if (128 <=? host_bits)%Z then U128_MAX else (Z.shiftl 1 host_bits - 1)%Z in
  Z.lor (net_network network) (Z.land (derive_ip6_suffix node_id) mask).

Inductive Ip6Alloc : Type :=
| SequentialAlloc (next_ip max_ip : Z) (released : list Z)
| NodeIdAlloc.

Record Ip6Pool : Type := mkIp6Pool {
  network6 : Net6;
  server_ip6 : Z;
  alloc6 : Ip6Alloc;
  in_use6 : gmap (EndpointId * Z) Z;
}.

Definition Ip6Pool_new (checks : bool) (network : Net6) (server_ip : option Z)
    (strategy : Ip6Strategy) (server_id : EndpointId) : vres Ip6Pool :=
  let prefix_len := net_prefix_len network in
  if (127 <=? prefix_len)%Z
  then Fail (VpnError_config (Msg "IPv6 prefix /{} is too small for VPN pool (need at least /126 for 1 client)" [prefix_len])) else
  _ ← map_err VpnError_config (validate_ip6_strategy strategy (Some network) server_ip);
  let net_addr := net_network network in
  match strategy with
  | Sequential =>
      server_ip ← (match server_ip with
                   | Some ip => Ret ip
                   | None => add_w 128 checks net_addr 1
                   end);
      next_ip ← add_w 128 checks server_ip 1;
      let host_bits := (128 - prefix_len)%Z in
      span ← shl128 checks 1 host_bits;
      last ← sub_w 128 checks span 1;
      top ← add_w 128 checks net_addr last;
      max_ip ← sub_w 128 checks top 1;
      Ret (mkIp6Pool network server_ip (SequentialAlloc next_ip max_ip []) ∅)
  | NodeId =>
      let server_ip := derived_ip6 network server_id in
      if (server_ip =? net_network network)%Z
      then Fail (VpnError_config (msg "derived server IPv6 collides with the network address; use a different server key or network6"))
      else Ret (mkIp6Pool network server_ip NodeIdAlloc ∅)
  end.

Definition allocate6 (p : Ip6Pool) (endpoint_id : EndpointId) (device_id : Z)
  : Ip6Pool * option Z :=
  let key := (endpoint_id, device_id) in
  match in_use6 p !! key with
  | Some ip => (p, Some ip)
  | None =>
      match alloc6 p with
      | SequentialAlloc next_ip max_ip released =>
          match vec_pop released with
          | Some (ip, released') =>
              (mkIp6Pool (network6 p) (server_ip6 p) (SequentialAlloc next_ip max_ip released')
                 (<[key := ip]> (in_use6 p)), Some ip)
          | None =>
              if (next_ip <=? max_ip)%Z then
                (mkIp6Pool (network6 p) (server_ip6 p)
                   (SequentialAlloc (next_ip + 1) max_ip released)
                   (<[key := next_ip]> (in_use6 p)), Some next_ip)
              else (p, None)
          end
      | NodeIdAlloc =>
          let ip := derived_ip6 (network6 p) endpoint_id in
          if (ip =? net_network (network6 p))%Z || (ip =? server_ip6 p)%Z
             || bool_decide (map_Exists (fun _ used => used = ip) (in_use6 p))
          then (p, None)
          else (mkIp6Pool (network6 p) (server_ip6 p) NodeIdAlloc (<[key := ip]> (in_use6 p)), Some ip)
      end
  end.

Definition release6 (p : Ip6Pool) (endpoint_id : EndpointId) (device_id : Z) : Ip6Pool :=
  match in_use6 p !! (endpoint_id, device_id) with
  | Some ip =>
      mkIp6Pool (network6 p) (server_ip6 p)
        (match alloc6 p with
         | SequentialAlloc next_ip max_ip released =>
             SequentialAlloc next_ip max_ip (released ++ [ip])
         | NodeIdAlloc => NodeIdAlloc
         end)
        (delete (endpoint_id, device_id) (in_use6 p))
  | None => p
  end.

Inductive pool6_op : Type :=
| Op6Allocate (e : EndpointId) (d : Z)
| Op6Release (e : EndpointId) (d : Z).

Definition pool6_step (p : Ip6Pool) (op : pool6_op) : Ip6Pool :=
  match op with
  | Op6Allocate e d => (allocate6 p e d).1
  | Op6Release e d => release6 p e d
  end.

Definition pool6_run (p : Ip6Pool) (ops : list pool6_op) : Ip6Pool := fold_left pool6_step ops p.
End Ip6Pool.
Arguments Ip6Pool _ {_ _} _.

(** A multiple of a power of two and a smaller number share no bits. *)
Lemma lor_disjoint a b n :
  (0 <= n)%Z -> (a mod 2 ^ n = 0)%Z -> (0 <= b < 2 ^ n)%Z -> Z.lor a b = (a + b)%Z.
Proof.
  intros Hn Ha Hb. symmetry. apply Z.add_nocarry_lor. apply Z.bits_inj'. intros i Hi.
  rewrite Z.land_spec, Z.bits_0. destruct (Z.lt_ge_cases i n).
  - rewrite <-(Z.mod_pow2_bits_low a n i) by lia. by rewrite Ha, Z.bits_0.
  - rewrite <-(Z.mod_small b (2 ^ n)) by done.
    rewrite Z.mod_pow2_bits_high by lia. apply andb_false_r.
Qed.

Section Pool6Proofs.
Context {EndpointId : Type} `{Countable EndpointId}.
Context {Net6 : Type} `{NetLaws V6_BITS Net6}.
Context (sha256 : list Z -> list Z) (endpoint_bytes : EndpointId -> list Z).
Implicit Types (p : Ip6Pool EndpointId Net6) (q : IpPool EndpointId Net6).
Abbreviation allocate6 := (allocate6 sha256 endpoint_bytes).
Abbreviation derived_ip6 := (derived_ip6 sha256 endpoint_bytes).

(** ** Sequential strategy: a refinement of [IpPool] *)

Definition seq_view p : option (IpPool EndpointId Net6) :=
  match alloc6 p with
  | SequentialAlloc next max rel =>
      Some (mkIpPool (network6 p) (server_ip6 p) next max (in_use6 p) rel ∅)
  | NodeIdAlloc => None
  end.

Lemma pop_unreserved_empty l :
  pop_unreserved l ∅ = match l with [] => ([], None) | x :: r => (r, Some x) end.
Proof. destruct l; cbn [pop_unreserved]; [done|]. by rewrite bool_decide_false by set_solver. Qed.

Lemma allocate6_refines p q e d :
  seq_view p = Some q ->
  seq_view (allocate6 p e d).1 = Some (allocate q e d).1 /\
  (allocate6 p e d).2 = (allocate q e d).2.
Proof.
  destruct p as [net srv [next max rel|] use]; unfold seq_view; cbn; [|done].
  intros Hq. injection Hq as <-. unfold Ip6Pool.allocate6, allocate. cbn [in_use6 in_use alloc6].
  destruct (use !! (e, d)) as [ip|]; [done|]. cbn [released reserved].
  rewrite pop_unreserved_empty. unfold vec_pop.
  destruct (rev rel) as [|x r] eqn:Hr; cbn -[size]; [|done].
  assert (rel = []) as ->.
  { apply (f_equal (@rev Z)) in Hr. by rewrite rev_involutive in Hr. }
  unfold next_unreserved_ip. cbn [reserved next_ip max_ip with_use]. rewrite size_empty.
  cbn [next_loop]. destruct (next <=? max)%Z; [|done].
  by rewrite bool_decide_false by set_solver.
Qed.

Lemma release6_refines p q e d :
  seq_view p = Some q -> seq_view (release6 p e d) = Some (release q e d).
Proof.
  destruct p as [net srv [next max rel|] use]; unfold seq_view; cbn; [|done].
  intros Hq. injection Hq as <-. unfold release6, release. cbn [in_use6 in_use].
  by destruct (use !! (e, d)).
Qed.

(** The abstract operation of a concrete one. *)
Definition op_view (op : pool6_op) : pool_op (EndpointId:=EndpointId) :=
  match op with Op6Allocate e d => OpAllocate e d | Op6Release e d => OpRelease e d end.

Lemma pool6_run_refines p q ops :
  seq_view p = Some q ->
  seq_view (pool6_run sha256 endpoint_bytes p ops) = Some (pool_run q (map op_view ops)).
Proof.
  revert p q. induction ops as [|op ops IH]; intros p q Hv; [done|].
  cbn [pool6_run fold_left map]. apply IH.
  destruct op as [e d|e d]; cbn [pool6_step op_view pool_step].
  - by apply allocate6_refines.
  - by apply release6_refines.
Qed.

Lemma shl128_ok {E} checks n : (0 <= n < 128)%Z -> shl128 (E:=E) checks 1 n = Ret (2 ^ n)%Z.
Proof.
  intros Hn. unfold shl128. rewrite (proj2 (Z.ltb_lt _ _)) by lia. f_equal.
  rewrite Z.shiftl_1_l. apply wrap_small. split; [lia|]. apply Z.pow_lt_mono_r; lia.
Qed.

Lemma Ip6Pool_new_sequential checks network server_ip server_id :
  (1 <= net_prefix_len network <= 126)%Z ->
  (forall ip, server_ip = Some ip -> net_contains network ip = true /\ (ip < U128_MAX)%Z) ->
  exists p q, Ip6Pool_new sha256 endpoint_bytes checks network server_ip Sequential server_id = Ret p /\
    seq_view p = Some q /\ pool_inv q /\ network6 p = network /\ in_use6 p = ∅ /\
    net_contains network (server_ip6 p) = true.
Proof.
  intros Hp Hs. destruct (network_range network) as (Hn0 & _ & Hb).
  pose proof (law_broadcast network) as Hbc.
  set (b := block_size V6_BITS (net_prefix_len network)) in *.
  assert (Hb4 : (4 <= b)%Z).
  { unfold b, block_size. change V6_BITS with 128%Z at 1. change 4%Z with (2 ^ 2)%Z.
    apply Z.pow_le_mono_r; lia. }
  assert (HU : (2 ^ V6_BITS = U128_MAX + 1)%Z) by reflexivity.
  set (srv := default (net_network network + 1)%Z server_ip).
  assert (Hsrv : net_contains network srv = true /\ (srv < U128_MAX)%Z).
  { unfold srv. destruct server_ip as [ip|]; [by apply Hs|]. cbn. rewrite contains_iff. lia. }
  destruct Hsrv as [Hc Hlt]. pose proof Hc as Hc'. rewrite contains_iff in Hc'.
  assert (Hu : forall z, (0 <= z <= U128_MAX)%Z -> is_uint 128 z).
  { intros z Hz. change (is_uint 128 z) with (0 <= z < 2 ^ V6_BITS)%Z. lia. }
  unfold Ip6Pool_new. rewrite (proj2 (Z.leb_gt _ _)) by lia. cbn [validate_ip6_strategy map_err].
  assert (Hsi : (match server_ip with Some ip => Ret ip
     | None => add_w 128 checks (net_network network) 1 end) = Ret (E:=VpnError) srv).
  { destruct server_ip; [done|]. apply add_w_ok, Hu. lia. }
  change (validate_ip6_strategy Sequential (Some network) server_ip) with (Ret (E:=message) tt).
  cbn [map_err mbind outcome_bind]. rewrite Hsi. cbn [mbind outcome_bind].
  rewrite add_w_ok by (apply Hu; lia). cbn [mbind outcome_bind].
  rewrite shl128_ok by lia. change (2 ^ (128 - net_prefix_len network))%Z with b.
  cbn [mbind outcome_bind]. rewrite sub_w_ok by (apply Hu; lia). cbn [mbind outcome_bind].
  rewrite add_w_ok by (apply Hu; lia). cbn [mbind outcome_bind].
  rewrite sub_w_ok by (apply Hu; lia). cbn [mbind outcome_bind].
  do 2 eexists. split; [done|]. split; [done|].
  split; [|done]. constructor; cbn; try done; try lia;
    try (intros a Ha; by apply not_elem_of_nil in Ha). constructor.
Qed.

(** ** Node-id strategy *)

Record node_inv p : Prop := {
  ni_alloc : alloc6 p = NodeIdAlloc;
  ni_use : forall k a, in_use6 p !! k = Some a ->
    a = derived_ip6 (network6 p) k.1 /\ a <> net_network (network6 p) /\ a <> server_ip6 p;
  ni_inj : forall k k' a, in_use6 p !! k = Some a -> in_use6 p !! k' = Some a -> k = k';
}.

Lemma allocate6_node_inv p e d : node_inv p -> node_inv (allocate6 p e d).1.
Proof.
  intros Hi. unfold Ip6Pool.allocate6. destruct (in_use6 p !! (e, d)) as [ip|] eqn:Hk; [done|].
  rewrite (ni_alloc _ Hi). set (ip := derived_ip6 (network6 p) e).
  destruct (Z.eqb_spec ip (net_network (network6 p))); cbn [orb]; [done|].
  destruct (Z.eqb_spec ip (server_ip6 p)); cbn [orb]; [done|].
  case_bool_decide as Hd; [done|]. cbn [fst].
  assert (Hfree : forall k, in_use6 p !! k <> Some ip).
  { intros k Hk'. apply Hd. by exists k, ip. }
  constructor; cbn; [done| |].
  - intros k a [[<- <-]|[_ Ha]]%lookup_insert_Some; [done | by apply (ni_use _ Hi)].
  - intros k1 k2 a [[<- <-]|[? Hk1]]%lookup_insert_Some [[<- Ha2]|[? Hk2]]%lookup_insert_Some.
    + done.
    + by destruct (Hfree k2).
    + subst a. by destruct (Hfree k1).
    + by eapply (ni_inj _ Hi).
Qed.

Lemma release6_node_inv p e d : node_inv p -> node_inv (release6 p e d).
Proof.
  intros Hi. unfold release6. destruct (in_use6 p !! (e, d)); [|done].
  rewrite (ni_alloc _ Hi). constructor; cbn; [done| |].
  - intros k a [_ Ha]%lookup_delete_Some. by apply (ni_use _ Hi).
  - intros k k' a [_ Ha]%lookup_delete_Some [_ Ha']%lookup_delete_Some. by eapply (ni_inj _ Hi).
Qed.

Lemma pool6_run_node_inv p ops :
  node_inv p -> node_inv (pool6_run sha256 endpoint_bytes p ops).
Proof.
  revert p. induction ops as [|[e d|e d] ops IH]; intros p Hi; [done|..];
    cbn [pool6_run fold_left pool6_step]; apply IH;
    [by apply allocate6_node_inv | by apply release6_node_inv].
Qed.

(** SHA-256 returns bytes. *)
Context (sha256_bytes : forall m, bytes_ok (sha256 m)).

Lemma derived_in_network network e : net_contains network (derived_ip6 network e) = true.
Proof.
  rewrite contains_iff. pose proof (law_prefix network) as Hp.
  pose proof (block_pos _ Hp) as Hb. pose proof (network_multiple network) as Hm.
  rewrite law_broadcast. unfold Ip6Pool.derived_ip6, derive_ip6_suffix.
  set (suffix := be_value _).
  assert (Hsuf : (0 <= suffix)%Z) by (apply be_value_bound; eauto with ezvpn).
  change V6_BITS with 128%Z in Hp. unfold block_size in *. change V6_BITS with 128%Z in *.
  set (hb := (128 - net_prefix_len network)%Z) in *.
  assert (Hmask : (if (128 <=? hb)%Z then U128_MAX else (Z.shiftl 1 hb - 1)%Z) = Z.ones hb).
  { destruct (Z.leb_spec 128 hb); [by replace hb with 128%Z by lia|].
    by rewrite Z.ones_equiv, Z.shiftl_1_l, Z.sub_1_r. }
  rewrite Hmask, Z.land_ones by lia.
  pose proof (Z.mod_pos_bound suffix (2 ^ hb) Hb).
  rewrite (lor_disjoint _ _ hb) by (done || lia). lia.
Qed.
End Pool6Proofs.

(** ** Properties *)

Section Pool6Claims.
Context {EndpointId : Type} `{Countable EndpointId}.
Context {Net6 : Type} `{NetLaws V6_BITS Net6}.

(** The sequential IPv6 pool refines the abstract pool of [IpPool] (with
    nothing reserved) in every history, and so inherits its safety: from the
    pool of a validated network of prefix length 1 to 126, after any sequence
    of allocations and releases two clients never hold the same address, and
    every held address is a client address of the network. *)
Theorem ip6_sequential_refines_pool sha256 endpoint_bytes checks (network : Net6) server_ip
    (server_id : EndpointId) ops :
  (1 <= net_prefix_len network <= 126)%Z ->
  (forall ip, server_ip = Some ip -> net_contains network ip = true /\ (ip < U128_MAX)%Z) ->
  exists p0 q0,
    Ip6Pool_new sha256 endpoint_bytes checks network server_ip Sequential server_id = Ret p0 /\
    seq_view p0 = Some q0 /\
    let p := pool6_run sha256 endpoint_bytes p0 ops in
    seq_view p = Some (pool_run q0 (map op_view ops)) /\
    (forall k k' a, in_use6 p !! k = Some a -> in_use6 p !! k' = Some a -> k = k') /\
    (forall k a, in_use6 p !! k = Some a ->
       net_contains (network6 p) a = true /\ a <> server_ip6 p /\
       a <> net_network (network6 p) /\ a <> net_broadcast (network6 p)).
Proof.
  intros Hp Hs.
  destruct (Ip6Pool_new_sequential sha256 endpoint_bytes checks network server_ip server_id Hp Hs)
    as (p0 & q0 & Hnew & Hv & Hi & _).
  exists p0, q0. split; [done|]. split; [done|]. intros p.
  pose proof (pool6_run_refines sha256 endpoint_bytes p0 q0 ops Hv) as Hr. fold p in Hr.
  split; [done|]. apply (pool_run_inv _ (map op_view ops)) in Hi.
  set (q := pool_run q0 (map op_view ops)) in *.
  assert (Hq : in_use q = in_use6 p /\ pool_network q = network6 p /\ pool_server_ip q = server_ip6 p).
  { unfold seq_view in Hr. destruct (alloc6 p); [|done]. injection Hr as <-. done. }
  destruct Hq as (<- & <- & <-). split; [apply (pi_inj _ Hi)|].
  intros k a Ha. destruct (pi_use _ Hi k a Ha) as [Hra _].
  by apply usable_in_network, inv_in_range.
Qed.

(** Node-id addressing is stateless and collision-free among the connected
    clients: in every history each held address is the one derived from the
    client's endpoint id, lies in the network, is neither the subnet-router
    anycast address nor the server's, and is held by one client only (so a
    second device of the same endpoint is refused). *)
Theorem ip6_node_id_addresses sha256 endpoint_bytes checks (network : Net6)
    (server_id : EndpointId) p0 ops :
  (forall m, bytes_ok (sha256 m)) ->
  Ip6Pool_new sha256 endpoint_bytes checks network None NodeId server_id = Ret p0 ->
  let p := pool6_run sha256 endpoint_bytes p0 ops in
  (forall k a, in_use6 p !! k = Some a ->
     a = derived_ip6 sha256 endpoint_bytes (network6 p) k.1 /\
     net_contains (network6 p) a = true /\
     a <> net_network (network6 p) /\ a <> server_ip6 p) /\
  (forall e d d' a a', in_use6 p !! (e, d) = Some a -> in_use6 p !! (e, d') = Some a' -> d = d').
Proof.
  intros Hsha Hnew p.
  assert (Hi0 : node_inv sha256 endpoint_bytes p0).
  { unfold Ip6Pool_new in Hnew. destruct (127 <=? _)%Z; [done|].
    bind_inv Hnew. cbv zeta in Hnew. destruct (_ =? _)%Z; [done|]. injection Hnew as <-.
    constructor; cbn; [done| |]; by intros. }
  apply (pool6_run_node_inv sha256 endpoint_bytes _ ops) in Hi0. fold p in Hi0.
  split.
  - intros k a Ha. destruct (ni_use _ _ _ Hi0 k a Ha) as (-> & ? & ?).
    split_and!; try done. by apply derived_in_network.
  - intros e d d' a a' Ha Ha'.
    destruct (ni_use _ _ _ Hi0 _ _ Ha) as (-> & _). destruct (ni_use _ _ _ Hi0 _ _ Ha') as (-> & _).
    by pose proof (ni_inj _ _ _ Hi0 _ _ _ Ha Ha') as [= ].
Qed.

(** The prefix [::/0] passes every check but the pool construction computes
    [1 << 128]: a debug build panics; a release build ends with the last
    address of the whole space as [max_ip], although the code means to exclude
    the last address. *)
Theorem ip6_zero_prefix_overflow sha256 endpoint_bytes (network : Net6) (server_id : EndpointId) :
  net_prefix_len network = 0%Z -> net_network network = 0%Z ->
  validate_ip6_strategy Sequential (Some network) None = Ret tt /\
  Ip6Pool_new sha256 endpoint_bytes true network None Sequential server_id = Panic /\
  exists p, Ip6Pool_new sha256 endpoint_bytes false network None Sequential server_id = Ret p /\
    alloc6 p = SequentialAlloc 2 U128_MAX [].
Proof.
  intros Hp Hn. split; [done|].
  unfold Ip6Pool_new. rewrite Hp, Hn. split; [reflexivity|].
  eexists. split; reflexivity.
Qed.
End Pool6Claims.

Definition sample_net6 : CNet V6_BITS := exist _ (336294682933583715844663186250927177728, 64)%Z eq_refl.

Lemma ip6_sequential_refines_pool_witness :
  exists p0 q0,
    Ip6Pool_new (fun _ => []) (fun e : Z => [e]) true sample_net6 None Sequential 0%Z = Ret p0 /\
    seq_view p0 = Some q0 /\
    seq_view (pool6_run (fun _ => []) (fun e : Z => [e]) p0 [Op6Allocate 7%Z 1%Z])
      = Some (pool_run q0 [OpAllocate 7%Z 1%Z]).
Proof.
  destruct (ip6_sequential_refines_pool (fun _ => []) (fun e : Z => [e]) true sample_net6 None 0%Z
    [Op6Allocate 7%Z 1%Z]) as (p0 & q0 & Hn & Hv & Hr & _).
  - vm_compute. split; discriminate.
  - discriminate.
  - exists p0, q0. split; [exact Hn|]. split; [exact Hv | exact Hr].
Defined.

(** A stand-in digest: the last byte of the message, in the eighth place. *)
Definition sample_digest (m : list Z) : list Z :=
  [0; 0; 0; 0; 0; 0; 0; (default 0%Z (last m)) mod 256]%Z.

Lemma ip6_node_id_addresses_witness :
  exists p0, Ip6Pool_new sample_digest (fun e : Z => [e]) true sample_net6 None NodeId 1%Z = Ret p0 /\
    let p := pool6_run sample_digest (fun e : Z => [e]) p0 [Op6Allocate 7 1; Op6Allocate 7 2]%Z in
    (forall e d d' a a', in_use6 p !! (e, d) = Some a -> in_use6 p !! (e, d') = Some a' -> d = d').
Proof.
  eexists. split; [reflexivity|].
  eapply (ip6_node_id_addresses sample_digest (fun e : Z => [e]) true sample_net6 1%Z).
  - intros m. unfold sample_digest. repeat constructor; try done;
      pose proof (Z.mod_pos_bound (default 0%Z (last m)) 256); widths; lia.
  - reflexivity.
Defined.

Definition zero_net6 : CNet V6_BITS := exist _ (0, 0)%Z eq_refl.

Lemma ip6_zero_prefix_overflow_witness :
  Ip6Pool_new (fun _ => []) (fun e : Z => [e]) true zero_net6 None Sequential 0%Z = Panic.
Proof.
  destruct (ip6_zero_prefix_overflow (fun _ => []) (fun e : Z => [e]) zero_net6 0%Z) as (_ & H & _);
    [reflexivity | reflexivity | exact H].
Defined.
