(* ===== verification/Sessions.v ===== *)
(** * Connection lifecycle of the server ([src/tunnel/server.rs])

    [handle_connection] and [handle_connection_inner], from an authenticated
    handshake to the cleanup, as a state machine: one step per access to the
    state the connection tasks share (the connection counter, the two pools
    behind their locks, the [DashMap]s), so that the tasks of several
    connections interleave at exactly those points.  The pools are used
    through the interface [AddrPool]. *)

From S2P Require Import Prelude Errors Net Config IpPool Ip6Pool.

(** ** What the server needs of an address pool *)

Class AddrPool (Key : Type) `{Countable Key} (P : Type) : Type := {
  ap_allocate : P -> Key -> P * option Z;
  ap_release : P -> Key -> P;
  ap_use : P -> gmap Key Z;
  ap_inv : P -> Prop;
}.

Class AddrPoolLaws (Key : Type) `{Countable Key} (P : Type) `{!AddrPool Key P} : Prop := {
  ap_allocate_inv : forall p k, ap_inv p -> ap_inv (ap_allocate p k).1;
  ap_release_inv : forall p k, ap_inv p -> ap_inv (ap_release p k);
  ap_allocate_some : forall p k p' a, ap_inv p -> ap_allocate p k = (p', Some a) ->
    ap_use p' = <[k := a]> (ap_use p) /\ (forall b, ap_use p !! k = Some b -> a = b);
  ap_allocate_none : forall p k p', ap_inv p -> ap_allocate p k = (p', None) ->
    ap_use p' = ap_use p /\ ap_use p !! k = None;
  ap_release_use : forall p k, ap_use (ap_release p k) = delete k (ap_use p);
  ap_inj : forall p k k' a, ap_inv p -> ap_use p !! k = Some a -> ap_use p !! k' = Some a -> k = k';
}.

(** ** The state *)

Section Sessions.
Context {Key : Type} `{Countable Key}.
Context {P4 P6 : Type} `{!AddrPool Key P4} `{!AddrPool Key P6}.
Context (max_clients : Z).

(** [ClientState], without the connection and queue handles. *)
Record ClientState : Type := mkClientState {
  session_id : Z;
  st_assigned_ip : option Z;
  st_assigned_ip6 : option Z;
}.

(** The state of [VpnServer] the connection tasks share. *)
Record VpnServer : Type := mkServer {
  ip_pool : option P4;
  ip6_pool : option P6;
  clients : gmap Key ClientState;
  ip_to_endpoint : gmap Z Key;
  ip6_to_endpoint : gmap Z Key;
  active_connections : Z;
  next_session_id : Z;
}.

(** Where a connection task is. *)
Inductive pc : Type :=
| Arrived                                        (* authenticated *)
| Refused                                        (* counted, over the limit *)
| Accepted                                       (* [handle_connection_inner] starts *)
| Got4 (a4 : option Z)                           (* IPv4 allocated *)
| Got46 (a4 a6 : option Z)                       (* both allocated *)
| Responded (a4 a6 : option Z)                   (* response written *)
| InClients (sid : Z) (a4 a6 : option Z)         (* [clients] entry inserted *)
| Routed4 (sid : Z) (a4 a6 : option Z)           (* IPv4 route inserted *)
| Serving (sid : Z) (a4 a6 : option Z)           (* in [handle_client_data] *)
| Removed (st : ClientState) (a4 a6 : option Z)  (* [clients] entry removed *)
| Unrouted4 (st : ClientState) (a4 a6 : option Z)
| Unrouted6 (st : ClientState) (a4 a6 : option Z)
| Released4 (st : ClientState) (a6 : option Z)
| Leaving                                        (* about to decrement the counter *)
| Abandoned (a4 a6 : option Z)                   (* error return, pools not released *)
| Done
| Lost (a4 a6 : option Z).                       (* done, still holding its addresses *)

Definition set_pool4 (s : VpnServer) (p : P4) : VpnServer :=
  mkServer (Some p) (ip6_pool s) (clients s) (ip_to_endpoint s) (ip6_to_endpoint s)
    (active_connections s) (next_session_id s).

Definition set_pool6 (s : VpnServer) (p : P6) : VpnServer :=
  mkServer (ip_pool s) (Some p) (clients s) (ip_to_endpoint s) (ip6_to_endpoint s)
    (active_connections s) (next_session_id s).

Definition set_clients (s : VpnServer) (m : gmap Key ClientState) (next : Z) : VpnServer :=
  mkServer (ip_pool s) (ip6_pool s) m (ip_to_endpoint s) (ip6_to_endpoint s)
    (active_connections s) next.

Definition set_routes (s : VpnServer) (r4 r6 : gmap Z Key) : VpnServer :=
  mkServer (ip_pool s) (ip6_pool s) (clients s) r4 r6 (active_connections s) (next_session_id s).

Definition set_active (s : VpnServer) (n : Z) : VpnServer :=
  mkServer (ip_pool s) (ip6_pool s) (clients s) (ip_to_endpoint s) (ip6_to_endpoint s)
    n (next_session_id s).

(** [map.insert(ip, key)] when an address was assigned. *)
Definition route_insert (m : gmap Z Key) (a : option Z) (k : Key) : gmap Z Key :=
  match a with Some ip => <[ip := k]> m | None => m end.

(** [map.remove_if(&ip, |..| it points to us)] when an address was assigned. *)
Definition route_remove (m : gmap Z Key) (a : option Z) (k : Key) : gmap Z Key :=
  match a with
  | Some ip => if decide (m !! ip = Some k) then delete ip m else m
  | None => m
  end.

(** [handle_connection]: [active_connections.fetch_add(1)] and the limit check. *)
Definition admit_task (s : VpnServer) : VpnServer * pc :=
  let prev_count := active_connections s in
  (set_active s (prev_count + 1), if (max_clients <=? prev_count)%Z then Refused else Accepted).

(** The IPv4 allocation: exhaustion is fatal in IPv4-only mode. *)
Definition allocate4_task (s : VpnServer) (k : Key) : VpnServer * pc :=
  match ip_pool s with
  | Some pool =>
      match ap_allocate pool k with
      | (pool, Some ip) => (set_pool4 s pool, Got4 (Some ip))
      | (pool, None) =>
          (set_pool4 s pool, match ip6_pool s with None => Leaving | Some _ => Got4 None end)
      end
  | None => (s, Got4 None)
  end.

(** The IPv6 allocation, and the check that one address was assigned. *)
Definition allocate6_task (s : VpnServer) (k : Key) (a4 : option Z) : VpnServer * pc :=
  let '(s, a6, exhausted) :=
    match ip6_pool s with
    | Some pool =>
        match ap_allocate pool k with
        | (pool, Some ip) => (set_pool6 s pool, Some ip, false)
        | (pool, None) =>
            (set_pool6 s pool, None, match ip_pool s with None => true | Some _ => false end)
        end
    | None => (s, None, false)
    end in
  if exhausted then (s, Leaving) else
  match a4, a6 with
  | None, None => (s, Leaving)
  | _, _ => (s, Got46 a4 a6)
  end.

(** The session id and the [clients] entry, which replaces an earlier one.
    The source numbers the session ([fetch_add]) a little before it inserts the
    entry.  The two are one step here: the counter is read by nothing else, and
    ids are only compared for equality, so a numbering that came earlier only
    renames ids; what matters, that no two sessions share one, holds either
    way. *)
Definition register_task (s : VpnServer) (k : Key) (a4 a6 : option Z) : VpnServer * pc :=
  let sid := next_session_id s in
  (set_clients s (<[k := mkClientState sid a4 a6]> (clients s)) (sid + 1), InClients sid a4 a6).

(** The client left: [clients.remove_if(&client_key, session matches)]. *)
Definition remove_task (s : VpnServer) (k : Key) (sid : Z) (a4 a6 : option Z) : VpnServer * pc :=
  match clients s !! k with
  | Some st =>
      if (session_id st =? sid)%Z
      then (set_clients s (delete k (clients s)) (next_session_id s), Removed st a4 a6)
      else (s, Leaving)
  | None => (s, Leaving)
  end.

(** The releases, for the families the removed state had an address of. *)
Definition release4_task (s : VpnServer) (k : Key) (st : ClientState) : VpnServer :=
  match st_assigned_ip st, ip_pool s with
  | Some _, Some pool => set_pool4 s (ap_release pool k)
  | _, _ => s
  end.

Definition release6_task (s : VpnServer) (k : Key) (st : ClientState) : VpnServer :=
  match st_assigned_ip6 st, ip6_pool s with
  | Some _, Some pool => set_pool6 s (ap_release pool k)
  | _, _ => s
  end.

(** The next step of the task of client [k]; [write_ok] says whether
    [write_message] succeeds, the only call here whose failure returns early. *)
Definition conn_next (write_ok : bool) (s : VpnServer) (k : Key) (c : pc)
  : option (VpnServer * pc) :=
  match c with
  | Arrived => Some (admit_task s)
  | Refused => Some (set_active s (active_connections s - 1), Done)
  | Accepted => Some (allocate4_task s k)
  | Got4 a4 => Some (allocate6_task s k a4)
  | Got46 a4 a6 =>
      (* [write_message(&mut send, &response.encode()?).await?] *)
      Some (s, if write_ok then Responded a4 a6 else Abandoned a4 a6)
  | Responded a4 a6 => Some (register_task s k a4 a6)
  | InClients sid a4 a6 =>
      Some (set_routes s (route_insert (ip_to_endpoint s) a4 k) (ip6_to_endpoint s),
            Routed4 sid a4 a6)
  | Routed4 sid a4 a6 =>
      Some (set_routes s (ip_to_endpoint s) (route_insert (ip6_to_endpoint s) a6 k),
            Serving sid a4 a6)
  | Serving sid a4 a6 => Some (remove_task s k sid a4 a6)
  | Removed st a4 a6 =>
      Some (set_routes s (route_remove (ip_to_endpoint s) a4 k) (ip6_to_endpoint s),
            Unrouted4 st a4 a6)
  | Unrouted4 st a4 a6 =>
      Some (set_routes s (ip_to_endpoint s) (route_remove (ip6_to_endpoint s) a6 k),
            Unrouted6 st a4 a6)
  | Unrouted6 st a4 a6 => Some (release4_task s k st, Released4 st a6)
  | Released4 st a6 => Some (release6_task s k st, Leaving)
  | Leaving => Some (set_active s (active_connections s - 1), Done)
  | Abandoned a4 a6 => Some (set_active s (active_connections s - 1), Lost a4 a6)
  | Done | Lost _ _ => None
  end.

(** Unfold one step of a task. *)
Ltac step_in H := cbn [conn_next] in H; unfold admit_task, allocate4_task, allocate6_task,
  register_task, remove_task, release4_task, release6_task in H.

(** ** All connections *)

Record sys : Type := mkSys {
  srv : VpnServer;
  conns : gmap nat (Key * pc);
}.

Inductive event : Type :=
| Arrive (id : nat) (k : Key)             (* a client authenticated *)
| Run (id : nat) (write_ok : bool).       (* one step of a task *)

Definition sys_step (s : sys) (e : event) : sys :=
  match e with
  | Arrive id k =>
      match conns s !! id with
      | None => mkSys (srv s) (<[id := (k, Arrived)]> (conns s))
      | Some _ => s
      end
  | Run id write_ok =>
      match conns s !! id with
      | Some (k, c) =>
          match conn_next write_ok (srv s) k c with
          | Some (srv', c') => mkSys srv' (<[id := (k, c')]> (conns s))
          | None => s
          end
      | None => s
      end
  end.

Definition sys_run (s : sys) (es : list event) : sys := fold_left sys_step es s.

Definition sys_init (p4 : option P4) (p6 : option P6) : sys :=
  mkSys (mkServer p4 p6 ∅ ∅ ∅ 0 1) ∅.

(** ** Admission *)

(** The tasks between the increment and the decrement of the counter. *)
Definition counted (c : pc) : bool :=
  match c with Arrived | Done | Lost _ _ => false | _ => true end.

(** The tasks inside [handle_connection_inner]. *)
Definition admitted (c : pc) : bool := counted c && match c with Refused => false | _ => true end.

Definition count (f : pc -> bool) (m : gmap nat (Key * pc)) : Z :=
  Z.of_nat (size (filter (fun x => f x.2.2 = true) m)).

Lemma count_insert_new f m i x :
  m !! i = None -> count f (<[i := x]> m) = (count f m + if f x.2 then 1 else 0)%Z.
Proof.
  intros Hi. unfold count. destruct (f x.2) eqn:Hf.
  - rewrite map_filter_insert_True by done. rewrite map_size_insert_None; [lia|].
    apply map_lookup_filter_None. by left.
  - rewrite map_filter_insert_False by (cbn; congruence). rewrite delete_id by done. lia.
Qed.

Lemma count_insert f m i x y :
  m !! i = Some y ->
  (count f (<[i := x]> m) + (if f y.2 then 1 else 0) = count f m + if f x.2 then 1 else 0)%Z.
Proof.
  intros Hi. rewrite <-(insert_delete_id m i y Hi) at 2.
  rewrite <-insert_delete_eq. rewrite !count_insert_new by apply lookup_delete_eq. lia.
Qed.

Definition admission_inv (s : sys) : Prop :=
  active_connections (srv s) = count counted (conns s) /\
  (count admitted (conns s) <= Z.max 0 max_clients)%Z.

(** Every step moves the counter with the set of counted tasks, and admits
    only below the limit. *)
Lemma conn_next_counts write_ok s k c s' c' :
  conn_next write_ok s k c = Some (s', c') ->
  active_connections s' = (active_connections s + (if counted c' then 1 else 0)
                           - (if counted c then 1 else 0))%Z /\
  (admitted c' = true -> admitted c = true \/ (active_connections s < max_clients)%Z).
Proof.
  intros Hs. destruct c; step_in Hs; cbn [counted admitted andb];
    repeat case_match; simplify_eq/=; split; try lia; auto.
Qed.

Lemma count_mono (f g : pc -> bool) m :
  (forall c, f c = true -> g c = true) -> (count f m <= count g m)%Z.
Proof.
  intros Hfg. induction m as [|i x m Hi IH] using map_ind; [done|].
  rewrite !count_insert_new by done. destruct (f x.2) eqn:Hf; [rewrite (Hfg _ Hf); lia|].
  destruct (g x.2); lia.
Qed.

Lemma sys_step_admission s e : admission_inv s -> admission_inv (sys_step s e).
Proof.
  intros [Ha Hm]. destruct e as [id k|id w]; cbn [sys_step].
  - destruct (conns s !! id) as [y|] eqn:Hi; [done|]. split; cbn [srv conns];
      rewrite count_insert_new by done; cbn; lia.
  - destruct (conns s !! id) as [[k c]|] eqn:Hi; [|done].
    destruct (conn_next w (srv s) k c) as [[s' c']|] eqn:Hn; [|done].
    destruct (conn_next_counts _ _ _ _ _ _ Hn) as [Hact Hadm].
    pose proof (count_insert counted (conns s) id (k, c') (k, c) Hi) as Hc.
    pose proof (count_insert admitted (conns s) id (k, c') (k, c) Hi) as Hd.
    pose proof (count_mono admitted counted (conns s)) as Hle. cbn [snd] in Hc, Hd.
    split; cbn [srv conns]; [lia|]. destruct (admitted c') eqn:Hc'; [|destruct (admitted c); lia].
    destruct (Hadm eq_refl) as [Hx|Hlt]; [rewrite Hx in Hd; lia|].
    specialize (Hle ltac:(by intros [])). destruct (admitted c); lia.
Qed.

Lemma sys_run_admission s es : admission_inv s -> admission_inv (sys_run s es).
Proof.
  revert s. induction es as [|e es IH]; intros s Hs; [done|]. by apply IH, sys_step_admission.
Qed.

(** ** Ownership *)

(** The address of each family a task holds in its pool. *)
Definition hold4 (c : pc) : option Z :=
  match c with
  | Got4 a4 | Got46 a4 _ | Responded a4 _ | InClients _ a4 _ | Routed4 _ a4 _ | Serving _ a4 _
  | Removed _ a4 _ | Unrouted4 _ a4 _ | Unrouted6 _ a4 _ | Abandoned a4 _ | Lost a4 _ => a4
  | _ => None
  end.

Definition hold6 (c : pc) : option Z :=
  match c with
  | Got46 _ a6 | Responded _ a6 | InClients _ _ a6 | Routed4 _ _ a6 | Serving _ _ a6
  | Removed _ _ a6 | Unrouted4 _ _ a6 | Unrouted6 _ _ a6 | Released4 _ a6
  | Abandoned _ a6 | Lost _ a6 => a6
  | _ => None
  end.

(** Its entry in [clients]. *)
Definition entry (c : pc) : option ClientState :=
  match c with
  | InClients sid a4 a6 | Routed4 sid a4 a6 | Serving sid a4 a6 => Some (mkClientState sid a4 a6)
  | _ => None
  end.

(** Whether its address is in the reverse lookup of each family. *)
Definition route4 (c : pc) : option Z :=
  match c with Routed4 _ a4 _ | Serving _ a4 _ | Removed _ a4 _ => a4 | _ => None end.

Definition route6 (c : pc) : option Z :=
  match c with Serving _ _ a6 | Removed _ _ a6 | Unrouted4 _ _ a6 => a6 | _ => None end.

Definition live (c : pc) : bool := match c with Done | Lost _ _ => false | _ => true end.

(** The state remembered by the cleanup is the one the task inserted. *)
Definition st_ok (c : pc) : Prop :=
  match c with
  | Removed st a4 a6 | Unrouted4 st a4 a6 | Unrouted6 st a4 a6 =>
      st_assigned_ip st = a4 /\ st_assigned_ip6 st = a6
  | Released4 st a6 => st_assigned_ip6 st = a6
  | _ => True
  end.

Definition use4 (s : VpnServer) : gmap Key Z :=
  match ip_pool s with Some p => ap_use p | None => ∅ end.
Definition use6 (s : VpnServer) : gmap Key Z :=
  match ip6_pool s with Some p => ap_use p | None => ∅ end.

Definition distinct_keys (m : gmap nat (Key * pc)) : Prop :=
  forall i j k c c', m !! i = Some (k, c) -> m !! j = Some (k, c') ->
    live c = true -> live c' = true -> i = j.

(** A keyed table [t] agrees with what the tasks own: [h c] is what a task at
    [c] has put there. *)
Definition owns {A} (t : gmap Key A) (h : pc -> option A) (m : gmap nat (Key * pc)) : Prop :=
  (forall i k c a, m !! i = Some (k, c) -> live c = true -> h c = Some a -> t !! k = Some a) /\
  (forall k a, t !! k = Some a -> exists i c, m !! i = Some (k, c) /\ h c = Some a).

(** A reverse table agrees with what the tasks own. *)
Definition routes (r : gmap Z Key) (h : pc -> option Z) (m : gmap nat (Key * pc)) : Prop :=
  forall a k, r !! a = Some k <->
    exists i c, m !! i = Some (k, c) /\ live c = true /\ h c = Some a.

(** How one step may change a keyed table. *)
Definition table_step {A} (t t' : gmap Key A) (k : Key) (o o' : option A) : Prop :=
  (t' = t /\ o' = o) \/
  (exists a, t' = <[k := a]> t /\ o' = Some a) \/
  (t' = delete k t /\ o' = None).

Lemma owns_step {A} (t t' : gmap Key A) (h : pc -> option A) m i k c c' :
  distinct_keys m -> m !! i = Some (k, c) -> live c = true ->
  owns t h m -> table_step t t' k (h c) (h c') -> owns t' h (<[i := (k, c')]> m).
Proof.
  intros Hd Hi Hl [Hf Hb] Hs.
  assert (Hother : forall j k' c0, j <> i -> m !! j = Some (k', c0) -> live c0 = true -> k' <> k).
  { intros j k' c0 Hne Hj Hl0 ->. apply Hne. by eapply Hd. }
  split.
  - intros j k' c0 a Hj Hl0 Ha. apply lookup_insert_Some in Hj as [[<- [= <- <-]]|[Hne Hj]].
    + destruct Hs as [[-> Ho]|[(b & -> & Ho)|[-> Ho]]].
      * rewrite Ho in Ha. by eapply (Hf i).
      * rewrite lookup_insert_eq. congruence.
      * congruence.
    + pose proof (Hother j k' c0 ltac:(done) Hj Hl0).
      destruct Hs as [[-> _]|[(b & -> & _)|[-> _]]].
      * by eapply Hf.
      * rewrite lookup_insert_ne by done. by eapply Hf.
      * rewrite lookup_delete_ne by done. by eapply Hf.
  - intros k' a Ha. destruct (decide (k' = k)) as [->|Hne].
    + destruct Hs as [[-> Ho]|[(b & -> & Ho)|[-> Ho]]].
      * destruct (Hb k a Ha) as (j & c0 & Hj & Hc0).
        destruct (decide (j = i)) as [->|Hji].
        -- exists i, c'. rewrite lookup_insert_eq. split; [done|]. rewrite Ho. by simplify_eq.
        -- exists j, c0. by rewrite lookup_insert_ne.
      * rewrite lookup_insert_eq in Ha. exists i, c'. rewrite lookup_insert_eq.
        split; [done|]. congruence.
      * by rewrite lookup_delete_eq in Ha.
    + assert (Ht : t !! k' = Some a).
      { destruct Hs as [[-> _]|[(b & -> & _)|[-> _]]]; [done| |].
        - by rewrite lookup_insert_ne in Ha.
        - by rewrite lookup_delete_ne in Ha. }
      destruct (Hb k' a Ht) as (j & c0 & Hj & Hc0). exists j, c0.
      rewrite lookup_insert_ne; [done|]. intros ->. by simplify_eq.
Qed.

(** How one step may change a reverse table. *)
Definition route_step (r r' : gmap Z Key) (k : Key) (o o' : option Z) : Prop :=
  (r' = r /\ o' = o) \/
  (exists a, r' = <[a := k]> r /\ o = None /\ o' = Some a) \/
  (exists a, r' = delete a r /\ o = Some a /\ o' = None).

Lemma routes_step r r' (h g : pc -> option Z) t m i k c c' :
  distinct_keys m -> m !! i = Some (k, c) -> live c = true ->
  (forall c0 a, h c0 = Some a -> g c0 = Some a) ->
  owns t g m -> (forall k1 k2 a, t !! k1 = Some a -> t !! k2 = Some a -> k1 = k2) ->
  (forall a, h c' = Some a -> g c = Some a) -> (h c' <> None -> live c' = true) ->
  routes r h m -> route_step r r' k (h c) (h c') -> routes r' h (<[i := (k, c')]> m).
Proof.
  intros Hd Hi Hl Hhg [Hf _] Hinj Hg' Hlive Hr Hs.
  (* another task never owns the address this one does *)
  assert (Hdiff : forall j k' c0 a, j <> i -> m !! j = Some (k', c0) -> live c0 = true ->
    h c0 = Some a -> g c = Some a -> False).
  { intros j k' c0 a Hne Hj Hl0 Ha Hc. apply Hne.
    assert (k' = k) as -> by (eapply Hinj; [eapply (Hf j) | eapply (Hf i)]; eauto).
    by eapply Hd. }
  assert (Hkeep : forall a k', (exists j c0, j <> i /\ m !! j = Some (k', c0) /\ live c0 = true /\
     h c0 = Some a) -> exists j c0, <[i := (k, c')]> m !! j = Some (k', c0) /\ live c0 = true /\ h c0 = Some a).
  { intros a k' (j & c0 & Hne & Hj & ? & ?). exists j, c0. by rewrite lookup_insert_ne. }
  intros a k'. split.
  - intros Ha. destruct Hs as [[-> Ho]|[(b & -> & Hn & Ho)|(b & -> & Hb & Ho)]].
    + apply Hr in Ha as (j & c0 & Hj & Hl0 & Hc0). destruct (decide (j = i)) as [->|Hne].
      * simplify_eq. exists i, c'. rewrite lookup_insert_eq.
        split_and!; [done|apply Hlive; congruence|congruence].
      * apply Hkeep. eauto 10.
    + apply lookup_insert_Some in Ha as [[<- <-]|[Hne Ha]].
      * exists i, c'. rewrite lookup_insert_eq.
        split_and!; [done|apply Hlive; congruence|congruence].
      * apply Hr in Ha as (j & c0 & Hj & Hl0 & Hc0). apply Hkeep. exists j, c0.
        split; [|done]. intros ->. simplify_eq; congruence.
    + apply lookup_delete_Some in Ha as [Hne Ha].
      apply Hr in Ha as (j & c0 & Hj & Hl0 & Hc0). apply Hkeep. exists j, c0.
      split; [|done]. intros ->. simplify_eq; congruence.
  - intros (j & c0 & Hj & Hl0 & Hc0). apply lookup_insert_Some in Hj as [[<- [= <- <-]]|[Hne Hj]].
    + destruct Hs as [[-> Ho]|[(b & -> & Hn & Ho)|(b & -> & Hb & Ho)]].
      * apply Hr. exists i, c. split_and!; try done. congruence.
      * rewrite Hc0 in Ho. simplify_eq. apply lookup_insert_eq.
      * congruence.
    + assert (Hold : r !! a = Some k') by (apply Hr; eauto).
      destruct Hs as [[-> Ho]|[(b & -> & Hn & Ho)|(b & -> & Hb & Ho)]]; [done| |].
      * rewrite lookup_insert_ne; [done|]. intros ->. by eapply (Hdiff j); eauto.
      * rewrite lookup_delete_ne; [done|]. intros ->. by eapply (Hdiff j); eauto.
Qed.

(** ** The invariant of orderly histories *)

Record sess_inv (s : sys) : Prop := {
  si_pool4 : forall p, ip_pool (srv s) = Some p -> ap_inv p;
  si_pool6 : forall p, ip6_pool (srv s) = Some p -> ap_inv p;
  si_keys : distinct_keys (conns s);
  si_use4 : owns (use4 (srv s)) hold4 (conns s);
  si_use6 : owns (use6 (srv s)) hold6 (conns s);
  si_clients : owns (clients (srv s)) entry (conns s);
  si_route4 : routes (ip_to_endpoint (srv s)) route4 (conns s);
  si_route6 : routes (ip6_to_endpoint (srv s)) route6 (conns s);
  si_st : forall i k c, conns s !! i = Some (k, c) -> st_ok c;
}.

Context `{!AddrPoolLaws Key P4} `{!AddrPoolLaws Key P6}.

Lemma use4_inj s k1 k2 a :
  sess_inv s -> use4 (srv s) !! k1 = Some a -> use4 (srv s) !! k2 = Some a -> k1 = k2.
Proof.
  intros Hs. unfold use4. destruct (ip_pool (srv s)) as [p|] eqn:Hp; [|by rewrite lookup_empty].
  apply ap_inj. by apply (si_pool4 _ Hs).
Qed.

Lemma use6_inj s k1 k2 a :
  sess_inv s -> use6 (srv s) !! k1 = Some a -> use6 (srv s) !! k2 = Some a -> k1 = k2.
Proof.
  intros Hs. unfold use6. destruct (ip6_pool (srv s)) as [p|] eqn:Hp; [|by rewrite lookup_empty].
  apply ap_inj. by apply (si_pool6 _ Hs).
Qed.

(** What a step of a task does to every table, given what the task owns. *)
Record step_effect (s s' : VpnServer) (k : Key) (c c' : pc) : Prop := {
  se_pool4 : forall p, ip_pool s' = Some p -> ap_inv p;
  se_pool6 : forall p, ip6_pool s' = Some p -> ap_inv p;
  se_use4 : table_step (use4 s) (use4 s') k (hold4 c) (hold4 c');
  se_use6 : table_step (use6 s) (use6 s') k (hold6 c) (hold6 c');
  se_clients : table_step (clients s) (clients s') k (entry c) (entry c');
  se_route4 : route_step (ip_to_endpoint s) (ip_to_endpoint s') k (route4 c) (route4 c');
  se_route6 : route_step (ip6_to_endpoint s) (ip6_to_endpoint s') k (route6 c) (route6 c');
  se_st : st_ok c';
}.

Lemma table_same {A} (t : gmap Key A) k o : table_step t t k o o.
Proof. by left. Qed.
Lemma route_same r k o : route_step r r k o o.
Proof. by left. Qed.
Lemma table_insert {A} (t : gmap Key A) k a o : table_step t (<[k := a]> t) k o (Some a).
Proof. right. left. eauto. Qed.
Lemma table_delete {A} (t : gmap Key A) k o : table_step t (delete k t) k o None.
Proof. right. by right. Qed.
Local Hint Resolve table_same route_same table_insert table_delete : core.

Lemma route_insert_step r k a : route_step r (route_insert r a k) k None a.
Proof. destruct a as [a|]; [right; left; eauto|by left]. Qed.

Lemma route_remove_step r k a :
  (forall x, a = Some x -> r !! x = Some k) -> route_step r (route_remove r a k) k a None.
Proof.
  intros Hr. destruct a as [a|]; [|by left]. cbn [route_remove].
  rewrite decide_True by (by apply Hr). right. right. eauto.
Qed.
Local Hint Resolve route_insert_step route_remove_step : core.

Lemma pool_alloc_step {P} `{!AddrPool Key P} `{!AddrPoolLaws Key P} (p p' : P) k o :
  ap_inv p -> ap_allocate p k = (p', o) ->
  ap_inv p' /\ table_step (ap_use p) (ap_use p') k None o.
Proof.
  intros Hp Ha. split; [by replace p' with (ap_allocate p k).1 by (by rewrite Ha); apply ap_allocate_inv|].
  destruct o as [a|].
  - destruct (ap_allocate_some _ _ _ _ Hp Ha) as [-> _]. right. left. eauto.
  - destruct (ap_allocate_none _ _ _ Hp Ha) as [-> _]. by left.
Qed.

(** A pool that is not configured holds nothing. *)
Lemma use4_pool s k a : use4 s !! k = Some a -> exists p, ip_pool s = Some p.
Proof. unfold use4. destruct (ip_pool s); [eauto|by rewrite lookup_empty]. Qed.
Lemma use6_pool s k a : use6 s !! k = Some a -> exists p, ip6_pool s = Some p.
Proof. unfold use6. destruct (ip6_pool s); [eauto|by rewrite lookup_empty]. Qed.

(** What a task must own before its step. *)
Record step_pre (s : VpnServer) (k : Key) (c : pc) : Prop := {
  sp_pool4 : forall p, ip_pool s = Some p -> ap_inv p;
  sp_pool6 : forall p, ip6_pool s = Some p -> ap_inv p;
  sp_hold4 : forall a, hold4 c = Some a -> use4 s !! k = Some a;
  sp_hold6 : forall a, hold6 c = Some a -> use6 s !! k = Some a;
  sp_entry : forall a, entry c = Some a -> clients s !! k = Some a;
  sp_route4 : forall a, route4 c = Some a -> ip_to_endpoint s !! a = Some k;
  sp_route6 : forall a, route6 c = Some a -> ip6_to_endpoint s !! a = Some k;
  sp_st : st_ok c;
}.

Ltac step_fields := split; cbn [ip_pool ip6_pool clients ip_to_endpoint ip6_to_endpoint set_pool4
  set_pool6 set_clients set_routes set_active hold4 hold6 entry route4 route6 st_ok]; auto.

Lemma alloc4_effect w s k s' c' :
  conn_next w s k Accepted = Some (s', c') -> step_pre s k Accepted ->
  step_effect s s' k Accepted c'.
Proof.
  intros Hn [Hp4 Hp6 _ _ _ _ _ _]. step_in Hn.
  destruct (ip_pool s) as [p|] eqn:Hp; [|simplify_eq; by step_fields; rewrite ?Hp].
  destruct (ap_allocate p k) as [p' o] eqn:Ha.
  destruct (pool_alloc_step _ _ _ _ (Hp4 _ eq_refl) Ha) as [Hi Hu].
  assert (Hu4 : table_step (use4 s) (use4 (set_pool4 s p')) k None o) by (unfold use4; by rewrite Hp).
  destruct o; [|destruct (ip6_pool s) eqn:H6]; simplify_eq; step_fields; try congruence;
    rewrite ?H6; auto; intros; simplify_eq; auto.
Qed.

Lemma alloc6_effect w s k a4 s' c' :
  conn_next w s k (Got4 a4) = Some (s', c') -> step_pre s k (Got4 a4) ->
  step_effect s s' k (Got4 a4) c'.
Proof.
  intros Hn [Hp4 Hp6 Hu4 _ _ _ _ _]. step_in Hn. cbn [hold4] in Hu4.
  assert (Hnone : ip_pool s = None -> a4 = None).
  { destruct a4 as [a|]; [|done]. intros Hp. destruct (use4_pool _ _ _ (Hu4 a eq_refl)). congruence. }
  destruct (ip6_pool s) as [p|] eqn:Hp.
  - destruct (ap_allocate p k) as [p' o] eqn:Ha.
    destruct (pool_alloc_step _ _ _ _ (Hp6 _ eq_refl) Ha) as [Hi Hu].
    assert (Hu6 : table_step (use6 s) (use6 (set_pool6 s p')) k None o) by (unfold use6; by rewrite Hp).
    destruct o, a4; [..|destruct (ip_pool s) eqn:H4|destruct (ip_pool s) eqn:H4]; simplify_eq/=;
      try (by specialize (Hnone eq_refl)); step_fields; rewrite ?H4; intros; simplify_eq; auto.
  - destruct a4; simplify_eq; step_fields; congruence.
Qed.

(** Each step has that effect. *)
Lemma conn_next_effect w s k c s' c' :
  conn_next w s k c = Some (s', c') -> step_pre s k c -> step_effect s s' k c c'.
Proof.
  intros Hn Hpre. destruct c; [| |by eapply alloc4_effect|by eapply alloc6_effect|..].
  all: destruct Hpre as [Hp4 Hp6 Hu4 Hu6 Hcl Hr4 Hr6 Hst].
  all: step_in Hn; cbn [hold4 hold6 entry route4 route6 st_ok] in *.
  7: { (* [Serving]: the entry in [clients] is this session's *)
    rewrite (Hcl _ eq_refl) in Hn. cbn [session_id] in Hn. rewrite Z.eqb_refl in Hn.
    simplify_eq. by step_fields. }
  9: { (* the IPv4 address is released *)
    destruct Hst as [<- <-]. destruct (st_assigned_ip st) as [a|]; simplify_eq; [|by step_fields].
    destruct (use4_pool _ _ _ (Hu4 a eq_refl)) as [p Hp]. rewrite Hp. step_fields.
    - intros q [= <-]. by apply ap_release_inv, Hp4.
    - unfold use4. rewrite Hp. cbn. rewrite ap_release_use. auto. }
  9: { (* the IPv6 address is released *)
    subst a6. destruct (st_assigned_ip6 st) as [a|]; simplify_eq; [|by step_fields].
    destruct (use6_pool _ _ _ (Hu6 a eq_refl)) as [p Hp]. rewrite Hp. step_fields.
    - intros q [= <-]. by apply ap_release_inv, Hp6.
    - unfold use6. rewrite Hp. cbn. rewrite ap_release_use. auto. }
  all: simplify_eq; try destruct (max_clients <=? _)%Z; try destruct w; by step_fields.
Qed.

Lemma sess_inv_pre s i k c : sess_inv s -> conns s !! i = Some (k, c) -> live c = true ->
  step_pre (srv s) k c.
Proof.
  intros [H4 H6 Hk [Hu4 _] [Hu6 _] [Hc _] Hr4 Hr6 Hst] Hi Hl. split; try done.
  - intros a. by apply (Hu4 i).
  - intros a. by apply (Hu6 i).
  - intros a. by apply (Hc i).
  - intros a Ha. apply Hr4. eauto.
  - intros a Ha. apply Hr6. eauto.
  - by eapply Hst.
Qed.

Lemma conn_next_live w s k c s' c' : conn_next w s k c = Some (s', c') -> live c = true.
Proof. by destruct c. Qed.

(** A route is never installed before its address is held. *)
Lemma route_held w s k c s' c' : conn_next w s k c = Some (s', c') ->
  (forall a, route4 c' = Some a -> hold4 c = Some a) /\
  (forall a, route6 c' = Some a -> hold6 c = Some a) /\
  (route4 c' <> None -> live c' = true) /\ (route6 c' <> None -> live c' = true).
Proof.
  intros Hn. destruct c; step_in Hn; repeat case_match; simplify_eq/=; done.
Qed.

Lemma route4_hold c a : route4 c = Some a -> hold4 c = Some a.
Proof. by destruct c. Qed.
Lemma route6_hold c a : route6 c = Some a -> hold6 c = Some a.
Proof. by destruct c. Qed.

Lemma distinct_keys_step m i k c c' :
  distinct_keys m -> m !! i = Some (k, c) -> live c = true -> distinct_keys (<[i := (k, c')]> m).
Proof.
  intros Hd Hi Hl j1 j2 k0 c1 c2 H1 H2 Hl1 Hl2.
  apply lookup_insert_Some in H1 as [[<- E1]|[Hn1 H1]];
    apply lookup_insert_Some in H2 as [[<- E2]|[Hn2 H2]]; simplify_eq; [done|..]; by eapply Hd.
Qed.

Lemma sess_inv_run s i w : sess_inv s -> sess_inv (sys_step s (Run i w)).
Proof.
  intros Hs. cbn [sys_step]. destruct (conns s !! i) as [[k c]|] eqn:Hi; [|done].
  destruct (conn_next w (srv s) k c) as [[s' c']|] eqn:Hn; [|done].
  pose proof (conn_next_live _ _ _ _ _ _ Hn) as Hl.
  pose proof (conn_next_effect _ _ _ _ _ _ Hn (sess_inv_pre _ _ _ _ Hs Hi Hl)) as He.
  destruct (route_held _ _ _ _ _ _ Hn) as (Hg4 & Hg6 & Hl4 & Hl6).
  pose proof (si_keys _ Hs) as Hk.
  split; cbn [srv conns].
  - apply He.
  - apply He.
  - by eapply distinct_keys_step.
  - eapply owns_step; eauto using si_use4. apply He.
  - eapply owns_step; eauto using si_use6. apply He.
  - eapply owns_step; eauto using si_clients. apply He.
  - eapply (routes_step _ _ route4 hold4 (use4 (srv s))); eauto using si_route4, si_use4, route4_hold.
    + intros k1 k2 a. by apply use4_inj.
    + apply He.
  - eapply (routes_step _ _ route6 hold6 (use6 (srv s))); eauto using si_route6, si_use6, route6_hold.
    + intros k1 k2 a. by apply use6_inj.
    + apply He.
  - intros j k0 c0 Hj. apply lookup_insert_Some in Hj as [[_ [= _ <-]]|[_ Hj]]; [apply He|].
    by eapply si_st.
Qed.

(** A new task owns nothing yet. *)
Lemma owns_arrive {A} (t : gmap Key A) h m i k :
  h Arrived = None -> m !! i = None -> owns t h m -> owns t h (<[i := (k, Arrived)]> m).
Proof.
  intros Hh Hi [Hf Hb]. split.
  - intros j k' c a Hj Hl Ha. apply lookup_insert_Some in Hj as [[_ [= _ <-]]|[_ Hj]]; [congruence|].
    by eapply Hf.
  - intros k' a Ha. destruct (Hb k' a Ha) as (j & c & Hj & Hc). exists j, c.
    rewrite lookup_insert_ne; [done|]. intros ->. congruence.
Qed.

Lemma routes_arrive r h m i k :
  h Arrived = None -> m !! i = None -> routes r h m -> routes r h (<[i := (k, Arrived)]> m).
Proof.
  intros Hh Hi Hr a k'. rewrite (Hr a k'). split; intros (j & c & Hj & Hl & Hc).
  - exists j, c. rewrite lookup_insert_ne; [done|]. intros ->. congruence.
  - apply lookup_insert_Some in Hj as [[_ [= _ <-]]|[_ Hj]]; [congruence|eauto].
Qed.

Lemma sess_inv_arrive s i k :
  (forall j c, conns s !! j = Some (k, c) -> live c = false) ->
  sess_inv s -> sess_inv (sys_step s (Arrive i k)).
Proof.
  intros Hfree Hs. cbn [sys_step]. destruct (conns s !! i) as [x|] eqn:Hi; [done|].
  destruct Hs as [H4 H6 Hk Hu4 Hu6 Hc Hr4 Hr6 Hst].
  split; cbn [srv conns]; auto using owns_arrive, routes_arrive.
  - intros j1 j2 k0 c1 c2 H1 H2 Hl1 Hl2.
    apply lookup_insert_Some in H1 as [[<- E1]|[Hn1 H1]];
      apply lookup_insert_Some in H2 as [[<- E2]|[Hn2 H2]]; simplify_eq;
      [done|by rewrite (Hfree _ _ H2) in Hl2|by rewrite (Hfree _ _ H1) in Hl1|by eapply Hk].
  - intros j k0 c0 Hj. apply lookup_insert_Some in Hj as [[_ [= _ <-]]|[_ Hj]]; [done|by eapply Hst].
Qed.

(** Histories in which a client that connects again has no connection left. *)
Inductive orderly (p4 : option P4) (p6 : option P6) : sys -> Prop :=
| orderly_init : orderly p4 p6 (sys_init p4 p6)
| orderly_arrive s i k : orderly p4 p6 s ->
    (forall j c, conns s !! j = Some (k, c) -> live c = false) ->
    orderly p4 p6 (sys_step s (Arrive i k))
| orderly_run s i w : orderly p4 p6 s -> orderly p4 p6 (sys_step s (Run i w)).

Definition fresh_pool {P} `{!AddrPool Key P} (p : option P) : Prop :=
  forall q, p = Some q -> ap_inv q /\ ap_use q = ∅.

Lemma sess_inv_init p4 p6 : fresh_pool p4 -> fresh_pool p6 -> sess_inv (sys_init p4 p6).
Proof.
  intros H4 H6. assert (U4 : use4 (srv (sys_init p4 p6)) = ∅).
  { unfold use4; cbn. destruct p4 as [q|]; [by apply H4|done]. }
  assert (U6 : use6 (srv (sys_init p4 p6)) = ∅).
  { unfold use6; cbn. destruct p6 as [q|]; [by apply H6|done]. }
  assert (HO : forall A (h : pc -> option A), owns ∅ h ∅).
  { intros A h. split; intros *; by rewrite lookup_empty. }
  assert (HR : forall h, routes ∅ h ∅).
  { intros h a k. rewrite lookup_empty. split; [done|]. intros (i & c & Hi & _). by rewrite lookup_empty in Hi. }
  split; rewrite ?U4, ?U6; cbn; auto.
  - intros p Hp. by apply H4.
  - intros p Hp. by apply H6.
  - intros i j k c c' Hi. by rewrite lookup_empty in Hi.
  - intros i k c Hi. by rewrite lookup_empty in Hi.
Qed.

Lemma orderly_inv p4 p6 s : fresh_pool p4 -> fresh_pool p6 -> orderly p4 p6 s -> sess_inv s.
Proof.
  intros H4 H6. induction 1; auto using sess_inv_init, sess_inv_arrive, sess_inv_run.
Qed.

(** What the invariant says of the clients being served. *)
Lemma sess_inv_serving s i k sid a4 a6 :
  sess_inv s -> conns s !! i = Some (k, Serving sid a4 a6) ->
  clients (srv s) !! k = Some (mkClientState sid a4 a6) /\
  (forall a, a4 = Some a -> use4 (srv s) !! k = Some a /\ ip_to_endpoint (srv s) !! a = Some k) /\
  (forall a, a6 = Some a -> use6 (srv s) !! k = Some a /\ ip6_to_endpoint (srv s) !! a = Some k).
Proof.
  intros Hs Hi. destruct (sess_inv_pre _ _ _ _ Hs Hi eq_refl) as [_ _ Hu4 Hu6 Hc Hr4 Hr6 _].
  split; [by apply Hc|]. split; intros a Ha; split; auto.
Qed.

Lemma owns_empty {A} (t : gmap Key A) h m :
  owns t h m -> (forall i k c, m !! i = Some (k, c) -> h c = None) -> t = ∅.
Proof.
  intros [_ Hb] Hn. apply map_empty. intros k. destruct (t !! k) as [a|] eqn:Ha; [|done].
  destruct (Hb k a Ha) as (i & c & Hi & Hc). by rewrite (Hn i k c Hi) in Hc.
Qed.

Lemma routes_empty r h m :
  routes r h m -> (forall i k c, m !! i = Some (k, c) -> h c = None) -> r = ∅.
Proof.
  intros Hr Hn. apply map_empty. intros a. destruct (r !! a) as [k|] eqn:Ha; [|done].
  apply Hr in Ha as (i & c & Hi & _ & Hc). by rewrite (Hn i k c Hi) in Hc.
Qed.
End Sessions.
Arguments VpnServer _ {_ _} _ _.
Arguments sys _ {_ _} _ _.
Arguments event _ : clear implicits.

(** ** The two pools implement the interface *)

Section PoolInstances.
Context {EndpointId : Type} `{Countable EndpointId}.

#[export] Instance ip_pool_ops {w : Z} {Net4 : Type} `{NetLaws w Net4} :
    AddrPool (EndpointId * Z) (IpPool EndpointId Net4) := {|
  ap_allocate p k := allocate p k.1 k.2;
  ap_release p k := release p k.1 k.2;
  ap_use p := in_use p;
  ap_inv p := pool_inv p;
|}.

#[export] Instance ip_pool_laws {w : Z} {Net4 : Type} `{NetLaws w Net4} :
    AddrPoolLaws (EndpointId * Z) (IpPool EndpointId Net4).
Proof.
  split; cbn [ap_allocate ap_release ap_use ap_inv ip_pool_ops].
  - intros p [e d]. apply allocate_inv.
  - intros p [e d]. apply release_inv.
  - intros p [e d] p' a Hi Ha. pose proof (allocate_spec p e d Hi) as Hs. cbn in Ha. rewrite Ha in Hs.
    split; [apply Hs|]. intros b Hb. unfold allocate in Ha. rewrite Hb in Ha. by simplify_eq.
  - intros p [e d] p' Hi Ha. pose proof (allocate_spec p e d Hi) as Hs. cbn in Ha. rewrite Ha in Hs.
    by destruct Hs as (_ & ? & ? & _).
  - intros p [e d]. unfold release. cbn. destruct (in_use p !! (e, d)) eqn:Hk; [done|].
    by rewrite delete_id.
  - intros p k k' a Hi. apply (pi_inj _ Hi).
Qed.

Context {Net6 : Type} `{NetLaws V6_BITS Net6}.
Context (sha256 : list Z -> list Z) (endpoint_bytes : EndpointId -> list Z).
Implicit Types (p : Ip6Pool EndpointId Net6) (q : IpPool EndpointId Net6).

(** The invariant of the strategy in use. *)
Definition pool6_inv (p : Ip6Pool EndpointId Net6) : Prop :=
  match seq_view p with
  | Some q => pool_inv q
  | None => node_inv sha256 endpoint_bytes p
  end.

Definition ip6_pool_ops : AddrPool (EndpointId * Z) (Ip6Pool EndpointId Net6) := {|
  ap_allocate p k := allocate6 sha256 endpoint_bytes p k.1 k.2;
  ap_release p k := release6 p k.1 k.2;
  ap_use p := in_use6 p;
  ap_inv p := pool6_inv p;
|}.

Lemma seq_view_use p q : seq_view p = Some q -> in_use q = in_use6 p.
Proof. unfold seq_view. destruct (alloc6 p); [|done]. by intros [= <-]. Qed.

Lemma node_view p : node_inv sha256 endpoint_bytes p -> seq_view p = None.
Proof. intros Hi. unfold seq_view. by rewrite (ni_alloc _ _ _ Hi). Qed.

Lemma allocate6_node p e d p' o :
  node_inv sha256 endpoint_bytes p -> allocate6 sha256 endpoint_bytes p e d = (p', o) ->
  match o with
  | Some a => in_use6 p' = <[(e, d) := a]> (in_use6 p) /\ (forall b, in_use6 p !! (e, d) = Some b -> a = b)
  | None => in_use6 p' = in_use6 p /\ in_use6 p !! (e, d) = None
  end.
Proof.
  intros Hi. unfold allocate6. destruct (in_use6 p !! (e, d)) as [b|] eqn:Hk.
  { intros [= <- <-]. split; [by rewrite insert_id|congruence]. }
  rewrite (ni_alloc _ _ _ Hi). case_match; intros [= <- <-]; done.
Qed.

Lemma ip6_pool_laws : AddrPoolLaws (EndpointId * Z) (Ip6Pool EndpointId Net6) (AddrPool0 := ip6_pool_ops).
Proof.
  split; cbn [ap_allocate ap_release ap_use ap_inv ip6_pool_ops]; unfold pool6_inv.
  - intros p [e d] Hi. cbn. destruct (seq_view p) as [q|] eqn:Hv.
    + destruct (allocate6_refines sha256 endpoint_bytes p q e d Hv) as [-> _]. by apply allocate_inv.
    + apply allocate6_node_inv with (e := e) (d := d) in Hi. by rewrite (node_view _ Hi).
  - intros p [e d] Hi. cbn. destruct (seq_view p) as [q|] eqn:Hv.
    + rewrite (release6_refines p q e d Hv). by apply release_inv.
    + apply release6_node_inv with (e := e) (d := d) in Hi. by rewrite (node_view _ Hi).
  - intros p [e d] p' a Hi Ha. cbn in Ha. destruct (seq_view p) as [q|] eqn:Hv.
    + destruct (allocate6_refines sha256 endpoint_bytes p q e d Hv) as [Hv' Ho].
      rewrite Ha in Hv', Ho. cbn in Hv', Ho. destruct (allocate q e d) as [q' o] eqn:Hq. cbn in Hv', Ho.
      subst o. rewrite <-(seq_view_use _ _ Hv), <-(seq_view_use _ _ Hv').
      by eapply (ap_allocate_some (AddrPoolLaws := ip_pool_laws) q (e, d)).
    + by apply (allocate6_node p e d p' (Some a) Hi).
  - intros p [e d] p' Hi Ha. cbn in Ha. destruct (seq_view p) as [q|] eqn:Hv.
    + destruct (allocate6_refines sha256 endpoint_bytes p q e d Hv) as [Hv' Ho].
      rewrite Ha in Hv', Ho. cbn in Hv', Ho. destruct (allocate q e d) as [q' o] eqn:Hq. cbn in Hv', Ho.
      subst o. rewrite <-(seq_view_use _ _ Hv), <-(seq_view_use _ _ Hv').
      by eapply (ap_allocate_none (AddrPoolLaws := ip_pool_laws) q (e, d)).
    + by apply (allocate6_node p e d p' None Hi).
  - intros p [e d]. cbn. unfold release6. destruct (in_use6 p !! (e, d)) eqn:Hk; [done|].
    by rewrite delete_id.
  - intros p k k' a Hi. destruct (seq_view p) as [q|] eqn:Hv.
    + rewrite <-(seq_view_use _ _ Hv). apply (pi_inj _ Hi).
    + apply (ni_inj _ _ _ Hi).
Qed.
End PoolInstances.

(** ** Construction *)

Section ServerNew.
Context {EndpointId : Type} `{Countable EndpointId}.
Context {Net4 : Type} `{NetLaws V4_BITS Net4}.
Context {Net6 : Type} `{NetLaws V6_BITS Net6}.
Context (sha256 : list Z -> list Z) (endpoint_bytes : EndpointId -> list Z).
#[local] Instance new_server_pool6 : AddrPool (EndpointId * Z) (Ip6Pool EndpointId Net6) :=
  ip6_pool_ops sha256 endpoint_bytes.

(** [VpnServer::new]; [lock] is the outcome of [VpnLock::acquire]. *)
Definition VpnServer_new (checks : bool) (lock : vres unit)
    (config : VpnServerConfig (Net4:=Net4) (Net6:=Net6)) (server_endpoint_id : EndpointId)
  : vres (VpnServer (EndpointId * Z) (IpPool EndpointId Net4) (Ip6Pool EndpointId Net6)) :=
  _ ← map_err VpnError_config (VpnServerConfig_validate config);
  _ ← lock;
  ip_pool ← (match cfg_network config with
             | Some network =>
                 p ← map_err (fun _ : unit => VpnError_config (msg ""))
                       (IpPool_new checks network (cfg_server_ip config));
                 Ret (Some p)
             | None => Ret None
             end);
  ip6_pool ← (match cfg_network6 config with
              | Some network6 =>
                  p ← Ip6Pool_new sha256 endpoint_bytes checks network6 (cfg_server_ip6 config)
                        (cfg_ip6_strategy config) server_endpoint_id;
                  Ret (Some p)
              | None => Ret None
              end);
  Ret (mkServer ip_pool ip6_pool ∅ ∅ ∅ 0 1).

Lemma Ip6Pool_new_node checks network ip server_id p :
  Ip6Pool_new sha256 endpoint_bytes checks network ip NodeId server_id = Ret p ->
  node_inv sha256 endpoint_bytes p /\ in_use6 p = ∅ /\ network6 p = network.
Proof.
  intros Hnew. unfold Ip6Pool_new in Hnew. destruct (127 <=? _)%Z; [done|].
  bind_inv Hnew. cbv zeta in Hnew. destruct (_ =? _)%Z; [done|]. injection Hnew as <-.
  split; [|done]. constructor; cbn; [done| |]; by intros.
Qed.

Lemma new_pool4 checks (c : VpnServerConfig (Net4:=Net4) (Net6:=Net6)) :
  config_ok c ->
  (forall n, cfg_network c = Some n -> (net_prefix_len n <= 30)%Z) ->
  (forall ip, cfg_server_ip c = Some ip -> (ip < U32_MAX)%Z) ->
  exists p4 : option (IpPool EndpointId Net4),
    (match cfg_network c with
     | Some network =>
         p ← map_err (fun _ : unit => VpnError_config (msg "")) (IpPool_new checks network (cfg_server_ip c));
         Ret (Some p)
     | None => Ret None
     end) = Ret p4 /\ fresh_pool p4 /\ pool_network <$> p4 = cfg_network c.
Proof.
  intros Hok Hp Hip. destruct (cfg_network c) as [n|] eqn:Hn; [|by exists None].
  destruct (IpPool_new_ok (EndpointId:=EndpointId) checks n (cfg_server_ip c)) as (p & -> & Hi & Hnet & _ & _ & Hu & _).
  - by apply Hp.
  - intros ip Hs. destruct (ok_ip _ Hok ip Hs) as (m & Hm & Hc). simplify_eq. auto.
  - exists (Some p). split; [done|]. split; [|cbn; by rewrite Hnet].
    intros q [= <-]. done.
Qed.

Lemma new_pool6 checks (c : VpnServerConfig (Net4:=Net4) (Net6:=Net6)) n server_id :
  config_ok c -> cfg_network6 c = Some n -> (1 <= net_prefix_len n <= 126)%Z ->
  (forall ip, cfg_server_ip6 c = Some ip -> (ip < U128_MAX)%Z) ->
  (cfg_ip6_strategy c = Sequential -> exists p,
     Ip6Pool_new sha256 endpoint_bytes checks n (cfg_server_ip6 c) Sequential server_id = Ret p) /\
  (forall p, Ip6Pool_new sha256 endpoint_bytes checks n (cfg_server_ip6 c) (cfg_ip6_strategy c) server_id = Ret p ->
     fresh_pool (Some p) /\ network6 p = n).
Proof.
  intros Hok Hn Hp Hip.
  assert (Hs : forall ip, cfg_server_ip6 c = Some ip -> net_contains n ip = true /\ (ip < U128_MAX)%Z).
  { intros ip Hs. destruct (ok_ip6 _ Hok ip Hs) as (m & Hm & Hc). simplify_eq. auto. }
  destruct (Ip6Pool_new_sequential sha256 endpoint_bytes checks n (cfg_server_ip6 c) server_id Hp Hs)
    as (p & q & Hnew & Hv & Hi & Hnet & Hu & _).
  split; [eauto|]. intros p' Hp'. destruct (cfg_ip6_strategy c).
  - rewrite Hnew in Hp'. apply Ret_inj in Hp' as <-. split; [|done].
    intros x [= <-]. split; [|done]. cbn. unfold pool6_inv. by rewrite Hv.
  - destruct (Ip6Pool_new_node _ _ _ _ _ Hp') as (Hni & Hu' & Hnet'). split; [|done].
    intros x [= <-]. split; [|done]. cbn. unfold pool6_inv. by rewrite (node_view _ _ _ Hni).
Qed.

(** [VpnServer::new] starts every session history in a sound state: for a
    configuration with an IPv4 network of /30 or wider and an IPv6 network
    between /1 and /126 whose server addresses are not the last address of the
    address space, whatever server it returns is the initial state of the
    session machine, with a well-formed empty pool of the configured network
    for each configured family; an invalid configuration and a taken lock are
    its own errors, in that order. *)
Theorem vpn_server_new_ready checks lock (c : VpnServerConfig (Net4:=Net4) (Net6:=Net6)) server_id :
  (forall n, cfg_network c = Some n -> (net_prefix_len n <= 30)%Z) ->
  (forall n, cfg_network6 c = Some n -> (1 <= net_prefix_len n <= 126)%Z) ->
  (forall ip, cfg_server_ip c = Some ip -> (ip < U32_MAX)%Z) ->
  (forall ip, cfg_server_ip6 c = Some ip -> (ip < U128_MAX)%Z) ->
  (forall srv0, VpnServer_new checks lock c server_id = Ret srv0 ->
     exists p4 p6, srv0 = srv (sys_init p4 p6) /\ fresh_pool p4 /\ fresh_pool p6 /\
       pool_network <$> p4 = cfg_network c /\ network6 <$> p6 = cfg_network6 c) /\
  (forall e, VpnServerConfig_validate c = Fail e ->
     VpnServer_new checks lock c server_id = Fail (VpnError_config e)) /\
  (forall e, VpnServerConfig_validate c = Ret tt -> lock = Fail e ->
     VpnServer_new checks lock c server_id = Fail e) /\
  (VpnServerConfig_validate c = Ret tt -> lock = Ret tt -> cfg_ip6_strategy c = Sequential ->
     exists srv0, VpnServer_new checks lock c server_id = Ret srv0).
Proof.
  intros H4 H6 Hip Hip6. unfold VpnServer_new. split_and!.
  - intros srv0 Hnew. destruct (VpnServerConfig_validate c) as [[]|e|] eqn:Hv; [|done|done].
    cbn [map_err mbind outcome_bind] in Hnew. destruct lock as [[]|e|]; [|done|done].
    cbn [mbind outcome_bind] in Hnew. apply validate_iff in Hv.
    destruct (new_pool4 checks c Hv H4 Hip) as (p4 & Hp4 & Hf4 & Hn4).
    rewrite Hp4 in Hnew. cbn [mbind outcome_bind] in Hnew. exists p4.
    destruct (cfg_network6 c) as [n|] eqn:Hn6; cbn [mbind outcome_bind] in Hnew.
    + destruct (new_pool6 checks c n server_id Hv Hn6 (H6 n eq_refl) Hip6) as [_ Hp6].
      destruct (Ip6Pool_new sha256 endpoint_bytes checks n _ _ server_id) as [p|e|] eqn:Hnew6;
        [|done|done]. apply Ret_inj in Hnew as <-.
      destruct (Hp6 p eq_refl) as [Hf6 Hnet]. exists (Some p). split_and!; try done. cbn. by rewrite Hnet.
    + apply Ret_inj in Hnew as <-. by exists None.
  - by intros e ->.
  - by intros e -> ->.
  - intros Hv -> Hst. rewrite Hv. cbn [map_err mbind outcome_bind]. apply validate_iff in Hv.
    destruct (new_pool4 checks c Hv H4 Hip) as (p4 & -> & _). cbn [mbind outcome_bind].
    destruct (cfg_network6 c) as [n|] eqn:Hn6; [|by eexists].
    destruct (new_pool6 checks c n server_id Hv Hn6 (H6 n eq_refl) Hip6) as [Hseq _].
    rewrite Hst. destruct (Hseq Hst) as [p ->]. by eexists.
Qed.
End ServerNew.

(** ** The server with its two pools *)

Section ServerClaims.
Context {EndpointId : Type} `{Countable EndpointId}.
Context {Net4 : Type} `{NetLaws V4_BITS Net4}.
Context {Net6 : Type} `{NetLaws V6_BITS Net6}.
Context (sha256 : list Z -> list Z) (endpoint_bytes : EndpointId -> list Z).
#[local] Instance server_pool6 : AddrPool (EndpointId * Z) (Ip6Pool EndpointId Net6) :=
  ip6_pool_ops sha256 endpoint_bytes.
#[local] Instance server_pool6_laws : AddrPoolLaws (EndpointId * Z) (Ip6Pool EndpointId Net6) :=
  ip6_pool_laws sha256 endpoint_bytes.
Context (p4 : option (IpPool EndpointId Net4)) (p6 : option (Ip6Pool EndpointId Net6)).

(** Admission control holds in every interleaving of any number of
    connection tasks: the counter equals the number of tasks between their
    increment and their decrement, at most [max_clients] tasks are past the
    check, and a task about to be admitted is refused exactly when that many
    are counted. *)
Theorem connection_admission (max_clients : Z) (es : list (event (EndpointId * Z))) :
  let s := sys_run max_clients (sys_init p4 p6) es in
  active_connections (srv s) = count counted (conns s) /\
  (count admitted (conns s) <= Z.max 0 max_clients)%Z /\
  (forall i k w, conns s !! i = Some (k, Arrived) ->
     conns (sys_step max_clients s (Run i w)) !! i =
       Some (k, if (max_clients <=? count counted (conns s))%Z then Refused else Accepted)).
Proof.
  intros s. destruct (sys_run_admission max_clients (sys_init p4 p6) es) as [Ha Hm].
  { split; unfold count; cbn; rewrite map_filter_empty, map_size_empty; lia. }
  fold s in Ha, Hm. split_and!; [done..|]. intros i k w Hi. cbn [sys_step]. rewrite Hi.
  cbn [conn_next]. unfold admit_task. cbn [conns]. by rewrite lookup_insert_eq, Ha.
Qed.

(** C8. When no client connects while an earlier connection of it is still being
    handled, every served client owns its session in every interleaving: its
    [clients] entry is its own, each address it was given is assigned to it in
    the pool and routed to it, two served clients never share an address, a
    route always leads to a live connection that holds the address, and once
    every connection has ended normally all tables and pools are empty. *)
Theorem sessions_own_addresses (max_clients : Z)
    (s : sys (EndpointId * Z) (IpPool EndpointId Net4) (Ip6Pool EndpointId Net6)) :
  fresh_pool p4 -> fresh_pool p6 -> orderly max_clients p4 p6 s ->
  (forall i k sid a4 a6, conns s !! i = Some (k, Serving sid a4 a6) ->
     clients (srv s) !! k = Some (mkClientState sid a4 a6) /\
     (forall a, a4 = Some a -> use4 (srv s) !! k = Some a /\ ip_to_endpoint (srv s) !! a = Some k) /\
     (forall a, a6 = Some a -> use6 (srv s) !! k = Some a /\ ip6_to_endpoint (srv s) !! a = Some k)) /\
  (forall i j k k' c c' a, conns s !! i = Some (k, c) -> conns s !! j = Some (k', c') ->
     live c = true -> live c' = true ->
     (hold4 c = Some a /\ hold4 c' = Some a \/ hold6 c = Some a /\ hold6 c' = Some a) -> i = j) /\
  (forall a k, ip_to_endpoint (srv s) !! a = Some k ->
     exists i c, conns s !! i = Some (k, c) /\ live c = true /\ hold4 c = Some a) /\
  ((forall i k c, conns s !! i = Some (k, c) -> c = Done) ->
     clients (srv s) = ∅ /\ ip_to_endpoint (srv s) = ∅ /\ ip6_to_endpoint (srv s) = ∅ /\
     use4 (srv s) = ∅ /\ use6 (srv s) = ∅).
Proof.
  intros H4 H6 Ho.
  assert (Hs : sess_inv s) by (by apply (orderly_inv max_clients p4 p6)).
  split_and!.
  - intros i k sid a4 a6. by apply sess_inv_serving.
  - intros i j k k' c c' a Hi Hj Hl Hl' Ha.
    assert (k = k') as <-.
    { destruct Ha as [[Hc Hc']|[Hc Hc']]; [eapply (use4_inj s)|eapply (use6_inj s)]; try done;
        by eapply (sess_inv_pre s). }
    by eapply (si_keys _ Hs).
  - intros a k Hr. apply (si_route4 _ Hs) in Hr as (i & c & Hi & Hl & Hc).
    exists i, c. auto using route4_hold.
  - intros Hd. assert (Hn : forall i k c, conns s !! i = Some (k, c) -> c = Done) by done.
    split_and!; [eapply owns_empty|eapply routes_empty|eapply routes_empty|eapply owns_empty|eapply owns_empty];
      try apply Hs; intros i k c Hi; by rewrite (Hn i k c Hi).
Qed.

(** A failed response write leaks the addresses: the error return skips the
    cleanup, so the task ends and is no longer counted while the pools still
    record the addresses as assigned to the client. *)
Theorem failed_response_leaks_addresses (max_clients : Z)
    (s : sys (EndpointId * Z) (IpPool EndpointId Net4) (Ip6Pool EndpointId Net6)) i k a4 a6 w :
  fresh_pool p4 -> fresh_pool p6 -> orderly max_clients p4 p6 s ->
  conns s !! i = Some (k, Got46 a4 a6) ->
  let s' := sys_run max_clients s [Run i false; Run i w] in
  conns s' !! i = Some (k, Lost a4 a6) /\
  active_connections (srv s') = (active_connections (srv s) - 1)%Z /\
  (forall a, a4 = Some a -> use4 (srv s') !! k = Some a) /\
  (forall a, a6 = Some a -> use6 (srv s') !! k = Some a).
Proof.
  intros H4 H6 Ho Hi s'.
  assert (Hs : sess_inv s) by (by apply (orderly_inv max_clients p4 p6)).
  assert (Hs' : s' = mkSys (set_active (srv s) (active_connections (srv s) - 1))
    (<[i := (k, Lost a4 a6)]> (<[i := (k, Abandoned a4 a6)]> (conns s)))).
  { unfold s', sys_run. cbn [fold_left sys_step]. rewrite Hi. cbn [conn_next conns srv].
    by rewrite lookup_insert_eq. }
  rewrite Hs'. cbn [conns srv]. rewrite lookup_insert_eq. split_and!; [done|done|..].
  - intros a Ha. by apply (sess_inv_pre _ _ _ _ Hs Hi eq_refl).
  - intros a Ha. by apply (sess_inv_pre _ _ _ _ Hs Hi eq_refl).
Qed.
End ServerClaims.

(** ** Evaluation *)

Abbreviation SampleSys := (sys (Z * Z) (IpPool Z (CNet V4_BITS)) (Ip6Pool Z (CNet V6_BITS))).

#[local] Instance sample_pool6 : AddrPool (Z * Z) (Ip6Pool Z (CNet V6_BITS)) :=
  ip6_pool_ops sample_digest (fun e => [e]).

Definition sample_init : SampleSys := sys_init (Some sample_pool) None.

(** [n] steps of a task. *)
Definition runs (id n : nat) : list (event (Z * Z)) := replicate n (Run id true).

Definition serve (id : nat) (k : Z * Z) : list (event (Z * Z)) := Arrive id k :: runs id 7.

Lemma sample_fresh : fresh_pool (Some sample_pool).
Proof. intros q Hq. injection Hq as <-. split; [exact sample_pool_inv|done]. Qed.

Lemma sample_fresh6 : fresh_pool (Key := Z * Z) (None : option (Ip6Pool Z (CNet V6_BITS))).
Proof. done. Qed.

Lemma orderly_runs (mc : Z) (s : SampleSys) (id n : nat) :
  orderly mc (Some sample_pool) None s -> orderly mc (Some sample_pool) None (sys_run mc s (runs id n)).
Proof.
  revert s. induction n as [|n IH]; intros s Hs; [done|].
  apply (IH (sys_step mc s (Run id true))). by constructor.
Qed.

Lemma orderly_serve (mc : Z) (s : SampleSys) (id : nat) k :
  orderly mc (Some sample_pool) None s ->
  (forall j c, conns s !! j = Some (k, c) -> live c = false) ->
  orderly mc (Some sample_pool) None (sys_run mc s (serve id k)).
Proof.
  intros Hs Hf. unfold serve.
  change (sys_run mc s (?e :: ?es)) with (sys_run mc (sys_step mc s e) es).
  apply orderly_runs. by constructor.
Qed.

Definition sample_one : SampleSys := sys_run 10 sample_init (serve 1 (1, 1)%Z).
Definition sample_two : SampleSys := sys_run 10 sample_one (serve 2 (2, 1)%Z).

Lemma sample_one_orderly : orderly 10 (Some sample_pool) None sample_one.
Proof.
  apply orderly_serve; [constructor|]. intros j c Hj. cbn [conns sample_init sys_init] in Hj.
  by rewrite lookup_empty in Hj.
Qed.

Lemma sample_two_orderly : orderly 10 (Some sample_pool) None sample_two.
Proof.
  apply orderly_serve; [exact sample_one_orderly|]. intros j c Hj.
  assert (Hc : conns sample_one =
    {[1%nat := ((1, 1)%Z, Serving 1 (Some 167772162%Z) None)]}) by reflexivity.
  rewrite Hc in Hj. by apply lookup_singleton_Some in Hj as [_ [=]].
Qed.

Lemma sessions_own_addresses_witness :
  conns sample_two !! 2%nat = Some ((2, 1)%Z, Serving 2 (Some 167772163%Z) None) /\
  clients (srv sample_two) !! (2, 1)%Z = Some (mkClientState 2 (Some 167772163%Z) None) /\
  ip_to_endpoint (srv sample_two) !! 167772163%Z = Some (2, 1)%Z.
Proof.
  destruct (sessions_own_addresses sample_digest (fun e => [e]) (Some sample_pool) None 10 sample_two
    sample_fresh sample_fresh6 sample_two_orderly) as (Hs & _).
  assert (Hc : conns sample_two !! 2%nat = Some ((2, 1)%Z, Serving 2 (Some 167772163%Z) None)) by reflexivity.
  split; [exact Hc|]. destruct (Hs _ _ _ _ _ Hc) as (H1 & H2 & _).
  split; [exact H1|]. apply (H2 167772163%Z). reflexivity.
Defined.

Definition sample_arrived : SampleSys := sys_step 10 sample_init (Arrive 1 (1, 1)%Z).
Definition sample_got : SampleSys := sys_run 10 sample_arrived (runs 1 3).

Lemma sample_got_orderly : orderly 10 (Some sample_pool) None sample_got.
Proof.
  apply orderly_runs. constructor; [constructor|]. intros j c Hj.
  cbn [conns sample_init sys_init] in Hj. by rewrite lookup_empty in Hj.
Qed.

Lemma failed_response_leaks_addresses_witness :
  use4 (srv (sys_run 10 sample_got [Run 1 false; Run 1 true])) !! (1, 1)%Z = Some 167772162%Z.
Proof.
  destruct (failed_response_leaks_addresses sample_digest (fun e => [e]) (Some sample_pool) None 10
    sample_got 1 (1, 1)%Z (Some 167772162%Z) None true sample_fresh sample_fresh6 sample_got_orderly)
    as (_ & _ & H & _).
  - reflexivity.
  - apply H. reflexivity.
Defined.

(** A client is served (task 1), connects again (task 2) and is given the same
    address; then task 1 ends, removes the [clients] entry, which is still its
    own, and releases the address; task 2 goes on to serve, and the next client
    (task 3) is given the released address. *)
Definition reconnect_race : list (event (Z * Z)) :=
  serve 1 (1, 1)%Z ++ Arrive 2 (1, 1)%Z :: runs 2 4 ++ runs 1 6 ++ runs 2 3 ++ serve 3 (2, 1)%Z.

(** The session id does not protect a reconnecting client: between the
    allocation and the insertion into [clients] the earlier connection's
    cleanup releases the address the new connection was given, and another
    client is assigned it while both are served; the address is then routed to
    the other client only. *)
Theorem reconnect_race_duplicates_address :
  let s := sys_run 10 sample_init reconnect_race in
  conns s !! 2%nat = Some ((1, 1)%Z, Serving 2 (Some 167772162%Z) None) /\
  conns s !! 3%nat = Some ((2, 1)%Z, Serving 3 (Some 167772162%Z) None) /\
  use4 (srv s) !! (1, 1)%Z = None /\
  ip_to_endpoint (srv s) !! 167772162%Z = Some (2, 1)%Z.
Proof. split_and!; reflexivity. Qed.

Definition sample_config : VpnServerConfig (Net4 := CNet V4_BITS) (Net6 := CNet V6_BITS) :=
  mkServerConfig (Some sample_net4) (Some sample_net6) None None Sequential 10.

Lemma vpn_server_new_ready_witness :
  exists srv0, VpnServer_new sample_digest (fun e : Z => [e]) true (Ret tt) sample_config 7%Z = Ret srv0.
Proof.
  destruct (vpn_server_new_ready sample_digest (fun e : Z => [e]) true (Ret tt) sample_config 7%Z)
    as (_ & _ & _ & H).
  - intros n Hn. injection Hn as <-. vm_compute. discriminate.
  - intros n Hn. injection Hn as <-. vm_compute. split; discriminate.
  - discriminate.
  - discriminate.
  - apply H; reflexivity.
Defined.

(** Two clients arrive at a server that admits one. *)
Lemma connection_admission_witness :
  let s := sys_run 1 sample_init [Arrive 1 (1, 1)%Z; Arrive 2 (2, 1)%Z; Run 1 true; Run 2 true] in
  conns s !! 1%nat = Some ((1, 1)%Z, Accepted) /\ conns s !! 2%nat = Some ((2, 1)%Z, Refused) /\
  active_connections (srv s) = count counted (conns s).
Proof.
  destruct (connection_admission sample_digest (fun e => [e]) (Some sample_pool) None 1
    [Arrive 1 (1, 1)%Z; Arrive 2 (2, 1)%Z; Run 1 true; Run 2 true]) as [Ha _].
  split; [reflexivity|]. split; [reflexivity|]. exact Ha.
Defined.
