(* ===== verification/Packet.v ===== *)
(** * Reading addresses and ports from IP packets ([src/tunnel/server.rs])

    The packet parsing of the server's data path, with every index and slice
    checked, and the pure functions of a packet these routines compute. *)

From S2P Require Import Prelude Errors Net.

Inductive PacketIp : Type :=
| PktV4 (a : Z)
| PktV6 (a : Z).

Definition IPV4_MIN_HEADER : nat := 20.
Definition IPV6_MIN_HEADER : nat := 40.
Definition IP_VERSION_4 : Z := 4.
Definition IP_VERSION_6 : Z := 6.

Definition read_ipv4_addr (packet : list Z) (offset : nat) : vres Z :=
  bytes ← slice packet offset (offset + 4);
  Ret (be_value bytes).

Definition read_ipv6_addr (packet : list Z) (offset : nat) : vres Z :=
  bytes ← slice packet offset (offset + 16);
  Ret (be_value bytes).

Definition extract_source_ip (packet : list Z) : vres (option PacketIp) :=
  if (length packet <? IPV4_MIN_HEADER)%nat then Ret None else
  b0 ← idx packet 0;
  let version := Z.shiftr b0 4 in
  if (version =? IP_VERSION_4)%Z then
    src ← read_ipv4_addr packet 12; Ret (Some (PktV4 src))
  else if (version =? IP_VERSION_6)%Z then
    if (length packet <? IPV6_MIN_HEADER)%nat then Ret None else
    src ← read_ipv6_addr packet 8; Ret (Some (PktV6 src))
  else Ret None.

Definition extract_dest_ip (packet : list Z) : vres (option PacketIp) :=
  if (length packet <? IPV4_MIN_HEADER)%nat then Ret None else
  b0 ← idx packet 0;
  let version := Z.shiftr b0 4 in
  if (version =? IP_VERSION_4)%Z then
    dest ← read_ipv4_addr packet 16; Ret (Some (PktV4 dest))
  else if (version =? IP_VERSION_6)%Z then
    if (length packet <? IPV6_MIN_HEADER)%nat then Ret None else
    dest ← read_ipv6_addr packet 24; Ret (Some (PktV6 dest))
  else Ret None.

Definition extract_udp_ports (packet : list Z) : vres (option (Z * Z)) :=
  if (length packet <? IPV4_MIN_HEADER)%nat then Ret None else
  b0 ← idx packet 0;
  if (Z.shiftr b0 4 =? IP_VERSION_4)%Z then
    let ihl := (Z.to_nat (Z.land b0 15) * 4)%nat in
    if (ihl <? IPV4_MIN_HEADER)%nat || (length packet <? ihl + 8)%nat then Ret None else
    proto ← idx packet 9;
    if negb (proto =? 17)%Z then Ret None else
    s0 ← idx packet ihl; s1 ← idx packet (ihl + 1);
    d0 ← idx packet (ihl + 2); d1 ← idx packet (ihl + 3);
    Ret (Some (be16 s0 s1, be16 d0 d1))
  else if (Z.shiftr b0 4 =? IP_VERSION_6)%Z then
    if (length packet <? IPV6_MIN_HEADER + 8)%nat then Ret None else
    proto ← idx packet 6;
    if negb (proto =? 17)%Z then Ret None else
    s0 ← idx packet 40; s1 ← idx packet 41;
    d0 ← idx packet 42; d1 ← idx packet 43;
    Ret (Some (be16 s0 s1, be16 d0 d1))
  else Ret None.

Definition packet_has_local_iroh_udp_port (packet : list Z) (blocked_ports : gset Z) : vres bool :=
  if decide (blocked_ports = ∅) then Ret false else
  ports ← extract_udp_ports packet;
  match ports with
  | None => Ret false
  | Some (src_port, dst_port) =>
      Ret (bool_decide (src_port ∈ blocked_ports) || bool_decide (dst_port ∈ blocked_ports))
  end.

(** ** The packet's fields *)

(** The address field at [o4] of an IPv4 or [o6] of an IPv6 header. *)
Definition header_addr (o4 o6 : nat) (packet : list Z) : option PacketIp :=
  if (length packet <? 20)%nat then None
  else if (Z.shiftr (packet !!! 0%nat) 4 =? 4)%Z
  then Some (PktV4 (be_value (take 4 (drop o4 packet))))
  else if (Z.shiftr (packet !!! 0%nat) 4 =? 6)%Z && (40 <=? length packet)%nat
  then Some (PktV6 (be_value (take 16 (drop o6 packet))))
  else None.

Definition source_of : list Z -> option PacketIp := header_addr 12 8.
Definition dest_of : list Z -> option PacketIp := header_addr 16 24.

(** Where the UDP header starts, when the packet carries a complete one. *)
Definition udp_offset (packet : list Z) : option nat :=
  if (length packet <? 20)%nat then None
  else if (Z.shiftr (packet !!! 0%nat) 4 =? 4)%Z then
    let ihl := (Z.to_nat (Z.land (packet !!! 0%nat) 15) * 4)%nat in
    if (20 <=? ihl)%nat && (ihl + 8 <=? length packet)%nat && (packet !!! 9%nat =? 17)%Z
    then Some ihl else None
  else if (Z.shiftr (packet !!! 0%nat) 4 =? 6)%Z then
    if (48 <=? length packet)%nat && (packet !!! 6%nat =? 17)%Z then Some 40%nat else None
  else None.

Definition udp_ports_of (packet : list Z) : option (Z * Z) :=
  o ← udp_offset packet;
  Some (be16 (packet !!! o) (packet !!! (o + 1)%nat),
        be16 (packet !!! (o + 2)%nat) (packet !!! (o + 3)%nat)).

(** One of the packet's UDP ports is in [ports]. *)
Definition self_encapsulated (ports : gset Z) (packet : list Z) : bool :=
  match udp_ports_of packet with
  | Some (s, d) => bool_decide (s ∈ ports) || bool_decide (d ∈ ports)
  | None => false
  end.

Lemma extract_source_ok p : extract_source_ip p = Ret (source_of p).
Proof.
  unfold extract_source_ip, source_of, header_addr, read_ipv4_addr, read_ipv6_addr,
    IPV4_MIN_HEADER, IPV6_MIN_HEADER, IP_VERSION_4, IP_VERSION_6.
  destruct (Nat.ltb_spec (length p) 20); [done|]. run_slices.
  destruct (_ =? 4)%Z; [by run_slices|]. destruct (_ =? 6)%Z; [|done]. cbn [andb].
  destruct (Nat.ltb_spec (length p) 40), (Nat.leb_spec 40 (length p)); try lia; [done|].
  by run_slices.
Qed.

Lemma extract_dest_ok p : extract_dest_ip p = Ret (dest_of p).
Proof.
  unfold extract_dest_ip, dest_of, header_addr, read_ipv4_addr, read_ipv6_addr,
    IPV4_MIN_HEADER, IPV6_MIN_HEADER, IP_VERSION_4, IP_VERSION_6.
  destruct (Nat.ltb_spec (length p) 20); [done|]. run_slices.
  destruct (_ =? 4)%Z; [by run_slices|]. destruct (_ =? 6)%Z; [|done]. cbn [andb].
  destruct (Nat.ltb_spec (length p) 40), (Nat.leb_spec 40 (length p)); try lia; [done|].
  by run_slices.
Qed.

Lemma extract_udp_ok p : extract_udp_ports p = Ret (udp_ports_of p).
Proof.
  unfold extract_udp_ports, udp_ports_of, udp_offset, IPV4_MIN_HEADER, IPV6_MIN_HEADER,
    IP_VERSION_4, IP_VERSION_6.
  destruct (Nat.ltb_spec (length p) 20); [done|]. run_slices.
  destruct (_ =? 4)%Z.
  - set (ihl := (Z.to_nat _ * 4)%nat).
    destruct (Nat.ltb_spec ihl 20), (Nat.leb_spec 20 ihl); try lia; [done|]. cbn [orb andb].
    destruct (Nat.ltb_spec (length p) (ihl + 8)), (Nat.leb_spec (ihl + 8) (length p)); try lia;
      [done|]. run_slices. destruct (_ =? 17)%Z; [|done]. cbn [negb andb]. by run_slices.
  - destruct (_ =? 6)%Z; [|done].
    destruct (Nat.ltb_spec (length p) (40 + 8)), (Nat.leb_spec 48 (length p)); try lia; [done|].
    run_slices. destruct (_ =? 17)%Z; [|done]. cbn [negb andb]. by run_slices.
Qed.

Lemma packet_filter_ok p ports :
  packet_has_local_iroh_udp_port p ports = Ret (self_encapsulated ports p).
Proof.
  unfold packet_has_local_iroh_udp_port, self_encapsulated. case_decide as Hp.
  - subst. destruct (udp_ports_of p) as [[s d]|]; [|done]. by rewrite !bool_decide_false by set_solver.
  - rewrite extract_udp_ok. cbn [mbind outcome_bind]. by destruct (udp_ports_of p) as [[s d]|].
Qed.

