(* ===== verification/Forward.v ===== *)
(** * The server's data path ([src/tunnel/server.rs])

    [ClientDatagramQueue], the byte-budgeted queue of a client; the inbound
    side ([handle_client_data]: a client's packets to the TUN device) and the
    outbound side ([run_tun_reader]: packets of the TUN device to the clients).
    The routing tables change concurrently, so every lookup gets the table as
    it is at that moment. *)

From S2P Require Import Prelude Errors Net Offload Segment Stream Packet.

Definition CLIENT_QUEUE_BYTES : Z := 16 * 1024 * 1024.
Definition QUEUED_DATAGRAM_OVERHEAD : Z := 64.

Definition queued_datagram_cost (len : Z) : Z := (len + QUEUED_DATAGRAM_OVERHEAD)%Z.

Definition cost (d : list Z) : Z := queued_datagram_cost (Z.of_nat (length d)).
Definition total_cost (l : list (list Z)) : Z := foldr (fun d n => cost d + n)%Z 0%Z l.

(** Producer and consumer halves of one queue share it: the channel, the
    charge, the arena, and whether the receiver still exists. *)
Record ClientDatagramQueue : Type := mkQueue {
  chan : list (list Z);
  queued_bytes : Z;
  q_arena : list Z;
  receiver_alive : bool;
}.

Definition ClientDatagramQueue_new : ClientDatagramQueue := mkQueue [] 0 [] true.

Inductive push_result : Type := PushOk | PushFull | PushClosed.

Definition try_push (self : ClientDatagramQueue) (datagram : list Z)
  : ClientDatagramQueue * push_result :=
  let c := cost datagram in
  let before := queued_bytes self in
  let charged := mkQueue (chan self) (before + c) (q_arena self) (receiver_alive self) in
  if (CLIENT_QUEUE_BYTES <? before + c)%Z
  then (mkQueue (chan charged) (queued_bytes charged - c) (q_arena self) (receiver_alive self), PushFull)
  else if receiver_alive self
  then (mkQueue (chan charged ++ [datagram]) (queued_bytes charged) (q_arena self) true, PushOk)
  else (mkQueue (chan charged) (queued_bytes charged - c) (q_arena self) false, PushClosed).

(** [recv_many] with something queued: up to [limit] datagrams leave the
    channel and stay charged. *)
Definition recv_many (self : ClientDatagramQueue) (limit : nat)
  : ClientDatagramQueue * list (list Z) :=
  (mkQueue (drop limit (chan self)) (queued_bytes self) (q_arena self) (receiver_alive self),
   take limit (chan self)).

Definition release_batch (self : ClientDatagramQueue) (batch : list (list Z)) : ClientDatagramQueue :=
  mkQueue (chan self) (queued_bytes self - total_cost batch) (q_arena self) (receiver_alive self).

(** ** The charge under concurrency

    The atomic operations of any number of producers and of the writer, one
    step each. *)

Inductive producer : Type :=
| Idle
| Sending (d : list Z)          (* reserved within the budget *)
| Returning (d : list Z).       (* reserved, to be given back *)

Record queue_sys : Type := mkQueueSys {
  qs_queue : ClientDatagramQueue;
  qs_hand : list (list Z);                (* the writer's batch *)
  qs_prods : gmap nat producer;
}.

Inductive queue_event : Type :=
| Reserve (i : nat) (d : list Z)          (* [fetch_add] and the comparison *)
| Finish (i : nat)                        (* [tx.send], or [fetch_sub] *)
| Receive (limit : nat)                   (* the writer takes a batch *)
| Settle                                  (* the writer releases its batch *)
| CloseReceiver.

Definition with_charge (q : ClientDatagramQueue) (n : Z) : ClientDatagramQueue :=
  mkQueue (chan q) n (q_arena q) (receiver_alive q).

Definition queue_step (s : queue_sys) (e : queue_event) : queue_sys :=
  let q := qs_queue s in
  match e with
  | Reserve i d =>
      match default Idle (qs_prods s !! i) with
      | Idle =>
          let before := queued_bytes q in
          mkQueueSys (with_charge q (before + cost d)) (qs_hand s)
            (<[i := if (CLIENT_QUEUE_BYTES <? before + cost d)%Z then Returning d else Sending d]>
               (qs_prods s))
      | _ => s
      end
  | Finish i =>
      match default Idle (qs_prods s !! i) with
      | Idle => s
      | Sending d =>
          if receiver_alive q
          then mkQueueSys (mkQueue (chan q ++ [d]) (queued_bytes q) (q_arena q) true) (qs_hand s)
                 (<[i := Idle]> (qs_prods s))
          else mkQueueSys q (qs_hand s) (<[i := Returning d]> (qs_prods s))
      | Returning d =>
          mkQueueSys (with_charge q (queued_bytes q - cost d)) (qs_hand s) (<[i := Idle]> (qs_prods s))
      end
  | Receive limit =>
      match qs_hand s with
      | [] => let (q', batch) := recv_many q limit in mkQueueSys q' batch (qs_prods s)
      | _ => s
      end
  | Settle => mkQueueSys (release_batch q (qs_hand s)) [] (qs_prods s)
  | CloseReceiver =>
      mkQueueSys (mkQueue (chan q) (queued_bytes q) (q_arena q) false) (qs_hand s) (qs_prods s)
  end.

(** What the producers hold: within the budget, and over it. *)
Definition sending_cost (p : producer) : Z := match p with Sending d => cost d | _ => 0%Z end.
Definition reserved_cost (p : producer) : Z :=
  match p with Sending d | Returning d => cost d | Idle => 0%Z end.

Definition sum_prods (f : producer -> Z) (m : gmap nat producer) : Z :=
  map_fold (fun _ p n => f p + n)%Z 0%Z m.

Lemma sum_prods_insert_new f m i p :
  m !! i = None -> sum_prods f (<[i := p]> m) = (f p + sum_prods f m)%Z.
Proof. intros Hi. unfold sum_prods. rewrite map_fold_insert_L; [done| |done]. intros. lia. Qed.

Lemma sum_prods_insert f m i p :
  f Idle = 0%Z ->
  (sum_prods f (<[i := p]> m) = sum_prods f m - f (default Idle (m !! i)) + f p)%Z.
Proof.
  intros Hf. destruct (m !! i) as [o|] eqn:Hi; cbn [default].
  - assert (Hm : sum_prods f m = (f o + sum_prods f (delete i m))%Z).
    { rewrite <-(insert_delete_id m i o Hi) at 1. apply sum_prods_insert_new, lookup_delete_eq. }
    rewrite <-insert_delete_eq, sum_prods_insert_new by apply lookup_delete_eq.
    unfold id. lia.
  - rewrite sum_prods_insert_new by done. lia.
Qed.

Lemma sum_prods_le (f g : producer -> Z) m :
  (forall p, f p <= g p)%Z -> (sum_prods f m <= sum_prods g m)%Z.
Proof.
  intros Hfg. induction m as [|i p m Hi IH] using map_ind; [done|].
  rewrite !sum_prods_insert_new by done. specialize (Hfg p). lia.
Qed.

Lemma cost_pos d : (64 <= cost d)%Z.
Proof. unfold cost, queued_datagram_cost, QUEUED_DATAGRAM_OVERHEAD. lia. Qed.

Lemma total_cost_app a b : total_cost (a ++ b) = (total_cost a + total_cost b)%Z.
Proof. induction a as [|x a IH]; cbn; [done|]. unfold total_cost in *. cbn. lia. Qed.

Lemma total_cost_length l : (64 * Z.of_nat (length l) <= total_cost l)%Z.
Proof.
  induction l as [|x l IH]; [done|]. cbn [length total_cost foldr]. fold (total_cost l).
  pose proof (cost_pos x). lia.
Qed.

(** The counter is the charge of everything in flight, and what was accepted
    never exceeds the budget. *)
Definition queue_inv (s : queue_sys) : Prop :=
  queued_bytes (qs_queue s) =
    (total_cost (chan (qs_queue s)) + total_cost (qs_hand s) + sum_prods reserved_cost (qs_prods s))%Z /\
  (total_cost (chan (qs_queue s)) + total_cost (qs_hand s) + sum_prods sending_cost (qs_prods s)
   <= CLIENT_QUEUE_BYTES)%Z.

Lemma queue_step_inv s e : queue_inv s -> queue_inv (queue_step s e).
Proof.
  intros [Hc Hb]. unfold queue_inv. destruct e as [i d|i|limit| |]; cbn [queue_step].
  - destruct (default Idle (qs_prods s !! i)) eqn:Hi; [|done|done].
    assert (Hle : (sum_prods sending_cost (qs_prods s) <= sum_prods reserved_cost (qs_prods s))%Z).
    { apply sum_prods_le. intros []; cbn; try lia. pose proof (cost_pos d0). lia. }
    cbn [qs_queue qs_hand qs_prods with_charge chan queued_bytes].
    rewrite !sum_prods_insert, Hi by done. cbn [reserved_cost sending_cost].
    destruct (Z.ltb_spec CLIENT_QUEUE_BYTES (queued_bytes (qs_queue s) + cost d));
      cbn [reserved_cost sending_cost]; lia.
  - destruct (default Idle (qs_prods s !! i)) as [|d|d] eqn:Hi; [done| |].
    + destruct (receiver_alive (qs_queue s)); cbn [qs_queue qs_hand qs_prods chan queued_bytes];
        rewrite !sum_prods_insert, Hi by done; cbn [reserved_cost sending_cost].
      * rewrite total_cost_app. cbn [total_cost foldr]. lia.
      * pose proof (cost_pos d). lia.
    + cbn [qs_queue qs_hand qs_prods with_charge chan queued_bytes].
      rewrite !sum_prods_insert, Hi by done. cbn [reserved_cost sending_cost]. lia.
  - destruct (qs_hand s) eqn:Hh; [|by rewrite Hh].
    cbn [recv_many qs_queue qs_hand qs_prods chan queued_bytes].
    rewrite <-(take_drop limit (chan (qs_queue s))), total_cost_app in Hc, Hb.
    change (total_cost []) with 0%Z in Hc, Hb. lia.
  - cbn [qs_queue qs_hand qs_prods release_batch chan queued_bytes].
    change (total_cost []) with 0%Z. pose proof (total_cost_length (qs_hand s)). lia.
  - cbn [qs_queue qs_hand qs_prods chan queued_bytes]. lia.
Qed.

Definition queue_run (s : queue_sys) (es : list queue_event) : queue_sys := fold_left queue_step es s.

Definition queue_init : queue_sys := mkQueueSys ClientDatagramQueue_new [] ∅.

Lemma queue_run_inv s es : queue_inv s -> queue_inv (queue_run s es).
Proof.
  revert s. induction es as [|e es IH]; intros s Hs; [done|]. by apply IH, queue_step_inv.
Qed.

(** A client's backlog stays within its budget in every interleaving of any
    number of producers with the writer: the counter is exactly the charge of
    the queued datagrams, the writer's batch and the reservations in progress,
    so it returns to zero and never leaks; what was accepted and not yet
    released is charged at most [CLIENT_QUEUE_BYTES], hence at most 262144
    datagrams; and [try_push] is the uninterrupted run of one producer's
    steps, refusing with [Full] only when the charge would exceed the budget. *)
Theorem client_queue_budget es :
  let s := queue_run queue_init es in
  queued_bytes (qs_queue s) =
    (total_cost (chan (qs_queue s)) + total_cost (qs_hand s) + sum_prods reserved_cost (qs_prods s))%Z /\
  (total_cost (chan (qs_queue s)) + total_cost (qs_hand s) <= CLIENT_QUEUE_BYTES)%Z /\
  (Z.of_nat (length (chan (qs_queue s)) + length (qs_hand s)) <= 262144)%Z /\
  (forall q hand d,
     let s' := queue_run (mkQueueSys q hand ∅) [Reserve 0 d; Finish 0; Finish 0] in
     let (q', r) := try_push q d in
     qs_queue s' = q' /\ (r = PushFull <-> (CLIENT_QUEUE_BYTES < queued_bytes q + cost d)%Z)).
Proof.
  intros s. assert (Hi : queue_inv s).
  { apply queue_run_inv. split; [done|]. unfold CLIENT_QUEUE_BYTES. vm_compute. discriminate. }
  destruct Hi as [Hc Hb].
  assert (Hs : (0 <= sum_prods sending_cost (qs_prods s))%Z).
  { transitivity (sum_prods (fun _ => 0%Z) (qs_prods s)).
    - clear. induction (qs_prods s) as [|i p m Hi IH] using map_ind; [done|].
      rewrite sum_prods_insert_new by done. lia.
    - apply sum_prods_le. intros []; cbn [sending_cost]; try lia. pose proof (cost_pos d). lia. }
  pose proof (total_cost_length (chan (qs_queue s))). pose proof (total_cost_length (qs_hand s)).
  split_and!; [done|lia|unfold CLIENT_QUEUE_BYTES in Hb; lia|].
  intros q hand d. unfold queue_run. cbn [fold_left queue_step qs_prods qs_queue].
  rewrite lookup_empty. cbn [default from_option id]. unfold try_push.
  cbn [chan queued_bytes with_charge].
  destruct (Z.ltb_spec CLIENT_QUEUE_BYTES (queued_bytes q + cost d));
    cbn [qs_prods qs_queue queue_step]; rewrite lookup_insert_eq; cbn [default from_option id].
  - cbn [qs_prods qs_queue]. rewrite lookup_insert_eq. cbn [default from_option id qs_queue].
    split; [done|]. by split.
  - cbn [receiver_alive with_charge]. destruct (receiver_alive q) eqn:Ha;
      cbn [qs_prods qs_queue]; rewrite lookup_insert_eq; cbn [default from_option id qs_queue].
    + split; [done|]. split; [done|lia].
    + split; [unfold with_charge; by rewrite Ha|]. split; [done|lia].
Qed.

(** ** From a client to the TUN device *)

(** The counters of [VpnServerStats]. *)
Record VpnServerStats : Type := mkStats {
  tun_packets_read : Z;
  packets_to_clients : Z;
  packets_no_route : Z;
  packets_unknown_version : Z;
  packets_dropped_full : Z;
  packets_from_clients : Z;
  packets_tun_write_failed : Z;
  packets_spoofed : Z;
  packets_inter_client_blocked : Z;
  packets_dropped_too_large : Z;
}.

Definition stats_zero : VpnServerStats := mkStats 0 0 0 0 0 0 0 0 0 0.

(** [stats.x.fetch_add(1)] for each counter the data path uses, and by how
    much for the two that take a number. *)
Definition inc_read (s : VpnServerStats) := let 'mkStats a b c d e f g h i j := s in
  mkStats (a + 1) b c d e f g h i j.
Definition inc_no_route (s : VpnServerStats) := let 'mkStats a b c d e f g h i j := s in
  mkStats a b (c + 1) d e f g h i j.
Definition inc_unknown (s : VpnServerStats) := let 'mkStats a b c d e f g h i j := s in
  mkStats a b c (d + 1) e f g h i j.
Definition add_full (n : Z) (s : VpnServerStats) := let 'mkStats a b c d e f g h i j := s in
  mkStats a b c d (e + n) f g h i j.
Definition inc_from_clients (s : VpnServerStats) := let 'mkStats a b c d e f g h i j := s in
  mkStats a b c d e (f + 1) g h i j.
Definition inc_write_failed (s : VpnServerStats) := let 'mkStats a b c d e f g h i j := s in
  mkStats a b c d e f (g + 1) h i j.
Definition inc_spoofed (s : VpnServerStats) := let 'mkStats a b c d e f g h i j := s in
  mkStats a b c d e f g (h + 1) i j.
Definition inc_blocked (s : VpnServerStats) := let 'mkStats a b c d e f g h i j := s in
  mkStats a b c d e f g h (i + 1) j.
Definition add_dropped_too_large (n : Z) (s : VpnServerStats) := let 'mkStats a b c d e f g h i j := s in
  mkStats a b c d e f g h i (j + n).

Record TunWriteRequest : Type := mkReq {
  req_packet : list Z;
  req_offload : option VirtioNetHdr;
}.

Inductive try_result : Type := TryOk | TryFull | TryClosed.

Section Inbound.
Context {Key : Type} `{Countable Key}.
(* the sender of the bounded channel to the TUN writer *)
Context {C : Type} (try_send : C -> TunWriteRequest -> C * try_result)
  (send : C -> TunWriteRequest -> C * bool).

Definition enqueue_tun_write (tx : C) (req : TunWriteRequest) (stats : VpnServerStats)
  : C * VpnServerStats * bool :=
  match try_send tx req with
  | (tx, TryOk) => (tx, inc_from_clients stats, true)
  | (tx, TryFull) =>
      match send tx req with
      | (tx, true) => (tx, inc_from_clients stats, true)
      | (tx, false) => (tx, inc_write_failed stats, false)
      end
  | (tx, TryClosed) => (tx, inc_write_failed stats, false)
  end.

(** The two reverse lookups at one moment. *)
Record Tables : Type := mkTables { t4 : gmap Z Key; t6 : gmap Z Key }.

(** A datagram a client sent, with the tables when its source and when its
    destination is looked up. *)
Record Inbound : Type := mkInbound { in_packet : list Z; at_source : Tables; at_dest : Tables }.

(** [src_bytes[0] == 0xfe && (src_bytes[1] & 0xc0) == 0x80] *)
Definition is_link_local (a : Z) : bool :=
  (Z.land (Z.shiftr a 120) 255 =? 254)%Z && (Z.land (Z.land (Z.shiftr a 112) 255) 192 =? 128)%Z.

Definition owner_allows (client_key : Key) (owner : option Key) : bool :=
  match owner with
  | Some k => bool_decide (k = client_key)
  | None => true
  end.

Definition source_valid (client_key : Key) (t : Tables) (packet : list Z) : vres bool :=
  src ← extract_source_ip packet;
  match src with
  | Some (PktV4 src_ip) => Ret (owner_allows client_key (t4 t !! src_ip))
  | Some (PktV6 src_ip) =>
      if is_link_local src_ip then Ret false
      else Ret (owner_allows client_key (t6 t !! src_ip))
  | None => Ret false
  end.

Definition is_assigned (o : option Key) : bool := match o with Some _ => true | None => false end.

Definition to_vpn_client (t : Tables) (packet : list Z) : vres bool :=
  dst ← extract_dest_ip packet;
  match dst with
  | Some (PktV4 dst) => Ret (is_assigned (t4 t !! dst))
  | Some (PktV6 dst) => Ret (is_assigned (t6 t !! dst))
  | None => Ret false
  end.

(** One packet; the flag says whether the loop goes on. *)
Definition client_packet (client_key : Key) (ports : gset Z) (it : Inbound) (tx : C)
    (stats : VpnServerStats) : vres (C * VpnServerStats * bool) :=
  self ← packet_has_local_iroh_udp_port (in_packet it) ports;
  if self : bool then Ret (tx, stats, true) else
  valid ← source_valid client_key (at_source it) (in_packet it);
  if negb valid then Ret (tx, inc_spoofed stats, true) else
  inter ← to_vpn_client (at_dest it) (in_packet it);
  if inter : bool then Ret (tx, inc_blocked stats, true) else
  Ret (enqueue_tun_write tx (mkReq (in_packet it) None) stats).

(** [for packet in datagrams[..count]] *)
Fixpoint client_batch (client_key : Key) (ports : gset Z) (batch : list Inbound) (tx : C)
    (stats : VpnServerStats) : vres (C * VpnServerStats * bool) :=
  match batch with
  | [] => Ret (tx, stats, true)
  | it :: batch =>
      r ← client_packet client_key ports it tx stats;
      let '(tx, stats, go) := r in
      if go : bool then client_batch client_key ports batch tx stats else Ret (tx, stats, false)
  end.

(** The inbound task: one batch per [read_many_datagrams], until it fails. *)
Fixpoint handle_client_data (client_key : Key) (ports : gset Z) (reads : list (list Inbound))
    (tx : C) (stats : VpnServerStats) : vres (C * VpnServerStats) :=
  match reads with
  | [] => Ret (tx, stats)
  | batch :: reads =>
      r ← client_batch client_key ports batch tx stats;
      let '(tx, stats, go) := r in
      if go : bool then handle_client_data client_key ports reads tx stats else Ret (tx, stats)
  end.

(** *** What is delivered *)

(** The channel records the requests it accepts, and no others. *)
Record tx_laws (accepted : C -> list TunWriteRequest) : Prop := {
  tx_try : forall c r c' o, try_send c r = (c', o) ->
    accepted c' = accepted c ++ match o with TryOk => [r] | _ => [] end;
  tx_send : forall c r c' (ok : bool), send c r = (c', ok) ->
    accepted c' = accepted c ++ if ok then [r] else [];
}.

Inductive verdict : Type := DropSelf | DropSpoofed | DropIsolated | Deliver.

#[export] Instance verdict_eq_dec : EqDecision verdict.
Proof. solve_decision. Defined.

Definition source_ok (client_key : Key) (t : Tables) (packet : list Z) : bool :=
  match source_of packet with
  | Some (PktV4 a) => owner_allows client_key (t4 t !! a)
  | Some (PktV6 a) => negb (is_link_local a) && owner_allows client_key (t6 t !! a)
  | None => false
  end.

Definition dest_assigned (t : Tables) (packet : list Z) : bool :=
  match dest_of packet with
  | Some (PktV4 a) => is_assigned (t4 t !! a)
  | Some (PktV6 a) => is_assigned (t6 t !! a)
  | None => false
  end.

Definition judge (client_key : Key) (ports : gset Z) (it : Inbound) : verdict :=
  if self_encapsulated ports (in_packet it) then DropSelf
  else if negb (source_ok client_key (at_source it) (in_packet it)) then DropSpoofed
  else if dest_assigned (at_dest it) (in_packet it) then DropIsolated
  else Deliver.

(** The counters after packets that were handled without the channel failing. *)
Definition counted_one (client_key : Key) (ports : gset Z) (stats : VpnServerStats) (it : Inbound)
  : VpnServerStats :=
  match judge client_key ports it with
  | DropSelf => stats
  | DropSpoofed => inc_spoofed stats
  | DropIsolated => inc_blocked stats
  | Deliver => inc_from_clients stats
  end.

Definition request_of (it : Inbound) : TunWriteRequest := mkReq (in_packet it) None.

Lemma client_packet_judge client_key ports it tx stats :
  client_packet client_key ports it tx stats =
    Ret (match judge client_key ports it with
         | Deliver => enqueue_tun_write tx (request_of it) stats
         | _ => (tx, counted_one client_key ports stats it, true)
         end).
Proof.
  unfold client_packet, counted_one, judge. rewrite packet_filter_ok. cbn [mbind outcome_bind].
  destruct (self_encapsulated ports (in_packet it)); [done|].
  unfold source_valid, source_ok. rewrite extract_source_ok. cbn [mbind outcome_bind].
  destruct (source_of (in_packet it)) as [[a|a]|]; [| |done].
  - cbn [mbind outcome_bind]. destruct (owner_allows client_key _); [|done]. cbn [negb].
    unfold to_vpn_client, dest_assigned. rewrite extract_dest_ok. cbn [mbind outcome_bind].
    destruct (dest_of (in_packet it)) as [[b|b]|]; cbn [mbind outcome_bind];
      [destruct (is_assigned _)| destruct (is_assigned _)|]; done.
  - destruct (is_link_local a); [done|]. cbn [mbind outcome_bind negb andb].
    destruct (owner_allows client_key _); [|done]. cbn [negb].
    unfold to_vpn_client, dest_assigned. rewrite extract_dest_ok. cbn [mbind outcome_bind].
    destruct (dest_of (in_packet it)) as [[b|b]|]; cbn [mbind outcome_bind];
      [destruct (is_assigned _)| destruct (is_assigned _)|]; done.
Qed.

Section Handled.
Context (accepted : C -> list TunWriteRequest) (Hlaws : tx_laws accepted).
Context (client_key : Key) (ports : gset Z).

Definition delivered (items : list Inbound) : list TunWriteRequest :=
  map request_of (filter (fun it => judge client_key ports it = Deliver) items).

Definition tally (stats : VpnServerStats) (items : list Inbound) : VpnServerStats :=
  fold_left (counted_one client_key ports) items stats.

(** What handling [items] does: all of them, or up to a deliverable one the
    channel refused because it is closed. *)
Definition handled (items : list Inbound) (tx : C) (stats : VpnServerStats)
    (tx' : C) (stats' : VpnServerStats) (go : bool) : Prop :=
  exists head tail, items = head ++ tail /\
    accepted tx' = accepted tx ++ delivered head /\
    if go then tail = [] /\ stats' = tally stats head
    else exists it tail', tail = it :: tail' /\ judge client_key ports it = Deliver /\
         stats' = inc_write_failed (tally stats head).

Lemma enqueue_spec tx r stats :
  let '(tx', stats', go) := enqueue_tun_write tx r stats in
  accepted tx' = accepted tx ++ (if go then [r] else []) /\
  stats' = if go then inc_from_clients stats else inc_write_failed stats.
Proof.
  unfold enqueue_tun_write. destruct (try_send tx r) as [tx1 o] eqn:Ht.
  pose proof (tx_try _ Hlaws _ _ _ _ Ht) as H1. destruct o; [done| |done].
  destruct (send tx1 r) as [tx2 ok] eqn:Hs. pose proof (tx_send _ Hlaws _ _ _ _ Hs) as H2.
  destruct ok; rewrite H2, H1, app_nil_r; done.
Qed.

Lemma handled_cons it items tx stats tx1 tx' stats' go :
  accepted tx1 = accepted tx ++ delivered [it] ->
  handled items tx1 (counted_one client_key ports stats it) tx' stats' go ->
  handled (it :: items) tx stats tx' stats' go.
Proof.
  intros H1 (head & tail & -> & Hacc & Hgo). exists (it :: head), tail. split; [done|].
  split; [|done]. rewrite Hacc, H1, <-app_assoc. f_equal. unfold delivered.
  by rewrite <-map_app, <-filter_app.
Qed.

Lemma handled_nil tx stats : handled [] tx stats tx stats true.
Proof. exists [], []. split; [done|]. split; [symmetry; apply app_nil_r|done]. Qed.

Lemma client_batch_handled batch tx stats :
  exists tx' stats' go, client_batch client_key ports batch tx stats = Ret (tx', stats', go) /\
    handled batch tx stats tx' stats' go.
Proof.
  revert tx stats. induction batch as [|it batch IH]; intros tx stats; cbn [client_batch].
  { exists tx, stats, true. split; [done|apply handled_nil]. }
  rewrite client_packet_judge. cbn [mbind outcome_bind].
  destruct (decide (judge client_key ports it = Deliver)) as [Hj|Hj].
  - rewrite Hj. pose proof (enqueue_spec tx (request_of it) stats) as Hq.
    destruct (enqueue_tun_write tx (request_of it) stats) as [[tx1 st1] go]. destruct Hq as [Ha ->].
    destruct go.
    + destruct (IH tx1 (inc_from_clients stats)) as (tx' & stats' & go & -> & Hh).
      exists tx', stats', go. split; [done|]. eapply handled_cons.
      * rewrite Ha. unfold delivered. by rewrite filter_cons_True, filter_nil.
      * unfold counted_one. by rewrite Hj.
    + exists tx1, (inc_write_failed stats), false. split; [done|].
      exists [], (it :: batch). split; [done|]. split; [done|]. by exists it, batch.
  - destruct (IH tx (counted_one client_key ports stats it)) as (tx' & stats' & go & Hr & Hh).
    exists tx', stats', go. split; [by destruct (judge client_key ports it)|].
    eapply handled_cons; [|done]. unfold delivered. rewrite filter_cons_False, filter_nil by done.
    by rewrite app_nil_r.
Qed.

Lemma handle_client_data_handled reads tx stats :
  exists tx' stats' go, handle_client_data client_key ports reads tx stats = Ret (tx', stats') /\
    handled (concat reads) tx stats tx' stats' go.
Proof.
  revert tx stats. induction reads as [|batch reads IH]; intros tx stats; cbn [handle_client_data concat].
  { exists tx, stats, true. split; [done|apply handled_nil]. }
  destruct (client_batch_handled batch tx stats) as (tx1 & st1 & go & -> & head & tail & -> & Ha & Hgo).
  cbn [mbind outcome_bind]. destruct go.
  - destruct Hgo as [-> ->]. destruct (IH tx1 (tally stats head)) as (tx' & st' & go & -> & h2 & t2 & -> & Ha2 & Hgo2).
    exists tx', st', go. split; [done|]. exists (head ++ h2), t2. rewrite app_nil_r, app_assoc.
    split; [done|]. split.
    + rewrite Ha2, Ha, <-app_assoc. unfold delivered. by rewrite filter_app, map_app.
    + unfold tally in *. by rewrite fold_left_app.
  - destruct Hgo as (it & tail' & -> & Hj & ->). exists tx1, (inc_write_failed (tally stats head)), false.
    split; [done|]. exists head, ((it :: tail') ++ concat reads). rewrite <-app_assoc.
    split; [done|]. split; [done|]. by exists it, (tail' ++ concat reads).
Qed.
End Handled.

(** What a delivered packet satisfies. *)
Definition may_pass (client_key : Key) (ports : gset Z) (it : Inbound) : Prop :=
  self_encapsulated ports (in_packet it) = false /\
  (match source_of (in_packet it) with
   | Some (PktV4 a) => forall k, t4 (at_source it) !! a = Some k -> k = client_key
   | Some (PktV6 a) => is_link_local a = false /\
       forall k, t6 (at_source it) !! a = Some k -> k = client_key
   | None => False
   end) /\
  match dest_of (in_packet it) with
  | Some (PktV4 a) => t4 (at_dest it) !! a = None
  | Some (PktV6 a) => t6 (at_dest it) !! a = None
  | None => True
  end.

Lemma owner_allows_iff k o : owner_allows k o = true <-> forall k', o = Some k' -> k' = k.
Proof.
  destruct o as [x|]; cbn; [|by split]. rewrite bool_decide_eq_true. naive_solver.
Qed.

Lemma judge_deliver client_key ports it :
  judge client_key ports it = Deliver <-> may_pass client_key ports it.
Proof.
  unfold judge, may_pass, source_ok, dest_assigned.
  destruct (self_encapsulated ports (in_packet it)); [naive_solver|].
  assert (Hd : (match dest_of (in_packet it) with
     | Some (PktV4 a) => is_assigned (t4 (at_dest it) !! a)
     | Some (PktV6 a) => is_assigned (t6 (at_dest it) !! a)
     | None => false end) = false <->
     match dest_of (in_packet it) with
     | Some (PktV4 a) => t4 (at_dest it) !! a = None
     | Some (PktV6 a) => t6 (at_dest it) !! a = None
     | None => True end).
  { destruct (dest_of (in_packet it)) as [[a|a]|]; [| |done];
      destruct (_ !! a) as [k|]; cbn; by split. }
  rewrite <-Hd. destruct (match dest_of _ with Some _ => _ | None => _ end);
  destruct (source_of (in_packet it)) as [[a|a]|]; rewrite <-?owner_allows_iff;
    repeat match goal with |- context [owner_allows ?k ?o] => destruct (owner_allows k o) end;
    try destruct (is_link_local a); cbn; naive_solver.
Qed.
End Inbound.
Arguments Tables _ : clear implicits.
Arguments Inbound _ : clear implicits.

(** Judging packets does not count write failures. *)
Lemma tally_failed {Key} `{Countable Key} (client_key : Key) ports l st :
  packets_tun_write_failed (tally client_key ports st l) = packets_tun_write_failed st.
Proof.
  revert st. induction l as [|it l IH]; intros st; [done|]. unfold tally in *. cbn [fold_left].
  rewrite IH. unfold counted_one. destruct st. by destruct (judge client_key ports it).
Qed.


(** ** Evaluation *)

(** A channel that accepts while it holds fewer than three requests and then
    makes room. *)
Definition sample_try_send (c : list TunWriteRequest) (r : TunWriteRequest)
  : list TunWriteRequest * try_result :=
  if (length c <? 3)%nat then (c ++ [r], TryOk) else (c, TryFull).

Definition sample_send (c : list TunWriteRequest) (r : TunWriteRequest)
  : list TunWriteRequest * bool := (c ++ [r], true).

Lemma sample_tx_laws : tx_laws sample_try_send sample_send id.
Proof.
  split.
  - intros c r c' o. unfold sample_try_send. destruct (_ <? _)%nat; intros [= <- <-];
      [done|by rewrite app_nil_r].
  - intros c r c' ok [= <- <-]. done.
Qed.

(** An IPv4 packet between two addresses of [10.0.0.0/8]. *)
Definition sample_ipv4 (src dst : Z) : list Z :=
  [69; 0; 0; 20; 0; 0; 0; 0; 64; 6; 0; 0; 10; 0; 0; src; 10; 0; 0; dst]%Z.

Definition sample_tables : Tables Z := mkTables (<[167772162 := 1]> (<[167772163 := 2]> ∅))%Z ∅.

Definition sample_inbound (src dst : Z) : Inbound Z :=
  mkInbound (sample_ipv4 src dst) sample_tables sample_tables.

