(* ===== verification/Outbound.v ===== *)
(** * From the TUN device to the clients ([src/tunnel/server.rs], [run_tun_reader])

    A frame is split, checked, routed by its destination address and queued as
    datagrams for the one client that holds the address. *)

From S2P Require Import Prelude Errors Net Checksum Offload Segment Stream Packet Forward.

(** The flags of [TunReader] its [split_frame] uses. *)
Record TunReader : Type := mkTunReader {
  vnet_hdr_enabled : bool;
  packet_information_enabled : bool;
}.

(** The errors of [TunReader::split_frame]. *)
Inductive frame_error : Type :=
| ShorterThanPacketInformation (len : nat)
| SplitError (e : offload_error).

Section Outbound.
Context {Key : Type} `{Countable Key}.
Context (PACKET_INFORMATION_LENGTH : nat).   (* of the [tun] crate *)

Definition split_frame (self : TunReader) (frame : list Z)
  : outcome frame_error (option VirtioNetHdr * list Z) :=
  if packet_information_enabled self then
    if (length frame <=? PACKET_INFORMATION_LENGTH)%nat
    then Fail (ShorterThanPacketInformation (length frame)) else
    rest ← slice_from frame PACKET_INFORMATION_LENGTH;
    map_err SplitError (split_tun_frame rest false)
  else map_err SplitError (split_tun_frame frame (vnet_hdr_enabled self)).

(** [for datagram in pending.drain(..)]: a closed queue ends the loop and drops
    the rest. *)
Fixpoint push_all (q : ClientDatagramQueue) (pending : list (list Z)) (stats : VpnServerStats)
  : ClientDatagramQueue * VpnServerStats :=
  match pending with
  | [] => (q, stats)
  | datagram :: pending =>
      match try_push q datagram with
      | (q, PushOk) => push_all q pending stats
      | (q, PushFull) => push_all q pending (add_full 1 stats)
      | (q, PushClosed) => (q, stats)
      end
  end.

Definition queue_client_datagrams (max_size : option nat) (datagram_tx : ClientDatagramQueue)
    (offload : option VirtioNetHdr) (packet : list Z) (stats : VpnServerStats)
  : outcome unit (ClientDatagramQueue * VpnServerStats) :=
  s ← prepare_ip_datagrams max_size offload packet (mkPrep (q_arena datagram_tx) [] outcome_zero);
  let q := mkQueue (chan datagram_tx) (queued_bytes datagram_tx) (arena s) (receiver_alive datagram_tx) in
  let outcome := counts s in
  let stats := if (0 <? dropped_too_large outcome)%Z
               then add_dropped_too_large (dropped_too_large outcome) stats else stats in
  let stats := if (0 <? dropped_other outcome)%Z
               then add_full (dropped_other outcome) stats else stats in
  Ret (push_all q (pending s) stats).

(** The connection (its datagram limit at this moment) and the queue of a
    [clients] entry. *)
Record Handle : Type := mkHandle { max_datagram_size : option nat; h_queue : ClientDatagramQueue }.

Record ReaderState : Type := mkReader {
  r_tables : Tables Key;
  r_clients : gmap Key Handle;
  r_stats : VpnServerStats;
}.

Definition with_stats (st : ReaderState) (f : VpnServerStats -> VpnServerStats) : ReaderState :=
  mkReader (r_tables st) (r_clients st) (f (r_stats st)).

(** [self.ip_to_endpoint.get(&dest)] and [self.ip6_to_endpoint.get(&dest)] *)
Definition lookup_dest (t : Tables Key) (d : PacketIp) : option Key :=
  match d with PktV4 a => t4 t !! a | PktV6 a => t6 t !! a end.

(** One iteration of the loop, for a non-empty read. *)
Definition tun_frame (reader : TunReader) (ports : gset Z) (raw_frame : list Z) (st : ReaderState)
  : outcome VpnError ReaderState :=
  let st := with_stats st inc_read in
  match split_frame reader raw_frame with
  | Panic => Panic
  | Fail _ => Ret st
  | Ret (offload, packet_ref) =>
      self ← packet_has_local_iroh_udp_port packet_ref ports;
      if self : bool then Ret st else
      dest ← extract_dest_ip packet_ref;
      match dest with
      | None => Ret (with_stats st inc_unknown)
      | Some dest_ip =>
          match lookup_dest (r_tables st) dest_ip with
          | None => Ret (with_stats st inc_no_route)
          | Some client_key =>
              match r_clients st !! client_key with
              | None => Ret (with_stats st inc_no_route)
              | Some h =>
                  match queue_client_datagrams (max_datagram_size h) (h_queue h) offload packet_ref
                          (r_stats st) with
                  | Ret (q, stats) =>
                      Ret (mkReader (r_tables st)
                             (<[client_key := mkHandle (max_datagram_size h) q]> (r_clients st)) stats)
                  | _ => Panic
                  end
              end
          end
      end
  end.

(** What the loop sees: what other tasks did to the state in the meantime, and
    the result of the read ([None] is a read error). *)
Definition tun_read : Type := (ReaderState -> ReaderState) * option (list Z).

Fixpoint run_tun_reader (reader : TunReader) (ports : gset Z) (reads : list tun_read)
    (st : ReaderState) : outcome VpnError ReaderState :=
  match reads with
  | [] => Ret st
  | (env, r) :: reads =>
      let st := env st in
      match r with
      | None => Ret st
      | Some [] => run_tun_reader reader ports reads st
      | Some raw_frame =>
          st ← tun_frame reader ports raw_frame st;
          run_tun_reader reader ports reads st
      end
  end.

(** ** Where a frame goes *)

Definition frame_target (reader : TunReader) (ports : gset Z) (raw : list Z) (st : ReaderState)
  : option (Key * option VirtioNetHdr * list Z) :=
  match split_frame reader raw with
  | Ret (offload, packet) =>
      if self_encapsulated ports packet then None else
      dest ← dest_of packet;
      k ← lookup_dest (r_tables st) dest;
      Some (k, offload, packet)
  | _ => None
  end.

(** The datagrams a packet becomes. *)
Definition datagrams_of (max_size : option nat) (offload : option VirtioNetHdr) (packet : list Z)
  : list (list Z) :=
  filter (fits max_size)
    (match offload with
     | Some h => (materialize_offload_into collect h packet []).1
     | None => [packet]
     end).

Lemma split_tun_not_panic frame vnet : split_tun_frame frame vnet <> Panic.
Proof.
  unfold split_tun_frame. destruct vnet; cbn [negb]; [|by destruct frame].
  destruct (Nat.ltb_spec (length frame) VIRTIO_NET_HDR_LEN) as [|Hl]; [done|].
  unfold VIRTIO_NET_HDR_LEN in *. run_slices.
  apply bind_not_panic.
  - unfold from_bytes, from_array. set (h := take (10 - 0) (drop 0 frame)).
    assert (Hn : length h = 10%nat) by (unfold h; lengths; lia).
    destruct (_ =? _)%nat; [|done]. by run_slices.
  - intros h. destruct (drop 10 frame); [done|]. repeat case_match; done.
Qed.

Lemma split_frame_not_panic reader raw : split_frame reader raw <> Panic.
Proof.
  unfold split_frame. destruct (packet_information_enabled reader).
  - destruct (Nat.leb_spec (length raw) PACKET_INFORMATION_LENGTH); [done|]. run_slices.
    apply map_err_not_panic, split_tun_not_panic.
  - apply map_err_not_panic, split_tun_not_panic.
Qed.

(** Pushing appends an in-order selection and charges for it. *)
Lemma push_all_spec q pending stats :
  exists new, new `sublist_of` pending /\
    let '(q', stats') := push_all q pending stats in
    chan q' = chan q ++ new /\ queued_bytes q' = (queued_bytes q + total_cost new)%Z /\
    (queued_bytes q' <= Z.max (queued_bytes q) CLIENT_QUEUE_BYTES)%Z /\
    q_arena q' = q_arena q /\ receiver_alive q' = receiver_alive q /\
    (receiver_alive q = true ->
       stats' = add_full (Z.of_nat (length pending - length new)) stats) /\
    (receiver_alive q = true -> (queued_bytes q + total_cost pending <= CLIENT_QUEUE_BYTES)%Z ->
       new = pending).
Proof.
  revert q stats. induction pending as [|d pending IH]; intros q stats; cbn [push_all].
  { exists []. split; [done|]. rewrite app_nil_r. cbn. split_and!; try done; try lia.
    intros _. destruct stats. cbn. f_equal. lia. }
  assert (Htc : total_cost (d :: pending) = (cost d + total_cost pending)%Z) by done.
  assert (Hpos : (0 <= total_cost pending)%Z) by (pose proof (total_cost_length pending); lia).
  unfold try_push. cbn [chan queued_bytes].
  destruct (Z.ltb_spec CLIENT_QUEUE_BYTES (queued_bytes q + cost d)).
  - replace (queued_bytes q + cost d - cost d)%Z with (queued_bytes q) by lia.
    destruct (IH q (add_full 1 stats)) as (new & Hsub & Hp). exists new.
    split; [by apply sublist_cons|].
    replace (mkQueue (chan q) (queued_bytes q) (q_arena q) (receiver_alive q)) with q by (by destruct q).
    destruct (push_all q pending (add_full 1 stats)) as [q' st'].
    destruct Hp as (? & ? & ? & ? & ? & Hst & _). split_and!; try done; [|lia]. intros Hal.
    rewrite (Hst Hal). pose proof (sublist_length _ _ Hsub). destruct stats.
    cbn [add_full length]. f_equal. lia.
  - destruct (receiver_alive q) eqn:Hal.
    + destruct (IH (mkQueue (chan q ++ [d]) (queued_bytes q + cost d) (q_arena q) true) stats)
        as (new & Hsub & Hp). exists (d :: new). split; [by apply sublist_skip|].
      destruct (push_all _ pending stats) as [q' st']. cbn [chan queued_bytes q_arena receiver_alive] in Hp.
      destruct Hp as (Hc & Hb & Hm & ? & ? & Hst & Hall).
      assert (Htn : total_cost (d :: new) = (cost d + total_cost new)%Z) by done.
      split_and!; try done; [by rewrite Hc, <-app_assoc|lia|lia|].
      intros _ Hfit. f_equal. apply Hall; [done|lia].
    + exists []. split; [apply sublist_nil_l|]. rewrite app_nil_r. cbn [chan queued_bytes q_arena receiver_alive].
      change (total_cost []) with 0%Z. split_and!; try done; lia.
Qed.

Lemma queue_client_datagrams_spec max_size q offload packet stats :
  q_arena q = [] ->
  exists q' stats' new, queue_client_datagrams max_size q offload packet stats = Ret (q', stats') /\
    new `sublist_of` datagrams_of max_size offload packet /\
    chan q' = chan q ++ new /\ queued_bytes q' = (queued_bytes q + total_cost new)%Z /\
    (queued_bytes q' <= Z.max (queued_bytes q) CLIENT_QUEUE_BYTES)%Z /\
    q_arena q' = [] /\ receiver_alive q' = receiver_alive q /\
    (receiver_alive q = true ->
       (queued_bytes q + total_cost (datagrams_of max_size offload packet) <= CLIENT_QUEUE_BYTES)%Z ->
       new = datagrams_of max_size offload packet).
Proof.
  intros Ha. unfold queue_client_datagrams.
  pose proof (prepare_exact max_size offload packet (mkPrep (q_arena q) [] outcome_zero) Ha) as Hp.
  unfold datagrams_of. set (segs := match offload with Some h => _ | None => [packet] end).
  assert (Hs : exists st, prepare_ip_datagrams max_size offload packet (mkPrep (q_arena q) [] outcome_zero)
    = Ret st /\ arena st = [] /\ pending st = filter (fits max_size) segs).
  { unfold segs. destruct offload as [h|].
    - destruct (materialize_offload_into collect h packet []) as [sg r]. destruct Hp as [_ ->]. by eexists.
    - destruct Hp as [_ ->]. by eexists. }
  destruct Hs as (st & -> & Har & Hpend). cbn [mbind outcome_bind]. rewrite Har, Hpend.
  set (stats1 := if (0 <? dropped_other _)%Z then _ else _).
  destruct (push_all_spec (mkQueue (chan q) (queued_bytes q) [] (receiver_alive q))
    (filter (fits max_size) segs) stats1) as (new & Hsub & Hpush).
  destruct (push_all _ _ stats1) as [q' stats']. cbn [chan queued_bytes q_arena receiver_alive] in Hpush.
  destruct Hpush as (? & ? & ? & ? & ? & _ & ?). by exists q', stats', new.
Qed.

(** The effect of one frame. *)
Lemma tun_frame_effect reader ports raw st :
  (forall k h, r_clients st !! k = Some h -> q_arena (h_queue h) = []) ->
  exists st', tun_frame reader ports raw st = Ret st' /\ r_tables st' = r_tables st /\
  match frame_target reader ports raw st with
  | None => r_clients st' = r_clients st
  | Some (k, offload, packet) =>
      (forall k', k' <> k -> r_clients st' !! k' = r_clients st !! k') /\
      match r_clients st !! k with
      | None => r_clients st' !! k = None
      | Some h =>
          let ds := datagrams_of (max_datagram_size h) offload packet in
          exists q' new, r_clients st' !! k = Some (mkHandle (max_datagram_size h) q') /\
            q_arena q' = [] /\ receiver_alive q' = receiver_alive (h_queue h) /\
            new `sublist_of` ds /\ chan q' = chan (h_queue h) ++ new /\
            queued_bytes q' = (queued_bytes (h_queue h) + total_cost new)%Z /\
            (queued_bytes q' <= Z.max (queued_bytes (h_queue h)) CLIENT_QUEUE_BYTES)%Z /\
            (receiver_alive (h_queue h) = true ->
             (queued_bytes (h_queue h) + total_cost ds <= CLIENT_QUEUE_BYTES)%Z -> new = ds)
      end
  end.
Proof.
  intros Ha. unfold tun_frame, frame_target.
  pose proof (split_frame_not_panic reader raw) as Hnp.
  destruct (split_frame reader raw) as [[offload packet]|e|]; [|by eexists|done].
  rewrite packet_filter_ok. cbn [mbind outcome_bind].
  destruct (self_encapsulated ports packet); [by eexists|].
  rewrite extract_dest_ok. cbn [mbind outcome_bind].
  destruct (dest_of packet) as [dest|]; [|by eexists]. cbn [mbind option_bind with_stats r_tables].
  destruct (lookup_dest (r_tables st) dest) as [k|]; [|by eexists].
  cbn [mbind option_bind with_stats r_clients r_stats].
  destruct (r_clients st !! k) as [h|] eqn:Hk; [|eexists; split_and!; try done; cbn; by rewrite Hk].
  destruct (queue_client_datagrams_spec (max_datagram_size h) (h_queue h) offload packet
    (inc_read (r_stats st)) (Ha k h Hk))
    as (q' & stats' & new & -> & Hsub & Hc & Hb & Hm & Har & Hal & Hall).
  eexists. split; [done|]. split; [done|]. cbn [r_clients]. split.
  - intros k' Hne. by rewrite lookup_insert_ne.
  - exists q', new. rewrite lookup_insert_eq. done.
Qed.

(** C38. Every frame read from the TUN device goes to the owner of its
    destination address and to nobody else: handling it never panics, the
    routing tables and every other client's queue are left alone, and the
    owner's queue is extended by an in-order selection of the datagrams the
    packet materializes to (each within the connection's datagram size), never
    beyond its byte budget, and by all of them while the budget lasts and the
    client's writer lives; a frame for no client changes no queue. *)
Theorem tun_frame_routed reader ports raw st :
  (forall k h, r_clients st !! k = Some h -> q_arena (h_queue h) = []) ->
  exists st', tun_frame reader ports raw st = Ret st' /\ r_tables st' = r_tables st /\
  match frame_target reader ports raw st with
  | None => r_clients st' = r_clients st
  | Some (k, offload, packet) =>
      (forall k', k' <> k -> r_clients st' !! k' = r_clients st !! k') /\
      match r_clients st !! k with
      | None => r_clients st' !! k = None
      | Some h =>
          let ds := datagrams_of (max_datagram_size h) offload packet in
          exists q' new, r_clients st' !! k = Some (mkHandle (max_datagram_size h) q') /\
            q_arena q' = [] /\ receiver_alive q' = receiver_alive (h_queue h) /\
            new `sublist_of` ds /\ chan q' = chan (h_queue h) ++ new /\
            queued_bytes q' = (queued_bytes (h_queue h) + total_cost new)%Z /\
            (queued_bytes q' <= Z.max (queued_bytes (h_queue h)) CLIENT_QUEUE_BYTES)%Z /\
            (receiver_alive (h_queue h) = true ->
             (queued_bytes (h_queue h) + total_cost ds <= CLIENT_QUEUE_BYTES)%Z -> new = ds)
      end
  end.
Proof. apply tun_frame_effect. Qed.
End Outbound.

(** ** Evaluation *)

Definition sample_reader_state : ReaderState (Key := Z) :=
  mkReader sample_tables (<[2 := mkHandle (Some 1200%nat) ClientDatagramQueue_new]> ∅)%Z stats_zero.

Lemma tun_frame_routed_witness :
  exists st', tun_frame 4 (mkTunReader false false) ∅ (sample_ipv4 9 3) sample_reader_state = Ret st' /\
    r_tables st' = sample_tables.
Proof.
  destruct (tun_frame_routed 4 (mkTunReader false false) ∅ (sample_ipv4 9 3) sample_reader_state)
    as (st' & Hr & Ht & _).
  - intros k h Hk. cbn [sample_reader_state r_clients] in Hk.
    apply lookup_insert_Some in Hk as [[_ <-]|[_ Hk]]; [reflexivity|]. by rewrite lookup_empty in Hk.
  - exists st'. split; [exact Hr|exact Ht].
Defined.

(** The frame above is queued for client 2, the holder of [10.0.0.3]. *)
Example sample_routed :
  exists st', tun_frame 4 (mkTunReader false false) ∅ (sample_ipv4 9 3) sample_reader_state = Ret st' /\
    (h_queue <$> r_clients st' !! 2%Z) = Some (mkQueue [sample_ipv4 9 3] 84 [] true).
Proof. eexists. split; reflexivity. Qed.
