(* ===== verification/Utun.v ===== *)
(** * The utun device of macOS and iOS ([src/net/device.rs])

    The descriptors of a wrapped tunnel and of its split halves, the reader that
    polls the descriptor within a budget, and the frames of the writer.  The
    system calls' results are inputs; descriptors name open files in a table. *)

From S2P Require Import Prelude Errors DeviceRoutes Offload Device Outbound.

#[local] Open Scope string_scope.

(** ** Permission *)

(** The result of creating a throwaway device. *)
Inductive created : Type := CreatedOk | CreateDenied | CreateFailed.

Definition TUN_PERMISSION_HELP (os : Os) : string :=
  match os with
  | LinuxOs => "insufficient privileges to create a TUN device: run as root (e.g. via sudo) or grant CAP_NET_ADMIN to the binary (sudo setcap cap_net_admin+ep <path-to-ezvpn>)"
  | _ => "insufficient privileges to create a utun device: run as root (e.g. via sudo)"
  end.

Definition ensure_tun_permission (os : Os) (r : created) : vres unit :=
  match os with
  | WindowsOs => Ret tt
  | _ =>
      match r with
      | CreatedOk => Ret tt
      | CreateDenied => Fail (VpnError_tun_device (msg (TUN_PERMISSION_HELP os)))
      | CreateFailed => Ret tt
      end
  end.

(** ** Descriptors *)

(** The open files the descriptors of the process name. *)
Abbreviation fd_table := (gmap Z nat).

(** The descriptor the kernel picks, if the call succeeds. *)
Definition duplicate_fd (t : fd_table) (fd : Z) (dup : option Z) : fd_table * vres Z :=
  match t !! fd, dup with
  | Some file, Some n => (<[n := file]> t, Ret n)
  | _, _ => (t, Fail (VpnError_tun_device (msg "Failed to duplicate tun fd")))
  end.

Definition close_fd (t : fd_table) (fd : Z) : fd_table := delete fd t.

(** A device over an owned descriptor. *)
Record UtunDevice : Type := mkUtun { ut_fd : Z; ut_name : string; ut_mtu : Z }.

Definition from_raw_fd (t : fd_table) (fd mtu : Z) (dup : option Z) : fd_table * vres UtunDevice :=
  match duplicate_fd t fd dup with
  | (t, Ret owned) => (t, Ret (mkUtun owned "utun" mtu))
  | (t, Fail e) => (t, Fail e)
  | (t, Panic) => (t, Panic)
  end.

Definition UTUN_SOCKET_BUFFER_SIZE : Z := 4 * 1024 * 1024.

(** The two options are requested; a failure is logged.  The result are the
    options that were not set. *)
Definition set_utun_socket_buffers (setsockopt : string -> Z -> bool) : list string :=
  filter (fun name => setsockopt name UTUN_SOCKET_BUFFER_SIZE = false) ["SO_RCVBUF"; "SO_SNDBUF"].

(** The halves share a descriptor, which is closed with the last of them. *)
Record DarwinTunHalves : Type := mkHalves { hv_fd : Z; hv_shares : nat; hv_buffer_size : Z }.

Definition halves_from_raw_fd (t : fd_table) (fd : Z) (dup : option Z) (registered : bool) (buffer_size : Z)
  : fd_table * vres DarwinTunHalves :=
  match duplicate_fd t fd dup with
  | (t, Ret fd) =>
      if registered then (t, Ret (mkHalves fd 2 buffer_size))
      else (close_fd t fd, Fail (VpnError_tun_device (msg "Failed to register utun fd")))
  | (t, Fail e) => (t, Fail e)
  | (t, Panic) => (t, Panic)
  end.

Definition utun_buffer_size (d : UtunDevice) : Z := (ut_mtu d + PACKET_INFORMATION_LENGTH)%Z.

(** [split] consumes the device: its descriptor is closed on every path. *)
Definition split (t : fd_table) (d : UtunDevice) (dup : option Z) (registered : bool) : fd_table * vres DarwinTunHalves :=
  let '(t, r) := halves_from_raw_fd t (ut_fd d) dup registered (utun_buffer_size d) in
  (close_fd t (ut_fd d), r).

(** One of the halves is dropped. *)
Definition drop_half (t : fd_table) (h : DarwinTunHalves) : fd_table * DarwinTunHalves :=
  match hv_shares h with
  | S (S n) => (t, mkHalves (hv_fd h) (S n) (hv_buffer_size h))
  | _ => (close_fd t (hv_fd h), mkHalves (hv_fd h) 0 (hv_buffer_size h))
  end.

(** ** Reading *)

Inductive io_kind : Type := WouldBlock | InvalidInput | WriteZero | OtherError.
#[export] Instance io_kind_eq_dec : EqDecision io_kind.
Proof. solve_decision. Defined.

Abbreviation ires := (outcome io_kind).

(** What [read] finds: the next frame of the device, or an error. *)
Definition read_utun_frame_into (remaining : nat) (read : ires (list Z)) : ires (list Z) :=
  if (remaining =? 0)%nat then Fail InvalidInput
  else frame ← read; Ret (take remaining frame).

Definition network_error (e : io_kind) : VpnError := Network (msg "utun").

(** The attempts of the loop, each with the time that has passed when it is
    over; [None] when the attempts do not suffice. *)
Fixpoint spin_read_buf (remaining : nat) (budget : Z) (attempts : list (ires (list Z) * Z))
  : option (option (vres (list Z))) :=
  match attempts with
  | [] => None
  | (read, elapsed) :: rest =>
      match read_utun_frame_into remaining read with
      | Ret frame => Some (Some (Ret frame))
      | Fail WouldBlock => if (budget <=? elapsed)%Z then Some None else spin_read_buf remaining budget rest
      | Fail e => Some (Some (Fail (network_error e)))
      | Panic => Some (Some Panic)
      end
  end.

(** [try_read_buf]: a single poll, which reads only if the descriptor is known
    to be readable. *)
Definition try_read_buf (remaining : nat) (poll : option (ires (list Z))) : option (vres (list Z)) :=
  match poll with
  | None => None
  | Some read =>
      match read_utun_frame_into remaining read with
      | Ret frame => Some (Ret frame)
      | Fail WouldBlock => None
      | Fail e => Some (Fail (network_error e))
      | Panic => Some Panic
      end
  end.

Definition try_read_buf_within (apple : bool) (remaining : nat) (budget : Z) (poll : option (ires (list Z)))
    (attempts : list (ires (list Z) * Z)) : option (option (vres (list Z))) :=
  if apple then
    match try_read_buf remaining poll with
    | None => spin_read_buf remaining budget attempts
    | some => Some some
    end
  else Some (try_read_buf remaining poll).

(** ** Writing *)

(** What reaches the device, and the result of [writev]. *)
Definition write_utun_frame_vectored (header ip_packet : list Z) (writev : ires nat) : list (list Z) * ires unit :=
  match writev with
  | Fail e => ([], Fail e)
  | Panic => ([], Panic)
  | Ret written =>
      let frame := (header ++ ip_packet)%list in
      ([take written frame], if (written =? length frame)%nat then Ret tt else Fail WriteZero)
  end.

(** [async_io] tries again once the descriptor is writable; [None] when the
    attempts do not suffice. *)
Fixpoint write_when_ready (header ip_packet : list Z) (attempts : list (ires nat)) : option (list (list Z) * vres unit) :=
  match attempts with
  | [] => None
  | writev :: rest =>
      match write_utun_frame_vectored header ip_packet writev with
      | (_, Fail WouldBlock) => write_when_ready header ip_packet rest
      | (frames, Ret _) => Some (frames, Ret tt)
      | (frames, Fail e) => Some (frames, Fail (network_error e))
      | (frames, Panic) => Some (frames, Panic)
      end
  end.

Definition darwin_write_packet (offload : option VirtioNetHdr) (ip_packet : list Z) (attempts : list (ires nat))
  : option (list (list Z) * vres unit) :=
  match offload with
  | Some _ => Some ([], Fail (VpnError_tun_device
      (msg "received offload metadata but local utun does not use vnet headers")))
  | None =>
      match darwin_packet_information ip_packet with
      | Ret header => write_when_ready header ip_packet attempts
      | Fail e => Some ([], Fail e)
      | Panic => Some ([], Panic)
      end
  end.

(** The reader of a split utun. *)
Definition utun_reader : TunReader := mkTunReader false true.

(** ** Descriptors are conserved *)

(** The kernel picks descriptors that are not in use. *)
Definition fresh_in (t : fd_table) (dup : option Z) : Prop := forall n, dup = Some n -> t !! n = None.

Lemma duplicate_cases t fd dup :
  fresh_in t dup ->
  match duplicate_fd t fd dup with
  | (t', Ret n) => exists file, t !! fd = Some file /\ t !! n = None /\ t' = <[n := file]> t
  | (t', Fail _) => t' = t
  | (_, Panic) => False
  end.
Proof.
  intros Hf. unfold duplicate_fd. destruct (t !! fd) as [file|]; [|done]. destruct dup as [n|]; [|done].
  exists file. split_and!; [done|by apply Hf|done].
Qed.

(** C39. The descriptors of a utun: wrapping the descriptor of the system and
    splitting the device leaves exactly one new descriptor, which names the
    same open file as the system's, while the halves live; dropping both, in
    either order, leaves the table as it was, and so does every error on the
    way (a failed [dup], a failed registration).  The system's descriptor is
    never closed. *)
Theorem utun_descriptors_conserved t fd mtu dup1 dup2 registered :
  fresh_in t dup1 -> fresh_in (from_raw_fd t fd mtu dup1).1 dup2 ->
  match from_raw_fd t fd mtu dup1 with
  | (t1, Ret d) =>
      match split t1 d dup2 registered with
      | (t2, Ret h) =>
          hv_fd h <> fd /\ t !! hv_fd h = None /\
          (exists file, t !! fd = Some file /\ t2 = <[hv_fd h := file]> t) /\
          hv_buffer_size h = (mtu + PACKET_INFORMATION_LENGTH)%Z /\
          let '(t3, h3) := drop_half t2 h in
          t3 = t2 /\ (drop_half t3 h3).1 = t
      | (t2, Fail _) => t2 = t
      | (_, Panic) => False
      end
  | (t1, Fail _) => t1 = t
  | (_, Panic) => False
  end.
Proof.
  intros Hf1 Hf2. unfold from_raw_fd in *. pose proof (duplicate_cases t fd dup1 Hf1) as H1.
  destruct (duplicate_fd t fd dup1) as [t1 [n|e|]]; [|done..]. destruct H1 as (file & Hfd & Hn & ->). cbn [fst] in Hf2.
  unfold split, halves_from_raw_fd. cbn [ut_fd].
  pose proof (duplicate_cases (<[n := file]> t) n dup2 Hf2) as H2.
  destruct (duplicate_fd (<[n := file]> t) n dup2) as [t2 [n2|e|]]; cbn [close_fd]; [| |done].
  2:{ subst t2. unfold close_fd. by rewrite delete_insert_id. }
  destruct H2 as (file2 & Hl & Hn2 & ->). rewrite lookup_insert_eq in Hl. injection Hl as <-.
  assert (Hne : n2 <> n) by (intros ->; by rewrite lookup_insert_eq in Hn2).
  rewrite lookup_insert_ne in Hn2 by done.
  assert (Hclose : delete n (<[n2 := file]> (<[n := file]> t)) = <[n2 := file]> t).
  { rewrite delete_insert_ne by done. by rewrite delete_insert_id. }
  destruct registered; unfold close_fd; cbn [hv_fd hv_shares hv_buffer_size drop_half fst].
  - rewrite Hclose. split_and!; [congruence|done|by exists file|done|done|]. unfold close_fd. by rewrite delete_insert_id.
  - rewrite delete_insert_id by (by rewrite lookup_insert_ne by done). by rewrite delete_insert_id.
Qed.

(** ** The polling reader *)

(** Reading a utun: the polling loop returns the result of the first attempt
    that is not [WouldBlock], cut to the buffer, and never polls again once the
    budget is spent; so it reports that there is no packet only if every
    attempt up to then has found none, and with a clock that reaches the
    budget it always returns. *)
Theorem utun_poll_exact remaining budget attempts :
  (0 < remaining)%nat -> Forall (fun '(r, _) => r <> Panic) attempts ->
  (exists i r t, attempts !! i = Some (r, t) /\ (budget <= t)%Z) ->
  exists i r t, attempts !! i = Some (r, t) /\
    (forall j rj tj, (j < i)%nat -> attempts !! j = Some (rj, tj) -> rj = Fail WouldBlock /\ (tj < budget)%Z) /\
    spin_read_buf remaining budget attempts =
      Some (match r with
            | Ret frame => Some (Ret (take remaining frame))
            | Fail e => if decide (e = WouldBlock) then None else Some (Fail (network_error e))
            | Panic => None
            end) /\
    (r = Fail WouldBlock -> (budget <= t)%Z).
Proof.
  intros Hr Hp (i & r & t & Hi & Ht). revert i Hi. induction attempts as [|[r0 t0] rest IH]; intros i Hi; [done|].
  apply Forall_cons in Hp as [Hp0 Hp]. cbn [spin_read_buf]. unfold read_utun_frame_into.
  rewrite (proj2 (Nat.eqb_neq remaining 0)) by lia.
  assert (Hnow : forall x, (match r0 with
      | Ret frame => x = Some (Some (Ret (take remaining frame)))
      | Fail e => x = Some (if decide (e = WouldBlock) then None else Some (Fail (network_error e)))
      | Panic => False end) -> (r0 = Fail WouldBlock -> (budget <= t0)%Z) ->
    exists i r t, ((r0, t0) :: rest) !! i = Some (r, t) /\
      (forall j rj tj, (j < i)%nat -> ((r0, t0) :: rest) !! j = Some (rj, tj) -> rj = Fail WouldBlock /\ (tj < budget)%Z) /\
      x = Some (match r with
            | Ret frame => Some (Ret (take remaining frame))
            | Fail e => if decide (e = WouldBlock) then None else Some (Fail (network_error e))
            | Panic => None end) /\ (r = Fail WouldBlock -> (budget <= t)%Z)).
  { intros x Hx Hb. exists 0, r0, t0. split; [done|]. split; [intros; lia|]. split; [|done]. by destruct r0. }
  destruct r0 as [frame|e|]; [by apply Hnow| |done].
  cbn [mbind outcome_bind]. destruct (decide (e = WouldBlock)) as [->|Hne].
  2:{ destruct e; [done|..]; (apply Hnow; done). }
  destruct (Z.leb_spec budget t0) as [Hb|Hb].
  { by apply Hnow. }
  destruct i as [|i]; [injection Hi as <- <-; lia|].
  destruct (IH Hp i Hi) as (k & rk & tk & Hk & Hbefore & Hs & Hlast). exists (S k), rk, tk. split; [done|].
  split; [|done]. intros [|j] rj tj Hj Hjj; [injection Hjj as <- <-; done|]. apply (Hbefore j rj tj); [lia|done].
Qed.

(** ** Frames *)

Lemma packet_information_ok ip_packet header :
  darwin_packet_information ip_packet = Ret header -> length header = 4 /\ ip_packet <> [].
Proof.
  unfold darwin_packet_information. destruct ip_packet as [|b p]; [done|]. cbv zeta.
  destruct (Z.shiftr b 4 =? 4)%Z; cbn; [intros [= <-]; done|].
  destruct (Z.shiftr b 4 =? 6)%Z; cbn; [intros [= <-]; done|done].
Qed.

Lemma write_when_ready_ok header ip_packet attempts frames :
  write_when_ready header ip_packet attempts = Some (frames, Ret tt) -> frames = [(header ++ ip_packet)%list].
Proof.
  induction attempts as [|writev rest IH]; cbn [write_when_ready]; [done|].
  unfold write_utun_frame_vectored. destruct writev as [n|e|]; [|by destruct e|done].
  destruct (Nat.eqb_spec n (length (header ++ ip_packet))) as [->|]; [|done].
  intros [= <-]. by rewrite firstn_all.
Qed.

(** A packet that the utun writer reports as written is on the device as one
    frame, and a reader whose buffer has the device's size, over a device whose
    MTU the packet does not exceed, gets the packet back from that frame with
    no offload metadata; packets of an unknown version, empty packets and
    packets with offload metadata are refused and nothing reaches the device. *)
Theorem utun_frame_roundtrip d offload ip_packet attempts frames r :
  (Z.of_nat (length ip_packet) <= ut_mtu d)%Z ->
  darwin_write_packet offload ip_packet attempts = Some (frames, r) ->
  (r = Ret tt -> exists frame, frames = [frame] /\
     read_utun_frame_into (Z.to_nat (utun_buffer_size d)) (Ret frame) = Ret frame /\
     split_frame (Z.to_nat PACKET_INFORMATION_LENGTH) utun_reader frame = Ret (None, ip_packet)) /\
  (offload <> None \/ is_ret (darwin_packet_information ip_packet) = false -> frames = [] /\ is_ret r = false).
Proof.
  intros Hmtu Hw. unfold darwin_write_packet in Hw. destruct offload as [h|]; [injection Hw as <- <-; by split|].
  destruct (darwin_packet_information ip_packet) as [header|e|] eqn:Hd; [|injection Hw as <- <-; by split..].
  split; [|by intros [?|?]]. intros ->. apply write_when_ready_ok in Hw as ->.
  apply packet_information_ok in Hd as [Hlen Hne]. eexists. split; [done|].
  assert (Hl : length (header ++ ip_packet) = 4 + length ip_packet) by (rewrite length_app; lia). split.
  - unfold read_utun_frame_into, utun_buffer_size, PACKET_INFORMATION_LENGTH.
    rewrite (proj2 (Nat.eqb_neq _ _)) by lia. cbn [mbind outcome_bind]. rewrite take_ge; [done|]. lia.
  - unfold split_frame. cbn [packet_information_enabled utun_reader]. change (Z.to_nat PACKET_INFORMATION_LENGTH) with 4.
    assert (Hpos : 0 < length ip_packet) by (destruct ip_packet; [done|cbn; lia]).
    rewrite (proj2 (Nat.leb_gt _ _)) by lia. rewrite slice_from_ok by lia. cbn [mbind outcome_bind].
    rewrite drop_app_length' by done. unfold split_tun_frame. by destruct ip_packet.
Qed.

(** ** Evaluation *)

(** The system's descriptor 3; the kernel hands out 4 and 5. *)
Lemma utun_descriptors_conserved_witness :
  match from_raw_fd {[3%Z := 7]} 3 1280 (Some 4%Z) with
  | (t1, Ret d) => (split t1 d (Some 5%Z) false).1 = {[3%Z := 7]} /\ size t1 = 2
  | _ => False
  end.
Proof.
  assert (H1 : fresh_in {[3%Z := 7]} (Some 4%Z)) by (intros n [= <-]; reflexivity).
  assert (H2 : fresh_in (from_raw_fd {[3%Z := 7]} 3 1280 (Some 4%Z)).1 (Some 5%Z)) by (intros n [= <-]; reflexivity).
  pose proof (utun_descriptors_conserved {[3%Z := 7]} 3 1280 (Some 4%Z) (Some 5%Z) false H1 H2) as Hc.
  split; [exact Hc|reflexivity].
Defined.

(** A frame arrives at the third attempt, within the budget. *)
Definition sample_polls : list (ires (list Z) * Z) :=
  [(Fail WouldBlock, 10%Z); (Fail WouldBlock, 20%Z); (Ret [0; 0; 0; 2; 69]%Z, 30%Z); (Fail WouldBlock, 60%Z)].

Lemma utun_poll_exact_witness :
  spin_read_buf 1284 50 sample_polls = Some (Some (Ret [0; 0; 0; 2; 69]%Z)) /\
  exists i r t, sample_polls !! i = Some (r, t) /\ (r = Fail WouldBlock -> (50 <= t)%Z).
Proof.
  split; [reflexivity|].
  destruct (utun_poll_exact 1284 50 sample_polls) as (i & r & t & Hi & _ & _ & Ht).
  - lia.
  - repeat constructor; discriminate.
  - exists 3, (Fail WouldBlock), 60%Z. split; [reflexivity|lia].
  - exists i, r, t. exact (conj Hi Ht).
Defined.

(** The descriptor is not writable at once. *)
Lemma utun_frame_roundtrip_witness :
  let w := darwin_write_packet None [69; 1; 2]%Z [Fail WouldBlock; Ret 7] in
  w = Some ([[0; 0; 0; 2; 69; 1; 2]%Z], Ret tt) /\
  split_frame 4 utun_reader [0; 0; 0; 2; 69; 1; 2]%Z = Ret (None, [69; 1; 2]%Z).
Proof.
  split; [reflexivity|].
  destruct (utun_frame_roundtrip (mkUtun 5 "utun" 1280) None [69; 1; 2]%Z [Fail WouldBlock; Ret 7]
    [[0; 0; 0; 2; 69; 1; 2]%Z] (Ret tt)) as [Hr _]; [cbn; lia|reflexivity|].
  destruct (Hr eq_refl) as (frame & [= <-] & _ & Hs). exact Hs.
Defined.
