(* ===== verification/MacNet.v ===== *)
(** * Interface configuration of macOS ([src/net/device.rs], [macos_net])

    The two kernel requests that give a utun its IPv4 address and its subnet
    route: the [ifaliasreq] of the [SIOCAIFADDR] ioctl and the [RTM_ADD] message
    of the routing socket.  The C types are those of the platform: their sizes
    and their bytes in memory are a class, with its laws. *)

From S2P Require Import Prelude Errors Net DeviceRoutes Device.

(** ** The platform *)

Inductive endian : Type := Little | Big.

(** [u32::from_ne_bytes] and [u32::to_ne_bytes] *)
Definition from_ne_bytes (e : endian) (bs : list Z) : Z :=
  match e with Little => be_value (rev bs) | Big => be_value bs end.
Definition to_ne_bytes (e : endian) (n : nat) (v : Z) : list Z :=
  match e with Little => rev (be_bytes n v) | Big => be_bytes n v end.

Record c_sockaddr_in : Type := mkSin { sin_len : Z; sin_family : Z; sin_port : Z; s_addr : Z }.
Record c_sockaddr_dl : Type := mkSdl { sdl_len : Z; sdl_family : Z; sdl_index : Z }.
Record rt_msghdr : Type := mkRtm {
  rtm_msglen : Z; rtm_version : Z; rtm_type : Z; rtm_flags : Z; rtm_addrs : Z; rtm_seq : Z;
}.

(** The sizes, and the bytes of a value whose other fields are zero. *)
Class DarwinAbi : Type := {
  target_endian : endian;
  IFNAMSIZ : nat;
  sizeof_ifaliasreq : Z;
  sizeof_sockaddr_in : nat;
  sizeof_sockaddr_dl : nat;
  sizeof_rt_msghdr : nat;
  bytes_in : c_sockaddr_in -> list Z;
  bytes_dl : c_sockaddr_dl -> list Z;
  bytes_hdr : rt_msghdr -> list Z;
  read_in : list Z -> c_sockaddr_in;
  read_dl : list Z -> c_sockaddr_dl;
  read_hdr : list Z -> rt_msghdr;
}.

(** Field values that fit their C types. *)
Definition sin_ok (s : c_sockaddr_in) : Prop :=
  is_uint 8 (sin_len s) /\ is_uint 8 (sin_family s) /\ is_uint 16 (sin_port s) /\ is_uint 32 (s_addr s).
Definition sdl_ok (s : c_sockaddr_dl) : Prop :=
  is_uint 8 (sdl_len s) /\ is_uint 8 (sdl_family s) /\ is_uint 16 (sdl_index s).
Definition hdr_ok (h : rt_msghdr) : Prop :=
  is_uint 16 (rtm_msglen h) /\ is_uint 8 (rtm_version h) /\ is_uint 8 (rtm_type h) /\
  is_uint 31 (rtm_flags h) /\ is_uint 31 (rtm_addrs h) /\ is_uint 31 (rtm_seq h).

(** The documented layout: a socket address begins with its length, its size is
    a multiple of four, and memory read as the type gives the value back. *)
Class DarwinAbiLaws `{DarwinAbi} : Prop := {
  law_in_len : forall s, length (bytes_in s) = sizeof_sockaddr_in;
  law_dl_len : forall s, length (bytes_dl s) = sizeof_sockaddr_dl;
  law_hdr_len : forall h, length (bytes_hdr h) = sizeof_rt_msghdr;
  law_in_head : forall s, exists r, bytes_in s = sin_len s :: r;
  law_dl_head : forall s, exists r, bytes_dl s = sdl_len s :: r;
  law_read_in : forall s, sin_ok s -> read_in (bytes_in s) = s;
  law_read_dl : forall s, sdl_ok s -> read_dl (bytes_dl s) = s;
  law_read_hdr : forall h, hdr_ok h -> read_hdr (bytes_hdr h) = h;
  law_in_size : exists n, sizeof_sockaddr_in = (4 * n)%nat /\ (0 < n < 64)%nat;
  law_dl_size : exists n, sizeof_sockaddr_dl = (4 * n)%nat /\ (0 < n < 64)%nat;
  law_hdr_size : exists n, sizeof_rt_msghdr = (4 * n)%nat /\ (n < 1024)%nat;
}.

Definition AF_INET : Z := 2.
Definition AF_LINK : Z := 18.
Definition PF_ROUTE : Z := 17.
Definition SOCK_DGRAM : Z := 2.
Definition SOCK_RAW : Z := 3.
Definition RTM_VERSION : Z := 5.
Definition RTM_ADD : Z := 1.
Definition RTF_UP : Z := 1.
Definition RTF_STATIC : Z := 2048.
Definition RTA_DST : Z := 1.
Definition RTA_GATEWAY : Z := 2.
Definition RTA_NETMASK : Z := 4.

(** The system calls. *)
Class MacSys (W Req : Type) : Type := {
  sys_socket : W -> Z -> Z -> W * Z;
  sys_ioctl : W -> Z -> Z -> Req -> W * Z;
  sys_write : W -> Z -> list Z -> W * Z;
  sys_close : W -> Z -> W;
  last_os_error : W -> Z;
}.

(** [io::Error] *)
Inductive io_error : Type := IoInvalidInput (m : string) | OsError (errno : Z).

(** ** The requests *)

Section MacNet.
Context `{DarwinAbi}.

(** [_IOW('i', 26, struct ifaliasreq)] *)
Definition SIOCAIFADDR : Z :=
  Z.lor (Z.lor (Z.lor (0x80000000)%Z (Z.shiftl (Z.land sizeof_ifaliasreq (0x1fff)%Z) 16)) (Z.shiftl 105 8)) 26.

Definition sockaddr_in (addr : Z) : c_sockaddr_in :=
  mkSin (Z.of_nat sizeof_sockaddr_in mod 256) AF_INET 0 (from_ne_bytes target_endian (be_bytes 4 addr)).

(** [transmute]: the same bytes. *)
Definition as_sockaddr (sin : c_sockaddr_in) : list Z := bytes_in sin.

Record ifaliasreq : Type := mkAlias {
  ifra_name : list Z; ifra_addr : list Z; ifra_broadaddr : list Z; ifra_mask : list Z;
}.

Definition name_bytes (name : string) : list Z :=
  map (fun c => Z.of_N (Ascii.N_of_ascii c)) (String.list_ascii_of_string name).

(** [for (dst, src) in req.ifra_name.iter_mut().zip(name.bytes())] *)
Fixpoint zip_into (dst src : list Z) : list Z :=
  match dst, src with
  | _ :: dst, b :: src => b :: zip_into dst src
  | _, _ => dst
  end.

Definition alias_request (name : list Z) (address destination netmask : Z) : ifaliasreq :=
  mkAlias (zip_into (replicate IFNAMSIZ 0%Z) name) (as_sockaddr (sockaddr_in address))
    (as_sockaddr (sockaddr_in destination)) (as_sockaddr (sockaddr_in netmask)).

Record AddRouteMessage : Type := mkMsg {
  m_header : rt_msghdr; m_dst : c_sockaddr_in; m_gateway : c_sockaddr_dl; m_netmask : c_sockaddr_in;
}.

(** [size_of::<AddRouteMessage>()]: the parts need no padding. *)
Definition sizeof_AddRouteMessage : nat := sizeof_rt_msghdr + sizeof_sockaddr_in + sizeof_sockaddr_dl + sizeof_sockaddr_in.

Definition message_bytes (msg : AddRouteMessage) : list Z :=
  bytes_hdr (m_header msg) ++ bytes_in (m_dst msg) ++ bytes_dl (m_gateway msg) ++ bytes_in (m_netmask msg).

Definition add_route_message (if_index network prefix_len : Z) : AddRouteMessage :=
  mkMsg (mkRtm (Z.of_nat sizeof_AddRouteMessage mod 65536) (RTM_VERSION mod 256) (RTM_ADD mod 256)
           (Z.lor RTF_UP RTF_STATIC) (Z.lor (Z.lor RTA_DST RTA_GATEWAY) RTA_NETMASK) 1)
    (sockaddr_in network) (mkSdl (Z.of_nat sizeof_sockaddr_dl mod 256) (AF_LINK mod 256) if_index)
    (sockaddr_in (netmask4 prefix_len)).

Section Calls.
Context {W : Type} `{MacSys W ifaliasreq}.

Definition socket (w : W) (domain ty : Z) : W * (Z + io_error) :=
  let '(w, fd) := sys_socket w domain ty in
  if (fd <? 0)%Z then (w, inr (OsError (last_os_error w))) else (w, inl fd).

(** The socket is closed when the function returns. *)
Definition mac_set_ipv4_address (w : W) (name : string) (address destination netmask : Z) : W * (unit + io_error) :=
  if (IFNAMSIZ <=? length (name_bytes name))%nat
  then (w, inr (IoInvalidInput "interface name {name:?} is too long"%string)) else
  let req := alias_request (name_bytes name) address destination netmask in
  match socket w AF_INET SOCK_DGRAM with
  | (w, inr e) => (w, inr e)
  | (w, inl fd) =>
      let '(w, r) := sys_ioctl w fd SIOCAIFADDR req in
      let result := if (r <? 0)%Z then inr (OsError (last_os_error w)) else inl tt in
      (sys_close w fd, result)
  end.

Definition mac_add_subnet_route (w : W) (if_index : Z) (subnet : Z * Z) : W * (unit + io_error) :=
  match socket w PF_ROUTE SOCK_RAW with
  | (w, inr e) => (w, inr e)
  | (w, inl fd) =>
      let msg := add_route_message if_index subnet.1 subnet.2 in
      let '(w, written) := sys_write w fd (take sizeof_AddRouteMessage (message_bytes msg)) in
      let result := if (written <? 0)%Z then inr (OsError (last_os_error w)) else inl tt in
      (sys_close w fd, result)
  end.

(** What [configure_macos_ipv4] sees of the two. *)
Definition mac_tun_api (base : TunApi W) : TunApi W := {|
  create_as_async := create_as_async (TunApi := base);
  tun_name := tun_name (TunApi := base);
  tun_index := tun_index (TunApi := base);
  set_vnet_hdr_size := set_vnet_hdr_size (TunApi := base);
  set_offload := set_offload (TunApi := base);
  set_ipv4_address w name address destination netmask :=
    let '(w, r) := mac_set_ipv4_address w name address destination netmask in
    (w, match r with inl _ => true | inr _ => false end);
  add_subnet_route w if_index subnet :=
    let '(w, r) := mac_add_subnet_route w if_index subnet in
    (w, match r with inl _ => None | inr (OsError e) => Some e | inr (IoInvalidInput _) => Some 0%Z end);
  close_device := close_device (TunApi := base);
|}.
End Calls.
(** ** What the kernel reads *)

(** A C string in a buffer. *)
Fixpoint c_string (buf : list Z) : list Z :=
  match buf with
  | [] => []
  | b :: buf => if (b =? 0)%Z then [] else b :: c_string buf
  end.

(** The address a [sockaddr_in] in memory stands for: its bytes are in network
    order. *)
Definition in_address (mem : list Z) : Z := be_value (to_ne_bytes target_endian 4 (s_addr (read_in mem))).

(** The socket addresses of a routing message, in the order of their bits; each
    takes up its length, rounded up to four. *)
Definition sa_rounded (len : nat) : nat := if decide (len = 0%nat) then 4%nat else ((len + 3) / 4 * 4)%nat.

Fixpoint walk_sockaddrs (bits : list Z) (addrs : Z) (mem : list Z) : option (list (Z * list Z)) :=
  match bits with
  | [] => Some []
  | b :: bits =>
      if (Z.land addrs b =? 0)%Z then walk_sockaddrs bits addrs mem else
      match mem with
      | [] => None
      | len :: _ =>
          let n := Z.to_nat len in
          if (length mem <? n)%nat then None else
          rest ← walk_sockaddrs bits addrs (drop (sa_rounded n) mem);
          Some ((b, take n mem) :: rest)
      end
  end.

Definition RTA_BITS : list Z := [1; 2; 4; 8; 16; 32; 64; 128]%Z.

Definition rt_parse (mem : list Z) : option (rt_msghdr * list (Z * list Z)) :=
  let h := read_hdr (take sizeof_rt_msghdr mem) in
  if (rtm_msglen h =? Z.of_nat (length mem))%Z then
    l ← walk_sockaddrs RTA_BITS (rtm_addrs h) (drop sizeof_rt_msghdr mem); Some (h, l)
  else None.

Context `{!DarwinAbiLaws}.

Lemma ne_roundtrip e bs : bytes_ok bs -> to_ne_bytes e (length bs) (from_ne_bytes e bs) = bs.
Proof.
  intros Hb. destruct e; cbn [to_ne_bytes from_ne_bytes]; [|by apply be_bytes_be_value].
  rewrite <-(length_rev bs), be_bytes_be_value by (by apply Forall_rev). apply rev_involutive.
Qed.

Lemma ne_bound e bs : bytes_ok bs -> length bs = 4%nat -> is_uint 32 (from_ne_bytes e bs).
Proof.
  intros Hb Hl. assert (Hr : bytes_ok (rev bs)) by (by apply Forall_rev).
  pose proof (be_value_bound bs Hb) as H1. pose proof (be_value_bound (rev bs) Hr) as H2. rewrite length_rev in H2.
  rewrite Hl in *. unfold is_uint. change (256 ^ Z.of_nat 4)%Z with (2 ^ 32)%Z in *. by destruct e.
Qed.

Lemma sin_len_exact a : sin_len (sockaddr_in a) = Z.of_nat sizeof_sockaddr_in.
Proof. cbn [sin_len sockaddr_in]. destruct law_in_size as (n & -> & ?). apply Z.mod_small. lia. Qed.

Lemma sockaddr_in_ok a : sin_ok (sockaddr_in a).
Proof.
  unfold sin_ok. cbn [sockaddr_in sin_len sin_family sin_port s_addr]. split_and!; try (unfold is_uint, AF_INET; lia).
  - unfold is_uint. change (2 ^ 8)%Z with 256%Z. apply Z.mod_pos_bound. lia.
  - apply ne_bound; [apply be_bytes_ok|apply be_bytes_length].
Qed.

(** The kernel finds the address that was put in. *)
Lemma in_address_exact a : is_uint 32 a -> in_address (bytes_in (sockaddr_in a)) = a.
Proof.
  intros Ha. unfold in_address. rewrite law_read_in by apply sockaddr_in_ok. cbn [sockaddr_in s_addr].
  pose proof (ne_roundtrip target_endian (be_bytes 4 a) (be_bytes_ok 4 a)) as Hr. rewrite be_bytes_length in Hr.
  rewrite Hr, be_value_be_bytes. apply Z.mod_small. unfold is_uint in Ha. change (256 ^ Z.of_nat 4)%Z with (2 ^ 32)%Z. done.
Qed.

Lemma c_string_zip name n :
  Forall (fun b => b <> 0%Z) name -> (length name < n)%nat ->
  c_string (zip_into (replicate n 0%Z) name) = name /\ length (zip_into (replicate n 0%Z) name) = n.
Proof.
  revert n. induction name as [|b name IH]; intros n Hf Hl.
  - destruct n as [|n]; [cbn [length] in Hl; lia|]. split; [done|]. apply (length_replicate (S n)).
  - destruct n as [|n]; [cbn [length] in Hl; lia|]. inversion Hf as [|? ? Hb Hf']; subst.
    destruct (IH n Hf') as [Hc Hn]; [cbn [length] in Hl; lia|]. cbn [replicate zip_into c_string length].
    destruct (Z.eqb_spec b 0); [done|]. by rewrite Hc, Hn.
Qed.

Lemma sa_rounded_mult n : (0 < n)%nat -> sa_rounded (4 * n) = (4 * n)%nat.
Proof.
  intros Hn. unfold sa_rounded. case_decide; [lia|]. replace (4 * n + 3)%nat with (3 + n * 4)%nat by lia.
  rewrite Nat.div_add by lia. cbn. lia.
Qed.

(** One socket address of the walk. *)
Lemma walk_one b bits addrs chunk rest n :
  Z.land addrs b <> 0%Z -> (exists r, chunk = Z.of_nat (4 * n) :: r) -> length chunk = (4 * n)%nat -> (0 < n)%nat ->
  walk_sockaddrs (b :: bits) addrs (chunk ++ rest) =
    (l ← walk_sockaddrs bits addrs rest; Some ((b, chunk) :: l)).
Proof.
  intros Hb (r & Hc) Hl Hn. cbn [walk_sockaddrs]. destruct (Z.eqb_spec (Z.land addrs b) 0); [done|].
  destruct (chunk ++ rest) as [|x y] eqn:Hx; [by rewrite Hc in Hx|].
  assert (x = Z.of_nat (4 * n)) as -> by (rewrite Hc in Hx; cbn [app] in Hx; by simplify_eq).
  rewrite <-Hx, Nat2Z.id, length_app, Hl. destruct (Nat.ltb_spec (4 * n + length rest) (4 * n)); [lia|].
  rewrite sa_rounded_mult by done. rewrite <-Hl, drop_app_length, take_app_length. done.
Qed.

Lemma netmask4_bound p : (0 <= p <= 32)%Z -> is_uint 32 (netmask4 p).
Proof.
  intros Hp. unfold is_uint, netmask4. assert (0 < 2 ^ (32 - p) <= 2 ^ 32)%Z; [|lia].
  split; [apply Z.pow_pos_nonneg; lia|apply Z.pow_le_mono_r; lia].
Qed.

Lemma route_message_length i n p : length (message_bytes (add_route_message i n p)) = sizeof_AddRouteMessage.
Proof. unfold message_bytes, sizeof_AddRouteMessage. rewrite !length_app, law_hdr_len, !law_in_len, law_dl_len. lia. Qed.

Lemma route_message_parses if_index network prefix_len :
  is_uint 16 if_index -> is_uint 32 network -> (0 <= prefix_len <= 32)%Z ->
  let msg := add_route_message if_index network prefix_len in
  length (message_bytes msg) = sizeof_AddRouteMessage /\
  exists h dst gw mask, rt_parse (message_bytes msg) =
      Some (h, [(RTA_DST, dst); (RTA_GATEWAY, gw); (RTA_NETMASK, mask)]) /\
    in_address dst = network /\ sdl_index (read_dl gw) = if_index /\ in_address mask = netmask4 prefix_len /\
    rtm_type h = RTM_ADD /\ Z.land (rtm_flags h) RTF_UP <> 0%Z /\ Z.land (rtm_flags h) (Z.lor 2 4) = 0%Z.
Proof.
  intros Hi Hn Hp msg. split; [apply route_message_length|].
  pose proof (route_message_length if_index network prefix_len) as Hlen. fold msg in Hlen.
  exists (m_header msg), (bytes_in (m_dst msg)), (bytes_dl (m_gateway msg)), (bytes_in (m_netmask msg)).
  destruct law_in_size as (n & Hin & Hn0), law_dl_size as (d & Hdl & Hd0), law_hdr_size as (h & Hh & Hh0).
  assert (Hmod : (Z.of_nat sizeof_AddRouteMessage mod 65536 = Z.of_nat sizeof_AddRouteMessage)%Z).
  { apply Z.mod_small. unfold sizeof_AddRouteMessage. lia. }
  assert (Hhdr : hdr_ok (m_header msg)).
  { unfold hdr_ok, is_uint. cbn [msg add_route_message m_header rtm_msglen rtm_version rtm_type rtm_flags rtm_addrs rtm_seq].
    rewrite Hmod. unfold sizeof_AddRouteMessage. split; [lia|]. by vm_compute. }
  assert (Hdlm : (Z.of_nat sizeof_sockaddr_dl mod 256 = Z.of_nat sizeof_sockaddr_dl)%Z) by (apply Z.mod_small; lia).
  assert (Hsdl : sdl_ok (m_gateway msg)).
  { unfold sdl_ok. cbn [msg add_route_message m_gateway sdl_len sdl_family sdl_index]. rewrite Hdlm.
    split_and!; [unfold is_uint; lia|unfold is_uint, AF_LINK; vm_compute; done|done]. }
  split_and!.
  - unfold rt_parse. rewrite Hlen. unfold message_bytes. rewrite <-(law_hdr_len (m_header msg)), take_app_length, drop_app_length.
    rewrite law_read_hdr by done.
    change (rtm_msglen (m_header msg)) with (Z.of_nat sizeof_AddRouteMessage mod 65536)%Z. rewrite Hmod, Z.eqb_refl.
    change (rtm_addrs (m_header msg)) with 7%Z. unfold RTA_BITS.
    rewrite (walk_one 1 _ 7 _ _ n); [|done|..|lia]; [..|by rewrite law_in_len].
    2:{ destruct (law_in_head (m_dst msg)) as [r Hr]. exists r. rewrite Hr. cbn [msg add_route_message m_dst].
        by rewrite sin_len_exact, Hin. }
    rewrite (walk_one 2 _ 7 _ _ d); [|done|..|lia]; [..|by rewrite law_dl_len].
    2:{ destruct (law_dl_head (m_gateway msg)) as [r Hr]. exists r. rewrite Hr. cbn [msg add_route_message m_gateway sdl_len].
        by rewrite Hdlm, Hdl. }
    rewrite <-(app_nil_r (bytes_in (m_netmask msg))) at 1.
    rewrite (walk_one 4 _ 7 _ _ n); [|done|..|lia]; [..|by rewrite law_in_len].
    2:{ destruct (law_in_head (m_netmask msg)) as [r Hr]. exists r. rewrite Hr. cbn [msg add_route_message m_netmask].
        by rewrite sin_len_exact, Hin. }
    done.
  - by apply in_address_exact.
  - by rewrite law_read_dl.
  - apply in_address_exact. by apply netmask4_bound.
  - done.
  - done.
  - done.
Qed.

(** C28. The requests by which a utun gets its address and its subnet route are
    read by the kernel as they are meant, on a machine of either endianness: the
    interface name arrives NUL-terminated, the three addresses of the alias
    request are the given ones, and the routing message passes the kernel's
    length check and splits, by its address bits, into exactly the destination,
    the interface's link-level address and the netmask; it is an up, static,
    on-link network route.  Every socket opened is closed, whatever the calls
    return, and a name that does not fit is refused before any call. *)
Theorem macos_requests_exact {W} `{MacSys W ifaliasreq} (open_fds : W -> gset Z) :
  (forall w d t w' fd, sys_socket w d t = (w', fd) ->
     (open_fds w' = if (fd <? 0)%Z then open_fds w else {[fd]} ∪ open_fds w) /\ ((0 <= fd)%Z -> fd ∉ open_fds w)) ->
  (forall w fd r q, open_fds (sys_ioctl w fd r q).1 = open_fds w) ->
  (forall w fd b, open_fds (sys_write w fd b).1 = open_fds w) ->
  (forall w fd, open_fds (sys_close w fd) = open_fds w ∖ {[fd]}) ->
  forall w name address destination netmask if_index network prefix_len,
  is_uint 32 address -> is_uint 32 destination -> is_uint 32 netmask -> is_uint 16 if_index -> is_uint 32 network ->
  (0 <= prefix_len <= 32)%Z -> Forall (fun b => b <> 0%Z) (name_bytes name) ->
  ((length (name_bytes name) < IFNAMSIZ)%nat ->
   let req := alias_request (name_bytes name) address destination netmask in
   c_string (ifra_name req) = name_bytes name /\ length (ifra_name req) = IFNAMSIZ /\
   in_address (ifra_addr req) = address /\ in_address (ifra_broadaddr req) = destination /\
   in_address (ifra_mask req) = netmask) /\
  ((IFNAMSIZ <= length (name_bytes name))%nat ->
   exists m, mac_set_ipv4_address w name address destination netmask = (w, inr (IoInvalidInput m))) /\
  (let msg := add_route_message if_index network prefix_len in
   length (message_bytes msg) = sizeof_AddRouteMessage /\
   exists h dst gw mask, rt_parse (message_bytes msg) =
       Some (h, [(RTA_DST, dst); (RTA_GATEWAY, gw); (RTA_NETMASK, mask)]) /\
     in_address dst = network /\ sdl_index (read_dl gw) = if_index /\ in_address mask = netmask4 prefix_len /\
     rtm_type h = RTM_ADD /\ Z.land (rtm_flags h) RTF_UP <> 0%Z /\
     Z.land (rtm_flags h) (Z.lor 2 4) = 0%Z) /\
  open_fds (mac_set_ipv4_address w name address destination netmask).1 = open_fds w /\
  open_fds (mac_add_subnet_route w if_index (network, prefix_len)).1 = open_fds w.
Proof.
  intros Hsock Hioctl Hwrite Hclose w name address destination netmask if_index network prefix_len Ha Hd Hm Hi Hn Hp Hz.
  assert (Hback : forall d t (f : W -> Z -> W * (unit + io_error)),
    (forall w1 fd, open_fds (f w1 fd).1 = open_fds w1 ∖ {[fd]}) ->
    open_fds (match socket w d t with (w1, inr e) => (w1, inr e) | (w1, inl fd) => f w1 fd end).1 = open_fds w).
  { intros d t f Hf. unfold socket. destruct (sys_socket w d t) as [w1 fd] eqn:Hs. destruct (Hsock _ _ _ _ _ Hs) as [Ho Hnew].
    destruct (Z.ltb_spec fd 0); [done|]. rewrite Hf, Ho. specialize (Hnew ltac:(lia)). set_solver. }
  split_and!.
  - intros Hl req. unfold req, alias_request. cbn [ifra_name ifra_addr ifra_broadaddr ifra_mask as_sockaddr].
    unfold as_sockaddr. rewrite !in_address_exact by done. by destruct (c_string_zip (name_bytes name) IFNAMSIZ Hz Hl).
  - intros Hl. unfold mac_set_ipv4_address. destruct (Nat.leb_spec IFNAMSIZ (length (name_bytes name))); [by eexists|lia].
  - intros msg. apply route_message_parses; done.
  - unfold mac_set_ipv4_address. destruct (IFNAMSIZ <=? length (name_bytes name))%nat; [done|]. apply Hback.
    intros w1 fd. pose proof (Hioctl w1 fd SIOCAIFADDR (alias_request (name_bytes name) address destination netmask)) as Hsame.
    destruct (sys_ioctl _ _ _ _) as [w2 r]. cbn [fst] in *. by rewrite Hclose, Hsame.
  - unfold mac_add_subnet_route. apply Hback. intros w1 fd. cbn [fst snd].
    pose proof (Hwrite w1 fd (take sizeof_AddRouteMessage (message_bytes (add_route_message if_index network prefix_len)))) as Hsame.
    destruct (sys_write _ _ _) as [w2 r]. cbn [fst] in *. by rewrite Hclose, Hsame.
Qed.

End MacNet.

(** ** Evaluation *)

(** The layout of a 64-bit macOS. *)
Definition le_word (n : nat) (v : Z) : list Z := rev (be_bytes n v).
Definition le_read (mem : list Z) (at_ n : nat) : Z := be_value (rev (take n (drop at_ mem))).

#[local] Instance darwin64 : DarwinAbi := {|
  target_endian := Little;
  IFNAMSIZ := 16;
  sizeof_ifaliasreq := 64;
  sizeof_sockaddr_in := 16;
  sizeof_sockaddr_dl := 20;
  sizeof_rt_msghdr := 92;
  bytes_in s := sin_len s :: le_word 1 (sin_family s) ++ le_word 2 (sin_port s) ++ le_word 4 (s_addr s) ++ replicate 8 0%Z;
  bytes_dl s := sdl_len s :: le_word 1 (sdl_family s) ++ le_word 2 (sdl_index s) ++ replicate 16 0%Z;
  bytes_hdr h := le_word 2 (rtm_msglen h) ++ le_word 1 (rtm_version h) ++ le_word 1 (rtm_type h) ++ replicate 4 0%Z ++
    le_word 4 (rtm_flags h) ++ le_word 4 (rtm_addrs h) ++ replicate 4 0%Z ++ le_word 4 (rtm_seq h) ++ replicate 68 0%Z;
  read_in m := mkSin (le_read m 0 1) (le_read m 1 1) (le_read m 2 2) (le_read m 4 4);
  read_dl m := mkSdl (le_read m 0 1) (le_read m 1 1) (le_read m 2 2);
  read_hdr m := mkRtm (le_read m 0 2) (le_read m 2 1) (le_read m 3 1) (le_read m 8 4) (le_read m 12 4) (le_read m 20 4);
|}.

(** The header file's value. *)
Example siocaifaddr_matches_sockio_h : SIOCAIFADDR = 0x8040691a%Z.
Proof. reflexivity. Qed.

Lemma le_word_length n v : length (le_word n v) = n.
Proof. unfold le_word. by rewrite length_rev, be_bytes_length. Qed.

Lemma le_read_at pre n v post at_ : length pre = at_ -> (0 <= v < 256 ^ Z.of_nat n)%Z ->
  le_read (pre ++ le_word n v ++ post) at_ n = v.
Proof.
  intros <- Hv. unfold le_read. rewrite drop_app_length. rewrite <-(le_word_length n v) at 1. rewrite take_app_length.
  unfold le_word. rewrite rev_involutive, be_value_be_bytes. by apply Z.mod_small.
Qed.

(** A field after the bytes [pre]. *)
Lemma le_field mem pre n v post at_ :
  mem = pre ++ le_word n v ++ post -> length pre = at_ -> (0 <= v < 256 ^ Z.of_nat n)%Z -> le_read mem at_ n = v.
Proof. intros ->. apply le_read_at. Qed.

Lemma le_first v r : le_read (v :: r) 0 1 = v.
Proof. change (be_value [v] = v). cbn [be_value length]. change (256 ^ Z.of_nat 0)%Z with 1%Z. lia. Qed.

Ltac sized := cbn [length]; rewrite ?length_app, ?le_word_length, ?length_replicate; cbn [length];
  rewrite ?length_app, ?le_word_length, ?length_replicate; lia.

#[local] Instance darwin64_laws : DarwinAbiLaws.
Proof.
  split.
  - intros s. transitivity 16%nat; [|done]. unfold bytes_in, darwin64. sized.
  - intros s. transitivity 20%nat; [|done]. unfold bytes_dl, darwin64. sized.
  - intros h. transitivity 92%nat; [|done]. unfold bytes_hdr, darwin64. sized.
  - intros s. cbn [bytes_in darwin64]. by eexists.
  - intros s. cbn [bytes_dl darwin64]. by eexists.
  - intros [l f p a] (Hl & Hf & Hp & Ha). cbn [sin_len sin_family sin_port s_addr] in *. cbn [read_in darwin64]. f_equal.
    + apply le_first.
    + by apply (le_field _ [l] 1 f (le_word 2 p ++ le_word 4 a ++ replicate 8 0%Z)).
    + apply (le_field _ (l :: le_word 1 f) 2 p (le_word 4 a ++ replicate 8 0%Z)); [done|sized|done].
    + apply (le_field _ (l :: le_word 1 f ++ le_word 2 p) 4 a (replicate 8 0%Z)); [|sized|done].
      cbn [bytes_in darwin64 sin_len sin_family sin_port s_addr app]. by rewrite <-!app_assoc.
  - intros [l f i] (Hl & Hf & Hi). cbn [sdl_len sdl_family sdl_index] in *. cbn [read_dl darwin64]. f_equal.
    + apply le_first.
    + by apply (le_field _ [l] 1 f (le_word 2 i ++ replicate 16 0%Z)).
    + apply (le_field _ (l :: le_word 1 f) 2 i (replicate 16 0%Z)); [done|sized|done].
  - intros [l v t fl ad sq] (Hl & Hv & Ht & Hfl & Had & Hsq). cbn [rtm_msglen rtm_version rtm_type rtm_flags rtm_addrs rtm_seq] in *.
    cbn [read_hdr darwin64]. unfold is_uint in *.
    set (r4 := replicate 4 0%Z). set (r68 := replicate 68 0%Z).
    f_equal.
    + by apply (le_field _ [] 2 l (le_word 1 v ++ le_word 1 t ++ r4 ++ le_word 4 fl ++ le_word 4 ad ++ r4 ++ le_word 4 sq ++ r68)).
    + apply (le_field _ (le_word 2 l) 1 v (le_word 1 t ++ r4 ++ le_word 4 fl ++ le_word 4 ad ++ r4 ++ le_word 4 sq ++ r68)); [done|sized|done].
    + apply (le_field _ (le_word 2 l ++ le_word 1 v) 1 t (r4 ++ le_word 4 fl ++ le_word 4 ad ++ r4 ++ le_word 4 sq ++ r68)); [|sized|done].
      by rewrite <-!app_assoc.
    + apply (le_field _ (le_word 2 l ++ le_word 1 v ++ le_word 1 t ++ r4) 4 fl (le_word 4 ad ++ r4 ++ le_word 4 sq ++ r68)); [|unfold r4; sized|lia].
      by rewrite <-!app_assoc.
    + apply (le_field _ (le_word 2 l ++ le_word 1 v ++ le_word 1 t ++ r4 ++ le_word 4 fl) 4 ad (r4 ++ le_word 4 sq ++ r68)); [|unfold r4; sized|lia].
      by rewrite <-!app_assoc.
    + apply (le_field _ (le_word 2 l ++ le_word 1 v ++ le_word 1 t ++ r4 ++ le_word 4 fl ++ le_word 4 ad ++ r4) 4 sq r68); [|unfold r4; sized|lia].
      by rewrite <-!app_assoc.
  - exists 4%nat. cbn. lia.
  - exists 5%nat. cbn. lia.
  - exists 23%nat. cbn. lia.
Qed.

(** Any free descriptor; the request and the message are accepted. *)
#[local] Instance sample_mac : MacSys (gset Z) ifaliasreq := {|
  sys_socket w _ _ := if (fresh w <? 0)%Z then (w, (-1)%Z) else ({[fresh w]} ∪ w, fresh w);
  sys_ioctl w _ _ _ := (w, 0%Z);
  sys_write w _ b := (w, Z.of_nat (length b));
  sys_close w fd := w ∖ {[fd]};
  last_os_error _ := 24%Z;
|}.

(** [utun4] gets [10.0.0.1] and the route [10.0.0.0/24]. *)
Lemma macos_requests_exact_witness :
  c_string (ifra_name (alias_request (name_bytes "utun4") 167772161 167772161 4294967040)) = name_bytes "utun4" /\
  (exists h dst gw mask, rt_parse (message_bytes (add_route_message 7 167772160 24)) =
     Some (h, [(RTA_DST, dst); (RTA_GATEWAY, gw); (RTA_NETMASK, mask)]) /\
     in_address dst = 167772160%Z /\ sdl_index (read_dl gw) = 7%Z /\ in_address mask = 4294967040%Z) /\
  (mac_add_subnet_route (W:=gset Z) ∅ 7 (167772160, 24)%Z).1 = ∅.
Proof.
  destruct (macos_requests_exact (W:=gset Z) (fun w => w)) with (w := (∅ : gset Z)) (name := "utun4"%string)
    (address := 167772161%Z) (destination := 167772161%Z) (netmask := 4294967040%Z) (if_index := 7%Z)
    (network := 167772160%Z) (prefix_len := 24%Z) as (Ha & _ & (_ & h & dst & gw & mask & Hm & Hd & Hg & Hk & _) & _ & Hf).
  - intros w d t w' fd Hs. cbn in Hs. destruct (Z.ltb_spec (fresh w) 0) as [Hn|Hn].
    + injection Hs as <- <-. split; [reflexivity|]. intros Hc. lia.
    + injection Hs as <- <-. destruct (Z.ltb_spec (fresh w) 0); [lia|]. split; [reflexivity|]. intros _. apply is_fresh.
  - reflexivity.
  - reflexivity.
  - reflexivity.
  - by vm_compute.
  - by vm_compute.
  - by vm_compute.
  - by vm_compute.
  - by vm_compute.
  - lia.
  - repeat constructor; discriminate.
  - split; [apply Ha; cbn; lia|]. split; [exists h, dst, gw, mask; split; [exact Hm|]; split; [exact Hd|]; split; [exact Hg|exact Hk]|].
    exact Hf.
Defined.
