(* ===== verification/Buffer.v ===== *)
(** * The read buffer ([src/net/buffer.rs], [read_utun_frame_into])

    The TUN readers read into memory that is never cleared: a buffer that starts
    uninitialized and keeps what earlier, longer frames left behind.  A byte of
    memory is [None] until it is written; using such a byte is undefined, and
    makes the definitions below fail. *)

From S2P Require Import Prelude Errors DeviceRoutes Offload Device Outbound Utun.

(** [Vec<MaybeUninit<u8>>] *)
Definition uninitialized_vec (capacity : nat) : list (option Z) := replicate capacity None.

(** [tokio::io::ReadBuf] over a piece of memory. *)
Class ReadBuf (B : Type) : Type := {
  rb_uninit : list (option Z) -> B;
  rb_memory : B -> list (option Z);
  rb_filled : B -> nat;
  rb_initialized : B -> nat;
  rb_clear : B -> B;
  rb_store : B -> list Z -> B;                    (* through [unfilled_mut] *)
  rb_assume_init : B -> nat -> B;
  rb_advance : B -> nat -> outcome unit B;
}.

(** Its documented behaviour. *)
Class ReadBufLaws (B : Type) `{ReadBuf B} : Prop := {
  law_uninit : forall m, rb_memory (rb_uninit m) = m /\ rb_filled (rb_uninit m) = 0%nat /\ rb_initialized (rb_uninit m) = 0%nat;
  law_clear : forall b, rb_memory (rb_clear b) = rb_memory b /\ rb_filled (rb_clear b) = 0%nat /\
    rb_initialized (rb_clear b) = rb_initialized b;
  law_store : forall b bytes, (rb_filled b + length bytes <= length (rb_memory b))%nat ->
    rb_memory (rb_store b bytes) =
      take (rb_filled b) (rb_memory b) ++ map Some bytes ++ drop (rb_filled b + length bytes) (rb_memory b) /\
    rb_filled (rb_store b bytes) = rb_filled b /\ rb_initialized (rb_store b bytes) = rb_initialized b;
  law_assume : forall b n, rb_memory (rb_assume_init b n) = rb_memory b /\ rb_filled (rb_assume_init b n) = rb_filled b /\
    rb_initialized (rb_assume_init b n) = Nat.max (rb_initialized b) (rb_filled b + n);
  law_advance : forall b n,
    if (rb_filled b + n <=? rb_initialized b)%nat
    then exists b', rb_advance b n = Ret b' /\ rb_memory b' = rb_memory b /\ rb_filled b' = (rb_filled b + n)%nat /\
           rb_initialized b' = rb_initialized b
    else rb_advance b n = Panic;
}.

Section Buffer.
Context {B : Type} `{ReadBuf B}.

Definition rb_remaining (b : B) : nat := length (rb_memory b) - rb_filled b.

(** [libc::read] finds [read]: it stores at most as many bytes as there is room
    for, and the rest of a frame is gone. *)
Definition read_frame_into (b : B) (read : io_kind + list Z) : outcome io_kind B :=
  if (rb_remaining b =? 0)%nat then Fail InvalidInput else
  match read with
  | inl e => Fail e
  | inr frame =>
      let bytes := take (rb_remaining b) frame in
      let b := rb_store b bytes in
      let b := rb_assume_init b (length bytes) in
      match rb_advance b (length bytes) with Ret b => Ret b | _ => Panic end
  end.

(** [buf.filled()]: undefined if a byte of it was never written. *)
Definition filled (b : B) : option (list Z) := mapM id (take (rb_filled b) (rb_memory b)).

(** The loop of a reader over one buffer: the frames it hands on. *)
Fixpoint read_rounds (b : B) (reads : list (io_kind + list Z)) : option (list (list Z)) :=
  match reads with
  | [] => Some []
  | read :: reads =>
      let b := rb_clear b in
      match read_frame_into b read with
      | Ret b =>
          frame ← filled b;
          rest ← read_rounds b reads;
          Some (match frame with [] => rest | _ => frame :: rest end)
      | Fail WouldBlock => read_rounds b reads
      | Fail _ => Some []
      | Panic => None
      end
  end.

(** What they should be: the frames as [Utun] reads them. *)
Fixpoint frames_read (capacity : nat) (reads : list (io_kind + list Z)) : list (list Z) :=
  match reads with
  | [] => []
  | read :: reads =>
      match read_utun_frame_into capacity (match read with inl e => Fail e | inr f => Ret f end) with
      | Ret [] => frames_read capacity reads
      | Ret frame => frame :: frames_read capacity reads
      | Fail WouldBlock => frames_read capacity reads
      | _ => []
      end
  end.

Context `{!ReadBufLaws B}.

(** What is called initialized has been written. *)
Definition written (capacity : nat) (b : B) : Prop :=
  length (rb_memory b) = capacity /\ (rb_filled b <= rb_initialized b)%nat /\ (rb_initialized b <= capacity)%nat /\
  Forall is_Some (take (rb_initialized b) (rb_memory b)).

Lemma written_uninit capacity : written capacity (rb_uninit (uninitialized_vec capacity)).
Proof.
  unfold written, uninitialized_vec. destruct (law_uninit (replicate capacity None)) as (-> & -> & ->).
  rewrite length_replicate. split_and!; [done|lia|lia|constructor].
Qed.

Lemma written_clear capacity b : written capacity b -> written capacity (rb_clear b).
Proof. intros (? & ? & ? & ?). unfold written. destruct (law_clear b) as (-> & -> & ->). split_and!; auto; lia. Qed.

Lemma mapM_map_Some {A} (l : list A) : mapM id (map Some l) = Some l.
Proof. induction l as [|a l IH]; [done|]. cbn. by rewrite IH. Qed.

(** A read into a cleared buffer: the frame, and nothing of what was there. *)
Lemma read_frame_spec capacity b frame :
  written capacity b -> rb_filled b = 0%nat -> (0 < capacity)%nat ->
  exists b', read_frame_into b (inr frame) = Ret b' /\ written capacity b' /\ filled b' = Some (take capacity frame).
Proof.
  intros (Hl & Hf & Hi & Hw) H0 Hc. unfold read_frame_into, rb_remaining. rewrite H0, Hl, Nat.sub_0_r.
  destruct (Nat.eqb_spec capacity 0); [lia|]. set (bytes := take capacity frame).
  assert (Hb : (length bytes <= capacity)%nat) by (unfold bytes; rewrite length_take; lia).
  destruct (law_store b bytes) as (Hm1 & Hf1 & Hi1); [lia|].
  destruct (law_assume (rb_store b bytes) (length bytes)) as (Hm2 & Hf2 & Hi2).
  pose proof (law_advance (rb_assume_init (rb_store b bytes) (length bytes)) (length bytes)) as Ha.
  rewrite Hf2, Hf1, Hi2, Hi1, Hf1, H0 in Ha. cbn [Nat.add] in Ha.
  destruct (Nat.leb_spec (length bytes) (Nat.max (rb_initialized b) (length bytes))) as [_|]; [|lia].
  destruct Ha as (b' & -> & Hm & Hf' & Hi'). exists b'. split; [done|].
  assert (Hmem : rb_memory b' = map Some bytes ++ drop (length bytes) (rb_memory b)).
  { rewrite Hm, Hm2, Hm1, H0. done. }
  split.
  - unfold written. rewrite Hf', Hi', Hmem. split_and!; [|lia|lia|].
    + rewrite length_app, length_map, length_drop. lia.
    + rewrite take_app. apply Forall_app. split.
      * apply Forall_take, Forall_forall. intros x Hx. apply list_elem_of_In, in_map_iff in Hx as (y & <- & _). by eexists.
      * rewrite length_map. destruct (Nat.le_ge_cases (rb_initialized b) (length bytes)).
        { replace (Nat.max (rb_initialized b) (length bytes) - length bytes)%nat with 0%nat by lia. constructor. }
        rewrite take_drop_commute. replace (length bytes + (Nat.max (rb_initialized b) (length bytes) - length bytes))%nat
          with (rb_initialized b) by lia. by apply Forall_drop.
  - unfold filled. rewrite Hf', Hmem, <-(length_map Some bytes), take_app_length. apply mapM_map_Some.
Qed.

(** C27. The readers never use memory that was not written: whatever the device
    answers to a sequence of reads into one buffer of uninitialized memory,
    every byte handed on was written by the read it belongs to, the frames
    are exactly those the device gave (cut to the buffer), no shorter frame is
    followed by what a longer one left behind, and advancing past the
    initialized part never panics. *)
Theorem reader_buffer_safe capacity reads :
  read_rounds (rb_uninit (uninitialized_vec capacity)) reads = Some (frames_read capacity reads).
Proof.
  assert (Hgen : forall b, written capacity b -> read_rounds b reads = Some (frames_read capacity reads)).
  2:{ apply Hgen, written_uninit. }
  induction reads as [|read reads IH]; intros b Hw; [done|]. cbn [read_rounds frames_read].
  pose proof (written_clear capacity b Hw) as Hc. destruct (law_clear b) as (Hm & Hf & _).
  unfold read_utun_frame_into. destruct (Nat.eqb_spec capacity 0) as [->|Hne].
  - unfold read_frame_into, rb_remaining. destruct Hc as (-> & _). by rewrite Hf.
  - destruct read as [e|frame].
    + unfold read_frame_into, rb_remaining. pose proof Hc as (-> & _). rewrite Hf, Nat.sub_0_r.
      destruct (Nat.eqb_spec capacity 0); [done|]. cbn [mbind outcome_bind]. destruct e; try done. by apply IH.
    + destruct (read_frame_spec capacity (rb_clear b) frame Hc Hf ltac:(lia)) as (b' & -> & Hw' & Hfill).
      cbn [mbind outcome_bind]. rewrite Hfill. cbn [mbind option_bind]. rewrite (IH b' Hw'). cbn [mbind option_bind].
      by destruct (take capacity frame).
Qed.
End Buffer.

(** ** Evaluation *)

(** A [ReadBuf] that does what is documented. *)
Record sample_buf : Type := mkBuf { sb_memory : list (option Z); sb_filled : nat; sb_init : nat }.

#[local] Instance sample_read_buf : ReadBuf sample_buf := {|
  rb_uninit m := mkBuf m 0 0;
  rb_memory := sb_memory;
  rb_filled := sb_filled;
  rb_initialized := sb_init;
  rb_clear b := mkBuf (sb_memory b) 0 (sb_init b);
  rb_store b bytes := mkBuf (take (sb_filled b) (sb_memory b) ++ map Some bytes ++
    drop (sb_filled b + length bytes) (sb_memory b)) (sb_filled b) (sb_init b);
  rb_assume_init b n := mkBuf (sb_memory b) (sb_filled b) (Nat.max (sb_init b) (sb_filled b + n));
  rb_advance b n := if (sb_filled b + n <=? sb_init b)%nat then Ret (mkBuf (sb_memory b) (sb_filled b + n) (sb_init b)) else Panic;
|}.

#[local] Instance sample_read_buf_laws : ReadBufLaws sample_buf.
Proof.
  split; cbn; try done. intros b n. destruct (sb_filled b + n <=? sb_init b)%nat; [|done]. by eexists.
Qed.

(** A short frame after a long one, with nothing to read in between. *)
Lemma reader_buffer_safe_witness :
  read_rounds (B:=sample_buf) (rb_uninit (uninitialized_vec 4)) [inr [1; 2; 3; 4; 5]; inl WouldBlock; inr [9]; inr []; inl OtherError; inr [7]]%Z
    = Some [[1; 2; 3; 4]; [9]]%Z.
Proof. exact (reader_buffer_safe 4 [inr [1; 2; 3; 4; 5]; inl WouldBlock; inr [9]; inr []; inl OtherError; inr [7]]%Z). Defined.
