(* ===== verification/Isolation.v ===== *)
(** * Client isolation across the server

    The session machine of [Sessions] and the forwarding decisions of
    [Forward] and [Outbound] put together: the tables the data path consults
    are those of the connection tasks. *)

From S2P Require Import Prelude Errors Net Config IpPool Ip6Pool Sessions.
From S2P Require Import Checksum Offload Segment Stream Packet Forward Outbound.

Section Isolation.
Context {EndpointId : Type} `{Countable EndpointId}.
Context {Net4 : Type} `{NetLaws V4_BITS Net4}.
Context {Net6 : Type} `{NetLaws V6_BITS Net6}.
Context (sha256 : list Z -> list Z) (endpoint_bytes : EndpointId -> list Z).
#[local] Instance iso_pool6 : AddrPool (EndpointId * Z) (Ip6Pool EndpointId Net6) :=
  ip6_pool_ops sha256 endpoint_bytes.
#[local] Instance iso_pool6_laws : AddrPoolLaws (EndpointId * Z) (Ip6Pool EndpointId Net6) :=
  ip6_pool_laws sha256 endpoint_bytes.
Context (p4 : option (IpPool EndpointId Net4)) (p6 : option (Ip6Pool EndpointId Net6)).
Context (max_clients : Z).

Abbreviation ServerSys := (sys (EndpointId * Z) (IpPool EndpointId Net4) (Ip6Pool EndpointId Net6)).

Definition tables_of (s : ServerSys) : Tables (EndpointId * Z) :=
  mkTables (ip_to_endpoint (srv s)) (ip6_to_endpoint (srv s)).

(** Client [k] is being served with address [d]. *)
Definition served_with (s : ServerSys) (k : EndpointId * Z) (d : PacketIp) : Prop :=
  exists i sid a4 a6, conns s !! i = Some (k, Serving sid a4 a6) /\
    match d with PktV4 a => a4 = Some a | PktV6 a => a6 = Some a end.

Lemma served_lookup s k d :
  sess_inv s -> served_with s k d -> lookup_dest (tables_of s) d = Some k.
Proof.
  intros Hs (i & sid & a4 & a6 & Hi & Hd).
  destruct (sess_inv_serving s i k sid a4 a6 Hs Hi) as (_ & H4 & H6).
  destruct d as [a|a]; cbn [lookup_dest tables_of t4 t6]; [by apply H4|by apply H6].
Qed.

Lemma may_pass_source (k : EndpointId * Z) ports it d :
  may_pass k ports it -> source_of (in_packet it) = Some d ->
  forall k', lookup_dest (at_source it) d = Some k' -> k' = k.
Proof. intros (_ & Hs & _) Hd. rewrite Hd in Hs. destruct d; cbn; intros k' Hk'; by apply Hs. Qed.

Lemma may_pass_dest (k : EndpointId * Z) ports it d :
  may_pass k ports it -> dest_of (in_packet it) = Some d -> lookup_dest (at_dest it) d = None.
Proof. intros (_ & _ & Hs) Hd. rewrite Hd in Hs. by destruct d. Qed.

(** C2. Client isolation end to end, in histories without overlapping
    connections of one client and whatever happens between the two lookups of
    a packet: a packet whose source is the address of another served client is
    dropped, a packet addressed to any served client is dropped, a served
    client's own packets to other destinations are handed to the TUN writer
    unchanged, and a frame from the TUN device addressed to a served client
    changes no queue but that client's, which it extends by datagrams of that
    packet only, by all of them if the client's writer lives and they fit its
    byte budget. *)
Theorem served_clients_isolated {C} (try_send : C -> TunWriteRequest -> C * try_result)
    (send : C -> TunWriteRequest -> C * bool) s1 s2 k ports it tx stats :
  fresh_pool p4 -> fresh_pool p6 ->
  orderly max_clients p4 p6 s1 -> orderly max_clients p4 p6 s2 ->
  at_source it = tables_of s1 -> at_dest it = tables_of s2 ->
  let handled := client_packet try_send send k ports it tx stats in
  let dropped := exists stats', handled = Ret (tx, stats', true) in
  (forall d k', source_of (in_packet it) = Some d -> served_with s1 k' d -> k' <> k -> dropped) /\
  (forall d k', dest_of (in_packet it) = Some d -> served_with s2 k' d -> dropped) /\
  (forall d, source_of (in_packet it) = Some d -> served_with s1 k d ->
     (match d with PktV4 _ => True | PktV6 a => is_link_local a = false end) ->
     (forall d', dest_of (in_packet it) = Some d' -> lookup_dest (tables_of s2) d' = None) ->
     self_encapsulated ports (in_packet it) = false ->
     handled = Ret (enqueue_tun_write try_send send tx (mkReq (in_packet it) None) stats)) /\
  (forall pi reader raw st offload packet d k' h,
     split_frame pi reader raw = Ret (offload, packet) -> dest_of packet = Some d ->
     self_encapsulated ports packet = false -> r_tables st = tables_of s2 -> served_with s2 k' d ->
     (forall k'' h'', r_clients st !! k'' = Some h'' -> q_arena (h_queue h'') = []) ->
     r_clients st !! k' = Some h ->
     exists st' q' new, tun_frame pi reader ports raw st = Ret st' /\
       (forall k'', k'' <> k' -> r_clients st' !! k'' = r_clients st !! k'') /\
       r_clients st' !! k' = Some (mkHandle (max_datagram_size h) q') /\
       chan q' = chan (h_queue h) ++ new /\
       let ds := datagrams_of (max_datagram_size h) offload packet in
       new `sublist_of` ds /\
       (receiver_alive (h_queue h) = true ->
        (queued_bytes (h_queue h) + total_cost ds <= CLIENT_QUEUE_BYTES)%Z -> new = ds)).
Proof.
  intros H4 H6 Ho1 Ho2 Hsrc Hdst handled dropped.
  assert (Hs1 : sess_inv s1) by (by apply (orderly_inv max_clients p4 p6)).
  assert (Hs2 : sess_inv s2) by (by apply (orderly_inv max_clients p4 p6)).
  assert (Hdrop : judge k ports it <> Deliver -> dropped).
  { intros Hj. unfold dropped, handled. rewrite client_packet_judge.
    destruct (judge k ports it); try done; by eexists. }
  split_and!.
  - intros d k' Hd Hserved Hne. apply Hdrop. intros Hj. apply judge_deliver in Hj. apply Hne.
    eapply (may_pass_source k ports it d); [done|done|]. rewrite Hsrc. by apply served_lookup.
  - intros d k' Hd Hserved. apply Hdrop. intros Hj. apply judge_deliver in Hj.
    pose proof (may_pass_dest k ports it d Hj Hd) as Hn. rewrite Hdst in Hn.
    by rewrite (served_lookup s2 k' d Hs2 Hserved) in Hn.
  - intros d Hd Hserved Hll Hfree Hself. unfold handled. rewrite client_packet_judge.
    assert (judge k ports it = Deliver) as ->; [|done].
    apply judge_deliver. split; [done|].
    pose proof (served_lookup s1 k d Hs1 Hserved) as Hl. rewrite Hsrc, Hdst, Hd. split.
    + destruct d as [a|a]; [|split; [done|]]; cbn [lookup_dest] in Hl; intros k0 Hk0; congruence.
    + destruct (dest_of (in_packet it)) as [[a|a]|]; [| |done]; by apply (Hfree _ eq_refl).
  - intros pi reader raw st offload packet d k' h Hsp Hd Hself Htab Hserved Har Hh.
    destruct (tun_frame_effect pi reader ports raw st Har) as (st' & Hst' & _ & Ht).
    assert (Hft : frame_target pi reader ports raw st = Some (k', offload, packet)).
    { unfold frame_target. rewrite Hsp, Hself, Hd. cbn [mbind option_bind]. rewrite Htab.
      rewrite (served_lookup s2 k' d Hs2 Hserved). done. }
    rewrite Hft, Hh in Ht. destruct Ht as (Hoth & q' & new & Hq & _ & _ & Hsub & Hc & _ & _ & Hall).
    exists st', q', new. done.
Qed.
End Isolation.

(** ** Evaluation *)

Definition sample_inbound_of (s : SampleSys) (src dst : Z) : Inbound (Z * Z) :=
  mkInbound (sample_ipv4 src dst) (tables_of s) (tables_of s).

(** Client (1, 1) is served with 10.0.0.2 and client (2, 1) with 10.0.0.3. *)
Lemma served_clients_isolated_witness :
  let pkt := client_packet sample_try_send sample_send (1, 1)%Z ∅ in
  (exists st, pkt (sample_inbound_of sample_two 3 1) [] stats_zero = Ret ([], st, true)) /\
  (exists st, pkt (sample_inbound_of sample_two 2 3) [] stats_zero = Ret ([], st, true)) /\
  pkt (sample_inbound_of sample_two 2 1) [] stats_zero =
    Ret ([mkReq (sample_ipv4 2 1) None], inc_from_clients stats_zero, true).
Proof.
  intros pkt.
  assert (H2 : served_with sample_two (2, 1)%Z (PktV4 167772163)).
  { exists 2%nat, 2%Z, (Some 167772163%Z), None. split; reflexivity. }
  assert (H1 : served_with sample_two (1, 1)%Z (PktV4 167772162)).
  { exists 1%nat, 1%Z, (Some 167772162%Z), None. split; reflexivity. }
  pose proof (fun it => served_clients_isolated sample_digest (fun e => [e]) (Some sample_pool) None 10
    sample_try_send sample_send sample_two sample_two (1, 1)%Z ∅ it [] stats_zero sample_fresh sample_fresh6
    sample_two_orderly sample_two_orderly) as Hiso.
  split_and!.
  - destruct (Hiso (sample_inbound_of sample_two 3 1) eq_refl eq_refl) as (Ha & _).
    apply (Ha (PktV4 167772163) (2, 1)%Z); [reflexivity|exact H2|discriminate].
  - destruct (Hiso (sample_inbound_of sample_two 2 3) eq_refl eq_refl) as (_ & Ha & _).
    apply (Ha (PktV4 167772163) (2, 1)%Z); [reflexivity|exact H2].
  - destruct (Hiso (sample_inbound_of sample_two 2 1) eq_refl eq_refl) as (_ & _ & Ha & _).
    apply (Ha (PktV4 167772162)); [reflexivity|exact H1|exact I| |reflexivity].
    intros d' Hd'. assert (Hd : dest_of (in_packet (sample_inbound_of sample_two 2 1)) = Some (PktV4 167772161))
      by reflexivity. rewrite Hd in Hd'. injection Hd' as <-. reflexivity.
Defined.
