(* ===== verification/Routing.v ===== *)
(** * Which addresses and prefixes stay off the tunnel

    [src/net/local_networks.rs] (the overlap check), the underlay bypass of
    [src/tunnel/client.rs] ([private_scope], [BypassRouteManager],
    [overlapping_underlay_excludes]) and the addresses the server publishes
    for it ([server_candidate_addrs] of [src/tunnel/server.rs]). *)

From stdpp Require Import sorting.
From S2P Require Import Prelude Errors Net.

(** ** Prefixes of either family *)

Inductive IpNet (Net4 Net6 : Type) : Type :=
| IpNetV4 (n : Net4)
| IpNetV6 (n : Net6).
Arguments IpNetV4 {_ _}.
Arguments IpNetV6 {_ _}.

Section Nets.
Context {Net4 Net6 : Type} `{NetOps V4_BITS Net4} `{NetOps V6_BITS Net6}.
Abbreviation Net := (IpNet Net4 Net6).

Definition ipnet_prefix_len (n : Net) : Z :=
  match n with IpNetV4 n => net_prefix_len n | IpNetV6 n => net_prefix_len n end.

Definition ipnet_network (n : Net) : IpAddr :=
  match n with IpNetV4 n => V4 (net_network n) | IpNetV6 n => V6 (net_network n) end.

(** [IpNet::contains]: mixed families are disjoint. *)
Definition ipnet_contains (n : Net) (ip : IpAddr) : bool :=
  match n, ip with
  | IpNetV4 n, V4 a => net_contains n a
  | IpNetV6 n, V6 a => net_contains n a
  | _, _ => false
  end.

(** ** The overlap check *)

Definition EXEMPT_MAX_PREFIX_LEN : Z := 1.

Record LocalNetwork : Type := mkLocal { interface : string; local_net : Net }.

(** [IpNet::new(ip, prefix_len).ok()?.trunc()] *)
Definition LocalNetwork_new (iface : string) (ip : IpAddr) (prefix_len : Z) : option LocalNetwork :=
  match ip with
  | V4 a =>
      n ← net_new (Net:=Net4) a prefix_len;
      t ← net_new (Net:=Net4) (net_network n) (net_prefix_len n);
      Some (mkLocal iface (IpNetV4 t))
  | V6 a =>
      n ← net_new (Net:=Net6) a prefix_len;
      t ← net_new (Net:=Net6) (net_network n) (net_prefix_len n);
      Some (mkLocal iface (IpNetV6 t))
  end.

Definition overlaps (a b : Net) : bool :=
  ipnet_contains a (ipnet_network b) || ipnet_contains b (ipnet_network a).

(** [routes4.chain(routes6)]. *)
Definition all_routes (routes : list Net4) (routes6 : list Net6) : list Net :=
  map IpNetV4 routes ++ map IpNetV6 routes6.

Fixpoint conflict_loop (routes : list Net) (locals : list LocalNetwork) : option (Net * LocalNetwork) :=
  match routes with
  | [] => None
  | route :: rest =>
      if (ipnet_prefix_len route <=? EXEMPT_MAX_PREFIX_LEN)%Z then conflict_loop rest locals
      else match List.find (fun l => overlaps route (local_net l)) locals with
           | Some local => Some (route, local)
           | None => conflict_loop rest locals
           end
  end.

Definition split_tunnel_conflict (routes : list Net4) (routes6 : list Net6) (locals : list LocalNetwork)
  : option (Net * LocalNetwork) := conflict_loop (all_routes routes routes6) locals.

Definition net_parts (n : Net) : Z * Z :=
  match n with
  | IpNetV4 n => (net_addr n, net_prefix_len n)
  | IpNetV6 n => (net_addr n, net_prefix_len n)
  end.

Definition overlap_error (routes : list Net4) (routes6 : list Net6) (locals : list LocalNetwork)
  : option VpnError :=
  match split_tunnel_conflict routes routes6 locals with
  | Some (route, local) =>
      Some (RouteOverlapsLocalNetwork (net_parts route) (net_parts (local_net local)) (interface local))
  | None => None
  end.

Definition has_refusable_routes (routes : list Net4) (routes6 : list Net6) : bool :=
  existsb (fun r => EXEMPT_MAX_PREFIX_LEN <? net_prefix_len r)%Z routes
  || existsb (fun r => EXEMPT_MAX_PREFIX_LEN <? net_prefix_len r)%Z routes6.

(** ** Scopes of addresses *)

(** [Ipv4Addr::is_private] and [is_link_local]; [Ipv6Addr::is_unique_local]
    (fc00::/7) and [is_unicast_link_local] (fe80::/10). *)
Definition v4_is_private (a : Z) : bool :=
  (Z.shiftr a 24 =? 10)%Z || (Z.shiftr a 20 =? 2753)%Z || (Z.shiftr a 16 =? 49320)%Z.
Definition v4_is_link_local (a : Z) : bool := (Z.shiftr a 16 =? 43518)%Z.
Definition v6_is_unique_local (a : Z) : bool := (Z.land (Z.shiftr a 112) 65024 =? 64512)%Z.
Definition v6_is_link_local (a : Z) : bool := (Z.land (Z.shiftr a 112) 65472 =? 65152)%Z.

(** An interface as the enumeration of the host reports it. *)
Record Iface : Type := mkIface {
  if_name : string; is_oper_up : bool; is_loopback_if : bool; is_p2p : bool; if_addr : IpAddr; if_prefixlen : Z;
}.

(** [local_networks]; [None] when the enumeration fails. *)
Definition local_networks (ifaces : option (list Iface)) : list LocalNetwork :=
  match ifaces with
  | None => []
  | Some ifaces =>
      omap (fun iface =>
        if match if_addr iface with V4 _ => false | V6 a => v6_is_link_local a end then None
        else LocalNetwork_new (if_name iface) (if_addr iface) (if_prefixlen iface))
        (filter (fun iface => is_oper_up iface && negb (is_loopback_if iface) && negb (is_p2p iface) = true) ifaces)
  end.

Definition private_scope (ip : IpAddr) : bool :=
  match ip with
  | V4 a => v4_is_private a || v4_is_link_local a
  | V6 a => v6_is_unique_local a || v6_is_link_local a
  end.

(** ** The bypass routes of the client *)

Definition covered (routes4 : list Net4) (routes6 : list Net6) (ip : IpAddr) : bool :=
  match ip with
  | V4 a => existsb (fun net => net_contains net a) routes4
  | V6 a => existsb (fun net => net_contains net a) routes6
  end.

(** The manager's state; a guard is kept as the address it protects, and the
    gateways only serve [add_bypass_route]. *)
Record BypassRouteManager : Type := mkBypass {
  active_routes : gset IpAddr;
  vpn_routes4 : list Net4;
  vpn_routes6 : list Net6;
  collected : gset IpAddr;
}.

Definition ip_covered_by_vpn_routes (self : BypassRouteManager) (ip : IpAddr) : bool :=
  covered (vpn_routes4 self) (vpn_routes6 self) ip.

(** [add_bypass_route] succeeds or fails for each address in turn. *)
Fixpoint install (add_bypass_route : IpAddr -> bool) (to_add : list IpAddr) (active : gset IpAddr)
  : gset IpAddr :=
  match to_add with
  | [] => active
  | ip :: rest =>
      install add_bypass_route rest (if add_bypass_route ip then {[ip]} ∪ active else active)
  end.

Definition bypass_update (add_bypass_route : IpAddr -> bool) (self : BypassRouteManager)
    (required_ips : gset IpAddr) : BypassRouteManager :=
  let required_ips := filter (fun ip => private_scope ip = false /\
                                        ip_covered_by_vpn_routes self ip = true) required_ips in
  let collected' := required_ips ∪ collected self in
  let to_add := filter (fun ip => ip ∉ active_routes self) (elements required_ips) in
  mkBypass (install add_bypass_route to_add (active_routes self)) (vpn_routes4 self) (vpn_routes6 self)
    collected'.

(** The manager's task: one set after the other, until the sender is dropped;
    each update sees the routing of its own moment. *)
Fixpoint run_bypass_route_manager (self : BypassRouteManager)
    (updates : list (gset IpAddr * (IpAddr -> bool))) : BypassRouteManager :=
  match updates with
  | [] => self
  | (ips, add) :: rest => run_bypass_route_manager (bypass_update add self ips) rest
  end.

(** The host prefixes as addresses; the two result lists are separate. *)
Fixpoint overlapping_underlay_excludes (server_addrs : list IpAddr) (routes4 : list Net4)
    (routes6 : list Net6) : list Z * list Z :=
  match server_addrs with
  | [] => ([], [])
  | ip :: rest =>
      let '(v4, v6) := overlapping_underlay_excludes rest routes4 routes6 in
      if private_scope ip then (v4, v6) else
      match ip with
      | V4 a => if existsb (fun n => net_contains n a) routes4 then (a :: v4, v6) else (v4, v6)
      | V6 a => if existsb (fun n => net_contains n a) routes6 then (v4, a :: v6) else (v4, v6)
      end
  end.

(** ** The addresses the server publishes *)

(** [IpAddr::is_loopback] and [is_unspecified]. *)
Definition is_loopback (ip : IpAddr) : bool :=
  match ip with V4 a => (Z.shiftr a 24 =? 127)%Z | V6 a => (a =? 1)%Z end.
Definition is_unspecified (ip : IpAddr) : bool :=
  match ip with V4 a => (a =? 0)%Z | V6 a => (a =? 0)%Z end.

Definition is_routable_underlay (ip : IpAddr) : bool :=
  if is_loopback ip || is_unspecified ip then false else
  match ip with
  | V4 a => negb (v4_is_link_local a)
  | V6 a => negb (Z.land (Z.shiftr a 112) 65472 =? 65152)%Z
  end.

Definition ip_in_overlay (ip : IpAddr) (overlay_v4 : option Net4) (overlay_v6 : option Net6) : bool :=
  match ip with
  | V4 a => match overlay_v4 with Some net => net_contains net a | None => false end
  | V6 a => match overlay_v6 with Some net => net_contains net a | None => false end
  end.

(** The derived order of [IpAddr]: IPv4 before IPv6, then by value. *)
Definition ip_le (x y : IpAddr) : Prop :=
  match x, y with
  | V4 a, V4 b => (a <= b)%Z
  | V4 _, V6 _ => True
  | V6 _, V4 _ => False
  | V6 a, V6 b => (a <= b)%Z
  end.

#[export] Instance ip_le_dec x y : Decision (ip_le x y).
Proof. destruct x, y; cbn; apply _. Defined.

(** [Vec::dedup] *)
Fixpoint dedup (l : list IpAddr) : list IpAddr :=
  match l with
  | [] => []
  | x :: rest =>
      match dedup rest with
      | y :: r => if decide (x = y) then y :: r else x :: y :: r
      | [] => [x]
      end
  end.

(** [endpoint_ips] are the addresses of [endpoint.addr().ip_addrs()]. *)
Definition server_candidate_addrs (endpoint_ips : list IpAddr) (overlay_v4 : option Net4)
    (overlay_v6 : option Net6) : list IpAddr :=
  dedup (merge_sort ip_le
    (filter (fun ip => is_routable_underlay ip = true)
       (filter (fun ip => ip_in_overlay ip overlay_v4 overlay_v6 = false) endpoint_ips))).
End Nets.
Arguments LocalNetwork _ _ : clear implicits.
Arguments BypassRouteManager _ _ : clear implicits.

(** ** Properties *)

Section NetProofs.
Context {Net4 Net6 : Type} `{NetLaws V4_BITS Net4} `{NetLaws V6_BITS Net6}.
Abbreviation Net := (IpNet Net4 Net6).

(** Two prefixes share an address. *)
Definition intersect (a b : Net) : Prop :=
  exists ip, ipnet_contains a ip = true /\ ipnet_contains b ip = true.

Lemma interval_overlap {w N} `{NetLaws w N} (m n : N) a :
  net_contains m a = true -> net_contains n a = true ->
  net_contains m (net_network n) || net_contains n (net_network m) = true.
Proof.
  intros Hm Hn. apply contains_iff in Hm. apply contains_iff in Hn. apply orb_true_iff.
  rewrite !contains_iff. pose proof (network_range m). pose proof (network_range n). lia.
Qed.

Lemma contains_network {w N} `{NetLaws w N} (n : N) : net_contains n (net_network n) = true.
Proof. apply contains_iff. pose proof (network_range n). lia. Qed.

Lemma overlaps_iff (a b : Net) : overlaps a b = true <-> intersect a b.
Proof.
  unfold overlaps, intersect. split.
  - rewrite orb_true_iff. intros [Ha|Hb].
    + exists (ipnet_network b). split; [done|]. destruct b; cbn; apply contains_network.
    + exists (ipnet_network a). split; [|done]. destruct a; cbn; apply contains_network.
  - intros (ip & Ha & Hb). destruct a as [m|m], b as [n|n], ip as [x|x]; try done; cbn in *;
      by eapply interval_overlap.
Qed.

Definition refusable (r : Net) : Prop := (EXEMPT_MAX_PREFIX_LEN < ipnet_prefix_len r)%Z.

Lemma conflict_loop_spec routes (locals : list (LocalNetwork Net4 Net6)) :
  match conflict_loop routes locals with
  | Some (r, l) => exists before after, routes = before ++ r :: after /\ refusable r /\
      In l locals /\ intersect r (local_net l) /\
      (forall r' l', In r' before -> refusable r' -> In l' locals -> ~ intersect r' (local_net l'))
  | None => forall r l, In r routes -> refusable r -> In l locals -> ~ intersect r (local_net l)
  end.
Proof.
  induction routes as [|r routes IH]; cbn [conflict_loop]; [by intros|].
  assert (Hskip : (forall l, refusable r -> In l locals -> ~ intersect r (local_net l)) ->
    match conflict_loop routes locals with
    | Some (r0, l) => exists before after, r :: routes = before ++ r0 :: after /\ refusable r0 /\
        In l locals /\ intersect r0 (local_net l) /\
        (forall r' l', In r' before -> refusable r' -> In l' locals -> ~ intersect r' (local_net l'))
    | None => forall r0 l, In r0 (r :: routes) -> refusable r0 -> In l locals -> ~ intersect r0 (local_net l)
    end).
  { intros Hr. destruct (conflict_loop routes locals) as [[r0 l]|].
    - destruct IH as (before & after & -> & Href & Hl & Hi & Hb).
      exists (r :: before), after. split_and!; try done.
      intros r' l' [<-|Hin]; [by auto|by apply Hb].
    - intros r0 l [<-|Hin]; [by auto|by apply IH]. }
  destruct (Z.leb_spec (ipnet_prefix_len r) EXEMPT_MAX_PREFIX_LEN) as [Hex|Hex].
  - apply Hskip. intros l Hr. unfold refusable in Hr. lia.
  - destruct (List.find _ locals) as [l|] eqn:Hf.
    + apply List.find_some in Hf as [Hl Ho]. exists [], routes.
      split_and!; try done. by apply overlaps_iff.
    + apply Hskip. intros l _ Hl Hi. apply overlaps_iff in Hi.
      pose proof (List.find_none _ _ Hf l Hl) as Hn. cbn in Hn. congruence.
Qed.

Lemma has_refusable_iff (routes : list Net4) (routes6 : list Net6) :
  has_refusable_routes routes routes6 = true <->
  exists r, In r (all_routes routes routes6) /\ refusable r.
Proof.
  unfold has_refusable_routes, all_routes, refusable. rewrite orb_true_iff, !existsb_exists. split.
  - intros [(r & Hin & Hr)|(r & Hin & Hr)]; [exists (IpNetV4 r)|exists (IpNetV6 r)];
      (split; [apply in_app_iff; (left; by apply in_map) || (right; by apply in_map)|cbn; lia]).
  - intros (r & Hin & Hr). apply in_app_iff in Hin as [Hin|Hin];
      apply in_map_iff in Hin as (n & <- & Hn); [left|right]; exists n; cbn in Hr; (split; [done|lia]).
Qed.

(** The networks that are checked are those of the interfaces that are up,
    neither loopback nor point-to-point, IPv6 link-local addresses left out. *)
Lemma local_networks_spec (ifaces : list Iface) (l : LocalNetwork Net4 Net6) :
  l ∈ local_networks (Some ifaces) <->
  exists iface, iface ∈ ifaces /\ is_oper_up iface = true /\ is_loopback_if iface = false /\ is_p2p iface = false /\
    (forall a, if_addr iface = V6 a -> v6_is_link_local a = false) /\
    LocalNetwork_new (if_name iface) (if_addr iface) (if_prefixlen iface) = Some l.
Proof.
  unfold local_networks. rewrite list_elem_of_omap. setoid_rewrite list_elem_of_filter.
  setoid_rewrite andb_true_iff. setoid_rewrite andb_true_iff. setoid_rewrite negb_true_iff.
  split.
  - intros (iface & [[[Hu Hl] Hp] Hin] & Hn). exists iface. destruct (if_addr iface) as [a|a] eqn:Ha; [by split_and!|].
    destruct (v6_is_link_local a) eqn:Hll; [done|]. split_and!; try done. by intros ? [= <-].
  - intros (iface & Hin & Hu & Hl & Hp & Hll & Hn). exists iface. split; [done|].
    destruct (if_addr iface) as [a|a] eqn:Ha; [done|]. by rewrite (Hll a eq_refl).
Qed.

(** The overlap check is exact: a conflict is reported exactly when some
    configured route more specific than a half of the address space shares an
    address with a network the host is on, and then for the first such route
    in order (IPv4 before IPv6); the error carries that route and network;
    and when no route is that specific there is never a conflict, so the
    watcher that [has_refusable_routes] gates is not needed. *)
Theorem split_tunnel_conflict_exact (routes : list Net4) (routes6 : list Net6)
    (locals : list (LocalNetwork Net4 Net6)) :
  match split_tunnel_conflict routes routes6 locals with
  | Some (r, l) => exists before after, all_routes routes routes6 = before ++ r :: after /\ refusable r /\
      In l locals /\ intersect r (local_net l) /\
      (forall r' l', In r' before -> refusable r' -> In l' locals -> ~ intersect r' (local_net l')) /\
      overlap_error routes routes6 locals =
        Some (RouteOverlapsLocalNetwork (net_parts r) (net_parts (local_net l)) (interface l))
  | None => overlap_error routes routes6 locals = None /\
      forall r l, In r (all_routes routes routes6) -> refusable r -> In l locals ->
        ~ intersect r (local_net l)
  end /\
  (has_refusable_routes routes routes6 = false -> split_tunnel_conflict routes routes6 locals = None) /\
  (has_refusable_routes routes routes6 = true ->
     exists l : LocalNetwork Net4 Net6, split_tunnel_conflict routes routes6 [l] <> None).
Proof.
  pose proof (conflict_loop_spec (all_routes routes routes6) locals) as Hs.
  unfold overlap_error, split_tunnel_conflict. split_and!.
  - destruct (conflict_loop _ locals) as [[r l]|]; [|done].
    destruct Hs as (b & a & Hs). exists b, a. intuition done.
  - intros Hn. destruct (conflict_loop _ locals) as [[r l]|]; [|done].
    destruct Hs as (b & a & Hr & Href & _). exfalso.
    assert (Ht : has_refusable_routes routes routes6 = true).
    { apply has_refusable_iff. exists r. split; [|done]. rewrite Hr. apply in_app_iff. right. by left. }
    congruence.
  - intros Ht. apply has_refusable_iff in Ht as (r & Hin & Hr).
    exists (mkLocal "" r). pose proof (conflict_loop_spec (all_routes routes routes6) [mkLocal "" r]) as Hs'.
    destruct (conflict_loop _ [mkLocal "" r]) as [?|]; [done|]. intros _.
    apply (Hs' r (mkLocal "" r) Hin Hr); [by left|]. exists (ipnet_network r).
    split; destruct r; cbn; apply contains_network.
Qed.
End NetProofs.

(** ** Bypass routes *)

Section BypassProofs.
Context {Net4 Net6 : Type} `{NetOps V4_BITS Net4} `{NetOps V6_BITS Net6}.
Implicit Types (m : BypassRouteManager Net4 Net6).

(** The addresses that are to bypass the tunnel. *)
Definition bypassable (routes4 : list Net4) (routes6 : list Net6) (ip : IpAddr) : Prop :=
  private_scope ip = false /\ covered routes4 routes6 ip = true.

Lemma elem_of_install add to_add active ip :
  ip ∈ install add to_add active <-> ip ∈ active \/ ip ∈ to_add /\ add ip = true.
Proof.
  revert active. induction to_add as [|x to_add IH]; intros active; cbn [install].
  { set_solver. }
  rewrite IH, elem_of_cons. destruct (add x) eqn:Hx; [set_solver|].
  split; [naive_solver|]. intros [?|[[->|?] ?]]; [by left|congruence|by right].
Qed.

Lemma bypass_update_spec add m ips ip :
  (ip ∈ active_routes (bypass_update add m ips) <->
     ip ∈ active_routes m \/
     ip ∈ ips /\ bypassable (vpn_routes4 m) (vpn_routes6 m) ip /\ add ip = true) /\
  (ip ∈ collected (bypass_update add m ips) <->
     ip ∈ collected m \/ ip ∈ ips /\ bypassable (vpn_routes4 m) (vpn_routes6 m) ip).
Proof.
  unfold bypass_update, bypassable, ip_covered_by_vpn_routes. cbn [active_routes collected]. split.
  - rewrite elem_of_install, list_elem_of_filter, elem_of_elements, elem_of_filter.
    destruct (decide (ip ∈ active_routes m)); naive_solver.
  - rewrite elem_of_union, elem_of_filter. tauto.
Qed.

(** The bypass manager only ever adds, and only what must stay off the
    tunnel: after any sequence of published address sets, the collected set is
    what it was plus every published address that a VPN route covers and that
    is not private, a route is active exactly when it was before or one of
    those addresses could be installed when it was published, nothing is ever
    removed, and a failing installation does not affect the others. *)
Theorem bypass_manager_adds_exactly m updates ip :
  let m' := run_bypass_route_manager m updates in
  (ip ∈ active_routes m' <-> ip ∈ active_routes m \/
     bypassable (vpn_routes4 m) (vpn_routes6 m) ip /\
     exists ips add, In (ips, add) updates /\ ip ∈ ips /\ add ip = true) /\
  (ip ∈ collected m' <-> ip ∈ collected m \/
     bypassable (vpn_routes4 m) (vpn_routes6 m) ip /\
     exists ips add, In (ips, add) updates /\ ip ∈ ips) /\
  vpn_routes4 m' = vpn_routes4 m /\ vpn_routes6 m' = vpn_routes6 m.
Proof.
  revert m. induction updates as [|[ips add] updates IH]; intros m; cbn [run_bypass_route_manager In].
  { naive_solver. }
  destruct (IH (bypass_update add m ips)) as (Ha & Hc & H4 & H6).
  destruct (bypass_update_spec add m ips ip) as [Ha1 Hc1].
  change (vpn_routes4 (bypass_update add m ips)) with (vpn_routes4 m) in *.
  change (vpn_routes6 (bypass_update add m ips)) with (vpn_routes6 m) in *.
  split_and!; [|..]; [rewrite Ha, Ha1|rewrite Hc, Hc1|done|done].
  - split; [naive_solver|]. intros [?|(Hb & ips' & add' & [[= <- <-]|Hin] & ? & ?)];
      [by left; left|by left; right|by right; eauto 10].
  - split; [naive_solver|]. intros [?|(Hb & ips' & add' & [[= <- <-]|Hin] & ?)];
      [by left; left|by left; right|by right; eauto 10].
Qed.

Lemma excludes_spec addrs (routes4 : list Net4) (routes6 : list Net6) a :
  (a ∈ (overlapping_underlay_excludes addrs routes4 routes6).1 <->
     V4 a ∈ addrs /\ bypassable routes4 routes6 (V4 a)) /\
  (a ∈ (overlapping_underlay_excludes addrs routes4 routes6).2 <->
     V6 a ∈ addrs /\ bypassable routes4 routes6 (V6 a)).
Proof.
  induction addrs as [|ip addrs [IH4 IH6]]; cbn [overlapping_underlay_excludes].
  { split; rewrite !elem_of_nil; tauto. }
  destruct (overlapping_underlay_excludes addrs routes4 routes6) as [v4 v6]. cbn [fst snd] in *.
  rewrite !elem_of_cons. destruct (private_scope ip) eqn:Hp.
  { cbn [fst snd]. rewrite IH4, IH6. unfold bypassable.
    split; (split; [tauto|]); intros [[<-|Hin] [Hb Hc]]; [congruence|done|congruence|done]. }
  assert (Hno : forall y : IpAddr, covered routes4 routes6 ip = false -> y = ip ->
    ~ bypassable routes4 routes6 y) by (intros y Hc -> [_ Hc']; congruence).
  assert (Hyes : covered routes4 routes6 ip = true -> bypassable routes4 routes6 ip) by (by split).
  destruct ip as [x|x]; cbn [covered] in Hno, Hyes.
  - destruct (existsb _ routes4) eqn:Hc; cbn [fst snd]; rewrite ?elem_of_cons, IH4, IH6.
    + specialize (Hyes eq_refl). split; split; [intros [->|?]|..]; try tauto;
        [intros [[[= ->]|?] ?]; tauto|intros [[[=]|?] ?]; tauto].
    + split; (split; [tauto|]); intros [[Hx|?] Hb]; try done; by destruct (Hno _ eq_refl Hx).
  - destruct (existsb _ routes6) eqn:Hc; cbn [fst snd]; rewrite ?elem_of_cons, IH4, IH6.
    + specialize (Hyes eq_refl). split; split; [tauto|intros [[[=]|?] ?]; tauto|
        intros [->|?]; tauto|intros [[[= ->]|?] ?]; tauto].
    + split; (split; [tauto|]); intros [[Hx|?] Hb]; try done; by destruct (Hno _ eq_refl Hx).
Qed.

(** The two platforms exclude the same addresses: the host prefixes the
    Apple path computes from a list of server addresses are exactly the
    addresses the desktop manager collects from it, family by family, and none
    of them is private. *)
Theorem excludes_agree_with_manager addrs m :
  collected m = ∅ ->
  let m' := bypass_update (fun _ => true) m (list_to_set addrs) in
  let '(v4, v6) := overlapping_underlay_excludes addrs (vpn_routes4 m) (vpn_routes6 m) in
  (forall a, a ∈ v4 <-> V4 a ∈ collected m') /\ (forall a, a ∈ v6 <-> V6 a ∈ collected m') /\
  (forall ip, ip ∈ collected m' -> private_scope ip = false).
Proof.
  intros He m'. pose proof (excludes_spec addrs (vpn_routes4 m) (vpn_routes6 m)) as Hs.
  destruct (overlapping_underlay_excludes addrs _ _) as [v4 v6]. cbn [fst snd] in Hs.
  assert (Hc : forall ip, ip ∈ collected m' <-> ip ∈ addrs /\ bypassable (vpn_routes4 m) (vpn_routes6 m) ip).
  { intros ip. unfold m'. destruct (bypass_update_spec (fun _ => true) m (list_to_set addrs) ip) as [_ ->].
    rewrite He, elem_of_list_to_set, elem_of_empty. tauto. }
  split_and!; intros x; rewrite Hc; [apply Hs|apply Hs|]. by intros [_ [? _]].
Qed.

(** ** Published addresses *)

Lemma ip_le_total : Total ip_le.
Proof. intros [a|a] [b|b]; cbn; auto; lia. Qed.
Lemma ip_le_trans : Transitive ip_le.
Proof. intros [a|a] [b|b] [c|c]; cbn; auto; try lia; done. Qed.
Lemma ip_le_antisymm x y : ip_le x y -> ip_le y x -> x = y.
Proof. destruct x as [a|a], y as [b|b]; cbn; try done; intros; f_equal; lia. Qed.

Lemma elem_of_dedup x l : x ∈ dedup l <-> x ∈ l.
Proof.
  induction l as [|y l IH]; cbn [dedup]; [done|].
  destruct (dedup l) as [|z r].
  - rewrite !elem_of_cons. rewrite <-IH. set_solver.
  - case_decide as Hd; [subst|]; rewrite !elem_of_cons, <-IH, !elem_of_cons; naive_solver.
Qed.

(** Strictly increasing: sorted and without duplicates. *)
Definition ip_lt (x y : IpAddr) : Prop := ip_le x y /\ x <> y.

Lemma dedup_sorted l : StronglySorted ip_le l -> StronglySorted ip_lt (dedup l).
Proof.
  induction 1 as [|x l Hl IH Hx]; cbn [dedup]; [constructor|].
  assert (Hall : Forall (ip_le x) (dedup l)).
  { apply Forall_forall. intros y Hy. rewrite elem_of_dedup in Hy.
    rewrite Forall_forall in Hx. by apply Hx. }
  destruct (dedup l) as [|y r] eqn:Hd; [repeat constructor|].
  case_decide as Hxy; [done|]. constructor; [done|].
  apply StronglySorted_inv in IH as [_ Hy]. inversion_clear Hall as [|?? Hxy' Hr].
  constructor; [by split|]. rewrite Forall_forall in *. intros z Hz. destruct (Hy z Hz) as [Hyz Hne].
  split; [by apply Hr|]. intros ->. apply Hne. apply ip_le_antisymm; [done|done].
Qed.

(** The server publishes, in increasing order and without duplicates,
    exactly those of its endpoint's addresses that a client can reach it on:
    outside its own VPN networks and neither loopback, unspecified nor
    link-local. *)
Theorem candidate_addrs_exact ips (overlay_v4 : option Net4) (overlay_v6 : option Net6) :
  let out := server_candidate_addrs ips overlay_v4 overlay_v6 in
  StronglySorted ip_lt out /\
  forall ip, ip ∈ out <->
    ip ∈ ips /\ ip_in_overlay ip overlay_v4 overlay_v6 = false /\
    is_loopback ip = false /\ is_unspecified ip = false /\
    match ip with V4 a => v4_is_link_local a = false | V6 a => v6_is_link_local a = false end.
Proof.
  unfold server_candidate_addrs. split.
  - apply dedup_sorted. apply Sorted_StronglySorted; [apply ip_le_trans|].
    apply Sorted_merge_sort. apply ip_le_total.
  - intros ip. rewrite elem_of_dedup, merge_sort_Permutation, !list_elem_of_filter.
    assert (Hr : is_routable_underlay ip = true <-> is_loopback ip = false /\ is_unspecified ip = false /\
      match ip with V4 a => v4_is_link_local a = false | V6 a => v6_is_link_local a = false end).
    { unfold is_routable_underlay, v6_is_link_local.
      destruct (is_loopback ip), (is_unspecified ip); cbn [orb]; [intuition discriminate..|].
      destruct ip; rewrite negb_true_iff; tauto. }
    rewrite Hr. tauto.
Qed.
End BypassProofs.

(** ** Evaluation *)

Definition lan_net : CNet V4_BITS := exist _ (3232235776, 24)%Z eq_refl.     (* 192.168.1.0/24 *)
Definition lan_half : CNet V4_BITS := exist _ (3232235904, 25)%Z eq_refl.    (* 192.168.1.128/25 *)
Definition all_net : CNet V4_BITS := exist _ (0, 0)%Z eq_refl.

Definition lan : LocalNetwork (CNet V4_BITS) (CNet V6_BITS) := mkLocal "en0" (IpNetV4 lan_net).

Lemma split_tunnel_conflict_exact_witness :
  split_tunnel_conflict [all_net; lan_half] ([] : list (CNet V6_BITS)) [lan] = Some (IpNetV4 lan_half, lan) /\
  intersect (IpNetV4 lan_half) (local_net lan).
Proof.
  destruct (split_tunnel_conflict_exact [all_net; lan_half] ([] : list (CNet V6_BITS)) [lan]) as [Hc _].
  assert (He : split_tunnel_conflict [all_net; lan_half] ([] : list (CNet V6_BITS)) [lan] =
    Some (IpNetV4 lan_half, lan)) by reflexivity.
  split; [exact He|]. rewrite He in Hc. destruct Hc as (b & a & _ & _ & _ & Hi & _). exact Hi.
Defined.

Definition sample_manager : BypassRouteManager (CNet V4_BITS) (CNet V6_BITS) :=
  mkBypass ∅ [all_net] [] ∅.

Lemma excludes_agree_with_manager_witness :
  overlapping_underlay_excludes [V4 3232235781; V4 134744072; V6 7] [all_net] ([] : list (CNet V6_BITS))
    = ([134744072]%Z, []) /\
  V4 134744072 ∈ collected (bypass_update (fun _ => true) sample_manager
    (list_to_set [V4 3232235781; V4 134744072; V6 7])).
Proof.
  pose proof (excludes_agree_with_manager [V4 3232235781; V4 134744072; V6 7] sample_manager eq_refl) as Ha.
  assert (He : overlapping_underlay_excludes [V4 3232235781; V4 134744072; V6 7] [all_net]
    ([] : list (CNet V6_BITS)) = ([134744072]%Z, [])) by reflexivity.
  split; [exact He|]. cbn [vpn_routes4 vpn_routes6 sample_manager] in Ha. rewrite He in Ha.
  destruct Ha as [H4 _]. apply H4. left.
Defined.
