(* ===== verification/PathSelect.v ===== *)
(** * The excluding path selector ([src/transport/path_selector.rs])

    The transport's path type is not part of the repository; the selector uses
    its equality, its remote address and whether it is a relay path. *)

From S2P Require Import Prelude Net Routing.

Definition IPV6_RTT_ADVANTAGE : Z := 3000000.   (* nanoseconds *)
Definition RTT_SWITCHING_MIN : Z := 5000000.

(** The remote address of a path. *)
Inductive Addr : Type :=
| AddrIp (ip : IpAddr)
| AddrRelay
| AddrOther.

(** [IpAddr::to_canonical]: an IPv4-mapped IPv6 address becomes the IPv4 one. *)
Definition to_canonical (ip : IpAddr) : IpAddr :=
  match ip with
  | V4 a => V4 a
  | V6 a => if (Z.shiftr a 32 =? 65535)%Z then V4 (Z.land a U32_MAX) else V6 a
  end.

Section Selector.
Context {Net4 Net6 : Type} `{NetOps V4_BITS Net4} `{NetOps V6_BITS Net6}.
Context {FourTuple : Type} `{EqDecision FourTuple}.
Context (remote : FourTuple -> Addr) (is_relay : FourTuple -> bool).

Record ExcludingPathSelector : Type := mkSelector { excluded : list (IpNet Net4 Net6) }.

Definition is_excluded (self : ExcludingPathSelector) (path : FourTuple) : bool :=
  match remote path with
  | AddrIp ip => existsb (fun net => ipnet_contains net (to_canonical ip)) (excluded self)
  | _ => false
  end.

Definition sort_key (path : FourTuple) (rtt : Z) : bool * Z :=
  let biased := match remote path with
                | AddrIp (V6 _) => (rtt - IPV6_RTT_ADVANTAGE)%Z
                | _ => rtt
                end in
  (is_relay path, biased).

(** The lexicographic order on keys, [false] before [true]. *)
Definition key_lt (a b : bool * Z) : bool :=
  (negb a.1 && b.1) || (Bool.eqb a.1 b.1 && (a.2 <? b.2)%Z).

(** The accumulators [best] and [current_key] of the loop. *)
Fixpoint choose_loop (self : ExcludingPathSelector) (current : option FourTuple) (i : nat)
    (candidates : list (FourTuple * Z)) (best : option (nat * (bool * Z)))
    (current_key : option (bool * Z)) : option (nat * (bool * Z)) * option (bool * Z) :=
  match candidates with
  | [] => (best, current_key)
  | (path, rtt) :: rest =>
      if is_excluded self path then choose_loop self current (S i) rest best current_key else
      let key := sort_key path rtt in
      let current_key :=
        if bool_decide (Some path = current)
           && (match current_key with None => true | Some c => key_lt key c end)
        then Some key else current_key in
      let best :=
        match best with
        | None => Some (i, key)
        | Some (_, b) => if key_lt key b then Some (i, key) else best
        end in
      choose_loop self current (S i) rest best current_key
  end.

Definition choose (self : ExcludingPathSelector) (current : option FourTuple)
    (candidates : list (FourTuple * Z)) : option nat :=
  match choose_loop self current 0 candidates None None with
  | (None, _) => None
  | (Some (best_idx, (best_tier, best_biased)), current_key) =>
      match current_key with
      | None => Some best_idx
      | Some (current_tier, current_biased) =>
          if negb (Bool.eqb current_tier best_tier) then Some best_idx
          else if (best_biased + RTT_SWITCHING_MIN <=? current_biased)%Z then Some best_idx
          else None
      end
  end.

(** ** What is chosen *)

Definition key_le (a b : bool * Z) : Prop := key_lt b a = false.

Lemma key_le_iff a b :
  key_le a b <-> (a.1 = false /\ b.1 = true) \/ (a.1 = b.1 /\ (a.2 <= b.2)%Z).
Proof.
  unfold key_le, key_lt. destruct a as [[] x], b as [[] y]; cbn;
    rewrite ?orb_false_l, ?orb_false_iff, ?Z.ltb_ge; naive_solver.
Qed.

(** Candidate [i] with its key, when it is not excluded. *)
Definition allowed (self : ExcludingPathSelector) (candidates : list (FourTuple * Z)) (i : nat)
    (path : FourTuple) (key : bool * Z) : Prop :=
  exists rtt, candidates !! i = Some (path, rtt) /\ is_excluded self path = false /\
    key = sort_key path rtt.

Definition best_ok (self : ExcludingPathSelector) (cands : list (FourTuple * Z))
    (best : option (nat * (bool * Z))) : Prop :=
  match best with
  | None => forall i p k, ~ allowed self cands i p k
  | Some (i, k) => (exists p, allowed self cands i p k) /\
      forall j p k', allowed self cands j p k' -> key_le k k'
  end.

Definition current_ok (self : ExcludingPathSelector) (current : option FourTuple)
    (cands : list (FourTuple * Z)) (ck : option (bool * Z)) : Prop :=
  match ck with
  | None => forall i p k, allowed self cands i p k -> Some p <> current
  | Some k => (exists i p, allowed self cands i p k /\ Some p = current) /\
      forall i p k', allowed self cands i p k' -> Some p = current -> key_le k k'
  end.

Lemma allowed_snoc self cands p r i q k :
  allowed self (cands ++ [(p, r)]) i q k <->
  allowed self cands i q k \/
  (i = length cands /\ q = p /\ is_excluded self p = false /\ k = sort_key p r).
Proof.
  unfold allowed. split.
  - intros (rtt & Hi & He & ->). apply lookup_app_Some in Hi as [Hi|[Hl Hi]]; [left; eauto|].
    apply list_lookup_singleton_Some in Hi as [Hz [= -> ->]]. right. split; [lia|done].
  - intros [(rtt & Hi & He & ->)|(-> & -> & He & ->)].
    + exists rtt. by rewrite (lookup_app_l_Some _ _ _ _ Hi).
    + exists r. by rewrite lookup_app_r, Nat.sub_diag by lia.
Qed.

Lemma key_lt_le a b : key_lt a b = true -> key_le a b.
Proof.
  intros Hl. apply key_le_iff. unfold key_lt in Hl. destruct a as [[] x], b as [[] y]; cbn in *;
    rewrite ?orb_false_l, ?orb_true_iff, ?Z.ltb_lt in Hl; naive_solver lia.
Qed.

Lemma key_le_trans a b c : key_le a b -> key_le b c -> key_le a c.
Proof. rewrite !key_le_iff. destruct a as [[] x], b as [[] y], c as [[] z]; cbn; intuition lia. Qed.

Lemma key_le_refl a : key_le a a.
Proof. apply key_le_iff. right. split; [done|lia]. Qed.

(** An excluded candidate changes neither. *)
Lemma excluded_step self current cands p r best ck :
  is_excluded self p = true -> best_ok self cands best -> current_ok self current cands ck ->
  best_ok self (cands ++ [(p, r)]) best /\ current_ok self current (cands ++ [(p, r)]) ck.
Proof.
  intros He Hb Hc. split.
  - destruct best as [[i k]|]; cbn [best_ok] in *.
    + destruct Hb as [[q Hq] Hm]. split; [exists q; apply allowed_snoc; by left|].
      intros j q' k' [Ha|(_ & _ & Hn & _)]%allowed_snoc; [by eapply Hm|congruence].
    + intros i q k [Ha|(_ & _ & Hn & _)]%allowed_snoc; [by eapply Hb|congruence].
  - destruct ck as [k|]; cbn [current_ok] in *.
    + destruct Hc as [(i & q & Hq & Hcur) Hm]. split; [exists i, q; rewrite allowed_snoc; auto|].
      intros j q' k' [Ha|(_ & _ & Hn & _)]%allowed_snoc; [by eapply Hm|congruence].
    + intros i q k [Ha|(_ & _ & Hn & _)]%allowed_snoc; [by eapply Hc|congruence].
Qed.

(** The best candidate after one more. *)
Lemma best_step self cands p r best :
  is_excluded self p = false -> best_ok self cands best ->
  best_ok self (cands ++ [(p, r)])
    (match best with
     | Some (i, k) => if key_lt (sort_key p r) k then Some (length cands, sort_key p r) else Some (i, k)
     | None => Some (length cands, sort_key p r)
     end).
Proof.
  intros He Hb. destruct best as [[i k]|]; cbn [best_ok] in *.
  - destruct Hb as [[q Hq] Hm]. destruct (key_lt (sort_key p r) k) eqn:Hlt; cbn [best_ok].
    + split; [exists p; apply allowed_snoc; right; done|].
      intros j q' k' [Ha|(_ & _ & _ & ->)]%allowed_snoc; [|apply key_le_refl].
      eapply key_le_trans; [by apply key_lt_le|by eapply Hm].
    + split; [exists q; apply allowed_snoc; by left|].
      intros j q' k' [Ha|(_ & _ & _ & ->)]%allowed_snoc; [by eapply Hm|done].
  - split; [exists p; apply allowed_snoc; right; done|].
    intros j q' k' [Ha|(_ & _ & _ & ->)]%allowed_snoc; [by destruct (Hb _ _ _ Ha)|apply key_le_refl].
Qed.

Lemma choose_loop_spec self current cands rest best ck :
  best_ok self cands best -> current_ok self current cands ck ->
  let '(best', ck') := choose_loop self current (length cands) rest best ck in
  best_ok self (cands ++ rest) best' /\ current_ok self current (cands ++ rest) ck'.
Proof.
  revert cands best ck. induction rest as [|[p r] rest IH]; intros cands best ck Hb Hc; cbn [choose_loop].
  { by rewrite app_nil_r. }
  assert (Hstep : forall best' ck', best_ok self (cands ++ [(p, r)]) best' ->
    current_ok self current (cands ++ [(p, r)]) ck' ->
    let '(b, c) := choose_loop self current (S (length cands)) rest best' ck' in
    best_ok self (cands ++ (p, r) :: rest) b /\ current_ok self current (cands ++ (p, r) :: rest) c).
  { intros best' ck' Hb' Hc'. specialize (IH _ _ _ Hb' Hc').
    rewrite length_app in IH. cbn [length] in IH. rewrite Nat.add_1_r, <-app_assoc in IH. done. }
  destruct (is_excluded self p) eqn:He.
  { apply Hstep; by eapply excluded_step. }
  apply Hstep; [by pose proof (best_step self cands p r best He Hb) as Hn; destruct best as [[i k]|]|].
  case_bool_decide as Hcur; cbn [andb].
    + destruct ck as [k|]; cbn [current_ok] in *.
      * destruct Hc as [(i & q & Hq & Hq') Hm]. destruct (key_lt (sort_key p r) k) eqn:Hlt; cbn [current_ok].
        -- split; [exists (length cands), p; rewrite allowed_snoc; auto 10|].
           intros j q' k' [Ha|(_ & _ & _ & ->)]%allowed_snoc Hq''; [|apply key_le_refl].
           eapply key_le_trans; [by apply key_lt_le|by eapply Hm].
        -- split; [exists i, q; rewrite allowed_snoc; auto|].
           intros j q' k' [Ha|(_ & _ & _ & ->)]%allowed_snoc Hq''; [by eapply Hm|done].
      * split; [exists (length cands), p; rewrite allowed_snoc; auto 10|].
        intros j q' k' [Ha|(_ & _ & _ & ->)]%allowed_snoc Hq''; [by destruct (Hc _ _ _ Ha)|apply key_le_refl].
    + destruct ck as [k|]; cbn [current_ok] in *.
      * destruct Hc as [(i & q & Hq & Hq') Hm]. split; [exists i, q; rewrite allowed_snoc; auto|].
        intros j q' k' [Ha|(_ & -> & _ & _)]%allowed_snoc Hq''; [by eapply Hm|done].
      * intros i q k [Ha|(_ & -> & _ & _)]%allowed_snoc; [by eapply Hc|done].
Qed.

(** The selector never moves to a path whose remote address
    is excluded, and moves only to a best allowed candidate (direct before
    relay, then least biased round-trip time). It moves whenever the current
    path is excluded or not a candidate, or a better tier or an improvement of
    [RTT_SWITCHING_MIN] is available; it stays put only if nothing is allowed,
    or the current path is allowed and no candidate is in a better tier or
    that much faster. *)
Lemma choose_exact self current cands :
  match choose self current cands with
  | Some i => exists p k, allowed self cands i p k /\
      (forall j q k', allowed self cands j q k' -> key_le k k') /\
      (forall j k', (exists q, allowed self cands j q k' /\ Some q = current) ->
         k.1 <> k'.1 \/ (k.2 + RTT_SWITCHING_MIN <= k'.2)%Z)
  | None =>
      (forall i p k, ~ allowed self cands i p k) \/
      exists i p k, allowed self cands i p k /\ Some p = current /\
        forall j q k', allowed self cands j q k' ->
          k'.1 = k.1 /\ (k.2 < k'.2 + RTT_SWITCHING_MIN)%Z \/ k.1 = false /\ k'.1 = true
  end.
Proof.
  unfold choose.
  pose proof (choose_loop_spec self current [] cands None None) as Hl. cbn [length app] in Hl.
  destruct (choose_loop self current 0 cands None None) as [best ck].
  destruct Hl as [Hb Hc].
  { intros i p k (r & Hi & _). by rewrite lookup_nil in Hi. }
  { intros i p k (r & Hi & _). by rewrite lookup_nil in Hi. }
  destruct best as [[i [bt bb]]|]; [|by left]. destruct Hb as [[p Hp] Hm].
  destruct ck as [[ct cb]|].
  - destruct Hc as [(ci & cp & Hcp & Hcur) Hcm].
    pose proof (Hm _ _ _ Hcp) as Hbc. apply key_le_iff in Hbc. cbn in Hbc.
    assert (Hgo : (ct <> bt \/ (bb + RTT_SWITCHING_MIN <= cb)%Z) ->
      exists p k, allowed self cands i p k /\ (forall j q k', allowed self cands j q k' -> key_le k k') /\
      (forall j k', (exists q, allowed self cands j q k' /\ Some q = current) ->
         k.1 <> k'.1 \/ (k.2 + RTT_SWITCHING_MIN <= k'.2)%Z)).
    { intros Hor. exists p, (bt, bb). split; [done|]. split; [done|].
      intros j k' (q & Hq & Hqc). pose proof (Hcm _ _ _ Hq Hqc) as Hk. apply key_le_iff in Hk. cbn in *.
      destruct (Bool.bool_dec bt k'.1); [|by left]. right. subst.
      destruct Hor as [Hne|Hle], Hk as [[-> Hk]|[Hk1 Hk2]], Hbc as [[Hx Hy]|[Hx Hy]]; try congruence; lia. }
    destruct (Bool.eqb ct bt) eqn:Heq; cbn [negb].
    + apply Bool.eqb_prop in Heq as <-.
      destruct (Z.leb_spec (bb + RTT_SWITCHING_MIN) cb) as [Hle|Hlt]; [apply Hgo; by right|].
      right. exists ci, cp, (ct, cb). split; [done|]. split; [done|].
      intros j q k' Hq. pose proof (Hm _ _ _ Hq) as Hk. apply key_le_iff in Hk. cbn in *.
      destruct Hk as [[Hk1 Hk2]|[Hk1 Hk2]]; [by right|left; split; [done|lia]].
    + apply Hgo. left. intros ->. by rewrite Bool.eqb_reflx in Heq.
  - exists p, (bt, bb). split; [done|]. split; [done|]. intros j k' (q & Hq & Hqc).
    by destruct (Hc _ _ _ Hq).
Qed.
End Selector.
