(* ===== verification/Transport.v ===== *)
(** * Transport settings and endpoints ([src/transport/mod.rs], [endpoint.rs], [path_selector.rs], [paths.rs])

    The QUIC settings of a process and how the congestion settings of the
    command line are latched into them, the endpoints of the server and of the
    client with the path selector they install, and the watcher that logs
    changes of the connection's paths. *)

From S2P Require Import Prelude Text Net Config Signaling Routing PathSelect Status.

#[local] Open Scope string_scope.

(** ** Constants (times in seconds) *)

Definition QUIC_KEEP_ALIVE_INTERVAL : Z := 15.
Definition QUIC_IDLE_TIMEOUT : Z := 30.
Definition SERVER_ADDR_PUBLISH_INTERVAL : Z := 30.
Definition QUIC_DATAGRAM_OVERHEAD_BUDGET : Z := 50.
Definition QUIC_INITIAL_MTU : Z := VPN_MTU + QUIC_DATAGRAM_OVERHEAD_BUDGET.
Definition QUIC_WINDOW_SIZE : Z := 8 * 1024 * 1024.
Definition QUIC_DATAGRAM_RECEIVE_BUFFER_SIZE : Z := 4 * 1024 * 1024.
Definition QUIC_DATAGRAM_SEND_BUFFER_SIZE : Z := 256 * 1024.
Definition QUIC_ACK_ELICITING_THRESHOLD : Z := 15.
Definition QUIC_ACK_REORDERING_THRESHOLD : Z := 1.

(** ** Congestion control *)

Inductive CongestionControl : Type := Bbr3 | Cubic | NewReno.
#[export] Instance CongestionControl_eq_dec : EqDecision CongestionControl.
Proof. solve_decision. Defined.

Definition CongestionControl_default : CongestionControl := Cubic.

Definition show_control (c : CongestionControl) : string :=
  match c with Bbr3 => "bbr3" | Cubic => "cubic" | NewReno => "new-reno" end.

Definition CONGESTION_INITIAL_WINDOW_MIN : Z := 2 * QUIC_INITIAL_MTU.
Definition CONGESTION_INITIAL_WINDOW_MAX : Z := QUIC_WINDOW_SIZE.

Definition show_Z (n : Z) : string := pretty (Z.to_N n).

Definition parse_congestion_initial_window (raw : string) : outcome string Z :=
  bytes ← ok_or ("`" +:+ raw +:+ "` is not a byte count") (parse_uint 64 (trim raw));
  if negb ((CONGESTION_INITIAL_WINDOW_MIN <=? bytes) && (bytes <=? CONGESTION_INITIAL_WINDOW_MAX))%Z
  then Fail ("must be between " +:+ show_Z CONGESTION_INITIAL_WINDOW_MIN +:+ " and " +:+
             show_Z CONGESTION_INITIAL_WINDOW_MAX +:+ " bytes (got " +:+ show_Z bytes +:+ ")")
  else Ret bytes.

Record CongestionConfig : Type := mkCongestion { control : CongestionControl; initial_window : option Z }.
#[export] Instance CongestionConfig_eq_dec : EqDecision CongestionConfig.
Proof. solve_decision. Defined.

Definition CongestionConfig_default : CongestionConfig := mkCongestion CongestionControl_default None.

(** [CongestionArgs::config]. *)
Definition CongestionArgs_config (congestion_control : CongestionControl) (congestion_initial_window : option Z)
  : CongestionConfig := mkCongestion congestion_control congestion_initial_window.

(** The controllers of the QUIC library, with their defaults and the one setter
    that is used. *)
Class Controllers (Factory : Type) : Type := {
  bbr3_default : Factory; bbr3_initial_window : Factory -> Z -> Factory;
  cubic_default : Factory; cubic_initial_window : Factory -> Z -> Factory;
  new_reno_default : Factory; new_reno_initial_window : Factory -> Z -> Factory;
}.

Definition factory {Factory} `{Controllers Factory} (self : CongestionConfig) : Factory :=
  match control self with
  | Bbr3 =>
      let config := bbr3_default in
      match initial_window self with Some window => bbr3_initial_window config window | None => config end
  | Cubic =>
      let config := cubic_default in
      match initial_window self with Some window => cubic_initial_window config window | None => config end
  | NewReno =>
      let config := new_reno_default in
      match initial_window self with Some window => new_reno_initial_window config window | None => config end
  end.

Definition show_congestion (c : CongestionConfig) : string :=
  show_control (control c) +:+
  match initial_window c with
  | Some window => " (initial window " +:+ show_Z window +:+ " bytes)"
  | None => ""
  end.

(** [CONGESTION_CONFIG], a cell that is set once. *)
Abbreviation congestion_cell := (option CongestionConfig).

Definition congestion_config (cell : congestion_cell) : congestion_cell * CongestionConfig :=
  match cell with
  | Some config => (Some config, config)
  | None => (Some CongestionConfig_default, CongestionConfig_default)
  end.

(** The cell and the logged line. *)
Definition set_congestion_config (cell : congestion_cell) (config : CongestionConfig) : congestion_cell * string :=
  match cell with
  | None => (Some config, "QUIC congestion controller: " +:+ show_congestion config)
  | Some _ =>
      let '(cell, fixed) := congestion_config cell in
      (cell, "congestion control already fixed to " +:+ show_congestion fixed +:+ "; ignoring override " +:+
             show_congestion config)
  end.

(** ** [build_quic_transport_config] *)

Record QuicTransportConfig (Factory Timeout : Type) : Type := mkQuic {
  q_max_idle_timeout : option Timeout;
  q_keep_alive_interval : Z;
  q_congestion_controller_factory : Factory;
  q_receive_window : Z;
  q_stream_receive_window : Z;
  q_send_window : Z;
  q_initial_mtu : Z;
  q_ack_eliciting_threshold : Z;
  q_reordering_threshold : Z;
  q_datagram_receive_buffer_size : option Z;
  q_datagram_send_buffer_size : Z;
}.
Arguments mkQuic {_ _}.
Arguments q_max_idle_timeout {_ _}.
Arguments q_keep_alive_interval {_ _}.
Arguments q_congestion_controller_factory {_ _}.
Arguments q_initial_mtu {_ _}.
Arguments q_send_window {_ _}.
Arguments q_datagram_receive_buffer_size {_ _}.

Section Endpoints.
Context {Factory Timeout : Type} `{Controllers Factory} (idle_timeout_of : Z -> option Timeout).

Definition build_quic_transport_config (cell : congestion_cell)
  : congestion_cell * outcome string (QuicTransportConfig Factory Timeout) :=
  match idle_timeout_of QUIC_IDLE_TIMEOUT with
  | None => (cell, Fail "converting QUIC_IDLE_TIMEOUT to IdleTimeout")
  | Some idle_timeout =>
      let '(cell, config) := congestion_config cell in
      (cell, Ret (mkQuic (Some idle_timeout) QUIC_KEEP_ALIVE_INTERVAL (factory config)
                    QUIC_WINDOW_SIZE QUIC_WINDOW_SIZE QUIC_WINDOW_SIZE QUIC_INITIAL_MTU
                    QUIC_ACK_ELICITING_THRESHOLD QUIC_ACK_REORDERING_THRESHOLD
                    (Some QUIC_DATAGRAM_RECEIVE_BUFFER_SIZE) QUIC_DATAGRAM_SEND_BUFFER_SIZE))
  end.

(** ** Endpoints *)

(** What is asked of the shared endpoint builder. *)
Record EndpointBuilder (Relay Key Net4 Net6 : Type) : Type := mkBuilder {
  eb_relay : Relay;
  eb_transport_config : QuicTransportConfig Factory Timeout;
  eb_publish_address : bool;
  eb_relay_only : bool;
  eb_alpns : list string;
  eb_secret_key : option Key;
  eb_path_selector : option (ExcludingPathSelector (Net4:=Net4) (Net6:=Net6));
}.
Arguments mkBuilder {_ _ _ _}.
Arguments eb_relay {_ _ _ _}.
Arguments eb_transport_config {_ _ _ _}.
Arguments eb_publish_address {_ _ _ _}.
Arguments eb_relay_only {_ _ _ _}.
Arguments eb_alpns {_ _ _ _}.
Arguments eb_secret_key {_ _ _ _}.
Arguments eb_path_selector {_ _ _ _}.

Context {Relay Key Net4 Net6 Endpoint : Type}.
Context (create_endpoint : Relay -> EndpointBuilder Relay Key Net4 Net6 -> outcome string (Endpoint * list string)).

Definition base_builder (cell : congestion_cell) (relay_config : Relay) (publish_address : bool)
  : congestion_cell * outcome string (EndpointBuilder Relay Key Net4 Net6) :=
  let '(cell, transport_config) := build_quic_transport_config cell in
  (cell, transport_config ← transport_config;
         Ret (mkBuilder relay_config transport_config publish_address false [] None None)).

Definition server_builder (cell : congestion_cell) (relay_config : Relay) (secret : Key)
  : congestion_cell * outcome string (EndpointBuilder Relay Key Net4 Net6) :=
  let '(cell, builder) := base_builder cell relay_config true in
  (cell, b ← builder;
         Ret (mkBuilder (eb_relay b) (eb_transport_config b) (eb_publish_address b) (eb_relay_only b)
                [VPN_ALPN] (Some secret) (eb_path_selector b))).

(** The endpoint and the relays that were left out. *)
Definition create_server_endpoint (cell : congestion_cell) (relay_config : Relay) (secret : Key)
  : congestion_cell * outcome string (Endpoint * list string) :=
  let '(cell, builder) := server_builder cell relay_config secret in
  (cell, b ← builder; create_endpoint relay_config b).

Definition client_builder (exclude_direct_paths : list (IpNet Net4 Net6)) (b : EndpointBuilder Relay Key Net4 Net6)
  : EndpointBuilder Relay Key Net4 Net6 :=
  match exclude_direct_paths with
  | [] => b
  | _ => mkBuilder (eb_relay b) (eb_transport_config b) (eb_publish_address b) (eb_relay_only b)
           (eb_alpns b) (eb_secret_key b) (Some (mkSelector exclude_direct_paths))
  end.

Definition create_client_endpoint (cell : congestion_cell) (relay_config : Relay)
    (exclude_direct_paths : list (IpNet Net4 Net6)) : congestion_cell * outcome string Endpoint :=
  let '(cell, builder) := base_builder cell relay_config false in
  (cell, b ← builder;
         created ← create_endpoint relay_config (client_builder exclude_direct_paths b);
         Ret created.1).
End Endpoints.

(** ** [ExcludingPathSelector::select] *)

Section Select.
Context {Net4 Net6 : Type} `{NetOps V4_BITS Net4} `{NetOps V6_BITS Net6}.
Context {FourTuple : Type} `{EqDecision FourTuple}.
Context (remote : FourTuple -> Addr) (is_relay : FourTuple -> bool).

(** The paths of the context with their round-trip times, if their statistics
    can be read; the result is the path that is selected, if any. *)
Definition select (self : ExcludingPathSelector (Net4:=Net4) (Net6:=Net6)) (current : option FourTuple)
    (ctx_paths : list (FourTuple * option Z)) : outcome unit (option FourTuple) :=
  let paths := omap (fun '(psd, stats) => (fun rtt => (psd, rtt)) <$> stats) ctx_paths in
  match choose remote is_relay self current paths with
  | Some i => match paths !! i with Some (psd, _) => Ret (Some psd) | None => Panic end
  | None => Ret None
  end.
End Select.

(** ** The path watcher *)

Section Watcher.
(** The debug form of an address. *)
Context (debug_addr : TransportAddr -> string).

Definition paths_key (paths : list Path) : bool * list string :=
  (match paths with [] => true | _ => false end,
   (fun p => debug_addr (remote_addr p) +:+ (if path_selected p then "*" else "")) <$> paths).

(** The lines the watcher logs for the snapshots of the stream. *)
Fixpoint watch_loop (label : string) (last_key : option (bool * list string)) (snapshots : list (list Path))
  : list string :=
  match snapshots with
  | [] => []
  | paths :: rest =>
      let key := paths_key paths in
      if decide (last_key = Some key) then watch_loop label last_key rest
      else (label +:+ ": " +:+ format_connection_paths paths) :: watch_loop label (Some key) rest
  end.

(** [None] is the inert guard: no task is spawned. *)
Definition watch_connection_paths (debug_enabled : bool) (label : string) (snapshots : list (list Path))
  : option (list string) :=
  if negb debug_enabled then None else Some (watch_loop label None snapshots).
End Watcher.

(** ** The settings of a process *)

(** What a process does with the settings: the command line sets them, an
    endpoint is built with them. *)
Inductive transport_op : Type := OpSet (config : CongestionConfig) | OpBuild.

Section Process.
Context {Factory Timeout : Type} `{Controllers Factory} (idle_timeout_of : Z -> option Timeout).

Fixpoint run_ops (cell : congestion_cell) (ops : list transport_op)
  : list (outcome string (QuicTransportConfig Factory Timeout)) :=
  match ops with
  | [] => []
  | OpSet config :: rest => run_ops (set_congestion_config cell config).1 rest
  | OpBuild :: rest =>
      let '(cell, built) := build_quic_transport_config idle_timeout_of cell in built :: run_ops cell rest
  end.

(** The settings in effect: those set first, unless they came too late. *)
Definition effective (cell : congestion_cell) (ops : list transport_op) : CongestionConfig :=
  match cell, ops with
  | Some config, _ => config
  | None, OpSet config :: _ => config
  | None, _ => CongestionConfig_default
  end.

Lemma run_ops_latched t cell ops :
  idle_timeout_of QUIC_IDLE_TIMEOUT = Some t ->
  Forall (fun r => r = (build_quic_transport_config idle_timeout_of (Some (effective cell ops))).2) (run_ops cell ops).
Proof.
  intros Ht. revert cell. induction ops as [|[config|] rest IH]; intros cell; cbn [run_ops].
  - constructor.
  - destruct cell as [c|]; cbn [set_congestion_config congestion_config fst effective];
      [apply (IH (Some c))|apply (IH (Some config))].
  - unfold build_quic_transport_config at 2. rewrite Ht.
    destruct cell as [c|]; cbn [congestion_config effective].
    + constructor; [|apply (IH (Some c))]. unfold build_quic_transport_config. by rewrite Ht.
    + constructor; [|apply (IH (Some CongestionConfig_default))]. unfold build_quic_transport_config. by rewrite Ht.
Qed.

(** The transport settings of a process are fixed: whatever the order in
    which it sets the congestion settings and builds endpoints, all its
    endpoints get the same configuration, with the settings that were set
    before the first endpoint, else the defaults; it starts with datagrams
    large enough for a full packet of the tunnel, accepts datagrams, keeps the
    connection alive at least twice within the idle timeout, and a window the
    command line accepts is one of at least two such packets and at most the
    flow-control window, which is every number in that range as printed. *)
Theorem transport_settings_fixed t ops raw :
  idle_timeout_of QUIC_IDLE_TIMEOUT = Some t ->
  Forall (fun r => exists q, r = Ret q /\ q_congestion_controller_factory q = factory (effective None ops) /\
    r = (build_quic_transport_config idle_timeout_of (Some (effective None ops))).2 /\
    (q_initial_mtu q - QUIC_DATAGRAM_OVERHEAD_BUDGET = VPN_MTU)%Z /\ is_uint 16 (q_initial_mtu q) /\
    q_datagram_receive_buffer_size q <> None /\ (2 * q_keep_alive_interval q <= QUIC_IDLE_TIMEOUT)%Z /\
    (q_initial_mtu q <= q_send_window q)%Z) (run_ops None ops) /\
  (forall n, parse_congestion_initial_window raw = Ret n ->
     (2 * QUIC_INITIAL_MTU <= n <= QUIC_WINDOW_SIZE)%Z /\ parse_uint 64 (trim raw) = Some n) /\
  (forall n, (2 * QUIC_INITIAL_MTU <= n <= QUIC_WINDOW_SIZE)%Z -> parse_congestion_initial_window (show_Z n) = Ret n).
Proof.
  intros Ht. split_and!.
  - eapply Forall_impl; [by apply (run_ops_latched t)|]. intros r Hr. unfold build_quic_transport_config in *.
    rewrite Ht in *. cbn [congestion_config snd] in *. eexists. split; [exact Hr|]. by split_and!.
  - intros n. unfold parse_congestion_initial_window. destruct (parse_uint 64 (trim raw)) as [b|]; [|done]. cbn.
    destruct (Z.leb_spec CONGESTION_INITIAL_WINDOW_MIN b), (Z.leb_spec b CONGESTION_INITIAL_WINDOW_MAX); [|done..].
    cbn. intros [= <-]. unfold CONGESTION_INITIAL_WINDOW_MIN, CONGESTION_INITIAL_WINDOW_MAX in *. done.
  - intros n Hn. unfold parse_congestion_initial_window, show_Z.
    assert (Hr : (0 <= n < 2 ^ 64)%Z) by (unfold QUIC_INITIAL_MTU, QUIC_WINDOW_SIZE, VPN_MTU, QUIC_DATAGRAM_OVERHEAD_BUDGET in Hn; lia).
    rewrite <-(append_nil_r (pretty (Z.to_N n))), parse_pretty; [|rewrite Z2N.id; lia|done].
    rewrite Z2N.id by lia. cbn [ok_or mbind outcome_bind].
    rewrite (proj2 (Z.leb_le _ _) (proj1 Hn : (CONGESTION_INITIAL_WINDOW_MIN <= n)%Z)),
      (proj2 (Z.leb_le _ _) (proj2 Hn : (n <= CONGESTION_INITIAL_WINDOW_MAX)%Z)). done.
Qed.
End Process.

(** The initial MTU is not the protocol's minimum. *)
Theorem initial_mtu_above_minimum : QUIC_INITIAL_MTU = 1330%Z /\ (1200 < QUIC_INITIAL_MTU)%Z.
Proof. by split. Qed.

(** ** What the client's endpoint selects *)

Section Selected.
Context {Net4 Net6 : Type} `{NetOps V4_BITS Net4} `{NetOps V6_BITS Net6}.
Context {FourTuple : Type} `{EqDecision FourTuple}.
Context (remote : FourTuple -> Addr) (is_relay : FourTuple -> bool).

(** The candidates: the paths whose statistics can be read. *)
Definition readable (ctx_paths : list (FourTuple * option Z)) : list (FourTuple * Z) :=
  omap (fun '(psd, stats) => (fun rtt => (psd, rtt)) <$> stats) ctx_paths.

Abbreviation candidate self paths := (allowed remote is_relay (Net4:=Net4) (Net6:=Net6) self (readable paths)).

(** C36. Path selection of the client: an endpoint that is to avoid networks
    gets a selector for exactly those.  The selector never fails, and never
    selects a direct path to an address in them, nor a path that is gone; what
    it selects is a best allowed candidate (direct before relay, then least
    biased round-trip time) that differs in tier from the current path or
    improves on it by [RTT_SWITCHING_MIN].  It keeps the current path only if
    nothing is allowed, or the current path is allowed and no candidate is in a
    better tier or that much faster. *)
Theorem path_selection_exact {Factory Timeout Relay Key : Type} (b : EndpointBuilder Relay Key Net4 Net6)
    (nets : list (IpNet Net4 Net6)) current paths :
  let built := client_builder (Factory:=Factory) (Timeout:=Timeout) nets b in
  (nets <> [] -> eb_path_selector _ _ _ _ built = Some (mkSelector nets)) /\
  (nets = [] -> built = b) /\
  match select remote is_relay (mkSelector nets) current paths with
  | Ret (Some p) =>
      (exists rtt, (p, Some rtt) ∈ paths) /\ is_excluded remote (mkSelector nets) p = false /\
      exists i k, candidate (mkSelector nets) paths i p k /\
        (forall j q k', candidate (mkSelector nets) paths j q k' -> key_le k k') /\
        (forall j k', (exists q, candidate (mkSelector nets) paths j q k' /\ Some q = current) ->
           k.1 <> k'.1 \/ (k.2 + RTT_SWITCHING_MIN <= k'.2)%Z)
  | Ret None =>
      (forall i p k, ~ candidate (mkSelector nets) paths i p k) \/
      exists i p k, candidate (mkSelector nets) paths i p k /\ Some p = current /\
        forall j q k', candidate (mkSelector nets) paths j q k' ->
          k'.1 = k.1 /\ (k.2 < k'.2 + RTT_SWITCHING_MIN)%Z \/ k.1 = false /\ k'.1 = true
  | _ => False
  end.
Proof.
  split; [by destruct nets|]. split; [by intros ->|].
  unfold select. fold (readable paths).
  pose proof (choose_exact remote is_relay (mkSelector nets) current (readable paths)) as Hc.
  destruct (choose remote is_relay (mkSelector nets) current (readable paths)) as [i|]; [|exact Hc].
  destruct Hc as (p & k & Ha & Hbest & Hsw). pose proof Ha as (rtt & Hi & He & _). rewrite Hi.
  split; [|split; [done|by exists i, k]]. exists rtt. apply list_elem_of_lookup_2 in Hi.
  apply list_elem_of_omap in Hi as ([q [r|]] & Hq & Hr); cbn in Hr; [|done]. by injection Hr as -> ->.
Qed.
End Selected.

(** ** What the watcher logs *)

Section Watched.
Context (debug_addr : TransportAddr -> string).

(** The snapshots that differ from the one before in their paths or in which of
    them are selected. *)
Fixpoint path_changes (before : option (list Path)) (snapshots : list (list Path)) : list (list Path) :=
  match snapshots with
  | [] => []
  | paths :: rest =>
      (if decide (paths_key debug_addr <$> before = Some (paths_key debug_addr paths)) then [] else [paths]) ++
      path_changes (Some paths) rest
  end%list.

(** The watcher logs the changes, however the round-trip times vary. *)
Lemma watcher_logs_changes label before snapshots :
  watch_loop debug_addr label (paths_key debug_addr <$> before) snapshots =
  (fun paths => label +:+ ": " +:+ format_connection_paths paths) <$> path_changes before snapshots.
Proof.
  revert before. induction snapshots as [|paths rest IH]; intros before; cbn [watch_loop path_changes]; [done|].
  rewrite fmap_app, <-(IH (Some paths)). case_decide as Hd; [by rewrite Hd|done].
Qed.
End Watched.

(** ** Evaluation *)

#[local] Instance sample_controllers : Controllers (string * option Z) := {|
  bbr3_default := ("bbr3", None); bbr3_initial_window f w := (f.1, Some w);
  cubic_default := ("cubic", None); cubic_initial_window f w := (f.1, Some w);
  new_reno_default := ("new-reno", None); new_reno_initial_window f w := (f.1, Some w);
|}.

(** The first setting counts, the second comes too late. *)
Definition sample_ops : list transport_op :=
  [OpSet (mkCongestion Bbr3 (Some 16000%Z)); OpBuild; OpSet (mkCongestion NewReno None); OpBuild].

Lemma transport_settings_fixed_witness :
  Forall (fun r => exists q, r = Ret q /\ q_congestion_controller_factory q = ("bbr3", Some 16000%Z))
    (run_ops Some None sample_ops) /\ length (run_ops (Timeout:=Z) Some None sample_ops) = 2.
Proof.
  split; [|reflexivity].
  destruct (transport_settings_fixed Some QUIC_IDLE_TIMEOUT sample_ops " 2660 " eq_refl) as [Ha _].
  eapply Forall_impl; [exact Ha|]. intros r (q & Hr & Hq & _). exists q. exact (conj Hr Hq).
Defined.

Example congestion_window_bounds :
  parse_congestion_initial_window " 2660 " = Ret 2660%Z /\
  parse_congestion_initial_window "2659" = Fail "must be between 2660 and 8388608 bytes (got 2659)" /\
  parse_congestion_initial_window "12k" = Fail "`12k` is not a byte count".
Proof. vm_compute. split_and!; reflexivity. Qed.
