(* ===== verification/Handshake.v ===== *)
(** * The handshake between client and server

    The server's half ([handle_connection], [verify_client_auth] and the
    response of [handle_connection_inner] in [src/tunnel/server.rs]) and the
    client's half ([perform_handshake] in [src/tunnel/client.rs]), over the
    message framing of [Signaling]. *)

From S2P Require Import Prelude Errors Net Signaling.

Section Handshake.
Context {Net4 Net6 : Type} `{NetOps V4_BITS Net4} `{NetOps V6_BITS Net6}.
Context `{Json VpnHandshake} `{Json (VpnHandshakeResponse Net4 Net6)}.
Abbreviation Response := (VpnHandshakeResponse Net4 Net6).

(** ** Server *)

Section Server.
Context {EndpointId PublicKey : Type} `{EqDecision EndpointId} `{Countable PublicKey}.
(* parsing and signatures, of other crates *)
Context (parse_endpoint_id : string -> option EndpointId) (parse_public_key : string -> option PublicKey).
Context (verify_endpoint_id_signature : PublicKey -> EndpointId -> string -> bool).

Definition verify_client_auth (authorized_keys : gset PublicKey) (auth : ClientAuthPayload)
    (remote_id : EndpointId) : bool :=
  match parse_endpoint_id (endpoint_id auth) with
  | None => false
  | Some claimed =>
      if decide (claimed <> remote_id) then false else
      match parse_public_key (public_key auth) with
      | None => false
      | Some public =>
          if decide (public ∉ authorized_keys) then false else
          verify_endpoint_id_signature public remote_id (signature auth)
      end
  end.

Context {W : Type} (write_all : W -> list Z -> W * vres unit).

(** [handle_connection] up to the admission check. *)
Definition accept_handshake (authorized_keys : gset PublicKey) (remote_id : EndpointId)
    (send : W) (recv : RecvStream) : W * vres (VpnHandshake * RecvStream) :=
  match read_message recv MAX_HANDSHAKE_SIZE with
  | Fail e => (send, Fail e)
  | Panic => (send, Panic)
  | Ret (handshake_data, recv) =>
      match VpnHandshake_decode handshake_data with
      | Fail e => (send, Fail e)
      | Panic => (send, Panic)
      | Ret handshake =>
          if verify_client_auth authorized_keys (auth handshake) remote_id
          then (send, Ret (handshake, recv))
          else
            match Response_encode (rejected (Net4:=Net4) (Net6:=Net6) "Public-key authentication failed") with
            | Fail e => (send, Fail e)
            | Panic => (send, Panic)
            | Ret bytes =>
                match write_message write_all send bytes with
                | (send, Ret _) => (send, Fail (Signaling (msg "Public-key authentication failed")))
                | (send, Fail e) => (send, Fail e)
                | (send, Panic) => (send, Panic)
                end
            end
      end
  end.
End Server.

(** [Ipv4Net::new(ip, 32).expect(..)] *)
Definition host_net4 (ip : Z) : vres Net4 :=
  match net_new ip 32 with Some n => Ret n | None => Panic end.
Definition host_net6 (ip : Z) : vres Net6 :=
  match net_new ip 128 with Some n => Ret n | None => Panic end.

(** The response for the assigned addresses; [server_ip4] and [server_ip6] are
    the pools' server addresses ([unwrap] panics without a pool). *)
Definition build_response (assigned_ip assigned_ip6 server_ip4 server_ip6 : option Z)
    (server_addrs : list IpAddr) : vres Response :=
  response ←
    (match assigned_ip, assigned_ip6 with
     | Some ip4, Some ip6 =>
         srv4 ← (match server_ip4 with Some s => Ret s | None => Panic end);
         srv6 ← (match server_ip6 with Some s => Ret s | None => Panic end);
         n4 ← host_net4 srv4;
         n6 ← host_net6 srv6;
         Ret (accepted_dual_stack ip4 n4 srv4 ip6 n6 srv6)
     | Some ip4, None =>
         srv4 ← (match server_ip4 with Some s => Ret s | None => Panic end);
         n4 ← host_net4 srv4;
         Ret (accepted_v4 ip4 n4 srv4)
     | None, Some ip6 =>
         srv6 ← (match server_ip6 with Some s => Ret s | None => Panic end);
         n6 ← host_net6 srv6;
         Ret (accepted_ipv6_only ip6 n6 srv6)
     | None, None => Panic
     end);
  Ret (with_server_addrs response server_addrs).

(** ** Client *)

Record ServerInfo : Type := mkServerInfo {
  info_assigned_ip : option Z;
  info_network : option Net4;
  info_server_ip : option Z;
  info_assigned_ip6 : option Z;
  info_network6 : option Net6;
  info_server_ip6 : option Z;
  info_server_addrs : list IpAddr;
}.

(** The all-or-none match on the three fields of a family. *)
Definition family {A B C} (m : string) (a : option A) (b : option B) (c : option C) : vres unit :=
  match a, b, c with
  | Some _, Some _, Some _ => Ret tt
  | None, None, None => Ret tt
  | _, _, _ => Fail (Signaling (msg m))
  end.

Definition server_info (response : Response) : vres ServerInfo :=
  if negb (accepted response)
  then Fail (AuthenticationFailed (msg (default "Unknown"%string (reject_reason response)))) else
  _ ← family "Server response has incomplete IPv4 configuration"
        (assigned_ip response) (network response) (server_ip response);
  _ ← family "Server response has incomplete IPv6 configuration"
        (assigned_ip6 response) (network6 response) (server_ip6 response);
  if is_none (assigned_ip response) && is_none (assigned_ip6 response)
  then Fail (Signaling (msg "Server response missing both IPv4 and IPv6 configuration")) else
  Ret (mkServerInfo (assigned_ip response) (network response) (server_ip response)
         (assigned_ip6 response) (network6 response) (server_ip6 response) (server_addrs response)).

(** On the opened stream; [auth] is the signed credential. *)
Definition perform_handshake {W} (write_all : W -> list Z -> W * vres unit) (send : W)
    (recv : RecvStream) (device_id : Z) (auth : ClientAuthPayload)
  : W * vres (ServerInfo * RecvStream) :=
  match VpnHandshake_encode (VpnHandshake_new device_id auth) with
  | Fail e => (send, Fail e)
  | Panic => (send, Panic)
  | Ret bytes =>
      match write_message write_all send bytes with
      | (send, Fail e) => (send, Fail e)
      | (send, Panic) => (send, Panic)
      | (send, Ret _) =>
          (send,
           '(response_data, recv) ← read_message recv MAX_HANDSHAKE_SIZE;
           response ← Response_decode response_data;
           info ← server_info response;
           Ret (info, recv))
      end
  end.
End Handshake.
Arguments ServerInfo _ _ : clear implicits.

(** ** Agreement *)

Section Agreement.
Context {Net4 Net6 : Type} `{NetLaws V4_BITS Net4} `{NetLaws V6_BITS Net6}.
Context `{JsonLaws VpnHandshake} `{JsonLaws (VpnHandshakeResponse Net4 Net6)}.
Abbreviation Response := (VpnHandshakeResponse Net4 Net6).

(** The gateway prefix a client is told, when it has an address of the family. *)
Definition told4 (a srv : option Z) (n : option Net4) : Prop :=
  match a, srv with
  | Some _, Some s => exists m, n = Some m /\ net_addr m = s /\ net_prefix_len m = 32%Z
  | _, _ => n = None
  end.
Definition told6 (a srv : option Z) (n : option Net6) : Prop :=
  match a, srv with
  | Some _, Some s => exists m, n = Some m /\ net_addr m = s /\ net_prefix_len m = 128%Z
  | _, _ => n = None
  end.

Definition given {A B} (a : option A) (s : option B) : option B :=
  match a with Some _ => s | None => None end.

Lemma host_net4_ok ip : is_uint 32 ip ->
  exists n, host_net4 (Net4:=Net4) ip = Ret n /\ net_addr n = ip /\ net_prefix_len n = 32%Z.
Proof.
  intros Hu. destruct (law_new (w:=V4_BITS) (Net:=Net4) ip 32 Hu) as (n & Hn & Ha & Hp); [unfold V4_BITS; lia|].
  exists n. unfold host_net4. by rewrite Hn.
Qed.

Lemma host_net6_ok ip : is_uint 128 ip ->
  exists n, host_net6 (Net6:=Net6) ip = Ret n /\ net_addr n = ip /\ net_prefix_len n = 128%Z.
Proof.
  intros Hu. destruct (law_new (w:=V6_BITS) (Net:=Net6) ip 128 Hu) as (n & Hn & Ha & Hp); [unfold V6_BITS; lia|].
  exists n. unfold host_net6. by rewrite Hn.
Qed.

(** The response the server builds, and what the client makes of it. *)
Lemma build_response_ok a4 a6 srv4 srv6 l :
  (is_Some a4 \/ is_Some a6) ->
  (is_Some a4 -> is_Some srv4) -> (is_Some a6 -> is_Some srv6) ->
  (forall s, srv4 = Some s -> is_uint 32 s) -> (forall s, srv6 = Some s -> is_uint 128 s) ->
  exists r : Response, build_response a4 a6 srv4 srv6 l = Ret r /\
    version r = VPN_PROTOCOL_VERSION /\ is_valid r = true /\
    exists info, server_info r = Ret info /\
      info_assigned_ip info = a4 /\ info_assigned_ip6 info = a6 /\
      info_server_ip info = given a4 srv4 /\ info_server_ip6 info = given a6 srv6 /\
      told4 a4 srv4 (info_network info) /\ told6 a6 srv6 (info_network6 info) /\
      info_server_addrs info = l.
Proof.
  intros Hsome Hs4 Hs6 Hu4 Hu6. unfold build_response, told4, told6, given.
  destruct a4 as [ip4|].
  - destruct (Hs4 ltac:(done)) as [s4 ->]. destruct (host_net4_ok s4 (Hu4 _ eq_refl)) as (n4 & Hn4 & ? & ?).
    destruct a6 as [ip6|].
    + destruct (Hs6 ltac:(done)) as [s6 ->]. destruct (host_net6_ok s6 (Hu6 _ eq_refl)) as (n6 & Hn6 & ? & ?).
      cbn [mbind outcome_bind]. rewrite Hn4. cbn [mbind outcome_bind]. rewrite Hn6.
      eexists. split; [done|]. split; [done|]. split; [done|]. eexists. split; [done|].
      split_and!; try done; by eexists.
    + cbn [mbind outcome_bind]. rewrite Hn4.
      eexists. split; [done|]. split; [done|]. split; [done|]. eexists. split; [done|].
      split_and!; try done; by eexists.
  - destruct a6 as [ip6|]; [|by destruct Hsome as [[]%is_Some_None|[]%is_Some_None]].
    destruct (Hs6 ltac:(done)) as [s6 ->]. destruct (host_net6_ok s6 (Hu6 _ eq_refl)) as (n6 & Hn6 & ? & ?).
    cbn [mbind outcome_bind]. rewrite Hn6.
    eexists. split; [done|]. split; [done|]. split; [done|]. eexists. split; [done|].
    split_and!; try done; by eexists.
Qed.

Lemma encode_inv (r : Response) bs :
  Response_encode r = Ret bs -> version r = VPN_PROTOCOL_VERSION -> Response_decode bs = Ret r.
Proof.
  intros He Hver. unfold Response_encode, json_or in He.
  destruct (is_valid r) eqn:Hv; cbn [negb] in He; [|done].
  destruct (to_vec r) as [b|] eqn:Ht; cbn in He; simplify_eq.
  unfold Response_decode, json_or. rewrite (json_roundtrip _ _ Ht). cbn. by rewrite Hver, Hv.
Qed.

Lemma client_reads device_id auth hbs (r : Response) bs tl e :
  VpnHandshake_encode (VpnHandshake_new device_id auth) = Ret hbs ->
  (Z.of_nat (length hbs) <= MAX_HANDSHAKE_SIZE)%Z ->
  Response_encode r = Ret bs -> version r = VPN_PROTOCOL_VERSION ->
  (Z.of_nat (length bs) <= MAX_HANDSHAKE_SIZE)%Z ->
  exists frame, write_message record_all [] bs = (frame, Ret tt) /\
    perform_handshake record_all [] (mkRecvStream (frame ++ tl) e) device_id auth =
      (be_bytes 4 (Z.of_nat (length hbs)) ++ hbs,
       info ← server_info r; Ret (info, mkRecvStream tl e)).
Proof.
  intros Hh Hhl Hr Hv Hl. unfold MAX_HANDSHAKE_SIZE in *.
  eexists. split; [rewrite write_message_record; [done|ulia]|].
  unfold perform_handshake. rewrite Hh, write_message_record by ulia. cbn [app].
  rewrite read_message_framed by ulia.
  rewrite (proj2 (Z.ltb_ge _ _)) by (unfold MAX_HANDSHAKE_SIZE; lia).
  cbn [mbind outcome_bind]. rewrite (encode_inv r bs Hr Hv). done.
Qed.

(** C21. The handshake agrees end to end, whatever follows on the streams: the
    frame the client writes is accepted by the server with the client's device
    id and credential exactly when the credential is valid for the connection's
    endpoint; from the response the server writes for the addresses it
    assigned, the client obtains those addresses, the server's addresses as
    gateways with their host prefixes only, and the published underlay
    addresses; and from a rejection it obtains an error that is not retried,
    whatever the reason. *)
Theorem handshake_agreement device_id auth0 hbs tl e tl' e' :
  VpnHandshake_encode (VpnHandshake_new device_id auth0) = Ret hbs ->
  (Z.of_nat (length hbs) <= MAX_HANDSHAKE_SIZE)%Z ->
  (* the server reads the client's frame *)
  (forall (EndpointId PublicKey W : Type) `{EqDecision EndpointId} `{Countable PublicKey}
      parse_id parse_key verify (write_all : W -> list Z -> W * vres unit) keys (remote : EndpointId) send,
     let result := accept_handshake (Net4:=Net4) (Net6:=Net6) (PublicKey:=PublicKey)
       parse_id parse_key verify write_all keys remote send
       (mkRecvStream ((be_bytes 4 (Z.of_nat (length hbs)) ++ hbs) ++ tl') e') in
     if verify_client_auth parse_id parse_key verify keys auth0 remote
     then result = (send, Ret (VpnHandshake_new device_id auth0, mkRecvStream tl' e'))
     else forall h, result.2 <> Ret h) /\
  (* the client reads the server's response *)
  (forall a4 a6 srv4 srv6 l,
     (is_Some a4 \/ is_Some a6) -> (is_Some a4 -> is_Some srv4) -> (is_Some a6 -> is_Some srv6) ->
     (forall s, srv4 = Some s -> is_uint 32 s) -> (forall s, srv6 = Some s -> is_uint 128 s) ->
     exists r : Response, build_response a4 a6 srv4 srv6 l = Ret r /\
     forall bs, Response_encode r = Ret bs -> (Z.of_nat (length bs) <= MAX_HANDSHAKE_SIZE)%Z ->
     exists frame info, write_message record_all [] bs = (frame, Ret tt) /\
       perform_handshake record_all [] (mkRecvStream (frame ++ tl) e) device_id auth0 =
         (be_bytes 4 (Z.of_nat (length hbs)) ++ hbs, Ret (info, mkRecvStream tl e)) /\
       info_assigned_ip info = a4 /\ info_assigned_ip6 info = a6 /\
       info_server_ip info = given a4 srv4 /\ info_server_ip6 info = given a6 srv6 /\
       told4 a4 srv4 (info_network info) /\ told6 a6 srv6 (info_network6 info) /\
       info_server_addrs info = l) /\
  (* or its rejection *)
  (forall reason bs, Response_encode (rejected (Net4:=Net4) (Net6:=Net6) reason) = Ret bs ->
     (Z.of_nat (length bs) <= MAX_HANDSHAKE_SIZE)%Z ->
     exists frame err, write_message record_all [] bs = (frame, Ret tt) /\
       (perform_handshake (Net4:=Net4) (Net6:=Net6) record_all [] (mkRecvStream (frame ++ tl) e) device_id auth0).2
         = Fail err /\
       err = AuthenticationFailed (msg reason) /\ is_recoverable err = false).
Proof.
  intros Hh Hhl. split_and!.
  - intros EndpointId PublicKey W ? ? ? parse_id parse_key verify write_all keys remote send result.
    unfold result, accept_handshake. rewrite read_message_framed by (unfold MAX_HANDSHAKE_SIZE in *; ulia).
    rewrite (proj2 (Z.ltb_ge _ _)) by done.
    unfold VpnHandshake_encode, json_or in Hh.
    destruct (to_vec (VpnHandshake_new device_id auth0)) as [b|] eqn:Ht; cbn in Hh; simplify_eq.
    unfold VpnHandshake_decode, json_or. rewrite (json_roundtrip _ _ Ht).
    cbn [ok_or mbind outcome_bind hs_version VpnHandshake_new auth].
    rewrite Z.eqb_refl. cbn [negb]. change (auth (VpnHandshake_new device_id auth0)) with auth0.
    destruct (verify_client_auth parse_id parse_key verify keys auth0 remote); [done|].
    intros h. destruct (Response_encode _); [|done|done].
    by destruct (write_message write_all send _) as [? []].
  - intros a4 a6 srv4 srv6 l Hs Hs4 Hs6 Hu4 Hu6.
    destruct (build_response_ok a4 a6 srv4 srv6 l Hs Hs4 Hs6 Hu4 Hu6) as (r & Hr & Hv & _ & info & Hinfo & Hrest).
    exists r. split; [done|]. intros bs Hbs Hl.
    destruct (client_reads device_id auth0 hbs r bs tl e Hh Hhl Hbs Hv Hl) as (frame & Hw & Hp).
    exists frame, info. rewrite Hinfo in Hp. done.
  - intros reason bs Hbs Hl.
    destruct (client_reads device_id auth0 hbs _ bs tl e Hh Hhl Hbs eq_refl Hl) as (frame & Hw & Hp).
    exists frame, (AuthenticationFailed (msg reason)). rewrite Hp. done.
Qed.
End Agreement.

(** ** Evaluation *)

Definition sample_auth : ClientAuthPayload := mkClientAuthPayload "key" "endpoint" "signature".
Definition sample_handshake : VpnHandshake := VpnHandshake_new 7 sample_auth.

#[export] Instance VpnHandshake_eq_dec : EqDecision VpnHandshake.
Proof.
  assert (EqDecision ClientAuthPayload) by solve_decision. solve_decision.
Defined.

Definition server_full : VpnHandshakeResponse (CNet V4_BITS) (CNet V6_BITS) := rejected "Server full".

#[local] Instance sample_handshake_json : Json VpnHandshake := one_value_json sample_handshake [123; 125]%Z.
#[local] Instance sample_handshake_laws : JsonLaws VpnHandshake.
Proof. apply one_value_json_laws. repeat constructor; done. Defined.
#[local] Instance server_full_json : Json (VpnHandshakeResponse (CNet V4_BITS) (CNet V6_BITS)) :=
  one_value_json server_full [91; 93]%Z.
#[local] Instance server_full_laws : JsonLaws (VpnHandshakeResponse (CNet V4_BITS) (CNet V6_BITS)).
Proof. apply one_value_json_laws. repeat constructor; done. Defined.

(** A full server's refusal reaches the client as an error it does not retry. *)
Lemma handshake_agreement_witness :
  (perform_handshake (Net4 := CNet V4_BITS) (Net6 := CNet V6_BITS) record_all []
     (mkRecvStream ([0; 0; 0; 2; 91; 93] ++ [])%Z Finished) 7 sample_auth).2
    = Fail (AuthenticationFailed (msg "Server full")) /\
  is_recoverable (AuthenticationFailed (msg "Server full")) = false.
Proof.
  destruct (handshake_agreement (Net4 := CNet V4_BITS) (Net6 := CNet V6_BITS) 7 sample_auth
    [123; 125]%Z [] Finished [] Finished) as (_ & _ & Hrej).
  - reflexivity.
  - vm_compute. discriminate.
  - destruct (Hrej "Server full"%string [91; 93]%Z) as (frame & err & Hw & Hp & He & Hrec).
    + reflexivity.
    + vm_compute. discriminate.
    + assert (Hf : frame = [0; 0; 0; 2; 91; 93]%Z).
      { assert (Hc : write_message record_all [] [91; 93]%Z = ([0; 0; 0; 2; 91; 93]%Z, Ret tt)) by reflexivity.
        rewrite Hc in Hw. congruence. }
      subst frame err. split; [exact Hp|exact Hrec].
Defined.
