(* ===== verification/Client.v ===== *)
(** * The client's session across reconnects ([src/tunnel/client.rs])

    The comparison of network parameters and the reconnect loop with its
    backoff. *)

From S2P Require Import Prelude Errors Net Signaling Handshake.

(** ** Network parameters *)

Section Params.
Context {Net4 Net6 : Type} `{EqDecision Net4} `{EqDecision Net6}.

Record NetworkParams : Type := mkParams {
  p_assigned_ip : option Z;
  p_network : option Net4;
  p_server_ip : option Z;
  p_assigned_ip6 : option Z;
  p_network6 : option Net6;
  p_server_ip6 : option Z;
}.

#[export] Instance NetworkParams_eq_dec : EqDecision NetworkParams.
Proof. solve_decision. Defined.

Definition from_server_info (info : ServerInfo Net4 Net6) : NetworkParams :=
  mkParams (info_assigned_ip info) (info_network info) (info_server_ip info)
    (info_assigned_ip6 info) (info_network6 info) (info_server_ip6 info).

Definition non_ip_fields_eq (self other : NetworkParams) : bool :=
  bool_decide (p_network self = p_network other)
  && bool_decide (p_server_ip self = p_server_ip other)
  && bool_decide (p_network6 self = p_network6 other)
  && bool_decide (p_server_ip6 self = p_server_ip6 other).

(** The mutex holds the baseline. *)
Definition check_params_against (established : option NetworkParams) (info : ServerInfo Net4 Net6)
  : option NetworkParams * vres unit :=
  let params := from_server_info info in
  match established with
  | None => (Some params, Ret tt)
  | Some prev =>
      if decide (prev = params) then (established, Ret tt)
      else if non_ip_fields_eq prev params then (Some params, Ret tt)
      else (established,
            Fail (ServerConfigChanged (msg "VPN config changed on reconnect (was [{}], now [{}])")))
  end.

(** The handshakes of one client in order, until one is refused. *)
Fixpoint check_all (established : option NetworkParams) (infos : list (ServerInfo Net4 Net6))
  : option NetworkParams * vres unit :=
  match infos with
  | [] => (established, Ret tt)
  | info :: rest =>
      match check_params_against established info with
      | (established, Ret _) => check_all established rest
      | r => r
      end
  end.

(** The part of the parameters a session must keep. *)
Definition identity (p : NetworkParams) : option Net4 * option Z * option Net6 * option Z :=
  (p_network p, p_server_ip p, p_network6 p, p_server_ip6 p).

Lemma non_ip_fields_iff p q : non_ip_fields_eq p q = true <-> identity p = identity q.
Proof.
  unfold non_ip_fields_eq, identity. rewrite !andb_true_iff, !bool_decide_eq_true. split.
  - intros [[[-> ->] ->] ->]. done.
  - by intros [= -> -> -> ->].
Qed.

Definition config_changed : VpnError :=
  ServerConfigChanged (msg "VPN config changed on reconnect (was [{}], now [{}])").

Lemma last_default {A B} (f : A -> B) p x l :
  default p (f <$> last (x :: l)) = default (f x) (f <$> last l).
Proof.
  destruct l as [|y l]; [done|]. change (last (x :: y :: l)) with (last (y :: l)).
  destruct (last (y :: l)) eqn:Hl; [done|]. by apply last_None in Hl.
Qed.

(** Later handshakes of a session whose parameters are [p]. *)
Lemma check_all_from p infos :
  match check_all (Some p) infos with
  | (est, Ret _) => Forall (fun i => identity (from_server_info i) = identity p) infos /\
      est = Some (default p (from_server_info <$> last infos))
  | (est, Fail e) => e = config_changed /\ exists pre i post, infos = pre ++ i :: post /\
      Forall (fun i => identity (from_server_info i) = identity p) pre /\
      identity (from_server_info i) <> identity p /\
      est = Some (default p (from_server_info <$> last pre))
  | (_, Panic) => False
  end.
Proof.
  revert p. induction infos as [|i infos IH]; intros p; cbn [check_all check_params_against]; [by split|].
  assert (Hgo : identity (from_server_info i) = identity p ->
    match check_all (Some (from_server_info i)) infos with
    | (est, Ret _) => Forall (fun i => identity (from_server_info i) = identity p) (i :: infos) /\
        est = Some (default p (from_server_info <$> last (i :: infos)))
    | (est, Fail e) => e = config_changed /\ exists pre j post, i :: infos = pre ++ j :: post /\
        Forall (fun i => identity (from_server_info i) = identity p) pre /\
        identity (from_server_info j) <> identity p /\
        est = Some (default p (from_server_info <$> last pre))
    | (_, Panic) => False
    end).
  { intros Hi. specialize (IH (from_server_info i)). rewrite Hi in IH.
    destruct (check_all (Some (from_server_info i)) infos) as [est [[]|e|]]; [|..|done].
    - destruct IH as [Hall ->]. split; [by constructor|]. by rewrite last_default.
    - destruct IH as (-> & pre & j & post & -> & Hall & Hne & ->). split; [done|].
      exists (i :: pre), j, post. split_and!; try done; [by constructor|]. by rewrite last_default. }
  case_decide as Hd; [subst p; by apply Hgo|].
  destruct (non_ip_fields_eq p (from_server_info i)) eqn:Hn.
  - apply non_ip_fields_iff in Hn. by apply Hgo.
  - split; [done|]. exists [], i, infos. split_and!; try done.
    intros He. by rewrite (proj2 (non_ip_fields_iff _ _) (eq_sym He)) in Hn.
Qed.

(** A client session keeps its network identity: across any sequence of
    handshakes the client goes on exactly as long as network and gateway of
    both families are those of the first one, adopting each newly assigned
    address, and the first deviation is reported as a configuration change,
    which is not retried, with the baseline left at the last accepted
    parameters. *)
Theorem session_identity_kept first infos :
  match check_all None (first :: infos) with
  | (est, Ret _) =>
      Forall (fun i => identity (from_server_info i) = identity (from_server_info first)) infos /\
      est = from_server_info <$> last (first :: infos)
  | (est, Fail e) => e = config_changed /\ is_recoverable e = false /\
      exists pre i post, infos = pre ++ i :: post /\
        Forall (fun i => identity (from_server_info i) = identity (from_server_info first)) pre /\
        identity (from_server_info i) <> identity (from_server_info first) /\
        est = from_server_info <$> last (first :: pre)
  | (_, Panic) => False
  end.
Proof.
  cbn [check_all check_params_against]. pose proof (check_all_from (from_server_info first) infos) as Hc.
  assert (Hl : forall l, Some (default (from_server_info first) (from_server_info <$> last l)) =
    from_server_info <$> last (first :: l)).
  { intros l. rewrite <-(last_default from_server_info (from_server_info first)).
    destruct (last (first :: l)) eqn:Hx; [done|]. by apply last_None in Hx. }
  destruct (check_all (Some (from_server_info first)) infos) as [est [[]|e|]]; [|..|done].
  - destruct Hc as [Hall ->]. by rewrite Hl.
  - destruct Hc as (-> & pre & i & post & -> & Hall & Hne & ->).
    split; [done|]. split; [done|]. exists pre, i, post. by rewrite Hl.
Qed.
End Params.

(** ** Backoff *)

Definition BACKOFF_BASE_MS : Z := 1000.
Definition BACKOFF_MAX_MS : Z := 60000.
Definition BACKOFF_JITTER_MS : Z := 500.

(** [saturating_add], [saturating_mul] and [saturating_pow] of a [u64]. *)
Definition sat64 (z : Z) : Z := Z.min U64_MAX z.

(** [calculate_backoff_with_rng]; the jitter is drawn from
    [0..BACKOFF_JITTER_MS]. *)
Definition calculate_backoff (attempt jitter_ms : Z) : Z :=
  let multiplier := sat64 (2 ^ Z.max 0 (attempt - 1)) in
  let base_delay_ms := sat64 (BACKOFF_BASE_MS * multiplier) in
  Z.min (sat64 (base_delay_ms + jitter_ms)) BACKOFF_MAX_MS.

Lemma backoff_formula attempt j :
  (1 <= attempt)%Z -> (0 <= j < BACKOFF_JITTER_MS)%Z ->
  calculate_backoff attempt j = Z.min (1000 * 2 ^ (attempt - 1) + j) 60000.
Proof.
  intros Ha Hj. unfold calculate_backoff, sat64, BACKOFF_BASE_MS, BACKOFF_MAX_MS, BACKOFF_JITTER_MS in *.
  rewrite (Z.max_r 0 (attempt - 1)) by lia.
  assert (0 < 2 ^ (attempt - 1))%Z by (apply Z.pow_pos_nonneg; lia). unfold U64_MAX. lia.
Qed.

Lemma backoff_bounds attempt j :
  (0 <= attempt)%Z -> (0 <= j < BACKOFF_JITTER_MS)%Z ->
  (1000 <= calculate_backoff attempt j <= 60000)%Z.
Proof.
  intros Ha Hj. unfold calculate_backoff, sat64, BACKOFF_BASE_MS, BACKOFF_MAX_MS, BACKOFF_JITTER_MS in *.
  assert (1 <= 2 ^ Z.max 0 (attempt - 1))%Z.
  { pose proof (Z.pow_pos_nonneg 2 (Z.max 0 (attempt - 1))). lia. }
  unfold U64_MAX. lia.
Qed.

(** ** The reconnect loop *)

(** One iteration: what [connect] returned and the jitter drawn after it. *)
Record attempt : Type := mkAttempt { result : VpnError + unit; jitter : Z }.

Definition is_connection_lost (e : VpnError) : bool :=
  match e with ConnectionLost _ => true | _ => false end.

(** [failures] after a recoverable error. *)
Definition next_failures (failures : Z) (e : VpnError) : Z :=
  Z.min U32_MAX ((if is_connection_lost e then 0 else failures) + 1).

(** The delays slept and the return value, if the loop ends within the given
    attempts. *)
Fixpoint run_with_reconnect (max_attempts : option Z) (failures : Z) (attempts : list attempt)
  : list Z * option (vres unit) :=
  match attempts with
  | [] => ([], None)
  | a :: rest =>
      match result a with
      | inr _ => ([], Some (Ret tt))
      | inl e =>
          if is_recoverable e then
            let failures := next_failures failures e in
            if (match max_attempts with Some max => (max <? failures)%Z | None => false end)
            then ([], Some (Fail (MaxReconnectAttemptsExceeded (default 0%Z max_attempts))))
            else
              let delay := calculate_backoff failures (jitter a) in
              let (delays, r) := run_with_reconnect max_attempts failures rest in
              (delay :: delays, r)
          else ([], Some (Fail e))
      end
  end.

(** The attempts after which the loop goes on, starting with [failures]. *)
Fixpoint keeps_trying (max_attempts : option Z) (failures : Z) (attempts : list attempt) : Prop :=
  match attempts with
  | [] => True
  | a :: rest =>
      exists e, result a = inl e /\ is_recoverable e = true /\
        (forall max, max_attempts = Some max -> next_failures failures e <= max)%Z /\
        keeps_trying max_attempts (next_failures failures e) rest
  end.

(** Failures in the current outage, and the delays, along attempts. *)
Fixpoint outage (failures : Z) (attempts : list attempt) : Z :=
  match attempts with
  | [] => failures
  | a :: rest => outage (match result a with inl e => next_failures failures e | inr _ => failures end) rest
  end.

Fixpoint delays_of (failures : Z) (attempts : list attempt) : list Z :=
  match attempts with
  | [] => []
  | a :: rest =>
      match result a with
      | inl e => calculate_backoff (next_failures failures e) (jitter a)
                   :: delays_of (next_failures failures e) rest
      | inr _ => []
      end
  end.

Lemma run_keeps_trying max f pre post :
  keeps_trying max f pre ->
  run_with_reconnect max f (pre ++ post) =
    let (delays, r) := run_with_reconnect max (outage f pre) post in (delays_of f pre ++ delays, r).
Proof.
  revert f. induction pre as [|a pre IH]; intros f Hk.
  { cbn [app outage delays_of]. by destruct (run_with_reconnect max f post). }
  destruct Hk as (e & Hr & Hrec & Hcap & Hk). cbn [app run_with_reconnect outage delays_of].
  rewrite Hr, Hrec, (IH _ Hk).
  assert (Hc : (match max with Some max => (max <? next_failures f e)%Z | None => false end) = false).
  { destruct max as [m|]; [|done]. apply Z.ltb_ge. by apply Hcap. }
  rewrite Hc. by destruct (run_with_reconnect max (outage (next_failures f e) pre) post).
Qed.

Lemma next_failures_pos f e : (0 <= f)%Z -> (1 <= next_failures f e <= U32_MAX)%Z.
Proof. intros. unfold next_failures, U32_MAX. destruct (is_connection_lost e); lia. Qed.

Lemma delays_bounded max f pre :
  (0 <= f)%Z -> keeps_trying max f pre -> Forall (fun a => 0 <= jitter a < BACKOFF_JITTER_MS)%Z pre ->
  Forall (fun d => 1000 <= d <= 60000)%Z (delays_of f pre) /\ length (delays_of f pre) = length pre.
Proof.
  revert f. induction pre as [|a pre IH]; intros f Hf Hk Hj; [by split|].
  destruct Hk as (e & Hr & _ & _ & Hk). inversion_clear Hj as [|?? Ha Hp].
  cbn [delays_of]. rewrite Hr. pose proof (next_failures_pos f e Hf) as Hn.
  destruct (IH (next_failures f e) ltac:(lia) Hk Hp) as [H1 H2]. split; [|cbn; by rewrite H2].
  constructor; [|done]. apply backoff_bounds; [lia|done].
Qed.

(** Every recoverable error keeps an unlimited client trying. *)
Lemma keeps_trying_unlimited f pre :
  Forall (fun a => exists e, result a = inl e /\ is_recoverable e = true) pre ->
  keeps_trying None f pre.
Proof.
  revert f. induction pre as [|a pre IH]; intros f Hp; [done|].
  inversion_clear Hp as [|?? (e & Hr & Hrec) Hrest]. exists e. split_and!; try done. by apply IH.
Qed.

(** The reconnect loop, exactly: while every attempt fails recoverably and
    no outage has used up the retries, the loop sleeps once per failure, for
    between one second and one minute according to the number of failures in
    the current outage (an established connection that drops starts a new
    one); then a graceful end returns success, an error that is not
    recoverable is returned at once, and a recoverable failure beyond the cap
    returns [MaxReconnectAttemptsExceeded]; without a cap the loop never gives
    up on recoverable errors. *)
Theorem reconnect_loop_exact max pre a post :
  keeps_trying max 0 pre ->
  Forall (fun x => 0 <= jitter x < BACKOFF_JITTER_MS)%Z pre ->
  let delays := delays_of 0 pre in
  run_with_reconnect max 0 pre = (delays, None) /\
  Forall (fun d => 1000 <= d <= 60000)%Z delays /\ length delays = length pre /\
  (result a = inr tt -> run_with_reconnect max 0 (pre ++ a :: post) = (delays, Some (Ret tt))) /\
  (forall e, result a = inl e -> is_recoverable e = false ->
     run_with_reconnect max 0 (pre ++ a :: post) = (delays, Some (Fail e))) /\
  (forall e m, result a = inl e -> is_recoverable e = true -> max = Some m ->
     (m < next_failures (outage 0 pre) e)%Z ->
     run_with_reconnect max 0 (pre ++ a :: post) = (delays, Some (Fail (MaxReconnectAttemptsExceeded m)))) /\
  (forall l, Forall (fun x => exists e, result x = inl e /\ is_recoverable e = true) l ->
     (run_with_reconnect None 0 l).2 = None).
Proof.
  intros Hk Hj delays. pose proof (delays_bounded max 0 pre ltac:(lia) Hk Hj) as [Hd Hl].
  pose proof (run_keeps_trying max 0 pre) as Hrun. split_and!; try done.
  - specialize (Hrun [] Hk). rewrite app_nil_r in Hrun. rewrite Hrun. cbn. by rewrite app_nil_r.
  - intros Ha. rewrite (Hrun (a :: post) Hk). cbn [run_with_reconnect]. rewrite Ha. by rewrite app_nil_r.
  - intros e Ha Hrec. rewrite (Hrun (a :: post) Hk). cbn [run_with_reconnect]. rewrite Ha, Hrec.
    by rewrite app_nil_r.
  - intros e m Ha Hrec -> Hm. rewrite (Hrun (a :: post) Hk). cbn [run_with_reconnect]. rewrite Ha, Hrec.
    rewrite (proj2 (Z.ltb_lt _ _) Hm). by rewrite app_nil_r.
  - intros l Hall. pose proof (run_keeps_trying None 0 l [] (keeps_trying_unlimited 0 l Hall)) as Hr.
    rewrite app_nil_r in Hr. by rewrite Hr.
Qed.

(** ** Evaluation *)

Definition failed (e : VpnError) : attempt := mkAttempt (inl e) 250.
Definition sample_attempts : list attempt :=
  [failed (Signaling (msg "")); failed (Network (msg "")); failed (ConnectionLost (msg ""))].

Lemma reconnect_loop_exact_witness :
  delays_of 0 sample_attempts = [1250; 2250; 1250]%Z /\
  run_with_reconnect (Some 2%Z) 0 (sample_attempts ++
    [failed (Config (msg "bad"))]) = ([1250; 2250; 1250]%Z, Some (Fail (Config (msg "bad")))).
Proof.
  split; [reflexivity|].
  destruct (reconnect_loop_exact (Some 2%Z) sample_attempts (failed (Config (msg "bad"))) [])
    as (_ & _ & _ & _ & Hfatal & _).
  - repeat (eexists; split; [reflexivity|]; split; [reflexivity|]; split;
      [intros m Hm; injection Hm as <-; vm_compute; discriminate|]). exact I.
  - repeat constructor; vm_compute; (discriminate || reflexivity).
  - exact (Hfatal _ eq_refl eq_refl).
Defined.
