(* ===== verification/TunWriter.v ===== *)
(** * Writing to the TUN device

    [TunWriter] of [src/net/device.rs] on platforms with vnet headers, and the
    tasks that own it: the client's ([run_tunnel] in [src/tunnel/client.rs],
    which gives up after ten consecutive failures) and the server's ([run] in
    [src/tunnel/server.rs], which does not). *)

From S2P Require Import Prelude Errors Checksum Offload Coalesce Forward.

Record TunWriter : Type := mkTunWriter {
  w_vnet_hdr_enabled : bool;
  w_offload_enabled : bool;
}.

Section Writer.
(* the device *)
Context {W : Type} (write_all : W -> list Z -> W * vres unit).

Definition tun_error (e : offload_error) : VpnError := VpnError_tun_device (msg "offload").

Definition write_packet (self : TunWriter) (dev : W) (offload : option VirtioNetHdr)
    (ip_packet : list Z) : W * vres unit :=
  if negb (w_vnet_hdr_enabled self) then
    match offload with
    | Some _ => (dev, Fail (VpnError_tun_device
        (msg "received offload metadata but local TUN does not use vnet headers")))
    | None =>
        match ip_packet with
        | [] => (dev, Fail (VpnError_tun_device (msg "cannot compose TUN frame with empty IP payload")))
        | _ => write_all dev ip_packet
        end
    end
  else
    match map_err tun_error (compose_tun_frame (w_vnet_hdr_enabled self) offload ip_packet) with
    | Ret frame => write_all dev frame
    | Fail e => (dev, Fail e)
    | Panic => (dev, Panic)
    end.

(** [for packet in batch { self.write_packet(None, packet).await?; }] *)
Fixpoint write_each (self : TunWriter) (dev : W) (batch : list (list Z)) : W * vres unit :=
  match batch with
  | [] => (dev, Ret tt)
  | packet :: rest =>
      match write_packet self dev None packet with
      | (dev, Ret _) => write_each self dev rest
      | r => r
      end
  end.

Fixpoint write_planned_groups (self : TunWriter) (dev : W) (batch : list (list Z))
    (groups : list (nat * nat * bool)) : W * vres unit :=
  match groups with
  | [] => (dev, Ret tt)
  | (start, stop, coalesce) :: rest =>
      let r :=
        if negb coalesce then
          match batch !! start with
          | Some packet => write_packet self dev None packet
          | None => (dev, Panic)
          end
        else
          let segs := take (stop - start) (drop start batch) in
          match assemble_tcp_gso_superframe segs with
          | Ret frame => write_all dev frame
          | Fail _ => write_each self dev segs
          | Panic => (dev, Panic)
          end in
      match r with
      | (dev, Ret _) => write_planned_groups self dev batch rest
      | r => r
      end
  end.

Definition write_batch (self : TunWriter) (dev : W) (batch : list (list Z)) : W * vres unit :=
  if negb (w_vnet_hdr_enabled self) || negb (w_offload_enabled self) then write_each self dev batch
  else match plan_tun_write_groups batch with
       | Ret groups => write_planned_groups self dev batch groups
       | _ => (dev, Panic)
       end.

(** ** What is written *)

(** Writing frames one after the other, stopping at the first failure. *)
Fixpoint write_frames_seq (dev : W) (frames : list (list Z)) : W * vres unit :=
  match frames with
  | [] => (dev, Ret tt)
  | f :: rest =>
      match write_all dev f with
      | (dev, Ret _) => write_frames_seq dev rest
      | r => r
      end
  end.

(** The packets a frame carries to the kernel. *)
Definition carries (self : TunWriter) (frame : list Z) (packets : list (list Z)) : Prop :=
  (exists p, packets = [p] /\ split_tun_frame frame (w_vnet_hdr_enabled self) = Ret (None, p)) \/
  (w_vnet_hdr_enabled self = true /\ w_offload_enabled self = true /\ group_ok packets /\
   assemble_tcp_gso_superframe packets = Ret frame).

(** The frame of a plain packet. *)
Definition plain_frame (self : TunWriter) (p : list Z) : list Z :=
  if w_vnet_hdr_enabled self then to_bytes VirtioNetHdr_default ++ p else p.

Lemma write_packet_plain self dev p :
  p <> [] -> write_packet self dev None p = write_all dev (plain_frame self p).
Proof.
  intros Hp. unfold write_packet, plain_frame.
  destruct (w_vnet_hdr_enabled self); cbn [negb]; by destruct p.
Qed.

Lemma plain_frame_carries self p : p <> [] -> carries self (plain_frame self p) [p].
Proof.
  intros Hp. left. exists p. split; [done|]. unfold plain_frame.
  destruct (w_vnet_hdr_enabled self); [|by destruct p].
  rewrite split_encoded; [done| |done|done]. repeat constructor; done.
Qed.

Lemma write_each_seq self dev batch :
  Forall (fun p => p <> []) batch ->
  write_each self dev batch = write_frames_seq dev (map (plain_frame self) batch).
Proof.
  intros Hb. revert dev. induction Hb as [|p batch Hp Hb IH]; intros dev; [done|].
  cbn [write_each write_frames_seq map]. rewrite write_packet_plain by done.
  destruct (write_all dev (plain_frame self p)) as [dev' [[]|e|]]; [apply IH|done|done].
Qed.

Lemma planned_groups_seq self batch groups i :
  w_vnet_hdr_enabled self = true -> w_offload_enabled self = true ->
  Forall (fun p => p <> []) batch -> Forall bytes_ok batch ->
  tiles i (length batch) groups ->
  Forall (fun '(s, e, coalesce) =>
    if coalesce : bool then group_ok (take (e - s) (drop s batch)) else e = (s + 1)%nat) groups ->
  exists frames parts, concat parts = drop i batch /\ Forall2 (carries self) frames parts /\
    forall dev, write_planned_groups self dev batch groups = write_frames_seq dev frames.
Proof.
  intros Hv Ho Hne Hb Ht Hg. revert i Ht. induction Hg as [|[[s e] co] groups Hgr Hg IH]; intros i Ht.
  { exists [], []. cbn [tiles] in Ht. subst. split; [|by split]. cbn. by rewrite drop_all. }
  cbn [tiles] in Ht. destruct Ht as (-> & Hse & Ht).
  destruct (IH e Ht) as (frames & parts & Hc & Hf & Hw).
  assert (He : (e <= length batch)%nat).
  { clear -Ht. revert e Ht. induction groups as [|[[s' e'] c'] groups IHg]; intros e; cbn [tiles].
    - by intros ->.
    - intros (-> & ? & ?). specialize (IHg e' ltac:(done)). lia. }
  assert (Hsplit : drop i batch = take (e - i) (drop i batch) ++ drop e batch).
  { rewrite <-(take_drop (e - i) (drop i batch)) at 1. rewrite drop_drop. do 2 f_equal. lia. }
  destruct co.
  - destruct (assemble_spec _ Hgr) as (first & ip & _ & Ha & _); [by apply Forall_take, Forall_drop|].
    exists ((to_bytes (superframe_hdr first) ++ ip) :: frames), (take (e - i) (drop i batch) :: parts).
    split; [cbn [concat]; by rewrite Hc, <-Hsplit|]. split.
    + constructor; [|done]. right. done.
    + intros dev. cbn [write_planned_groups negb write_frames_seq]. rewrite Ha.
      destruct (write_all dev _) as [dev' [[]|x|]]; [apply Hw|done|done].
  - subst e. destruct (lookup_lt_is_Some_2 batch i ltac:(lia)) as [p Hp].
    assert (Hpne : p <> []) by (by eapply Forall_lookup_1 in Hne).
    exists (plain_frame self p :: frames), ([p] :: parts).
    assert (Htk : take (i + 1 - i) (drop i batch) = [p]).
    { replace (i + 1 - i)%nat with 1%nat by lia. by rewrite (drop_S _ _ _ Hp). }
    split; [cbn [concat]; by rewrite Hc, Hsplit, Htk|]. split.
    + constructor; [by apply plain_frame_carries|done].
    + intros dev. cbn [write_planned_groups negb write_frames_seq]. rewrite Hp.
      rewrite write_packet_plain by done.
      destruct (write_all dev _) as [dev' [[]|x|]]; [apply Hw|done|done].
Qed.

(** C23. Writing a batch of packets writes, on any device, a sequence of frames
    stopping at the first failed write, and these frames carry exactly the
    batch: each one is a plain packet that reads back as that packet, or a
    super-frame assembled from a coalescible run of consecutive packets, and
    the packets carried, in order, are the batch. Super-frames occur only when
    the device has both vnet headers and offload. *)
Theorem write_batch_carries self batch :
  Forall (fun p => p <> []) batch -> Forall bytes_ok batch ->
  exists frames parts, concat parts = batch /\ Forall2 (carries self) frames parts /\
    forall dev, write_batch self dev batch = write_frames_seq dev frames.
Proof.
  intros Hne Hb. unfold write_batch.
  destruct (negb (w_vnet_hdr_enabled self) || negb (w_offload_enabled self)) eqn:Hm.
  - exists (map (plain_frame self) batch), (map (fun p => [p]) batch). split_and!.
    + clear. induction batch as [|p l IH]; [done|]. cbn. by f_equal.
    + clear Hb. induction Hne as [|p l Hp Hl IH]; cbn [map]; constructor; [by apply plain_frame_carries|done].
    + intros dev. by apply write_each_seq.
  - apply orb_false_iff in Hm as [Hv Ho]. apply negb_false_iff in Hv, Ho.
    destruct (plan_loop_spec (length batch) 0 batch batch) as (groups & Hp & Ht & Hg);
      [by rewrite drop_0 | lia | lia |].
    assert (Hplan : plan_tun_write_groups batch = Ret groups) by exact Hp.
    destruct (planned_groups_seq self batch groups 0 Hv Ho Hne Hb Ht Hg) as (frames & parts & Hc & Hf & Hw).
    exists frames, parts. by rewrite Hplan.
Qed.

(** ** The writer tasks *)

(** A call to the writer: a run of plain packets, or one with metadata. *)
Inductive tun_write : Type :=
| WriteRun (packets : list (list Z))
| WriteOne (meta : VirtioNetHdr) (packet : list Z).

Definition perform (self : TunWriter) (dev : W) (c : tun_write) : W * vres unit :=
  match c with
  | WriteRun packets => write_batch self dev packets
  | WriteOne meta packet => write_packet self dev (Some meta) packet
  end.

Definition MAX_TUN_WRITE_FAILURES : Z := 10.

(** The closure [note_write_result]: the counter, and whether to disconnect. *)
Definition note_write_result (consecutive_tun_failures : Z) (result : vres unit) : Z * bool :=
  match result with
  | Ret _ => (0%Z, false)
  | _ =>
      let n := (consecutive_tun_failures + 1)%Z in
      (n, (MAX_TUN_WRITE_FAILURES <=? n)%Z)
  end.

(** One call and its bookkeeping: device, counter, whether to stop. *)
Definition client_call (self : TunWriter) (st : W * Z) (c : tun_write) : W * Z * bool :=
  let (dev, r) := perform self st.1 c in
  let (n, stop) := note_write_result st.2 r in
  (dev, n, stop).

(** The loop body of both tasks over one drained batch, for a step that says
    whether to stop: plain packets are collected, and flushed before a packet
    with metadata and at the end. *)
Fixpoint drain_batch {S} (step : S -> tun_write -> S * bool) (s : S) (plain_run : list (list Z))
    (batch : list TunWriteRequest) : S * bool :=
  match batch with
  | [] =>
      match plain_run with
      | [] => (s, false)
      | _ => step s (WriteRun plain_run)
      end
  | req :: rest =>
      match req_offload req with
      | None => drain_batch step s (plain_run ++ [req_packet req]) rest
      | Some meta =>
          let (s, stop) := match plain_run with
                           | [] => (s, false)
                           | _ => step s (WriteRun plain_run)
                           end in
          if stop : bool then (s, true) else
          let (s, stop) := step s (WriteOne meta (req_packet req)) in
          if stop : bool then (s, true) else drain_batch step s [] rest
      end
  end.

Fixpoint drain_all {S} (step : S -> tun_write -> S * bool) (s : S)
    (batches : list (list TunWriteRequest)) : S * bool :=
  match batches with
  | [] => (s, false)
  | batch :: rest =>
      let (s, stop) := drain_batch step s [] batch in
      if stop : bool then (s, true) else drain_all step s rest
  end.

(** The client's task over the batches it receives. *)
Definition client_tun_writer (self : TunWriter) (dev : W) (batches : list (list TunWriteRequest))
  : W * Z * bool :=
  drain_all (fun st c => client_call self st c) (dev, 0%Z) batches.

(** The server's: every failure is counted and none stops it. *)
Definition server_call (self : TunWriter) (st : W * VpnServerStats) (c : tun_write)
  : W * VpnServerStats * bool :=
  let (dev, r) := perform self st.1 c in
  (dev, match r with Ret _ => st.2 | _ => inc_write_failed st.2 end, false).

Definition server_tun_writer (self : TunWriter) (dev : W) (stats : VpnServerStats)
    (batches : list (list TunWriteRequest)) : W * VpnServerStats * bool :=
  drain_all (fun st c => server_call self st c) (dev, stats) batches.

(** The calls a batch leads to, and the packets of a call. *)
Fixpoint calls_of (plain_run : list (list Z)) (batch : list TunWriteRequest) : list tun_write :=
  let flush := match plain_run with [] => [] | _ => [WriteRun plain_run] end in
  match batch with
  | [] => flush
  | req :: rest =>
      match req_offload req with
      | None => calls_of (plain_run ++ [req_packet req]) rest
      | Some meta => flush ++ WriteOne meta (req_packet req) :: calls_of [] rest
      end
  end.

Definition packets_of (c : tun_write) : list (list Z) :=
  match c with WriteRun l => l | WriteOne _ p => [p] end.

Lemma calls_of_packets run batch :
  concat (map packets_of (calls_of run batch)) = run ++ map req_packet batch.
Proof.
  revert run. induction batch as [|req batch IH]; intros run; cbn [calls_of map].
  { destruct run; [done|]. cbn. by rewrite app_nil_r. }
  destruct (req_offload req) as [meta|].
  - rewrite map_app, concat_app. cbn [map concat packets_of]. rewrite IH. cbn [app].
    destruct run; [done|]. cbn [map concat packets_of]. by rewrite app_nil_r.
  - rewrite IH. by rewrite <-app_assoc.
Qed.

(** All batches. *)
Lemma concat_calls_packets batches :
  concat (map packets_of (concat (map (calls_of []) batches))) = map req_packet (concat batches).
Proof.
  induction batches as [|b l IH]; [done|]. cbn [map concat].
  rewrite map_app, concat_app, IH, calls_of_packets. by rewrite map_app.
Qed.

(** Running a list of calls until one stops. *)
Fixpoint run_calls {S} (step : S -> tun_write -> S * bool) (s : S) (cs : list tun_write) : S * bool :=
  match cs with
  | [] => (s, false)
  | c :: rest => let (s, stop) := step s c in if stop : bool then (s, true) else run_calls step s rest
  end.

Lemma run_calls_app {S} (step : S -> tun_write -> S * bool) s a b :
  run_calls step s (a ++ b) =
    let (s, stop) := run_calls step s a in if stop : bool then (s, true) else run_calls step s b.
Proof.
  revert s. induction a as [|c a IH]; intros s; [done|]. cbn [app run_calls].
  destruct (step s c) as [s' []]; [done|apply IH].
Qed.

Lemma drain_batch_calls {S} (step : S -> tun_write -> S * bool) s run batch :
  drain_batch step s run batch = run_calls step s (calls_of run batch).
Proof.
  revert s run. induction batch as [|req batch IH]; intros s run; cbn [drain_batch calls_of].
  { destruct run; [done|]. cbn [run_calls]. by destruct (step s _) as [s' []]. }
  destruct (req_offload req) as [meta|]; [|apply IH].
  rewrite run_calls_app. destruct run as [|p run]; cbn [run_calls].
  - destruct (step s _) as [s' []]; [done|apply IH].
  - destruct (step s (WriteRun (p :: run))) as [s1 []]; [done|].
    destruct (step s1 _) as [s2 []]; [done|apply IH].
Qed.

Lemma drain_all_calls {S} (step : S -> tun_write -> S * bool) s batches :
  drain_all step s batches = run_calls step s (concat (map (calls_of []) batches)).
Proof.
  revert s. induction batches as [|b batches IH]; intros s; [done|]. cbn [drain_all map concat].
  rewrite run_calls_app, drain_batch_calls.
  destruct (run_calls step s (calls_of [] b)) as [s' []]; [done|apply IH].
Qed.

(** The results of calls performed one after the other. *)
Fixpoint results (self : TunWriter) (dev : W) (cs : list tun_write) : W * list (vres unit) :=
  match cs with
  | [] => (dev, [])
  | c :: rest =>
      let (dev, r) := perform self dev c in
      let (dev, rs) := results self dev rest in
      (dev, r :: rs)
  end.

(** Failures at the end of a list of results, after [n] earlier ones. *)
Fixpoint trailing (n : Z) (rs : list (vres unit)) : Z :=
  match rs with [] => n | r :: rest => trailing (if is_ret r then 0 else n + 1)%Z rest end.

Lemma client_run self cs : forall dev n, (0 <= n < MAX_TUN_WRITE_FAILURES)%Z ->
  exists head tail, cs = head ++ tail /\
    let '(dev', rs) := results self dev head in
    let '(dev1, n1, stop) := run_calls (fun st c => client_call self st c) (dev, n) cs in
    dev1 = dev' /\ n1 = trailing n rs /\
    (if stop : bool then n1 = MAX_TUN_WRITE_FAILURES
     else tail = [] /\ (n1 < MAX_TUN_WRITE_FAILURES)%Z).
Proof.
  induction cs as [|c cs IH]; intros dev n Hn; cbn [run_calls].
  { exists [], []. cbn [results trailing]. split_and!; try done. apply Hn. }
  unfold client_call at 1. cbn [fst snd]. destruct (perform self dev c) as [dev1 r] eqn:Hp.
  assert (Hgo : forall m, m = (if is_ret r then 0 else n + 1)%Z -> (0 <= m < MAX_TUN_WRITE_FAILURES)%Z ->
    exists (head tail : list tun_write), c :: cs = head ++ tail /\
      let '(dev', rs) := results self dev head in
      let '(dev2, n1, stop) := run_calls (fun st c => client_call self st c) (dev1, m) cs in
      dev2 = dev' /\ n1 = trailing n rs /\
      (if stop : bool then n1 = MAX_TUN_WRITE_FAILURES else tail = [] /\ (n1 < MAX_TUN_WRITE_FAILURES)%Z)).
  { intros m Hm Hr. destruct (IH dev1 m Hr) as (head & tail & -> & Hh). exists (c :: head), tail.
    split; [done|]. cbn [results]. rewrite Hp. destruct (results self dev1 head) as [dev' rs].
    cbn [trailing]. rewrite <-Hm. done. }
  destruct r as [[]|e|]; cbn [note_write_result].
  - apply (Hgo 0%Z); [done|]. unfold MAX_TUN_WRITE_FAILURES. lia.
  - destruct (Z.leb_spec MAX_TUN_WRITE_FAILURES (n + 1)) as [Hs|Hs]; [|apply Hgo; [done|lia]].
    exists [c], cs. split; [done|]. cbn [results]. rewrite Hp. cbn [trailing is_ret]. split_and!; try done. lia.
  - destruct (Z.leb_spec MAX_TUN_WRITE_FAILURES (n + 1)) as [Hs|Hs]; [|apply Hgo; [done|lia]].
    exists [c], cs. split; [done|]. cbn [results]. rewrite Hp. cbn [trailing is_ret]. split_and!; try done. lia.
Qed.

(** The server makes every call; only the failures are counted. *)
Lemma server_run self cs : forall dev stats,
  let '(dev', rs) := results self dev cs in
  let '(dev1, stats', stop) := run_calls (fun st c => server_call self st c) (dev, stats) cs in
  dev1 = dev' /\ stop = false /\
  packets_tun_write_failed stats' =
    (packets_tun_write_failed stats + Z.of_nat (length (filter (fun r => is_ret r = false) rs)))%Z /\
  packets_from_clients stats' = packets_from_clients stats.
Proof.
  induction cs as [|c cs IH]; intros dev stats; cbn [results run_calls].
  { split_and!; try done. cbn. lia. }
  unfold server_call at 1. cbn [fst snd]. destruct (perform self dev c) as [dev1 r].
  specialize (IH dev1 (match r with Ret _ => stats | _ => inc_write_failed stats end)).
  destruct (results self dev1 cs) as [dev' rs].
  destruct (run_calls _ (dev1, _) cs) as [[dev2 stats'] stop].
  destruct IH as (-> & -> & -> & ->). rewrite filter_cons.
  destruct r as [[]|e|]; cbn [is_ret]; [rewrite decide_False by done; done|..];
    rewrite decide_True by done; destruct stats; cbn; split_and!; try done; lia.
Qed.

(** The TUN writer tasks write every received packet in order: the calls
    they make to the device, over all received batches, cover the requests'
    packets in the order received, plain ones in runs. The client makes
    exactly those calls until ten in a row have failed, and only then
    disconnects; the server makes all of them and counts each failure. *)
Theorem tun_writer_tasks_exact self dev stats batches :
  let calls := concat (map (calls_of []) batches) in
  concat (map packets_of calls) = map req_packet (concat batches) /\
  (exists (head tail : list tun_write), calls = head ++ tail /\
     let '(dev', rs) := results self dev head in
     let '(dev1, n, stop) := client_tun_writer self dev batches in
     dev1 = dev' /\ n = trailing 0 rs /\
     if stop : bool then n = MAX_TUN_WRITE_FAILURES else tail = [] /\ (n < MAX_TUN_WRITE_FAILURES)%Z) /\
  (let '(dev', rs) := results self dev calls in
   let '(dev1, stats', stop) := server_tun_writer self dev stats batches in
   dev1 = dev' /\ stop = false /\
   packets_tun_write_failed stats' =
     (packets_tun_write_failed stats + Z.of_nat (length (filter (fun r => is_ret r = false) rs)))%Z).
Proof.
  intros calls. split; [|split].
  - apply concat_calls_packets.
  - unfold client_tun_writer. rewrite drain_all_calls. fold calls.
    apply client_run. unfold MAX_TUN_WRITE_FAILURES. lia.
  - unfold server_tun_writer. rewrite drain_all_calls. fold calls. pose proof (server_run self calls dev stats) as Hr.
    destruct (results self dev calls) as [dev' rs]. destruct (run_calls _ (dev, stats) calls) as [[dev2 stats'] stop].
    by destruct Hr as (-> & -> & -> & _).
Qed.
End Writer.

(** ** Evaluation *)

Lemma write_batch_carries_witness :
  exists frames parts, concat parts = sample_batch /\
    Forall2 (carries (mkTunWriter true true)) frames parts /\
    write_batch (fun (w : list (list Z)) f => (w ++ [f], Ret tt)) (mkTunWriter true true) [] sample_batch =
    write_frames_seq (fun (w : list (list Z)) f => (w ++ [f], Ret tt)) [] frames.
Proof.
  destruct (write_batch_carries (fun (w : list (list Z)) f => (w ++ [f], Ret tt))
    (mkTunWriter true true) sample_batch) as (frames & parts & Hc & Hf & Hw).
  - repeat constructor; discriminate.
  - repeat constructor; vm_compute; congruence.
  - exists frames, parts. split; [exact Hc|]. split; [exact Hf|]. apply Hw.
Defined.
