(* ===== verification/Halves.v ===== *)
(** * The halves of a TUN device ([TunDevice::split] of [src/net/device.rs])

    On Linux and Windows, where the [tun] crate splits the device: the reader
    and the writer the data path works with, for the device [TunDevice::create]
    made. *)

From S2P Require Import Prelude Errors Net DeviceRoutes Offload Device Outbound Utun Buffer TunWriter.

(** The reader with the size of the buffer to read into, and the writer. *)
Record Halves : Type := mkTunHalves {
  h_reader : TunReader;
  h_buffer_size : Z;
  h_reader_status : TunOffloadStatus;
  h_writer : TunWriter;
  h_writer_status : TunOffloadStatus;
}.

(** [device_splits]: whether the crate splits its device. *)
Definition TunDevice_split (self : TunDevice) (device_splits : bool) : vres Halves :=
  let buffer_size := device_buffer_size self in
  if negb device_splits then Fail (VpnError_tun_device (msg "Failed to split TUN device")) else
  Ret (mkTunHalves (mkTunReader (td_vnet_hdr_enabled self) false) buffer_size (td_offload_status self)
         (mkTunWriter (td_vnet_hdr_enabled self) (off_enabled (td_offload_status self))) (td_offload_status self)).

(** The start of [run_tunnel] in a debug build: the assertion that both halves
    have the same status. *)
Definition tunnel_halves (self : TunDevice) (device_splits : bool) : vres (Halves * bool) :=
  h ← TunDevice_split self device_splits;
  let local_gso_enabled := off_enabled (h_reader_status h) in
  if Bool.eqb local_gso_enabled (off_enabled (h_writer_status h)) then Ret (h, local_gso_enabled) else Panic.

(** The frames written, in order. *)
Definition record_frame (frames : list (list Z)) (frame : list Z) : list (list Z) * vres unit :=
  ((frames ++ [frame])%list, Ret tt).

(** The largest packet the device passes. *)
Definition packet_limit (d : TunDevice) : Z := if td_vnet_hdr_enabled d then U16_MAX else td_mtu d.

(** What a frame can carry on this device. *)
Definition carried_by (d : TunDevice) (offload : option VirtioNetHdr) : Prop :=
  match offload with
  | Some h => td_vnet_hdr_enabled d = true /\ hdr_wf h /\ num_buffers h = 0%Z /\ tun_carried h = true
  | None => True
  end.

(** What the writer of a device writes for a packet. *)
Lemma written_frame d offload p : p <> [] -> carried_by d offload ->
  exists frame,
    write_packet record_frame (mkTunWriter (td_vnet_hdr_enabled d) (off_enabled (td_offload_status d))) [] offload p =
      ([frame], Ret tt) /\
    compose_tun_frame (td_vnet_hdr_enabled d) offload p = Ret frame /\
    length frame = ((if td_vnet_hdr_enabled d then VIRTIO_NET_HDR_LEN else 0) + length p)%nat.
Proof.
  intros Hp Hc. destruct p as [|b r]; [done|]. unfold write_packet, compose_tun_frame. cbn [w_vnet_hdr_enabled].
  destruct (td_vnet_hdr_enabled d) eqn:Hv; cbn [negb andb map_err].
  - eexists. split; [done|]. split; [done|]. by rewrite length_app, to_bytes_length.
  - destruct offload as [h|]; [by destruct Hc; congruence|]. by exists (b :: r).
Qed.

(** The two halves of a device agree: the assertion at the start of the tunnel
    holds, super-frames are written only to a device that takes vnet headers,
    and whatever packet the writer is given, with metadata the device carries,
    is one frame that fits the reader's buffer and that the reader splits into
    the same metadata and packet. *)
Theorem device_halves_agree {W} `{System W} `{TunApi W} {Net4} `{NetOps V4_BITS Net4}
    wn os w config w' d h packet_information :
  TunDevice_create (Net4:=Net4) wn os w config = (w', Ret d) -> TunDevice_split d true = Ret h ->
  tunnel_halves d true = Ret (h, off_enabled (td_offload_status d)) /\
  (w_offload_enabled (h_writer h) = true -> vnet_hdr_enabled (h_reader h) = true /\ tc_enable_gso config = true) /\
  forall offload p, p <> [] -> (Z.of_nat (length p) <= packet_limit d)%Z -> carried_by d offload ->
    exists frame, write_packet record_frame (h_writer h) [] offload p = ([frame], Ret tt) /\
      frames_read (Z.to_nat (h_buffer_size h)) [inr frame] = [frame] /\
      split_frame packet_information (h_reader h) frame = Ret (offload, p).
Proof.
  intros Hcreate Hsplit. destruct (create_device_fields _ _ _ _ _ _ Hcreate) as (_ & Hvnet & Hoff).
  unfold tunnel_halves. rewrite Hsplit. cbn [mbind outcome_bind]. apply Ret_inj in Hsplit. subst h. cbn [h_reader_status h_writer_status].
  rewrite Bool.eqb_reflx. split; [done|]. split.
  { cbn [h_writer w_offload_enabled h_reader vnet_hdr_enabled]. intros Hw. destruct (Hoff Hw) as [-> ?].
    by rewrite Hvnet. }
  intros offload p Hp Hl Hc. destruct (written_frame d offload p Hp Hc) as (frame & Hw & Hf & Hlen).
  exists frame. split; [done|]. split.
  - assert (Hfit : (length frame <= Z.to_nat (device_buffer_size d))%nat).
    { rewrite Hlen. unfold packet_limit, device_buffer_size, PACKET_INFORMATION_LENGTH, U16_MAX, VIRTIO_NET_HDR_LEN in *.
      destruct (td_vnet_hdr_enabled d); lia. }
    destruct frame as [|b r]; [destruct p; [done|cbn in Hlen; lia]|].
    cbn [frames_read h_buffer_size]. unfold read_utun_frame_into.
    destruct (Nat.eqb_spec (Z.to_nat (device_buffer_size d)) 0) as [E|_]; [rewrite E in Hfit; cbn in Hfit; lia|].
    cbn [mbind outcome_bind]. by rewrite (take_ge (b :: r)) by done.
  - destruct (tun_frame_roundtrip (td_vnet_hdr_enabled d) offload p Hp) as (frame' & Hf' & Hs); [done|].
    rewrite Hf in Hf'. apply Ret_inj in Hf'. subst frame'. unfold split_frame. cbn [h_reader packet_information_enabled vnet_hdr_enabled].
    by rewrite Hs.
Qed.
