(* ===== verification/Heartbeat.v ===== *)
(** * The application heartbeat

    The client's side ([run_heartbeat] in [src/tunnel/client.rs]) and the
    server's ([run_heartbeat_responder] in [src/tunnel/server.rs]). Time is in
    milliseconds; what a side waits for is the list of things that will
    happen, with their times, so that waiting beyond its deadline ends it.
    When something happens exactly at the deadline, it is taken to come
    first. *)

From S2P Require Import Prelude Errors Net Signaling Stream.

Definition HEARTBEAT_INTERVAL : Z := 10000.
Definition HEARTBEAT_TIMEOUT : Z := 30000.

(** ** Server *)

(** The outcomes of [read_frame] on the control stream. *)
Inductive control_read : Type :=
| CtrlFrame (body : list Z)
| CtrlFinished
| CtrlError.

Inductive close_reason : Type := ControlFinished | ControlError | HeartbeatTimedOut.

(** The pongs handed to the control writer, and why and when the connection is
    closed. *)
Fixpoint run_heartbeat_responder (deadline : Z) (reads : list (Z * control_read))
  : list (list Z) * (close_reason * Z) :=
  match reads with
  | [] => ([], (HeartbeatTimedOut, deadline))
  | (t, r) :: rest =>
      if (deadline <? t)%Z then ([], (HeartbeatTimedOut, deadline)) else
      match r with
      | CtrlFinished => ([], (ControlFinished, t))
      | CtrlError => ([], (ControlError, t))
      | CtrlFrame body =>
          match classify body with
          | Ret (FPing seq) =>
              let (pongs, c) := run_heartbeat_responder (t + HEARTBEAT_TIMEOUT) rest in
              (encode_heartbeat_frame Pong seq :: pongs, c)
          | _ => run_heartbeat_responder deadline rest
          end
      end
  end.

(** ** Client *)

Inductive beat : Type :=
| Tick (write_ok : bool)      (* the interval elapses; whether the write succeeds *)
| PongIn (seq : Z).           (* the control task hands over a pong *)

Inductive beat_end : Type := SendFailed | NoReply.

(** The sequence numbers sent, and how and when the heartbeat ends. *)
Fixpoint run_heartbeat (deadline seq : Z) (beats : list (Z * beat)) : list Z * (beat_end * Z) :=
  match beats with
  | [] => ([], (NoReply, deadline))
  | (t, b) :: rest =>
      if (deadline <? t)%Z then ([], (NoReply, deadline)) else
      match b with
      | Tick write_ok =>
          let seq := (seq + 1)%Z in
          if write_ok then
            let (sent, e) := run_heartbeat deadline seq rest in (seq :: sent, e)
          else ([seq], (SendFailed, t))
      | PongIn _ => run_heartbeat (t + HEARTBEAT_TIMEOUT) seq rest
      end
  end.

(** ** Properties *)

Definition ping_of (r : control_read) : option Z :=
  match r with
  | CtrlFrame body => match classify body with Ret (FPing seq) => Some seq | _ => None end
  | _ => None
  end.

Definition is_frame (r : control_read) : bool := match r with CtrlFrame _ => true | _ => false end.

(** The time of the last ping read, if any, else [start]. *)
Fixpoint last_ping (start : Z) (reads : list (Z * control_read)) : Z :=
  match reads with
  | [] => start
  | (t, r) :: rest => last_ping (match ping_of r with Some _ => t | None => start end) rest
  end.

(** The server's heartbeat responder, exactly: it answers every ping it
    reads with a pong of the same number, in order; it ends with a timeout at
    exactly [HEARTBEAT_TIMEOUT] after the last ping (other frames do not extend
    the deadline), when the next thing on the stream comes only later; and
    otherwise with the end or the failure of the stream, read before that. *)
Theorem heartbeat_responder_exact start reads :
  let '(pongs, (reason, at_time)) := run_heartbeat_responder (start + HEARTBEAT_TIMEOUT) reads in
  exists head tail, reads = head ++ tail /\
    pongs = map (encode_heartbeat_frame Pong) (omap (fun x => ping_of x.2) head) /\
    Forall (fun x => is_frame x.2 = true) head /\
    match reason with
    | HeartbeatTimedOut => at_time = (last_ping start head + HEARTBEAT_TIMEOUT)%Z /\
        (forall t r, hd_error tail = Some (t, r) -> at_time < t)%Z
    | ControlFinished => (exists tl, tail = (at_time, CtrlFinished) :: tl) /\
        (at_time <= last_ping start head + HEARTBEAT_TIMEOUT)%Z
    | ControlError => (exists tl, tail = (at_time, CtrlError) :: tl) /\
        (at_time <= last_ping start head + HEARTBEAT_TIMEOUT)%Z
    end.
Proof.
  revert start. induction reads as [|[t r] reads IH]; intros start; cbn [run_heartbeat_responder].
  { exists [], []. done. }
  destruct (Z.ltb_spec (start + HEARTBEAT_TIMEOUT) t) as [Hlt|Hle].
  { exists [], ((t, r) :: reads). split_and!; try done. intros t' r' [= <- _]. done. }
  destruct r as [body| |].
  - destruct (classify body) as [[b|seq|seq]|e|] eqn:Hc.
    2:{ specialize (IH t). destruct (run_heartbeat_responder (t + HEARTBEAT_TIMEOUT) reads) as [pongs [reason T]].
        destruct IH as (head & tail & -> & -> & Hf & Hr). exists ((t, CtrlFrame body) :: head), tail.
        split; [done|]. cbn [omap list_omap ping_of last_ping snd]. rewrite Hc. split; [done|].
        split; [by constructor|]. done. }
    all: specialize (IH start); destruct (run_heartbeat_responder (start + HEARTBEAT_TIMEOUT) reads) as [pongs [reason T]];
      destruct IH as (head & tail & -> & -> & Hf & Hr); exists ((t, CtrlFrame body) :: head), tail;
      (split; [done|]); cbn [omap list_omap ping_of last_ping snd]; rewrite Hc; (split; [done|]);
      (split; [by constructor|]); done.
  - exists [], ((t, CtrlFinished) :: reads). split_and!; try done. by exists reads.
  - exists [], ((t, CtrlError) :: reads). split_and!; try done. by exists reads.
Qed.

Fixpoint last_pong (start : Z) (beats : list (Z * beat)) : Z :=
  match beats with
  | [] => start
  | (t, b) :: rest => last_pong (match b with PongIn _ => t | _ => start end) rest
  end.

Definition is_tick (b : beat) : bool := match b with Tick _ => true | PongIn _ => false end.

(** The number of ticks. *)
Fixpoint ticks (beats : list (Z * beat)) : nat :=
  match beats with
  | [] => 0
  | (_, b) :: rest => ((if is_tick b then 1 else 0) + ticks rest)%nat
  end.

(** The client's heartbeat, exactly: it numbers its pings consecutively,
    one per tick, and declares the session dead at exactly
    [HEARTBEAT_TIMEOUT] after the last pong it was handed (any pong counts),
    or at once when a ping cannot be written. *)
Theorem client_heartbeat_exact start seq beats :
  let '(sent, (reason, at_time)) := run_heartbeat (start + HEARTBEAT_TIMEOUT) seq beats in
  exists head tail, beats = head ++ tail /\
    match reason with
    | NoReply => sent = seqZ (seq + 1) (Z.of_nat (ticks head)) /\
        at_time = (last_pong start head + HEARTBEAT_TIMEOUT)%Z /\
        (forall t b, hd_error tail = Some (t, b) -> at_time < t)%Z
    | SendFailed => sent = seqZ (seq + 1) (Z.of_nat (ticks head) + 1) /\
        (exists tl, tail = (at_time, Tick false) :: tl) /\
        (at_time <= last_pong start head + HEARTBEAT_TIMEOUT)%Z
    end.
Proof.
  revert start seq. induction beats as [|[t b] beats IH]; intros start seq; cbn [run_heartbeat].
  { exists [], []. done. }
  destruct (Z.ltb_spec (start + HEARTBEAT_TIMEOUT) t) as [Hlt|Hle].
  { exists [], ((t, b) :: beats). split_and!; try done. intros t' r' [= <- _]. done. }
  destruct b as [[]|ps].
  - specialize (IH start (seq + 1)%Z). destruct (run_heartbeat _ (seq + 1) beats) as [sent [reason T]].
    destruct IH as (head & tail & -> & Hr). exists ((t, Tick true) :: head), tail. split; [done|].
    cbn [ticks is_tick last_pong].
    destruct reason; destruct Hr as (-> & Hr1 & Hr2); (split; [|done]);
      rewrite (seqZ_cons (seq + 1)) by lia; f_equal; f_equal; lia.
  - exists [], ((t, Tick false) :: beats). split; [done|]. split; [done|]. split; [by exists beats|done].
  - specialize (IH t seq). destruct (run_heartbeat _ seq beats) as [sent [reason T]].
    destruct IH as (head & tail & -> & Hr). by exists ((t, PongIn ps) :: head), tail.
Qed.
