(* ===== verification/Liveness.v ===== *)
(** * Session liveness ([run_tunnel], [run_heartbeat] and [run_heartbeat_responder])

    The client's liveness task, and the two ends of the heartbeat of
    [Heartbeat] over one control stream: when a slow link keeps a session alive,
    and when either end gives it up. *)

From Stdlib Require Import Sorting.Sorted.
From S2P Require Import Prelude Errors Net Signaling Stream Heartbeat.

(** ** The liveness task *)

Inductive liveness_end : Type :=
| ConnectionClosed (reason : string)
| HeartbeatEnded (e : beat_end).

(** The [select!]: [closed] is when and why the connection closes, if it does.
    When both are ready the [select!] takes either; [closed_first] is its
    choice. *)
Definition liveness_task (closed_first : bool) (closed : option (Z * string)) (start : Z) (beats : list (Z * beat))
  : list Z * (liveness_end * Z) :=
  let '(sent, (e, t)) := run_heartbeat (start + HEARTBEAT_TIMEOUT) 0 beats in
  match closed with
  | Some (tc, reason) =>
      if (tc <? t)%Z || (closed_first && (tc =? t)%Z)
      then ((run_heartbeat (start + HEARTBEAT_TIMEOUT) 0 (filter (fun x => (x.1 <= tc)%Z) beats)).1,
            (ConnectionClosed reason, tc))
      else (sent, (HeartbeatEnded e, t))
  | None => (sent, (HeartbeatEnded e, t))
  end.

(** The reason it gives to [run_tunnel]. *)
Definition liveness_reason (e : liveness_end) : string :=
  match e with
  | ConnectionClosed reason => "connection closed: " ++ reason
  | HeartbeatEnded SendFailed => "heartbeat send failed: {e}"
  | HeartbeatEnded NoReply => "heartbeat timed out: no reply from the server in 30s"
  end.

(** ** A link *)

(** [l] is made of [l1] and [l2], each in its order. *)
Inductive interleaves {A} : list A -> list A -> list A -> Prop :=
| interleaves_nil : interleaves [] [] []
| interleaves_left x l1 l2 l : interleaves l1 l2 l -> interleaves (x :: l1) l2 (x :: l)
| interleaves_right x l1 l2 l : interleaves l1 l2 l -> interleaves l1 (x :: l2) (x :: l).

Definition by_time {A} (x y : Z * A) : Prop := (x.1 <= y.1)%Z.

Section Link.
(* when the client's heartbeat starts; for each ping (from 0) how long it takes to
   the server, and how long until its pong is handed over *)
Context (start : Z) (up rtt : nat -> Z).

Definition sent_at (i : nat) : Z := (start + HEARTBEAT_INTERVAL * Z.of_nat i)%Z.
Definition number (i : nat) : Z := Z.of_nat (S i).

(** The body of a frame, as [read_frame] yields it. *)
Definition body_of (frame : list Z) : list Z := drop FRAME_LEN_PREFIX frame.

Definition tick_list (from n : nat) : list (Z * beat) := map (fun i => (sent_at i, Tick true)) (seq from n).
Definition pong_list (from n : nat) : list (Z * beat) :=
  map (fun i => ((sent_at i + rtt i)%Z, PongIn (number i))) (seq from n).
Definition ping_list (from n : nat) : list (Z * control_read) :=
  map (fun i => ((sent_at i + up i)%Z, CtrlFrame (body_of (encode_heartbeat_frame Ping (number i))))) (seq from n).

(** A round trip takes at most what the timeout leaves beside the interval. *)
Definition prompt (n : nat) : Prop :=
  forall i, (i < n)%nat -> (0 <= up i <= rtt i /\ rtt i <= HEARTBEAT_TIMEOUT - HEARTBEAT_INTERVAL)%Z.

Lemma classify_body kind i : kind <> ServerAddrs -> (Z.of_nat i < 2 ^ 64 - 1)%Z ->
  classify (body_of (encode_heartbeat_frame kind (number i))) =
  Ret (if decide (kind = Ping) then FPing (number i) else FPong (number i)).
Proof.
  intros Hk Hi. unfold body_of, encode_heartbeat_frame.
  rewrite drop_app_length' by (by rewrite be_bytes_length). apply classify_heartbeat; [done|].
  unfold number. ulia.
Qed.

(** A frame that is not a ping. *)
Definition other_frame (x : Z * control_read) : Prop := is_frame x.2 = true /\ ping_of x.2 = None.

Lemma interleaves_head {A} (l1 l2 l : list A) x : interleaves l1 (x :: l2) l -> x ∈ l.
Proof.
  remember (x :: l2) as p eqn:Hp. intros Hi. revert Hp. induction Hi as [|y l1 l2' l Hi IH|y l1 l2' l Hi IH]; intros Hp; [done| |].
  - right. by apply IH.
  - injection Hp as -> _. left.
Qed.

(** The server answers every ping, whatever else it reads between them. *)
Lemma responder_keeps n others reads : forall from heard,
  interleaves others (ping_list from n) reads -> StronglySorted by_time reads -> Forall other_frame others ->
  prompt (from + n) -> (Z.of_nat (from + n) < 2 ^ 64 - 1)%Z ->
  (n <> 0%nat -> sent_at from + up from <= heard + HEARTBEAT_TIMEOUT)%Z ->
  run_heartbeat_responder (heard + HEARTBEAT_TIMEOUT) reads =
  (map (fun i => encode_heartbeat_frame Pong (number i)) (seq from n),
   (HeartbeatTimedOut, (match n with O => heard | S m => sent_at (from + m) + up (from + m) end + HEARTBEAT_TIMEOUT)%Z)).
Proof.
  revert n others. induction reads as [|x reads IH]; intros n others from heard Hi Hs Ho Hp Hb Hf.
  { inversion Hi as [Ht Hq| |]. by destruct n. }
  inversion Hs as [|? ? Hs' Hall]; subst. inversion Hi as [|? l1 ? ? Hr Ht|? ? l2 ? Hr He Hq]; subst.
  - apply Forall_cons in Ho as [[Hfr Hno] Ho]. destruct x as [t r]. cbn [run_heartbeat_responder fst snd] in *.
    destruct (Z.ltb_spec (heard + HEARTBEAT_TIMEOUT) t) as [Hlt|Hle].
    + destruct n as [|n]; [done|]. exfalso. specialize (Hf ltac:(done)). rewrite Forall_forall in Hall.
      assert (Hx : by_time (t, r) ((sent_at from + up from)%Z, CtrlFrame (body_of (encode_heartbeat_frame Ping (number from))))).
      { apply Hall. unfold ping_list in Hr. cbn [seq map] in Hr. by eapply interleaves_head. }
      unfold by_time in Hx. cbn in Hx. lia.
    + destruct r as [body| |]; [|done..]. cbn [ping_of] in Hno. specialize (IH n l1 from heard Hr Hs' Ho Hp Hb Hf).
      destruct (classify body) as [[b|seq|seq]| |]; done.
  - destruct n as [|n]; [done|]. unfold ping_list in Hq. cbn [seq map] in Hq. injection Hq as -> ->.
    cbn [run_heartbeat_responder].
    destruct (Z.ltb_spec (heard + HEARTBEAT_TIMEOUT) (sent_at from + up from)); [specialize (Hf ltac:(done)); lia|].
    rewrite classify_body by (done || lia). cbn [decide_rel].
    assert (Hnext : (n <> 0%nat -> sent_at (S from) + up (S from) <= (sent_at from + up from) + HEARTBEAT_TIMEOUT)%Z).
    { intros Hn. pose proof (Hp from ltac:(lia)). pose proof (Hp (S from) ltac:(lia)).
      unfold sent_at, HEARTBEAT_TIMEOUT, HEARTBEAT_INTERVAL in *. lia. }
    replace (from + S n)%nat with (S from + n)%nat in * by lia.
    specialize (IH n others (S from) _ Hr Hs' Ho Hp Hb Hnext). cbn [seq map]. rewrite decide_True by done.
    rewrite IH. clear IH.
    destruct n as [|m]; [by rewrite Nat.add_0_r|]. by replace (S from + m)%nat with (from + S m)%nat by lia.
Qed.

Lemma filter_keeps {A} (P : A -> Prop) `{!forall x, Decision (P x)} l : Forall P l -> filter P l = l.
Proof. induction 1 as [|x l Hx _ IH]; [done|]. by rewrite filter_cons_True, IH. Qed.

(** The pings of the ticks up to the time [e]. *)
Definition pings_until (e : Z) (from n : nat) : list Z := map number (filter (fun i => (sent_at i <= e)%Z) (seq from n)).

Lemma pings_until_none e from n : (e < sent_at from)%Z -> pings_until e from n = [].
Proof.
  intros He. unfold pings_until. assert (Hnil : filter (fun i => (sent_at i <= e)%Z) (seq from n) = []); [|by rewrite Hnil].
  apply elem_of_nil_inv. intros i [Hi Hin]%list_elem_of_filter. apply list_elem_of_In, in_seq in Hin.
  unfold sent_at, HEARTBEAT_INTERVAL in *. nia.
Qed.

(** The client ends [HEARTBEAT_TIMEOUT] after the last of [n] pongs, however
    long it goes on sending: [i] of [total] pings are sent, [j] pongs were handed
    over. *)
Lemma heartbeat_keeps total n beats : forall i j heard,
  interleaves (tick_list i (total - i)) (pong_list j (n - j)) beats -> StronglySorted by_time beats ->
  prompt n -> (i <= total)%nat -> (j <= n)%nat -> (sent_at (j - 1) <= heard)%Z ->
  let e := (match (n - j)%nat with O => heard | S _ => sent_at (n - 1) + rtt (n - 1) end + HEARTBEAT_TIMEOUT)%Z in
  run_heartbeat (heard + HEARTBEAT_TIMEOUT) (Z.of_nat i) beats = (pings_until e i (total - i), (NoReply, e)).
Proof.
  induction beats as [|x beats IH]; intros i j heard Hi Hs Hp Hin Hjn Hh e.
  { inversion Hi as [Ht Hq| |]. unfold e. destruct (total - i)%nat; [|done]. by destruct (n - j)%nat. }
  inversion Hs as [|? ? Hs' Hall]; subst. inversion Hi as [|? l1 ? ? Hr Ht|? ? l2 ? Hr He Hq]; subst.
  - destruct (total - i)%nat as [|m] eqn:Em; [done|]. cbn [tick_list seq map] in Ht. injection Ht as -> ->.
    cbn [run_heartbeat].
    assert (Hpong : (n - j <> 0)%nat -> (sent_at i <= sent_at j + rtt j)%Z).
    { intros Hn. destruct (n - j)%nat as [|q] eqn:Eq; [done|]. rewrite Forall_forall in Hall.
      apply (Hall ((sent_at j + rtt j)%Z, PongIn (number j))). unfold pong_list in Hr. cbn [seq map] in Hr.
      by eapply interleaves_head. }
    destruct (Z.ltb_spec (heard + HEARTBEAT_TIMEOUT) (sent_at i)) as [Hlt|Hle].
    { unfold e. destruct (n - j)%nat as [|q] eqn:Eq; [by rewrite pings_until_none|]. exfalso.
      specialize (Hpong ltac:(lia)). pose proof (Hp j ltac:(lia)).
      unfold sent_at, HEARTBEAT_TIMEOUT, HEARTBEAT_INTERVAL in *. lia. }
    replace (Z.of_nat i + 1)%Z with (Z.of_nat (S i)) by lia.
    assert (Hkeep : (sent_at i <= e)%Z).
    { unfold e. destruct (n - j)%nat as [|q] eqn:Eq; [done|]. specialize (Hpong ltac:(lia)).
      pose proof (Hp j ltac:(lia)). pose proof (Hp (n - 1)%nat ltac:(lia)).
      unfold sent_at, HEARTBEAT_TIMEOUT, HEARTBEAT_INTERVAL in *. lia. }
    rewrite (IH (S i) j heard) by (done || lia || (replace (total - S i)%nat with m by lia; done)).
    replace (total - S i)%nat with m by lia. unfold pings_until. cbn [seq]. rewrite filter_cons_True by done. done.
  - destruct (n - j)%nat as [|q] eqn:Eq; [done|]. cbn [pong_list seq map] in Hq. injection Hq as -> ->.
    cbn [run_heartbeat]. pose proof (Hp j ltac:(lia)).
    destruct (Z.ltb_spec (heard + HEARTBEAT_TIMEOUT) (sent_at j + rtt j)) as [Hlt|_].
    { unfold sent_at, HEARTBEAT_TIMEOUT, HEARTBEAT_INTERVAL in *. lia. }
    rewrite (IH i (S j) (sent_at j + rtt j)%Z) by
      (done || lia || (replace (n - S j)%nat with q by lia; done) || (rewrite Nat.sub_1_r; cbn [pred]; lia)).
    unfold e. replace (n - S j)%nat with q by lia. destruct q; [|done]. by replace (n - 1)%nat with j by lia.
Qed.

(** C26. The heartbeat over a slow link: when [n + 1] pings reach the server and
    their pongs the client within [HEARTBEAT_TIMEOUT - HEARTBEAT_INTERVAL] of
    their ticks, in whatever order ticks and pongs alternate, neither end gives
    the session up while the exchange lasts.  The server answers each ping with
    a pong of the same number, and then no more are read: it closes the
    connection exactly [HEARTBEAT_TIMEOUT] after the last ping, whatever other
    frames it reads, and the client, however long it goes on sending its pings,
    one per tick, ends the session exactly [HEARTBEAT_TIMEOUT] after the last
    pong, or as soon as the connection is closed if that is earlier. *)
Theorem heartbeat_link_exact closed_first heard n unanswered beats others reads :
  prompt (S n) -> (Z.of_nat (S n) < 2 ^ 64 - 1)%Z -> (start + up 0 <= heard + HEARTBEAT_TIMEOUT)%Z ->
  interleaves (tick_list 0 (S n + unanswered)) (pong_list 0 (S n)) beats -> StronglySorted by_time beats ->
  interleaves others (ping_list 0 (S n)) reads -> StronglySorted by_time reads -> Forall other_frame others ->
  let client_end := (sent_at n + rtt n + HEARTBEAT_TIMEOUT)%Z in
  exists sent pongs,
  liveness_task closed_first None start beats = (sent, (HeartbeatEnded NoReply, client_end)) /\
  run_heartbeat_responder (heard + HEARTBEAT_TIMEOUT) reads =
    (pongs, (HeartbeatTimedOut, (sent_at n + up n + HEARTBEAT_TIMEOUT)%Z)) /\
  sent = pings_until client_end 0 (S n + unanswered) /\
  take (S n) sent = seqZ 1 (Z.of_nat (S n)) /\
  map snd (ping_list 0 (S n)) = map (fun q => CtrlFrame (body_of (encode_heartbeat_frame Ping q))) (take (S n) sent) /\
  map (fun f => classify (body_of f)) pongs = map (fun q => Ret (FPong q)) (take (S n) sent) /\
  forall tc reason, (tc < client_end)%Z ->
    (liveness_task closed_first (Some (tc, reason)) start beats).2 = (ConnectionClosed reason, tc).
Proof.
  intros Hp Hb Hf Hi Hs Hir Hsr Hot client_end.
  assert (Hrun : run_heartbeat (start + HEARTBEAT_TIMEOUT) 0 beats =
    (pings_until client_end 0 (S n + unanswered), (NoReply, client_end))).
  { change 0%Z with (Z.of_nat 0).
    rewrite (heartbeat_keeps (S n + unanswered) (S n) beats 0 0 start) by
      (done || lia || (rewrite ?Nat.sub_0_r; done) || (unfold sent_at; lia)).
    rewrite !Nat.sub_0_r. unfold client_end. by replace (S n - 1)%nat with n by lia. }
  assert (Hfirst : take (S n) (pings_until client_end 0 (S n + unanswered)) = map number (seq 0 (S n))).
  { unfold pings_until. rewrite seq_app, filter_app, map_app. rewrite (filter_keeps _ (seq 0 (S n))).
    - apply take_app_length'. by rewrite length_map, length_seq.
    - apply Forall_forall. intros i Hin%list_elem_of_In%in_seq. pose proof (Hp n ltac:(lia)). unfold client_end, sent_at.
      unfold HEARTBEAT_TIMEOUT, HEARTBEAT_INTERVAL in *. lia. }
  exists (pings_until client_end 0 (S n + unanswered)), (map (fun i => encode_heartbeat_frame Pong (number i)) (seq 0 (S n))).
  rewrite Hfirst. split; [unfold liveness_task; by rewrite Hrun|]. split.
  { apply (responder_keeps (S n) others reads 0); [done..|]. intros _. unfold sent_at. lia. }
  split; [done|].
  split; [unfold seqZ; rewrite Nat2Z.id; apply list_fmap_ext; intros ? x _; unfold number; lia|].
  split; [unfold ping_list; by rewrite !map_map|]. split.
  { rewrite !map_map. apply map_ext_in. intros i [_ Hin]%in_seq. apply classify_body; [done|lia]. }
  intros tc reason Htc. unfold liveness_task. rewrite Hrun. by destruct (Z.ltb_spec tc client_end); [|lia].
Qed.

End Link.

(** ** Evaluation *)

Definition slow_up (i : nat) : Z := 12000.
Definition slow_rtt (i : nat) : Z := 20000 - Z.of_nat i.

(** Three pings over a link with round trips of twenty seconds: the third ping
    is sent before the first pong arrives.  The fourth and all later ones stay
    unanswered. *)
Definition slow_beats : list (Z * beat) :=
  [(0, Tick true); (10000, Tick true); (20000, Tick true); (20000, PongIn 1); (29999, PongIn 2); (30000, Tick true);
   (39998, PongIn 3); (40000, Tick true); (50000, Tick true); (60000, Tick true); (70000, Tick true)]%Z.

(** The server also reads frames it does not know. *)
Definition slow_reads : list (Z * control_read) :=
  (ping_list 0 slow_up 0 3 ++ [(50000%Z, CtrlFrame [250%Z])])%list.

Lemma heartbeat_link_exact_witness :
  exists sent pongs,
    liveness_task true None 0 slow_beats = (sent, (HeartbeatEnded NoReply, 69998%Z)) /\
    run_heartbeat_responder (5 + HEARTBEAT_TIMEOUT) slow_reads = (pongs, (HeartbeatTimedOut, 62000%Z)) /\
    map (fun f => classify (body_of f)) pongs = map (fun q => Ret (FPong q)) (take 3 sent) /\
    sent = [1; 2; 3; 4; 5; 6; 7]%Z /\
    (liveness_task true (Some (62000%Z, "heartbeat timed out"%string)) 0 slow_beats).2 =
      (ConnectionClosed "heartbeat timed out", 62000%Z).
Proof.
  destruct (heartbeat_link_exact 0 slow_up slow_rtt true 5 2 5 slow_beats [(50000%Z, CtrlFrame [250%Z])] slow_reads)
    as (sent & pongs & Hl & Hr & Hsent & _ & _ & Hp & Hc).
  - intros i Hi. unfold slow_up, slow_rtt, HEARTBEAT_TIMEOUT, HEARTBEAT_INTERVAL. lia.
  - vm_compute. reflexivity.
  - vm_compute. discriminate.
  - vm_compute. repeat constructor.
  - repeat (constructor; [|repeat (constructor; [vm_compute; discriminate|]); constructor]). constructor.
  - vm_compute. repeat constructor.
  - repeat (constructor; [|repeat (constructor; [vm_compute; discriminate|]); constructor]). constructor.
  - constructor; [split; reflexivity|constructor].
  - exists sent, pongs. split; [exact Hl|]. split; [exact Hr|]. split; [exact Hp|].
    split; [rewrite Hsent; vm_compute; reflexivity|]. apply Hc. vm_compute. reflexivity.
Defined.
