(* ===== verification/Session.v ===== *)
(** * One client session ([src/tunnel/client.rs])

    The parts of [VpnClient::connect]: the TUN device, the bypass routes and the
    task of their manager, which can be aborted at any of its awaits, the VPN
    routes, the unwinding of all of it, the tunnel and the checks that run
    beside it.  [Cancel] puts them together.  The transport's results (dialling,
    the handshake, the tasks of the tunnel) are inputs; the operating system is
    the state [W] of [System] and [TunApi]. *)

From S2P Require Import Prelude Text Future Errors Net Config Signaling Handshake Client.
From S2P Require Import DeviceRoutes Bypass Device Routing Status.

#[local] Open Scope string_scope.

Section Session.
Context {Net4 Net6 : Type} `{EqDecision Net4} `{EqDecision Net6}.
Context `{NetOps V4_BITS Net4} `{NetOps V6_BITS Net6}.
Context {W : Type} `{System W} `{TunApi W}.
Context (parse_ip : string -> option IpAddr) (show_ip : IpAddr -> string).
Context (with_netmask : Z -> Z -> option Net4).
Context (os : Os) (landed : bool).

Abbreviation Info := (ServerInfo Net4 Net6).
Abbreviation Locals := (list (LocalNetwork Net4 Net6)).

(** ** The device *)

Definition tun_config_of (info : Info) : vres TunConfig :=
  match info_assigned_ip info, info_network info, info_server_ip info,
        info_assigned_ip6 info, info_network6 info, info_server_ip6 info with
  | Some ip4, Some net4, Some gw4, Some ip6, Some net6, Some _ =>
      with_ipv6 ip6 (net_prefix_len net6)
        (with_mtu VPN_MTU (TunConfig_new ip4 (netmask4 (net_prefix_len net4)) gw4))
  | Some ip4, Some net4, Some gw4, None, None, None =>
      Ret (with_mtu VPN_MTU (TunConfig_new ip4 (netmask4 (net_prefix_len net4)) gw4))
  | None, None, None, Some ip6, Some net6, Some _ => ipv6_only ip6 (net_prefix_len net6) VPN_MTU
  | _, _, _, _, _, _ =>
      Fail (Signaling (msg "Invalid server info: need at least one complete IP configuration"))
  end.

Definition create_tun_device (w : W) (info : Info) : W * vres TunDevice :=
  match tun_config_of info with
  | Ret config => TunDevice_create with_netmask os w (with_gso true config)
  | Fail e => (w, Fail e)
  | Panic => (w, Panic)
  end.

(** ** The bypass manager with its guards *)

Definition capture_underlay_gateway (w : W) (is_ipv6 : bool) : W * option UnderlayGateway :=
  match query_default_gateway parse_ip show_ip os w is_ipv6 with
  | (w, Ret gw) => (w, Some gw)
  | (w, _) => (w, None)
  end.

Record Manager : Type := mkManager {
  m_active : gmap IpAddr BypassRouteGuard;
  m_tun_name : string;
  m_routes4 : list Net4;
  m_routes6 : list Net6;
  m_gw4 : option UnderlayGateway;
  m_gw6 : option UnderlayGateway;
  m_collected : gset IpAddr;
}.

Definition set_active_routes (m : Manager) (active : gmap IpAddr BypassRouteGuard) : Manager :=
  mkManager active (m_tun_name m) (m_routes4 m) (m_routes6 m) (m_gw4 m) (m_gw6 m) (m_collected m).

Fixpoint manager_install (w : W) (m : Manager) (to_add : list IpAddr) : W * Manager :=
  match to_add with
  | [] => (w, m)
  | ip :: rest =>
      let underlay_fallback := match ip with V4 _ => m_gw4 m | V6 _ => m_gw6 m end in
      match add_bypass_route parse_ip show_ip os w ip (Some (m_tun_name m)) underlay_fallback with
      | (w, Ret guard) => manager_install w (set_active_routes m (<[ip := guard]> (m_active m))) rest
      | (w, _) => manager_install w m rest
      end
  end.

(** [BypassRouteManager::update]. *)
Definition manager_update (w : W) (m : Manager) (required_ips : gset IpAddr) : W * Manager :=
  let required_ips := filter (fun ip => private_scope ip = false /\
                                        covered (m_routes4 m) (m_routes6 m) ip = true) required_ips in
  let m := mkManager (m_active m) (m_tun_name m) (m_routes4 m) (m_routes6 m) (m_gw4 m) (m_gw6 m)
             (required_ips ∪ m_collected m) in
  let to_add := filter (fun ip => ip ∉ dom (m_active m)) (elements required_ips) in
  manager_install w m to_add.

Fixpoint manager_run (w : W) (m : Manager) (updates : list (gset IpAddr)) : W * Manager :=
  match updates with
  | [] => (w, m)
  | ips :: rest => let '(w, m) := manager_update w m ips in manager_run w m rest
  end.

(** The manager is dropped with its guards. *)
Definition drop_manager (w : W) (m : Manager) : W :=
  fold_left (drop_bypass_guard os) (map_to_list (m_active m)).*2 w.

Definition add_iroh_bypass_routes (w : W) (tun_name : string) (routes : list Net4) (routes6 : list Net6)
    (relay_ips : gset IpAddr) (initial_server_addrs : list IpAddr) : W * Manager :=
  let '(w, underlay_gw4) :=
    match routes with [] => (w, None) | _ => capture_underlay_gateway w false end in
  let '(w, underlay_gw6) :=
    match routes6 with [] => (w, None) | _ => capture_underlay_gateway w true end in
  let m := mkManager ∅ tun_name routes routes6 underlay_gw4 underlay_gw6 ∅ in
  let bootstrap_ips := relay_ips ∪ list_to_set initial_server_addrs in
  if decide (bootstrap_ips = ∅) then (w, m) else manager_update w m bootstrap_ips.

(** ** The manager's task *)

(** [add_bypass_route] with its awaits: the query and, if there is one, the
    command. *)
Definition add_bypass_route_async (peer_ip : IpAddr) (disallow_device : option string)
    (underlay_fallback : option UnderlayGateway) : async W (vres BypassRouteGuard) :=
  queried ← awaiting landed (fun w => query_route_for_ip parse_ip show_ip os w peer_ip);
  match queried with
  | Ret info =>
      match resolve_bypass_route_info info disallow_device underlay_fallback with
      | Ret info =>
          outcome ← (match bypass_add_command os info with
                     | Ret _ => awaiting landed (fun w => add_bypass_route_impl os w info)
                     | _ => blocking (fun w => add_bypass_route_impl os w info)
                     end);
          mret (match outcome with
                | Ret outcome =>
                    Ret (mkBypassGuard peer_ip (i_device info) (i_gateway info) (i_gateway_str info)
                           (i_if_index info) (bool_decide (outcome = Added)))
                | Fail e => Fail e
                | Panic => Panic
                end)
      | Fail e => mret (Fail e)
      | Panic => mret Panic
      end
  | Fail e => mret (Fail e)
  | Panic => mret Panic
  end.

(** The manager outlives the future that updates it: the result is the manager
    as it is when the update ends or is dropped. *)
Fixpoint manager_install_async (m : Manager) (to_add : list IpAddr) (w : W) (c : cut) : W * Manager * option cut :=
  match to_add with
  | [] => (w, m, Some c)
  | ip :: rest =>
      let underlay_fallback := match ip with V4 _ => m_gw4 m | V6 _ => m_gw6 m end in
      match add_bypass_route_async ip (Some (m_tun_name m)) underlay_fallback w c with
      | (w, None) => (w, m, None)
      | (w, Some (Ret guard, c)) =>
          manager_install_async (set_active_routes m (<[ip := guard]> (m_active m))) rest w c
      | (w, Some (_, c)) => manager_install_async m rest w c
      end
  end.

Definition manager_update_async (m : Manager) (required_ips : gset IpAddr) (w : W) (c : cut)
  : W * Manager * option cut :=
  let required_ips := filter (fun ip => private_scope ip = false /\
                                        covered (m_routes4 m) (m_routes6 m) ip = true) required_ips in
  let m := mkManager (m_active m) (m_tun_name m) (m_routes4 m) (m_routes6 m) (m_gw4 m) (m_gw6 m)
             (required_ips ∪ m_collected m) in
  let to_add := filter (fun ip => ip ∉ dom (m_active m)) (elements required_ips) in
  manager_install_async m to_add w c.

(** [run_bypass_route_manager]: between two updates the task waits on its
    channel. *)
Fixpoint manager_run_async (m : Manager) (updates : list (gset IpAddr)) (w : W) (c : cut) : W * Manager * option cut :=
  match updates with
  | [] => (w, m, Some c)
  | ips :: rest =>
      match awaiting landed (fun w => (w, tt)) w c with
      | (w, None) => (w, m, None)
      | (w, Some (_, c)) =>
          match manager_update_async m ips w c with
          | (w, m, Some c) => manager_run_async m rest w c
          | r => r
          end
      end
  end.

(** The manager's task with the sets published to it, up to where it is
    aborted. *)
Definition run_manager (manager : option Manager) (updates : list (gset IpAddr)) (manager_cut : cut) (w : W)
  : W * option Manager :=
  match manager with
  | Some m => let '(w, m, _) := manager_run_async m updates w manager_cut in (w, Some m)
  | None => (w, None)
  end.

(** The task is dropped, and the manager with its guards. *)
Definition drop_task (manager : option Manager) (w : W) : W :=
  match manager with Some m => drop_manager w m | None => w end.

(** ** Unwinding *)

(** What [connect] holds besides the manager's task, in the order of
    acquisition (latest first). *)
Inductive resource : Type :=
| RDevice (d : TunDevice)
| RGuard4 (g : RouteGuard (R:=Net4))
| RGuard6 (g : RouteGuard (R:=Net6)).

Definition release_resource (w : W) (r : resource) : W :=
  match r with
  | RDevice d => close_device w (td_handle d)
  | RGuard4 g => drop_guard os w g
  | RGuard6 g => drop_guard os w g
  end.

Definition unwind (w : W) (held : list resource) : W := fold_left release_resource held w.

(** Where the manager's task is when it is aborted: the sets published to it,
    the await it has reached ([None]: it is through with all of them), and
    whether what else is held goes before or after it.  The abort is not
    awaited, except at the end of a tunnel; the task is dropped before the next
    attempt starts. *)
Record Abort : Type := mkAbort {
  ab_updates : list (gset IpAddr);
  ab_cut : cut;
  ab_device_first : bool;
}.

(** [AbortOnDropTask] aborts the manager's task, and what is held is dropped. *)
Definition tear_down (ab : Abort) (manager : option Manager) (held : list resource) (w : W) : W :=
  let '(w, manager) := run_manager manager (ab_updates ab) (ab_cut ab) w in
  if ab_device_first ab then drop_task manager (unwind w held) else unwind (drop_task manager w) held.

(** An early return with [?]. *)
Definition acquire_with {A} (ab : Abort) (manager : option Manager) (mk : A -> resource) (held : list resource)
    (r : W * vres A) : W * vres (A * list resource) :=
  match r with
  | (w, Ret a) => (w, Ret (a, mk a :: held))
  | (w, Fail e) => (tear_down ab manager held w, Fail e)
  | (w, Panic) => (w, Panic)
  end.

(** An optional step. *)
Definition when {A} (o : option A) (held : list resource) (w : W)
    (step : A -> list resource -> W -> W * vres (list resource)) : W * vres (list resource) :=
  match o with
  | Some a => step a held w
  | None => (w, Ret held)
  end.

Definition add4 (ab : Abort) (manager : option Manager) (tun : string) (routes : list Net4) (held : list resource) (w : W)
  : W * vres (list resource) :=
  match acquire_with ab manager RGuard4 held (add_routes os w tun routes) with
  | (w, Ret (_, held)) => (w, Ret held)
  | (w, Fail e) => (w, Fail e)
  | (w, Panic) => (w, Panic)
  end.

Definition add6 (ab : Abort) (manager : option Manager) (tun : string) (routes : list Net6) (src : Z)
    (held : list resource) (w : W) : W * vres (list resource) :=
  match acquire_with ab manager RGuard6 held (add_routes6_with_src os w tun routes src) with
  | (w, Ret (_, held)) => (w, Ret held)
  | (w, Fail e) => (w, Fail e)
  | (w, Panic) => (w, Panic)
  end.

Definition then_ {A B} (r : W * vres A) (f : A -> W -> W * vres B) : W * vres B :=
  match r with
  | (w, Ret a) => f a w
  | (w, Fail e) => (w, Fail e)
  | (w, Panic) => (w, Panic)
  end.

(** ** Setting the session up *)

Definition nonempty {A} (l : list A) : bool := match l with [] => false | _ => true end.

Definition family_assigned (o : option Z) : bool := match o with Some _ => true | None => false end.

(** The routes of the families the server assigned. *)
Definition routes_for (info : Info) (routes : list Net4) : list Net4 :=
  if family_assigned (info_assigned_ip info) then routes else [].
Definition routes6_for (info : Info) (routes6 : list Net6) : list Net6 :=
  if family_assigned (info_assigned_ip6 info) then routes6 else [].

(** From the creation of the device to the last route. *)
Definition establish (ab : Abort) (w : W) (info : Info) (routes : list Net4) (routes6 : list Net6)
    (relay_ips : gset IpAddr) : W * vres (TunDevice * option Manager * list resource) :=
  then_ (acquire_with ab None RDevice [] (create_tun_device w info)) (fun '(dev, held) w =>
    let tun := td_name dev in
    let will_add_routes :=
      (family_assigned (info_assigned_ip info) && nonempty routes)
      || (family_assigned (info_assigned_ip6 info) && nonempty routes6) in
    let '(w, manager) :=
      if will_add_routes then
        let '(w, m) := add_iroh_bypass_routes w tun routes routes6 relay_ips (info_server_addrs info) in
        (w, Some m)
      else (w, None) in
    then_ (when (info_network info) held w (fun net => add4 ab manager tun [net])) (fun held w =>
    then_ (when (match info_assigned_ip6 info, info_network6 info with
                 | Some ip6, Some net6 => Some (ip6, net6)
                 | _, _ => None
                 end) held w (fun '(ip6, net6) => add6 ab manager tun [net6] ip6)) (fun held w =>
    then_ (when (if family_assigned (info_assigned_ip info) && nonempty routes then Some routes else None)
             held w (add4 ab manager tun)) (fun held w =>
    then_ (when (match info_assigned_ip6 info with
                 | Some ip6 => if nonempty routes6 then Some ip6 else None
                 | None => None
                 end) held w (fun ip6 => add6 ab manager tun routes6 ip6)) (fun held w =>
    (w, Ret (dev, manager, held))))))).

(** ** The tunnel *)

(** How a task of the tunnel ended. *)
Inductive task_end : Type :=
| EndedWith (reason : string)
| Ended
| Cancelled
| Panicked (e : string)
| JoinFailed (e : string).

Definition task_reason (t : string * task_end) : list string :=
  match t with
  | (_, EndedWith reason) => [reason]
  | (name, Ended) => [name +:+ " task ended"]
  | (_, Cancelled) => []
  | (name, Panicked e) => [name +:+ " task panicked: " +:+ e]
  | (name, JoinFailed e) => [name +:+ " task failed: " +:+ e]
  end.

Definition tunnel_reason (all_results : list (string * task_end)) : string :=
  match all_results ≫= task_reason with
  | [] => "all tasks cancelled"
  | reasons => join_with "; " reasons
  end.

(** The tunnel's inputs: the error of splitting the device, the address sets
    the server publishes while it runs, the results of the tasks in the order
    they are awaited, and the sweeps of the network watch. *)
Record Tunnel : Type := mkTunnel {
  t_split_error : option string;
  t_updates : list (gset IpAddr);
  t_results : list (string * task_end);
  t_first_sweep : Locals;
  t_sweeps : list Locals;
}.

(** The tasks that own the device's halves and the manager's task are aborted
    together; a split that fails drops the device and the manager's guard. *)
Definition run_tunnel (w : W) (dev : TunDevice) (manager : option Manager) (t : Tunnel) (ab : Abort) : W * VpnError :=
  (tear_down ab manager [RDevice dev] w,
   match t_split_error t with
   | Some e => VpnError_tun_device (msg e)
   | None => ConnectionLost (msg (tunnel_reason (t_results t)))
   end).

#[global] Instance IpNet_eq_dec : EqDecision (IpNet Net4 Net6).
Proof. solve_decision. Defined.
#[global] Instance LocalNetwork_eq_dec : EqDecision (LocalNetwork Net4 Net6).
Proof. solve_decision. Defined.

(** [spawn_local_network_overlap_watch]: what the watcher records, if anything,
    before the session ends. *)
Definition retain_others (tun_name : string) (locals : Locals) : Locals :=
  filter (fun l => interface l <> tun_name) locals.

Fixpoint overlap_watch (routes4 : list Net4) (routes6 : list Net6) (tun_name : string) (last : Locals)
    (sweeps : list Locals) : option VpnError :=
  match sweeps with
  | [] => None
  | sweep :: rest =>
      let locals := retain_others tun_name sweep in
      if decide (locals = last) then overlap_watch routes4 routes6 tun_name last rest
      else match overlap_error routes4 routes6 locals with
           | Some err => Some err
           | None => overlap_watch routes4 routes6 tun_name locals rest
           end
  end.

(** ** [connect] *)

Section Connect.
Context {EndpointId Conn : Type} (parse_endpoint_id : string -> option EndpointId).
Context (show_net4 : Net4 -> string) (show_net6 : Net6 -> string) (to_string : VpnError -> string).

Record VpnClient : Type := mkClient {
  cl_server_node_id : string;
  cl_routes : list Net4;
  cl_routes6 : list Net6;
  cl_established : option (NetworkParams (Net4:=Net4) (Net6:=Net6));
  cl_status : ClientStateInner Conn unit;
}.

Definition set_established (c : VpnClient) (p : option (NetworkParams (Net4:=Net4) (Net6:=Net6))) : VpnClient :=
  mkClient (cl_server_node_id c) (cl_routes c) (cl_routes6 c) p (cl_status c).
Definition map_status (f : ClientStateInner Conn unit -> ClientStateInner Conn unit) (c : VpnClient) : VpnClient :=
  mkClient (cl_server_node_id c) (cl_routes c) (cl_routes6 c) (cl_established c) (f (cl_status c)).

(** The address with the relay hints. *)
Definition resolve_server_addr (c : VpnClient) (relay_urls : list string)
  : vres (EndpointId * list string) :=
  server_id ← ok_or (VpnError_config (msg "Invalid server node ID: {}"))
    (parse_endpoint_id (cl_server_node_id c));
  Ret (server_id, relay_urls).

(** What [Endpoint::connect] does within the deadline. *)
Inductive dial : Type := DialTimeout | DialError | DialOk (conn : Conn).

Definition CONNECT_TIMEOUT : Z := 30.

Definition connect_with_timeout (d : dial) : vres Conn :=
  match d with
  | DialTimeout => Fail (Signaling (Msg "Timed out connecting to server after {}s" [CONNECT_TIMEOUT]))
  | DialError => Fail (Signaling (msg "Failed to connect to server: {e}"))
  | DialOk conn => Ret conn
  end.

(** The inputs of one attempt: the results of the dial and of the handshake,
    the networks of the host, the resolved relays, the tunnel, and the times
    and the jitter the reconnect loop draws. *)
Record Attempt : Type := mkAttemptInput {
  at_relay_urls : list string;
  at_dial : EndpointId * list string -> dial;
  at_handshake : VpnError + Info;
  at_locals : Locals;
  at_relay_ips : gset IpAddr;
  at_connected : Z;
  at_tunnel : Tunnel;
  at_failed : Z;
  at_jitter : Z;
}.

Definition connected_info (info : Info) (routes : list Net4) (routes6 : list Net6) : ClientConnectedInfo :=
  mkConnectedInfo
    (show_ip <$> (V4 <$> info_assigned_ip info)) (show_net4 <$> info_network info)
    (show_ip <$> (V4 <$> info_server_ip info))
    (show_ip <$> (V6 <$> info_assigned_ip6 info)) (show_net6 <$> info_network6 info)
    (show_ip <$> (V6 <$> info_server_ip6 info))
    VPN_MTU (show_net4 <$> routes) (show_net6 <$> routes6).

Definition of_sum {A} (x : VpnError + A) : vres A := match x with inl e => Fail e | inr a => Ret a end.

Definition is_route_guard (r : resource) : bool :=
  match r with RGuard4 _ | RGuard6 _ => true | _ => false end.

Definition MILLIS : Z := 1000000.
End Connect.
End Session.
Arguments Manager : clear implicits.
Arguments resource : clear implicits.
Arguments Attempt : clear implicits.
Arguments VpnClient : clear implicits.
Arguments dial : clear implicits.
Arguments DialTimeout {_}.
Arguments DialError {_}.

(** ** The system's tables *)

(** The questions [query_route_for_ip] and [query_default_gateway] ask. *)
Inductive query_command : string -> list arg -> Prop :=
| query_ip (v4 : bool) ip :
    query_command "ip" ((if v4 then [] else [Word "-6"]) ++ [Word "route"; Word "get"; Addr ip])
| query_ip_default (v6 : bool) :
    query_command "ip" [Word (if v6 then "-6" else "-4"); Word "route"; Word "show"; Word "default"]
| query_route (v4 : bool) ip :
    query_command "route" ([Word "get"] ++ (if v4 then [] else [Word "-inet6"]) ++ [Addr ip])
| query_route_default (v6 : bool) :
    query_command "route" ([Word "-n"; Word "get"] ++ (if v6 then [Word "-inet6"] else []) ++ [Word "default"])
| query_powershell cmdlet a :
    cmdlet = "Find-NetRoute" \/ cmdlet = "Get-NetRoute" ->
    query_command "powershell.exe" [Word "-NoProfile"; Word "-NonInteractive"; Word "-Command";
                                    Word cmdlet; a].

(** The routes that are not over the device [tun]. *)
Definition other (tun : string) (t : gset route_key) : gset route_key := filter (fun k => k.2 <> tun) t.

(** The calls leave alone what they are not about, and the routes of a device
    live and die with it.  [iface] is the interface of a device handle. *)
Class SessionLaws (W : Type) `{System W} `{TunApi W} (table : W -> gset route_key)
    (hosts : W -> gset host_key) (iface : Z -> string) : Prop := {
  sl_name : forall w d n, tun_name w d = Some n -> n = iface d;
  sl_create : forall w c w' o, create_as_async w c = (w', o) -> hosts w' = hosts w /\
    match o with
    | Some d => (forall k, (k, iface d) ∉ table w) /\ other (iface d) (table w') = table w
    | None => table w' = table w
    end;
  sl_close : forall w d, table (close_device w d) = other (iface d) (table w) /\
    hosts (close_device w d) = hosts w;
  sl_vnet : forall w d n, table (set_vnet_hdr_size w d n).1 = table w /\
    hosts (set_vnet_hdr_size w d n).1 = hosts w;
  sl_offload : forall w d n, table (set_offload w d n).1 = table w /\
    hosts (set_offload w d n).1 = hosts w;
  sl_ipv4 : forall w n a b c, other n (table (set_ipv4_address w n a b c).1) = other n (table w) /\
    hosts (set_ipv4_address w n a b c).1 = hosts w;
  sl_subnet : forall w d i s, tun_index w d = Some i ->
    other (iface d) (table (add_subnet_route w i s).1) = other (iface d) (table w) /\
    hosts (add_subnet_route w i s).1 = hosts w;
  sl_ipv6 : forall os w n a p prog args, configure_tun_ipv6_command os n a p = (prog, args) ->
    other n (table (run w prog args).1) = other n (table w) /\ hosts (run w prog args).1 = hosts w;
  sl_add_hosts : forall prog args key w, add_command prog args key -> hosts (run w prog args).1 = hosts w;
  sl_delete_hosts : forall prog args key w, delete_command prog args key -> hosts (run w prog args).1 = hosts w;
  sl_entry_hosts : forall w row, hosts (CreateIpForwardEntry2 w row).1 = hosts w /\
    hosts (DeleteIpForwardEntry2 w row).1 = hosts w;
  sl_bypass_add : forall os info prog args w, bypass_add_command os info = Ret (prog, args) ->
    table (run w prog args).1 = table w;
  sl_bypass_delete : forall os g prog args w, bypass_delete_command os g = Some (prog, args) ->
    is_Some (bg_gateway g) -> table (run w prog args).1 = table w;
  sl_query : forall prog args w, query_command prog args ->
    table (run w prog args).1 = table w /\ hosts (run w prog args).1 = hosts w;
}.

(** The same laws for the host routes that are accounted for. *)
#[export] Instance accounted_session {W} `{System W} `{TunApi W} (table : W -> gset route_key)
    (hosts undeleted : W -> gset host_key) (iface : Z -> string) `{!SessionLaws W table hosts iface}
    `{!SessionLaws W table undeleted iface} : SessionLaws W table (accounted hosts undeleted) iface.
Proof.
  unfold accounted. constructor.
  - apply (sl_name (table:=table) (hosts:=hosts)).
  - intros w c w' o Hc. destruct (sl_create (table:=table) (hosts:=hosts) _ _ _ _ Hc) as [-> Ht].
    by destruct (sl_create (table:=table) (hosts:=undeleted) _ _ _ _ Hc) as [-> _].
  - intros w d. destruct (sl_close (table:=table) (hosts:=hosts) w d) as [-> ->].
    by destruct (sl_close (table:=table) (hosts:=undeleted) w d) as [_ ->].
  - intros w d n. destruct (sl_vnet (table:=table) (hosts:=hosts) w d n) as [-> ->].
    by destruct (sl_vnet (table:=table) (hosts:=undeleted) w d n) as [_ ->].
  - intros w d n. destruct (sl_offload (table:=table) (hosts:=hosts) w d n) as [-> ->].
    by destruct (sl_offload (table:=table) (hosts:=undeleted) w d n) as [_ ->].
  - intros w n a b c. destruct (sl_ipv4 (table:=table) (hosts:=hosts) w n a b c) as [-> ->].
    by destruct (sl_ipv4 (table:=table) (hosts:=undeleted) w n a b c) as [_ ->].
  - intros w d i s Hi. destruct (sl_subnet (table:=table) (hosts:=hosts) w d i s Hi) as [-> ->].
    by destruct (sl_subnet (table:=table) (hosts:=undeleted) w d i s Hi) as [_ ->].
  - intros os w n a p prog args Hc. destruct (sl_ipv6 (table:=table) (hosts:=hosts) os w n a p prog args Hc) as [-> ->].
    by destruct (sl_ipv6 (table:=table) (hosts:=undeleted) os w n a p prog args Hc) as [_ ->].
  - intros prog args key w Hc. by rewrite (sl_add_hosts (hosts:=hosts) _ _ _ w Hc), (sl_add_hosts (hosts:=undeleted) _ _ _ w Hc).
  - intros prog args key w Hc. by rewrite (sl_delete_hosts (hosts:=hosts) _ _ _ w Hc), (sl_delete_hosts (hosts:=undeleted) _ _ _ w Hc).
  - intros w row. destruct (sl_entry_hosts (hosts:=hosts) w row) as [-> ->].
    by destruct (sl_entry_hosts (hosts:=undeleted) w row) as [-> ->].
  - apply (sl_bypass_add (table:=table) (hosts:=hosts)).
  - apply (sl_bypass_delete (table:=table) (hosts:=hosts)).
  - intros prog args w Hq. destruct (sl_query (table:=table) (hosts:=hosts) prog args w Hq) as [-> ->].
    by destruct (sl_query (table:=table) (hosts:=undeleted) prog args w Hq) as [_ ->].
Qed.
