(* ===== verification/SessionProofs.v ===== *)
(** * The parts of a client session restore the host ([src/tunnel/client.rs])

    The effect of the set-up and of its unwinding on the routing tables, and of
    the bypass manager, aborted at any of its awaits; the manager refines the
    abstract one of [Routing].  The lemmas are about any account [hosts] of the
    host routes; the theorems take the one of [accounted]. *)

From S2P Require Import Prelude Text Future Errors Net Config Signaling Handshake Client.
From S2P Require Import DeviceRoutes Bypass Device Routing Status Session.

#[local] Open Scope string_scope.

(** ** Routes over the tunnel *)

Lemma other_union tun t u : (forall k, k ∈ u -> k.2 = tun) -> other tun (t ∪ u) = other tun t.
Proof. intros Hu. unfold other. apply set_eq. intros k. set_unfold. naive_solver. Qed.

Lemma other_difference tun t u : (forall k, k ∈ u -> k.2 = tun) -> other tun (t ∖ u) = other tun t.
Proof. intros Hu. unfold other. apply set_eq. intros k. set_unfold. naive_solver. Qed.

(** Deletions, successful or not, of routes over [tun]. *)
Lemma other_between tun t t' u :
  (forall k, k ∈ u -> k.2 = tun) -> t ∖ u ⊆ t' -> t' ⊆ t -> other tun t' = other tun t.
Proof.
  intros Hu H1 H2. apply set_eq. intros k. unfold other. rewrite !elem_of_filter. split; [naive_solver|].
  intros [Hk Hin]. split; [done|]. apply H1. apply elem_of_difference. split; [done|]. intros Hx. by apply Hk, Hu.
Qed.

Lemma other_idemp tun t : other tun (other tun t) = other tun t.
Proof. unfold other. apply set_eq. intros k. set_unfold. naive_solver. Qed.

(** ** What is left of a session *)

Section Restored.
Context {W : Type} (table : W -> gset route_key) (hosts : W -> gset host_key) (landed : bool).

(** Both tables. *)
Definition tables (w : W) : gset route_key * gset host_key := (table w, hosts w).

(** The host routes a dropped command may have added after all. *)
Definition leak : nat := if landed then 1 else 0.

(** The routes over the devices are those of before, and at most [n] host
    routes have been added. *)
Definition restored (n : nat) (w w' : W) : Prop :=
  table w' = table w /\ hosts w ⊆ hosts w' /\ size (hosts w' ∖ hosts w) <= n.

Lemma restored_extra n extra w w' :
  table w' = table w -> hosts w' = hosts w ∪ extra -> size extra <= n -> restored n w w'.
Proof.
  intros Ht Hh Hn. unfold restored. rewrite Hh. split_and!; [done|set_solver|].
  etrans; [|exact Hn]. apply subseteq_size. set_solver.
Qed.

Lemma restored_tables n w w' : tables w' = tables w -> restored n w w'.
Proof.
  intros [= Ht Hh]. apply (restored_extra _ ∅); [done| |rewrite size_empty; lia]. by rewrite Hh, union_empty_r_L.
Qed.

Lemma restored_from n w w1 w' : tables w1 = tables w -> restored n w1 w' -> restored n w w'.
Proof. unfold restored. by intros [= -> ->]. Qed.

Lemma restored_trans n m w w1 w2 : restored n w w1 -> restored m w1 w2 -> restored (n + m) w w2.
Proof.
  intros (Ht1 & Hs1 & Hn1) (Ht2 & Hs2 & Hn2). split_and!; [congruence|set_solver|].
  transitivity (size ((hosts w2 ∖ hosts w1) ∪ (hosts w1 ∖ hosts w))); [apply subseteq_size; intros k Hk|].
  - destruct (decide (k ∈ hosts w1)); set_solver.
  - rewrite size_union_alt.
    assert (Hs : (hosts w1 ∖ hosts w) ∖ (hosts w2 ∖ hosts w1) ⊆ hosts w1 ∖ hosts w) by set_solver.
    apply subseteq_size in Hs. lia.
Qed.

(** A computation that adds at most [n] host routes for good, one more when it
    is dropped, and is dropped only if it is cut. *)
Definition bounded {A} (n : nat) (m : async W A) : Prop := forall w k,
  match m w k with
  | (w', Some (_, k')) => restored n w w' /\ (k = None -> k' = None)
  | (w', None) => restored (n + leak) w w' /\ k <> None
  end.

Lemma restored_mono n m w w' : n <= m -> restored n w w' -> restored m w w'.
Proof. intros Hn (? & ? & ?). split_and!; [done..|lia]. Qed.

Lemma bounded_ret {A} n (a : A) : bounded n (mret a).
Proof. intros w k. split; [by apply restored_tables|done]. Qed.

Lemma bounded_pure {A} n (f : W -> W * A) : (forall w, (f w).1 = w) -> bounded n (awaiting landed f).
Proof.
  intros Hf w k. unfold awaiting. specialize (Hf w). destruct (f w) as [w1 a]. cbn [fst] in *. subst w1.
  assert (forall n, restored n w w) by (intros; by apply restored_tables). destruct k as [[|n']|]; [destruct landed|..]; done.
Qed.

Lemma bounded_bind {A B} n1 n2 (m : async W A) (f : A -> async W B) :
  bounded n1 m -> (forall a, bounded n2 (f a)) -> bounded (n1 + n2) (m ≫= f).
Proof.
  intros Hm Hf w k. unfold mbind, async_bind. specialize (Hm w k). destruct (m w k) as [w1 [[a k1]|]].
  - destruct Hm as [Hm Hk]. specialize (Hf a w1 k1). destruct (f a w1 k1) as [w2 [[b k2]|]]; destruct Hf as [Hf Hk2].
    + split; [by eapply restored_trans|tauto].
    + split; [|tauto]. rewrite <-Nat.add_assoc. by eapply restored_trans.
  - destruct Hm. split; [|done]. eapply restored_mono; [|done]. lia.
Qed.
End Restored.
Arguments restored_extra {W table hosts}.
Arguments restored_tables {W table hosts}.
Arguments restored_from {W table hosts}.
Arguments restored_trans {W table hosts}.
Arguments restored_mono {W table hosts}.

Section Effects.
Context {Net4 Net6 : Type} `{NetLaws V4_BITS Net4} `{NetLaws V6_BITS Net6}.
Context {W : Type} `{System W} `{TunApi W}.
Context (table : W -> gset route_key) (hosts : W -> gset host_key) (iface : Z -> string).
Context `{!KernelLaws W table} `{!HostAccount W hosts} `{!SessionLaws W table hosts iface}.
Context (parse_ip : string -> option IpAddr) (show_ip : IpAddr -> string).
Context (with_netmask : Z -> Z -> option Net4).
Context (os : Os) (landed : bool).

Abbreviation tables := (tables table hosts).
Abbreviation leak := (leak landed).
Abbreviation restored := (restored table hosts).

(** What a step about the device [tun] must not change. *)
Definition view (tun : string) (w : W) : gset route_key * gset host_key := (other tun (table w), hosts w).

Lemma windows_add_hosts w tun dest p : hosts (windows_add_route w tun dest p).1 = hosts w.
Proof.
  unfold windows_add_route, interface_luid.
  destruct (ConvertInterfaceAliasToLuid w tun) as [s luid]. destruct (s =? NO_ERROR)%Z; [|done].
  pose proof (sl_entry_hosts (hosts:=hosts) w (forward_row luid dest p)) as [Hc _].
  by destruct (CreateIpForwardEntry2 w _).
Qed.

Lemma windows_delete_hosts w tun dest p : hosts (windows_delete_route w tun dest p).1 = hosts w.
Proof.
  unfold windows_delete_route, interface_luid.
  destruct (ConvertInterfaceAliasToLuid w tun) as [s luid]. destruct (s =? NO_ERROR)%Z; [|done].
  pose proof (sl_entry_hosts (hosts:=hosts) w (forward_row luid dest p)) as [_ Hc].
  by destruct (DeleteIpForwardEntry2 w _).
Qed.

Lemma windows_first {A} (r : W * outcome Z A) (f : Z -> VpnError) :
  (match r with (w, Ret o) => (w, Ret o) | (w, Fail e) => (w, Fail (f e)) | (w, Panic) => (w, Panic) end).1 = r.1.
Proof. by destruct r as [w [?|?|]]. Qed.

Lemma add_route4_hosts w tun (r : Net4) : hosts (add_route_generic os w tun r).1 = hosts w.
Proof.
  destruct os; cbn [add_route_generic]; rewrite ?shell_first.
  - eapply sl_add_hosts, add_linux4.
  - eapply sl_add_hosts, add_macos4, law_prefix.
  - cbn [windows_prefix route_v4]. rewrite windows_first. apply windows_add_hosts.
Qed.

Lemma add_route6_hosts w tun src (r : Net6) : hosts (add_route6_with_src os w tun r src).1 = hosts w.
Proof.
  destruct os; cbn [add_route6_with_src add_route_generic]; rewrite ?shell_first.
  - eapply sl_add_hosts, add_linux6_src.
  - eapply sl_add_hosts, add_macos6.
  - cbn [windows_prefix route_v6]. rewrite windows_first. apply windows_add_hosts.
Qed.

Lemma remove_route4_hosts w tun (r : Net4) : hosts (remove_route_generic os w tun r).1 = hosts w.
Proof.
  destruct os; cbn [remove_route_generic]; rewrite ?shell_first.
  - eapply sl_delete_hosts, delete_linux4.
  - eapply sl_delete_hosts, delete_macos4, law_prefix.
  - cbn [windows_prefix route_v4 fst]. apply windows_delete_hosts.
Qed.

Lemma remove_route6_hosts w tun (r : Net6) : hosts (remove_route_generic os w tun r).1 = hosts w.
Proof.
  destruct os; cbn [remove_route_generic]; rewrite ?shell_first.
  - eapply sl_delete_hosts, delete_linux6.
  - eapply sl_delete_hosts, delete_macos6.
  - cbn [windows_prefix route_v6 fst]. apply windows_delete_hosts.
Qed.

Lemma rollback_hosts {R} `{Route R} tun (Hdel : forall w (r : R), hosts (remove_route_generic os w tun r).1 = hosts w)
    w rs : hosts (rollback os w tun rs) = hosts w.
Proof.
  unfold rollback. generalize (rev rs). intros l. revert w. induction l as [|r l IH]; intros w; [done|].
  cbn [fold_left]. by rewrite IH, Hdel.
Qed.

Lemma add_each_hosts {R} `{Route R} tun (add : W -> R -> W * vres RouteAddOutcome) :
  (forall w r, hosts (add w r).1 = hosts w) ->
  (forall w (r : R), hosts (remove_route_generic os w tun r).1 = hosts w) ->
  forall rs w added, hosts (add_each os add tun w rs added).1 = hosts w.
Proof.
  intros Ha Hd. induction rs as [|r rs IH]; intros w added; cbn [add_each]; [done|].
  specialize (Ha w r). destruct (add w r) as [w1 [[]|e|]]; cbn [fst] in *.
  - by rewrite IH.
  - by rewrite IH.
  - by rewrite rollback_hosts.
  - done.
Qed.

Lemma remove_view {R} `{Route R} (key : R -> route_key) tun w (r : R) :
  (forall r, (key r).2 = tun) -> removing table key os tun ->
  hosts (remove_route_generic os w tun r).1 = hosts w ->
  view tun (remove_route_generic os w tun r).1 = view tun w.
Proof.
  intros Hk Hd Hh. unfold view. rewrite Hh. f_equal. destruct (delete_bounds _ _ _ _ (Hd w r)) as (H1' & H2' & _).
  eapply other_between; [|exact H1'|exact H2']. intros k ->%elem_of_singleton. apply Hk.
Qed.

Lemma drop_guard_view {R} `{Route R} (key : R -> route_key) w g tun :
  (forall r, (key r).2 = tun) -> g_tun_name g = tun -> removing table key os tun ->
  (forall w (r : R), hosts (remove_route_generic os w tun r).1 = hosts w) ->
  view tun (drop_guard os w g) = view tun w /\ table (drop_guard os w g) ⊆ table w.
Proof.
  intros Hk Hg Ht Hh. unfold drop_guard. rewrite Hg. generalize (rev (g_routes g)). intros l.
  revert w. induction l as [|r l IH]; intros w; [done|]. cbn [fold_left].
  destruct (IH (remove_route_sync_generic os w tun r)) as [IH1 IH2]. rewrite IH1. rewrite remove_sync_same in *.
  split; [by apply (remove_view key)|]. destruct (delete_bounds _ _ _ _ (Ht w r)) as (_ & H2' & _). set_solver.
Qed.

Lemma drop4_view w (g : RouteGuard (R:=Net4)) tun : g_tun_name g = tun ->
  view tun (drop_guard os w g) = view tun w /\ table (drop_guard os w g) ⊆ table w.
Proof.
  intros Hg. apply (drop_guard_view (key4 tun)); [done|done| |].
  - apply (remove_route4_effect (Net6:=Net6) table).
  - intros. apply remove_route4_hosts.
Qed.

Lemma drop6_view w (g : RouteGuard (R:=Net6)) tun : g_tun_name g = tun ->
  view tun (drop_guard os w g) = view tun w /\ table (drop_guard os w g) ⊆ table w.
Proof.
  intros Hg. apply (drop_guard_view (key6 tun)); [done|done| |].
  - apply (remove_route6_effect (Net4:=Net4) table).
  - intros. apply remove_route6_hosts.
Qed.

(** What adding routes gives. *)
Definition added {R} (key : R -> route_key) (tun : string) (w : W) (r : W * vres (RouteGuard (R:=R))) : Prop :=
  view tun r.1 = view tun w /\
  match r.2 with
  | Ret g => g_tun_name g = tun /\ table w ⊆ table r.1 /\ forall n, n ∈ g_routes g -> key n ∈ table r.1
  | Fail _ => True
  | Panic => False
  end.

Lemma transactional_added {w0 Net} `{NetOps w0 Net} `{!Route Net} (key : Net -> route_key) tun w routes r :
  (forall n, (key n).2 = tun) -> transactional table key os tun w routes r ->
  hosts r.1 = hosts w -> added key tun w r.
Proof.
  assert (Hon : forall (l : list Net) k, (forall n, (key n).2 = tun) ->
    k ∈ (list_to_set (key <$> l) : gset route_key) -> k.2 = tun).
  { intros l k Hk (n & -> & _)%elem_of_list_to_set%list_elem_of_fmap. apply Hk. }
  intros Hk (final & _ & Ht) Hh. destruct r as [w' [g|e|]]; unfold added, view; cbn [fst snd] in *; [| |done].
  - destruct Ht as (_ & Hg & Htab & _). rewrite Hh, Htab, other_union by eauto.
    split; [done|]. split; [done|]. split; [set_solver|]. intros n Hn. set_solver.
  - destruct Ht as (w1 & l & _ & _ & Hs & Hd). split; [|done]. rewrite Hh. f_equal. apply set_eq. intros k.
    unfold other. rewrite !elem_of_filter. split; [|naive_solver]. intros [Hne Hin]. split; [done|].
    destruct (decide (k ∈ table w)); [done|]. exfalso. apply Hne. eapply Hon; [done|]. apply Hd. set_solver.
Qed.

Lemma add_routes_added tun w (routes : list Net4) : added (key4 tun) tun w (add_routes os w tun routes).
Proof.
  eapply transactional_added; [done|by apply (add_routes_transactional (Net6:=Net6) table)|].
  unfold add_routes. destruct (expand_all _ _); [|done..].
  pose proof (add_each_hosts tun (fun w r => add_route_generic os w tun r)
    (fun w r => add_route4_hosts w tun r) (fun w r => remove_route4_hosts w tun r) a w []) as Hh.
  by destruct (add_each _ _ _ _ _ _) as [w' [?|?|]].
Qed.

Lemma add_routes6_added tun w (routes : list Net6) src :
  added (key6 tun) tun w (add_routes6_with_src os w tun routes src).
Proof.
  eapply transactional_added; [done|by apply (add_routes6_transactional (Net4:=Net4) table)|].
  unfold add_routes6_with_src. destruct (expand_all _ _); [|done..].
  pose proof (add_each_hosts tun (fun w r => add_route6_with_src os w tun r src)
    (fun w r => add_route6_hosts w tun src r) (fun w r => remove_route6_hosts w tun r) a w []) as Hh.
  by destruct (add_each _ _ _ _ _ _) as [w' [?|?|]].
Qed.

(** ** Bypass routes *)

Lemma query_state {A} (r : W * option Output) (e e' : string) (f : string -> vres A)
    (obs : W -> gset route_key * gset host_key) w :
  obs r.1 = obs w -> obs (query r e e' f).1 = obs w.
Proof. by rewrite query_first. Qed.

Lemma run_query prog args w : query_command prog args -> tables (run w prog args).1 = tables w.
Proof. intros Hq. unfold tables. by destruct (sl_query (table:=table) (hosts:=hosts) prog args w Hq) as [-> ->]. Qed.

Lemma query_route_tables w ip : tables (query_route_for_ip parse_ip show_ip os w ip).1 = tables w.
Proof.
  unfold query_route_for_ip, query_route_linux, query_route_macos, query_route_windows; destruct os; apply query_state, run_query; [constructor..|].
  constructor. by left.
Qed.

Lemma query_default_tables w v6 : tables (query_default_gateway parse_ip show_ip os w v6).1 = tables w.
Proof.
  unfold query_default_gateway. rewrite (surjective_pairing (match os with LinuxOs => _ | _ => _ end)). cbn [fst].
  destruct os; apply query_state, run_query; [constructor..|]. constructor. by right.
Qed.

Lemma capture_tables w v6 : tables (capture_underlay_gateway parse_ip show_ip os w v6).1 = tables w.
Proof.
  unfold capture_underlay_gateway. pose proof (query_default_tables w v6) as Hq.
  by destruct (query_default_gateway parse_ip show_ip os w v6) as [w' [?|?|]].
Qed.

Lemma add_bypass_table w ip d fb : table (add_bypass_route parse_ip show_ip os w ip d fb).1 = table w.
Proof.
  unfold add_bypass_route. pose proof (query_route_tables w ip) as Hq. unfold tables in Hq.
  destruct (query_route_for_ip parse_ip show_ip os w ip) as [w1 [info|e|]]; cbn [fst] in *; [|congruence..].
  injection Hq as Hq _. destruct (resolve_bypass_route_info info d fb) as [info'|e|]; cbn [fst]; [|done..].
  assert (Hi : table (add_bypass_route_impl os w1 info').1 = table w1).
  { unfold add_bypass_route_impl. destruct (bypass_add_command os info') as [[prog args]|e|] eqn:Hc; [|done..].
    pose proof (sl_bypass_add (table:=table) os info' prog args w1 Hc) as Hl.
    by destruct (run w1 prog args) as [w2 [out|]]. }
  rewrite <-Hq, <-Hi. by destruct (add_bypass_route_impl os w1 info') as [w2 [?|?|]].
Qed.

Lemma drop_bypass_table w g : is_Some (bg_gateway g) -> table (drop_bypass_guard os w g) = table w.
Proof.
  intros Hg. unfold drop_bypass_guard. destruct (bg_owned g); [|done]. cbn [negb].
  destruct (bypass_delete_command os g) as [[prog args]|] eqn:Hc; [|done]. by eapply sl_bypass_delete.
Qed.

(** The host routes are those of [h0] and those the active guards own. *)
Record manager_inv (h0 : gset host_key) (w : W) (m : Manager Net4 Net6) : Prop := {
  mi_peer : forall ip g, m_active m !! ip = Some g -> bg_peer_ip g = ip /\ is_Some (bg_gateway g);
  mi_owned : forall ip g, m_active m !! ip = Some g -> bg_owned g = true ->
    is_Some (bypass_delete_command os g) /\ (guard_key os g ∉ h0);
  mi_hosts : forall k, k ∈ hosts w <-> k ∈ h0 \/
    exists ip g, m_active m !! ip = Some g /\ bg_owned g = true /\ k = guard_key os g;
}.

Lemma manager_inv_hosts h0 w w' m : hosts w' = hosts w -> manager_inv h0 w m -> manager_inv h0 w' m.
Proof.
  intros He Hm. constructor; [apply (mi_peer _ _ _ Hm)|apply (mi_owned _ _ _ Hm)|].
  rewrite He. apply (mi_hosts _ _ _ Hm).
Qed.

Lemma manager_install_inv h0 w m to_add :
  NoDup to_add -> (forall ip, ip ∈ to_add -> m_active m !! ip = None) -> manager_inv h0 w m ->
  let r := manager_install parse_ip show_ip os w m to_add in
  manager_inv h0 r.1 r.2 /\ table r.1 = table w.
Proof.
  revert w m. induction to_add as [|ip rest IH]; intros w m Hnd Hfree Hm; cbn [manager_install]; [done|].
  apply NoDup_cons in Hnd as [Hnin Hnd].
  set (fb := match ip with V4 _ => m_gw4 m | V6 _ => m_gw6 m end).
  pose proof (add_bypass_spec parse_ip show_ip hosts os w ip (Some (m_tun_name m)) fb) as Hs.
  pose proof (add_bypass_table w ip (Some (m_tun_name m)) fb) as Ht.
  destruct (add_bypass_route parse_ip show_ip os w ip (Some (m_tun_name m)) fb) as [w1 [g|e|]];
    cbn [fst] in *; [| |done]; rewrite <-Ht.
  2:{ apply IH; [done|intros; apply Hfree; set_solver|]. by eapply manager_inv_hosts. }
  destruct Hs as (info & _ & Hp & Hgw & _ & _ & Hown).
  apply IH; [done|intros x Hx; cbn; rewrite lookup_insert_ne by set_solver; apply Hfree; set_solver|].
  assert (Hnone : m_active m !! ip = None) by (apply Hfree; set_solver).
  constructor; cbn [m_active set_active_routes].
  - intros x gx [[<- <-]|[_ Hx]]%lookup_insert_Some; [done|]. by eapply mi_peer.
  - intros x gx [[<- <-]|[_ Hx]]%lookup_insert_Some Ho; [|by eapply mi_owned].
    rewrite Ho in Hown. destruct Hown as (Hn & _ & Hc). split; [done|]. intros Hk. apply Hn.
    apply (mi_hosts _ _ _ Hm). by left.
  - intros k. destruct (bg_owned g) eqn:Ho.
    + destruct Hown as (_ & -> & _). rewrite elem_of_union, elem_of_singleton, (mi_hosts _ _ _ Hm). split.
      * intros [->|[Hk|(x & gx & Hx & Hox & ->)]]; [right; exists ip, g; by rewrite lookup_insert_eq|by left|].
        right. exists x, gx. rewrite lookup_insert_ne by congruence. done.
      * intros [Hk|(x & gx & [[<- <-]|[_ Hx]]%lookup_insert_Some & Hox & ->)]; [auto|by left|]. right. right. eauto.
    + rewrite Hown, (mi_hosts _ _ _ Hm). split.
      * intros [Hk|(x & gx & Hx & Hox & ->)]; [by left|]. right. exists x, gx.
        rewrite lookup_insert_ne by congruence. done.
      * intros [Hk|(x & gx & [[<- <-]|[_ Hx]]%lookup_insert_Some & Hox & ->)]; [auto|congruence|]. right. eauto.
Qed.

Lemma manager_update_inv h0 w m ips :
  manager_inv h0 w m ->
  let r := manager_update parse_ip show_ip os w m ips in manager_inv h0 r.1 r.2 /\ table r.1 = table w.
Proof.
  intros Hm. apply manager_install_inv.
  - apply NoDup_filter, NoDup_elements.
  - intros ip [Hd _]%list_elem_of_filter. by apply not_elem_of_dom in Hd.
  - by destruct Hm.
Qed.

Lemma manager_run_inv h0 w m updates :
  manager_inv h0 w m ->
  let r := manager_run parse_ip show_ip os w m updates in manager_inv h0 r.1 r.2 /\ table r.1 = table w.
Proof.
  revert w m. induction updates as [|ips rest IH]; intros w m Hm; cbn [manager_run]; [done|].
  pose proof (manager_update_inv h0 w m ips Hm) as [Hm1 Ht]. destruct (manager_update _ _ _ _ _ _) as [w1 m1].
  cbn [fst snd] in *. rewrite <-Ht. by apply IH.
Qed.

Lemma drop_guards_hosts l w :
  Forall (fun g => is_Some (bg_gateway g)) l ->
  (forall g, g ∈ l -> bg_owned g = true -> is_Some (bypass_delete_command os g)) ->
  forall k, k ∈ hosts (fold_left (drop_bypass_guard os) l w) <->
    k ∈ hosts w /\ forall g, g ∈ l -> bg_owned g = true -> k <> guard_key os g.
Proof.
  revert w. induction l as [|g l IH]; intros w Hgw Hl k; cbn [fold_left].
  { split; [intros Hk; split; [done|by intros ? ?%not_elem_of_nil]|by intros []]. }
  apply Forall_cons in Hgw as [Hg1 Hgw].
  rewrite IH; [|done|intros x Hx; apply Hl; set_solver].
  rewrite (drop_bypass_hosts hosts os w g Hg1 (Hl g (list_elem_of_here _ _))). destruct (bg_owned g) eqn:Ho.
  - rewrite elem_of_difference, elem_of_singleton. split.
    + intros [[Hk Hne] Hall]. split; [done|]. intros x [->|Hx]%elem_of_cons; auto.
    + intros [Hk Hall]. split; [split; [done|]|]; [apply Hall; [set_solver|done]|].
      intros x Hx. apply Hall. set_solver.
  - split; [|intros [? Hall]; split; [done|]; intros x Hx; apply Hall; set_solver].
    intros [Hk Hall]. split; [done|]. intros x [->|Hx]%elem_of_cons; [congruence|auto].
Qed.

Lemma active_guards (m : Manager Net4 Net6) g :
  g ∈ (map_to_list (m_active m)).*2 <-> exists ip, m_active m !! ip = Some g.
Proof.
  rewrite list_elem_of_fmap. split.
  - intros ([ip x] & -> & Hx%elem_of_map_to_list). by exists ip.
  - intros [ip Hg]. exists (ip, g). split; [done|]. by apply elem_of_map_to_list.
Qed.

Lemma active_gateways h0 w m :
  manager_inv h0 w m -> Forall (fun g => is_Some (bg_gateway g)) (map_to_list (m_active m)).*2.
Proof.
  intros Hm. apply Forall_forall. intros g [ip Hg]%active_guards. by apply (mi_peer _ _ _ Hm) in Hg as [_ ?].
Qed.

Lemma drop_manager_restores h0 w m : manager_inv h0 w m -> hosts (drop_manager os w m) = h0.
Proof.
  intros Hm. unfold drop_manager. pose proof (active_guards m) as Hin.
  apply set_eq. intros k. rewrite drop_guards_hosts.
  - rewrite (mi_hosts _ _ _ Hm). split.
    + intros [[Hk|(ip & g & Hg & Ho & ->)] Hall]; [done|]. exfalso. by eapply (Hall g); [apply Hin; eauto|..].
    + intros Hk. split; [by left|]. intros g [ip Hg]%Hin Ho ->. by destruct (mi_owned _ _ _ Hm _ _ Hg Ho).
  - by eapply active_gateways.
  - intros g [ip Hg]%Hin Ho. by destruct (mi_owned _ _ _ Hm _ _ Hg Ho).
Qed.

Lemma drop_manager_table h0 w0 w (m : Manager Net4 Net6) :
  manager_inv h0 w0 m -> table (drop_manager os w m) = table w.
Proof.
  intros Hm%active_gateways. unfold drop_manager. revert w Hm. generalize ((map_to_list (m_active m)).*2).
  induction l as [|g l IH]; intros w Hl; [done|]. apply Forall_cons in Hl as [Hg Hl]. cbn [fold_left].
  by rewrite IH, drop_bypass_table.
Qed.

Lemma bootstrap_inv w tun routes routes6 relay addrs :
  let r := add_iroh_bypass_routes (Net4:=Net4) (Net6:=Net6) parse_ip show_ip os w tun routes routes6 relay addrs in
  manager_inv (hosts w) r.1 r.2 /\ table r.1 = table w.
Proof.
  unfold add_iroh_bypass_routes.
  assert (Hcap : forall {A} (l : list A) v6 w, tables (match l with [] => (w, None)
    | _ => capture_underlay_gateway parse_ip show_ip os w v6 end).1 = tables w).
  { intros A [|? ?] v6 w'; [done|apply capture_tables]. }
  pose proof (Hcap _ routes false w) as H1'. destruct (match routes with [] => _ | _ => _ end) as [w1 gw4].
  pose proof (Hcap _ routes6 true w1) as H2'. destruct (match routes6 with [] => _ | _ => _ end) as [w2 gw6].
  cbn [fst] in *. rewrite H1' in H2'. injection H2' as Ht Hh.
  assert (Hm : manager_inv (hosts w) w2 (mkManager ∅ tun routes routes6 gw4 gw6 ∅)).
  { constructor; cbn [m_active]; [done..|]. intros k. rewrite Hh. split; [by left|].
    intros [Hk|(ip & g & Hg & _)]; [done|]. by rewrite lookup_empty in Hg. }
  case_decide; [by split|]. rewrite <-Ht. by apply manager_update_inv.
Qed.

(** ** The manager refines the abstract one *)

Definition manager_view (m : Manager Net4 Net6) : BypassRouteManager Net4 Net6 :=
  mkBypass (dom (m_active m)) (m_routes4 m) (m_routes6 m) (m_collected m).

Lemma install_eq add to_add active :
  install add to_add active = active ∪ list_to_set (filter (fun ip => add ip = true) to_add).
Proof.
  revert active. induction to_add as [|ip rest IH]; intros active; cbn [install]; [set_solver|].
  rewrite IH, filter_cons. destruct (add ip); [rewrite decide_True by done|rewrite decide_False by done]; set_solver.
Qed.

(** Whether the update installed a route for an address. *)
Definition installed (m' : Manager Net4 Net6) (ip : IpAddr) : bool := bool_decide (ip ∈ dom (m_active m')).

(** ** The manager's task, aborted anywhere *)

Lemma implements_add_bypass ip d fb :
  implements (add_bypass_route_async parse_ip show_ip os landed ip d fb)
    (fun w => add_bypass_route parse_ip show_ip os w ip d fb).
Proof.
  unfold add_bypass_route_async, add_bypass_route.
  eapply implements_ext; [|apply implements_bind; [apply implements_awaiting|]].
  2:{ intros q. instantiate (1 := fun q w => match q with
        | Ret info => match resolve_bypass_route_info info d fb with
          | Ret info => match add_bypass_route_impl os w info with
            | (w, Ret o) => (w, Ret (mkBypassGuard ip (i_device info) (i_gateway info) (i_gateway_str info)
                               (i_if_index info) (bool_decide (o = Added))))
            | (w, Fail e) => (w, Fail e)
            | (w, Panic) => (w, Panic) end
          | Fail e => (w, Fail e) | Panic => (w, Panic) end
        | Fail e => (w, Fail e) | Panic => (w, Panic) end).
      destruct q as [info|e|]; [|apply implements_ret..].
      destruct (resolve_bypass_route_info info d fb) as [info'|e|]; [|apply implements_ret..].
      eapply implements_ext; [|apply implements_bind; [|intros o; apply implements_ret]].
      2:{ instantiate (1 := fun w => add_bypass_route_impl os w info').
          destruct (bypass_add_command os info'); auto with async. }
      intros w. cbv beta. by destruct (add_bypass_route_impl os w info') as [w' [?|?|]]. }
  intros w. cbv beta. by destruct (query_route_for_ip parse_ip show_ip os w ip) as [w1 [?|?|]].
Qed.

(** A dropped addition has done nothing, or all but note its guard. *)
Lemma dropped_add_bypass ip d fb w :
  dropped (add_bypass_route_async parse_ip show_ip os landed ip d fb) w (fun w' =>
    tables w' = tables w \/
    landed = true /\ w' = (add_bypass_route parse_ip show_ip os w ip d fb).1).
Proof.
  unfold add_bypass_route_async, add_bypass_route.
  pose proof (query_route_tables w ip) as Hq.
  eapply dropped_bind; [apply implements_awaiting|apply dropped_awaiting; auto|]. cbv beta.
  destruct (query_route_for_ip parse_ip show_ip os w ip) as [w1 [info|e|]]; cbn [fst snd] in *; [|apply dropped_ret..].
  destruct (resolve_bypass_route_info info d fb) as [info'|e|]; [|apply dropped_ret..].
  eapply (dropped_bind _ (fun w => add_bypass_route_impl os w info')); [| |apply dropped_ret].
  { destruct (bypass_add_command os info'); auto with async. }
  destruct (bypass_add_command os info'); [|apply dropped_blocking..].
  apply dropped_awaiting; [by left|]. intros ->. right. split; [done|].
  by destruct (add_bypass_route_impl os w1 info') as [w2 [?|?|]].
Qed.

(** A manager whose host routes are its own but for a leaked one. *)
Definition leaky (h0 : gset host_key) (w : W) (m : Manager Net4 Net6) : Prop :=
  exists extra, size extra <= leak /\ manager_inv (h0 ∪ extra) w m.

Lemma tight_leaky h0 w m : manager_inv h0 w m -> leaky h0 w m.
Proof. intros Hm. exists ∅. rewrite size_empty, union_empty_r_L. split; [lia|done]. Qed.

(** The route of an address that has no guard yet. *)
Lemma dropped_route_leaky h0 w (m : Manager Net4 Net6) ip d fb w' :
  manager_inv h0 w m -> m_active m !! ip = None ->
  (tables w' = tables w \/ landed = true /\ w' = (add_bypass_route parse_ip show_ip os w ip d fb).1) ->
  leaky h0 w' m /\ table w' = table w.
Proof.
  intros Hm Hn [[= Ht Hh]|[Hl ->]].
  { split; [|done]. apply tight_leaky. by eapply manager_inv_hosts. }
  pose proof (add_bypass_table w ip d fb) as Ht. split; [|done].
  pose proof (add_bypass_spec parse_ip show_ip hosts os w ip d fb) as Hs.
  destruct (add_bypass_route parse_ip show_ip os w ip d fb) as [w1 [g|e|]]; cbn [fst] in *; [| |done].
  2:{ apply tight_leaky. by eapply manager_inv_hosts. }
  destruct Hs as (info & _ & Hp & _ & _ & _ & Hown). destruct (bg_owned g) eqn:Ho.
  2:{ apply tight_leaky. by eapply manager_inv_hosts. }
  destruct Hown as (Hnew & Hh & _). exists {[guard_key os g]}. unfold leak. rewrite Hl, size_singleton. split; [done|].
  constructor.
  - apply (mi_peer _ _ _ Hm).
  - intros x gx Hx Hox. destruct (mi_owned _ _ _ Hm _ _ Hx Hox) as [Hc Hk]. split; [done|].
    intros [?|He%elem_of_singleton]%elem_of_union; [done|]. apply (f_equal fst) in He. cbn in He.
    destruct (mi_peer _ _ _ Hm _ _ Hx) as [Hpx _]. congruence.
  - intros k. rewrite Hh, !elem_of_union, (mi_hosts _ _ _ Hm). tauto.
Qed.

(** What an update leaves: a completed one has done its work, a dropped one may
    leak the route it was adding. *)
Definition update_ok (h0 : gset host_key) (w : W) (c : cut) (done_ : W * Manager Net4 Net6)
    (r : W * Manager Net4 Net6 * option cut) : Prop :=
  match r with
  | (w', m', Some c') => (w', m') = done_ /\ (c = None -> c' = None)
  | (w', m', None) => c <> None /\ leaky h0 w' m' /\ table w' = table w
  end.

Lemma install_async_ok h0 w (m : Manager Net4 Net6) to_add c :
  NoDup to_add -> (forall ip, ip ∈ to_add -> m_active m !! ip = None) -> manager_inv h0 w m ->
  update_ok h0 w c (manager_install parse_ip show_ip os w m to_add)
    (manager_install_async parse_ip show_ip os landed m to_add w c).
Proof.
  revert w m c. induction to_add as [|ip rest IH]; intros w m c Hnd Hfree Hm;
    cbn [manager_install manager_install_async]; [done|].
  assert (Hstep := manager_install_inv h0 w m [ip]).
  set (fb := match ip with V4 _ => m_gw4 m | V6 _ => m_gw6 m end).
  pose proof (implements_add_bypass ip (Some (m_tun_name m)) fb w c) as Hi.
  pose proof (dropped_add_bypass ip (Some (m_tun_name m)) fb w c) as Hd.
  cbn [manager_install] in Hstep. fold fb in Hstep.
  destruct (add_bypass_route_async parse_ip show_ip os landed ip (Some (m_tun_name m)) fb w c) as [w1 [[r c1]|]].
  2:{ split; [done|]. eapply (dropped_route_leaky _ _ _ ip); [done|apply Hfree; set_solver|by apply Hd]. }
  destruct Hi as [Hi Hc]. rewrite Hi in *.
  assert (H1' : let r' := match r with Ret g => (w1, set_active_routes m (<[ip := g]> (m_active m))) | _ => (w1, m) end in
    manager_inv h0 r'.1 r'.2 /\ table r'.1 = table w).
  { destruct r; (apply Hstep; [apply NoDup_singleton|intros x ->%list_elem_of_singleton; apply Hfree; set_solver|done]). }
  apply NoDup_cons in Hnd as [Hnin Hnd].
  assert (Hgo : forall m1, manager_inv h0 w1 m1 /\ table w1 = table w ->
    (forall x, x ∈ rest -> m_active m1 !! x = None) ->
    update_ok h0 w c (manager_install parse_ip show_ip os w1 m1 rest)
      (manager_install_async parse_ip show_ip os landed m1 rest w1 c1)).
  { intros m1 [Hm1 Ht1] Hf1. specialize (IH w1 m1 c1 Hnd Hf1 Hm1).
    destruct (manager_install_async _ _ _ _ _ _ _ _) as [[w2 m2] [c2|]]; cbn [update_ok] in *.
    - destruct IH. split; [done|]. tauto.
    - destruct IH as (? & ? & ?). split_and!; [tauto|done|congruence]. }
  destruct r as [g|e|]; apply Hgo; try done; try (intros; apply Hfree; set_solver).
  intros x Hx. cbn. rewrite lookup_insert_ne by set_solver. apply Hfree. set_solver.
Qed.

Lemma update_async_ok h0 w (m : Manager Net4 Net6) ips c :
  manager_inv h0 w m ->
  update_ok h0 w c (manager_update parse_ip show_ip os w m ips)
    (manager_update_async parse_ip show_ip os landed m ips w c).
Proof.
  intros Hm. apply install_async_ok.
  - apply NoDup_filter, NoDup_elements.
  - intros ip [Hd _]%list_elem_of_filter. by apply not_elem_of_dom in Hd.
  - by destruct Hm.
Qed.

Lemma run_async_ok h0 w (m : Manager Net4 Net6) updates c :
  manager_inv h0 w m ->
  update_ok h0 w c (manager_run parse_ip show_ip os w m updates)
    (manager_run_async parse_ip show_ip os landed m updates w c).
Proof.
  revert w m c. induction updates as [|ips rest IH]; intros w m c Hm; cbn [manager_run manager_run_async]; [done|].
  assert (Hgo : forall c1, (c = None -> c1 = None) ->
    update_ok h0 w c (let '(w, m) := manager_update parse_ip show_ip os w m ips in manager_run parse_ip show_ip os w m rest)
      (match manager_update_async parse_ip show_ip os landed m ips w c1 with
       | (w, m, Some c) => manager_run_async parse_ip show_ip os landed m rest w c
       | r => r end)).
  { intros c1 Hc. pose proof (update_async_ok h0 w m ips c1 Hm) as Hu.
    pose proof (manager_update_inv h0 w m ips Hm) as Hi.
    destruct (manager_update_async _ _ _ _ _ _ _ _) as [[w1 m1] [c2|]]; cbn [update_ok] in Hu.
    - destruct Hu as [Hu Hc2]. rewrite <-Hu in Hi |- *. destruct Hi as [Hm1 Ht1]. cbn [fst snd] in *. specialize (IH w1 m1 c2 Hm1).
      destruct (manager_run_async _ _ _ _ _ _ _ _) as [[w2 m2] [c3|]]; cbn [update_ok] in *.
      + destruct IH. split; [done|]. tauto.
      + destruct IH as (? & ? & ?). split_and!; [tauto|done|congruence].
    - cbn. destruct Hu as (? & ? & ?). split_and!; [tauto|done..]. }
  destruct c as [[|n]|]; cbn [awaiting]; [|by apply Hgo..].
  split; [done|]. destruct landed eqn:Hl; (split; [|done]); by apply tight_leaky.
Qed.

Lemma drop_leaky_manager w0 w (m : Manager Net4 Net6) :
  leaky (hosts w0) w m -> table w = table w0 -> restored leak w0 (drop_manager os w m).
Proof.
  intros (extra & Hn & Hm) Ht. apply (restored_extra _ extra); [|by eapply drop_manager_restores|done].
  by erewrite drop_manager_table.
Qed.

Lemma fresh_inv w tun routes routes6 gw4 gw6 c :
  manager_inv (hosts w) w (mkManager (Net4:=Net4) (Net6:=Net6) ∅ tun routes routes6 gw4 gw6 c).
Proof.
  constructor; cbn [m_active]; [done..|]. intros k. split; [by left|].
  intros [Hk|(ip & g & Hg & _)]; [done|]. by rewrite lookup_empty in Hg.
Qed.

(** The same of an update that was cut off, with what it has installed. *)
Lemma install_async_dom w (m : Manager Net4 Net6) to_add c :
  let m' := (manager_install_async parse_ip show_ip os landed m to_add w c).1.2 in
  dom (m_active m) ⊆ dom (m_active m') /\
  (forall ip, ip ∈ dom (m_active m') -> ip ∈ dom (m_active m) \/ ip ∈ to_add) /\
  m_routes4 m' = m_routes4 m /\ m_routes6 m' = m_routes6 m /\ m_collected m' = m_collected m.
Proof.
  revert w m c. induction to_add as [|ip rest IH]; intros w m c; cbn [manager_install_async].
  { split_and!; try done. auto. }
  destruct (add_bypass_route_async _ _ _ _ _ _ _ _ _) as [w1 [[[g|e|] c1]|]].
  1: destruct (IH w1 (set_active_routes m (<[ip := g]> (m_active m))) c1) as (H1' & H2' & H3' & H4' & H5').
  2,3: destruct (IH w1 m c1) as (H1' & H2' & H3' & H4' & H5').
  - split_and!; [| |done..].
    + cbn [set_active_routes m_active] in H1'. set_solver.
    + intros x [Hx|Hx]%H2'; [cbn in Hx|set_solver]. set_solver.
  - split_and!; [done| |done..]. intros x [Hx|Hx]%H2'; set_solver.
  - split_and!; [done| |done..]. intros x [Hx|Hx]%H2'; set_solver.
  - split_and!; try done. auto.
Qed.

Lemma update_async_refines w (m : Manager Net4 Net6) ips c :
  let m' := (manager_update_async parse_ip show_ip os landed m ips w c).1.2 in
  manager_view m' = bypass_update (installed m') (manager_view m) ips.
Proof.
  cbv zeta. unfold manager_update_async, bypass_update, manager_view, ip_covered_by_vpn_routes.
  cbn [active_routes vpn_routes4 vpn_routes6 collected].
  set (req := filter _ ips). set (m1 := mkManager _ _ _ _ _ _ _). set (to_add := filter _ (elements req)).
  destruct (install_async_dom w m1 to_add c) as (H1' & H2' & -> & -> & ->). cbn [m1 m_active m_routes4 m_routes6 m_collected] in *.
  f_equal. rewrite install_eq. apply set_eq. intros ip. rewrite elem_of_union, elem_of_list_to_set, list_elem_of_filter.
  unfold installed. rewrite bool_decide_eq_true. split.
  - intros Hip. destruct (H2' ip Hip); [by left|by right].
  - intros [Hip|[Hip _]]; [by apply H1'|done].
Qed.

(** The updates it came to, and what each of them installed. *)
Fixpoint installs_along (m : Manager Net4 Net6) (updates : list (gset IpAddr)) (w : W) (c : cut)
  : list (gset IpAddr * (IpAddr -> bool)) :=
  match updates with
  | [] => []
  | ips :: rest =>
      match awaiting landed (fun w => (w, tt)) w c with
      | (w, None) => []
      | (w, Some (_, c)) =>
          match manager_update_async parse_ip show_ip os landed m ips w c with
          | (w, m, Some c) => (ips, installed m) :: installs_along m rest w c
          | (w, m, None) => [(ips, installed m)]
          end
      end
  end.

Lemma run_async_refines w (m : Manager Net4 Net6) updates c :
  let '(_, m', ended) := manager_run_async parse_ip show_ip os landed m updates w c in
  let done_ := installs_along m updates w c in
  manager_view m' = run_bypass_route_manager (manager_view m) done_ /\ done_.*1 `prefix_of` updates /\
  (ended <> None -> done_.*1 = updates).
Proof.
  revert w m c. induction updates as [|ips rest IH]; intros w m c; cbn [manager_run_async installs_along]; [done|].
  destruct (awaiting landed (fun w => (w, tt)) w c) as [w1 [[_ c1]|]].
  2:{ split_and!; [done|apply prefix_nil|done]. }
  pose proof (update_async_refines w1 m ips c1) as Hu. cbv zeta in Hu.
  destruct (manager_update_async _ _ _ _ _ _ _ _) as [[w2 m2] [c2|]]; cbn [fst snd] in Hu.
  - specialize (IH w2 m2 c2). destruct (manager_run_async _ _ _ _ _ _ _ _) as [[w3 m3] ended].
    destruct IH as (IH1 & IH2 & IH3). cbn [run_bypass_route_manager fmap list_fmap fst]. rewrite IH1, Hu.
    split_and!; [done|by apply prefix_cons|]. intros He. by rewrite (IH3 He).
  - cbn [run_bypass_route_manager fmap list_fmap fst]. split_and!; [done| |done]. apply prefix_cons, prefix_nil.
Qed.

(** ** The device *)

Lemma view_tables tun w w' : tables w' = tables w -> view tun w' = view tun w.
Proof. unfold tables, view. intros [= -> ->]. done. Qed.

Lemma tables_of w w' : table w' = table w /\ hosts w' = hosts w -> tables w' = tables w.
Proof. unfold tables. by intros [-> ->]. Qed.

Lemma offload_tables w d gso : tables (configure_linux_tun_offload w d gso).1 = tables w.
Proof.
  unfold configure_linux_tun_offload.
  pose proof (tables_of _ _ (sl_vnet (table:=table) (hosts:=hosts) w d (Z.of_nat Offload.VIRTIO_NET_HDR_LEN))) as H1'.
  destruct (set_vnet_hdr_size _ _ _) as [w1 [e|]]; cbn [fst] in *; [done|]. destruct gso; [|done].
  pose proof (tables_of _ _ (sl_offload (table:=table) (hosts:=hosts) w1 d OFFLOAD_FLAGS)) as H2'. cbn [negb].
  destruct (set_offload _ _ _) as [w2 [e|]]; cbn [fst] in *; congruence.
Qed.

Lemma macos_ipv4_view w d config :
  let r := configure_macos_ipv4 with_netmask w d (iface d) config in
  view (iface d) r.1 = view (iface d) w /\ r.2 <> Panic.
Proof.
  unfold configure_macos_ipv4. destruct (with_netmask _ _) as [net|]; [|done].
  destruct (sl_ipv4 (table:=table) (hosts:=hosts) w (iface d) (tc_address config) (tc_destination config)
    (netmask4 (net_prefix_len net))) as [H1' H2'].
  destruct (set_ipv4_address _ _ _ _ _) as [w1 []]; cbn [fst] in *; unfold view; [|by rewrite H1', H2'].
  destruct (net_prefix_len net =? 32)%Z; cbn [fst snd]; [by rewrite H1', H2'|].
  destruct (tun_index w1 d) as [i|] eqn:Hi; cbn [fst snd]; [|by rewrite H1', H2'].
  destruct (U16_MAX <? i)%Z; cbn [fst snd]; [by rewrite H1', H2'|].
  destruct (sl_subnet (table:=table) (hosts:=hosts) w1 d i (net_network net, net_prefix_len net) Hi) as [H3' H4'].
  destruct (add_subnet_route _ _ _) as [w2 [e|]]; cbn [fst snd] in *; by rewrite H3', H4', H1', H2'.
Qed.

Lemma ipv6_view w n a p :
  let r := configure_tun_ipv6 os w n a p in view n r.1 = view n w /\ r.2 <> Panic.
Proof.
  unfold configure_tun_ipv6. destruct (configure_tun_ipv6_command os n a p) as [prog args] eqn:Hc.
  destruct (sl_ipv6 (table:=table) (hosts:=hosts) os w n a p prog args Hc) as [H1' H2'].
  destruct (run w prog args) as [w1 [out|]]; cbn [fst] in *; unfold view; cbn [fst snd]; [|by rewrite H1', H2'].
  destruct (success out); cbn [fst snd]; [by rewrite H1', H2'|].
  match goal with |- context [if ?b then (w1, Ret tt) else _] => destruct b end; cbn [fst snd]; by rewrite H1', H2'.
Qed.

Lemma create_device_view w config w' r :
  TunDevice_create with_netmask os w config = (w', r) ->
  match r with
  | Ret d => td_name d = iface (td_handle d) /\ view (td_name d) w' = (table w, hosts w)
  | Fail _ => tables w' = tables w
  | Panic => False
  end.
Proof.
  unfold TunDevice_create. destruct (create_as_async _ _) as [w1 o] eqn:Hcr.
  destruct (sl_create (table:=table) (hosts:=hosts) _ _ _ _ Hcr) as [Hh Ht].
  destruct o as [d|]; [|intros [= <- <-]; by apply tables_of]. destruct Ht as [_ Ht].
  assert (Hclose : forall w2, view (iface d) w2 = (table w, hosts w) -> tables (close_device w2 d) = tables w).
  { intros w2 [= H1' H2']. destruct (sl_close (table:=table) (hosts:=hosts) w2 d) as [H3' H4'].
    unfold tables. congruence. }
  assert (H1' : view (iface d) w1 = (table w, hosts w)) by (unfold view; congruence).
  destruct (tun_name w1 d) as [n|] eqn:Hn; [|intros [= <- <-]; by apply Hclose].
  pose proof (sl_name (table:=table) (hosts:=hosts) _ _ _ Hn) as ->.
  destruct (match os with LinuxOs => configure_linux_tun_offload _ _ _ | _ => _ end) as [w2 st] eqn:Ho.
  assert (H2' : view (iface d) w2 = (table w, hosts w)).
  { rewrite <-H1'. apply view_tables. destruct os; [|by injection Ho as <- _..].
    change w2 with (w2, st).1. rewrite <-Ho. apply offload_tables. }
  destruct (match os with MacOs => configure_macos_ipv4 _ _ _ _ _ | _ => _ end) as [w3 r3] eqn:Hm.
  assert (H3' : view (iface d) w3 = (table w, hosts w) /\ r3 <> Panic).
  { rewrite <-H2'. destruct os; try (by injection Hm as <- <-).
    pose proof (macos_ipv4_view w2 d config) as Hv. cbv zeta in Hv. by rewrite Hm in Hv. }
  destruct (match r3 with Ret _ => _ | _ => _ end) as [w4 r4] eqn:H6.
  assert (H4' : view (iface d) w4 = (table w, hosts w) /\ r4 <> Panic).
  { destruct H3' as [Hv3 Hp3]. rewrite <-Hv3. destruct r3 as [[]|e|]; [|by injection H6 as <- <-|done].
    destruct (tc_address6 config) as [a6|], (tc_prefix_len6 config) as [p6|];
      try (by injection H6 as <- <-).
    pose proof (ipv6_view w3 (iface d) a6 p6) as Hv. cbv zeta in Hv. by rewrite H6 in Hv. }
  destruct H4' as [Hv4 Hp4]. destruct r4 as [[]|e|]; [|intros [= <- <-]; by apply Hclose|done].
  intros [= <- <-]. done.
Qed.

(** ** The session *)

Section Held.
Context (w0 : W).

(** With the device [d] and the manager [om], nothing else has changed since
    [w0]. *)
Definition session_inv (d : TunDevice) (om : option (Manager Net4 Net6)) (w : W) : Prop :=
  td_name d = iface (td_handle d) /\ other (td_name d) (table w) = table w0 /\
  match om with Some m => manager_inv (hosts w0) w m | None => hosts w = hosts w0 end.

Lemma session_inv_view d om w w' :
  view (td_name d) w' = view (td_name d) w -> session_inv d om w -> session_inv d om w'.
Proof.
  intros [= Ht Hh] (Hn & Ho & Hm). split; [done|]. split; [congruence|].
  destruct om; [by eapply manager_inv_hosts|congruence].
Qed.

(** A guard of routes over [tun], which are there. *)
Definition on_tun (tun : string) (w : W) (r : resource Net4 Net6) : Prop :=
  match r with
  | RGuard4 g => g_tun_name g = tun /\ forall n, n ∈ g_routes g -> key4 tun n ∈ table w
  | RGuard6 g => g_tun_name g = tun /\ forall n, n ∈ g_routes g -> key6 tun n ∈ table w
  | _ => False
  end.

Definition held_ok (d : TunDevice) (om : option (Manager Net4 Net6)) (w : W)
    (held : list (resource Net4 Net6)) : Prop :=
  exists gs, held = (gs ++ [RDevice d])%list /\ Forall (on_tun (td_name d) w) gs /\ session_inv d om w.

Lemma unwind_guards tun gs w w1 :
  Forall (on_tun tun w1) gs -> view tun (unwind os w gs) = view tun w /\ table (unwind os w gs) ⊆ table w.
Proof.
  intros Hall. revert w. induction Hall as [|r gs Hr _ IH]; intros w; [done|].
  unfold unwind in *. cbn [fold_left]. destruct (IH (release_resource os w r)) as [IH1 IH2]. rewrite IH1.
  assert (Hw : view tun (release_resource os w r) = view tun w /\ table (release_resource os w r) ⊆ table w).
  { destruct r as [d|g|g]; [done|..]; destruct Hr as [Hr _]; cbn [release_resource]; [by apply drop4_view|by apply drop6_view]. }
  destruct Hw as [Hw1 Hw2]. split; [done|]. by etrans.
Qed.

(** Dropping the guards and then the device, in whatever state. *)
Lemma unwind_device d gs w w1 :
  td_name d = iface (td_handle d) -> Forall (on_tun (td_name d) w1) gs -> other (td_name d) (table w) = table w0 ->
  table (unwind os w (gs ++ [RDevice d])) = table w0 /\ hosts (unwind os w (gs ++ [RDevice d])) = hosts w.
Proof.
  intros Hn Hgs Ho. unfold unwind. rewrite fold_left_app. cbn [fold_left release_resource]. fold (unwind os w gs).
  destruct (sl_close (table:=table) (hosts:=hosts) (unwind os w gs) (td_handle d)) as [-> ->].
  destruct (unwind_guards _ gs w w1 Hgs) as [[= Hv1 Hv2] _]. rewrite <-Hn. split; [congruence|done].
Qed.

(** *** The manager's task is aborted *)

(** What the abort of the manager's task may leave. *)
Definition cost (manager_cut : cut) : nat := match manager_cut with Some _ => leak | None => 0 end.

(** The session of [w0], with up to [n] host routes that are nobody's. *)
Definition session_leaky (d : TunDevice) (n : nat) (om : option (Manager Net4 Net6)) (w : W) : Prop :=
  td_name d = iface (td_handle d) /\ other (td_name d) (table w) = table w0 /\
  match om with
  | Some m => exists extra, size extra <= n /\ manager_inv (hosts w0 ∪ extra) w m
  | None => hosts w = hosts w0
  end.

Lemma run_manager_leaky d om updates mc w :
  session_inv d om w ->
  let r := run_manager parse_ip show_ip os landed om updates mc w in session_leaky d (cost mc) r.2 r.1.
Proof.
  intros (Hn & Ho & Hm). unfold run_manager. destruct om as [m|]; [|done].
  pose proof (run_async_ok (hosts w0) w m updates mc Hm) as Hr.
  pose proof (manager_run_inv (hosts w0) w m updates Hm) as Hi.
  destruct (manager_run_async _ _ _ _ _ _ _ _) as [[w1 m1] [c1|]]; cbn [update_ok fst snd] in *.
  - destruct Hr as [Hr _]. rewrite <-Hr in Hi. destruct Hi as [Hm1 Ht1]. cbn [fst snd] in *.
    split_and!; [done|congruence|]. exists ∅. rewrite size_empty, union_empty_r_L. split; [lia|done].
  - destruct Hr as (Hc & Hl & Ht). split_and!; [done|congruence|]. destruct mc; [exact Hl|done].
Qed.

Lemma drop_task_leaky d n om w w1 :
  session_leaky d n om w -> hosts w1 = hosts w -> hosts w0 ⊆ hosts (drop_task os om w1) /\
  size (hosts (drop_task os om w1) ∖ hosts w0) <= n /\ table (drop_task os om w1) = table w1.
Proof.
  intros (_ & _ & Hm) Hh. destruct om as [m|]; cbn [drop_task].
  - destruct Hm as (extra & Hz & Hm). apply (manager_inv_hosts _ w w1) in Hm; [|done].
    erewrite drop_manager_restores by exact Hm.
    erewrite drop_manager_table by done. split_and!; [set_solver| |done]. etrans; [|exact Hz]. apply subseteq_size. set_solver.
  - rewrite Hh, Hm, difference_diag_L, size_empty. split_and!; [done|lia|done].
Qed.

(** Wherever the manager's task is and whichever goes first. *)
Lemma tear_down_restored d om gs ab w w1 :
  Forall (on_tun (td_name d) w1) gs -> session_inv d om w ->
  restored (cost (ab_cut ab)) w0 (tear_down parse_ip show_ip os landed ab om (gs ++ [RDevice d]) w).
Proof.
  intros Hgs Hs. unfold tear_down. pose proof (run_manager_leaky d om (ab_updates ab) (ab_cut ab) w Hs) as Hl.
  destruct (run_manager _ _ _ _ _ _ _ _) as [w2 om2]. cbn [fst snd] in Hl. pose proof Hl as (Hn & Ho & _).
  unfold restored. destruct (ab_device_first ab).
  - destruct (unwind_device d gs w2 w1 Hn Hgs Ho) as [Ht Hh].
    destruct (drop_task_leaky d _ om2 w2 _ Hl Hh) as (H1' & H2' & H3'). by rewrite H3', Ht.
  - destruct (drop_task_leaky d _ om2 w2 w2 Hl eq_refl) as (H1' & H2' & H3').
    destruct (unwind_device d gs (drop_task os om2 w2) w1 Hn Hgs) as [Ht Hh]; [by rewrite H3'|]. by rewrite Ht, Hh.
Qed.

Lemma tear_down_held d om ab w held : held_ok d om w held -> forall w1,
  view (td_name d) w1 = view (td_name d) w ->
  restored (cost (ab_cut ab)) w0 (tear_down parse_ip show_ip os landed ab om held w1).
Proof.
  intros (gs & -> & Hgs & Hs) w1 Hv. eapply tear_down_restored; [exact Hgs|]. by eapply session_inv_view.
Qed.

(** A step that either goes on or has restored the tables, but for what the
    abort of the manager leaves. *)
Definition step_ok {A} (n : nat) (P : W -> A -> Prop) (r : W * vres A) : Prop :=
  match r with
  | (w, Ret a) => P w a
  | (w, Fail _) => restored n w0 w
  | (_, Panic) => False
  end.

Lemma then_ok {A B} n (P : W -> A -> Prop) (Q : W -> B -> Prop) r f :
  step_ok n P r -> (forall w a, P w a -> step_ok n Q (f a w)) -> step_ok n Q (then_ r f).
Proof. intros Hr Hf. destruct r as [w [a|e|]]; [by apply Hf|done..]. Qed.

Lemma held_ok_cons d om w w1 held (r : resource Net4 Net6) :
  held_ok d om w held -> view (td_name d) w1 = view (td_name d) w -> table w ⊆ table w1 ->
  on_tun (td_name d) w1 r -> held_ok d om w1 (r :: held).
Proof.
  intros (gs & -> & Hgs & Hs) Hv Hsub Hr. exists (r :: gs). split; [done|].
  split; [|by eapply session_inv_view]. constructor; [done|].
  eapply Forall_impl; [exact Hgs|]. intros [?|g|g]; cbn; [done| |]; intros [? Hn]; split; [done| |done|];
    intros n Hin; by apply Hsub, Hn.
Qed.

Section SetUp.
Context (ab : Abort).
Abbreviation good := (step_ok (cost (ab_cut ab))).

Lemma add4_ok d om w held routes :
  held_ok d om w held -> good (held_ok d om) (add4 parse_ip show_ip os landed ab om (td_name d) routes held w).
Proof.
  intros Hh. unfold add4, acquire_with. pose proof (add_routes_added (td_name d) w routes) as [Hv Ha].
  destruct (add_routes os w (td_name d) routes) as [w1 [g|e|]]; cbn [fst snd step_ok] in *; [| |done].
  - destruct Ha as (Hg & Hsub & Hin). by eapply held_ok_cons.
  - by eapply tear_down_held.
Qed.

Lemma add6_ok d om w held routes src :
  held_ok d om w held -> good (held_ok d om) (add6 parse_ip show_ip os landed ab om (td_name d) routes src held w).
Proof.
  intros Hh. unfold add6, acquire_with. pose proof (add_routes6_added (td_name d) w routes src) as [Hv Ha].
  destruct (add_routes6_with_src os w (td_name d) routes src) as [w1 [g|e|]]; cbn [fst snd step_ok] in *; [| |done].
  - destruct Ha as (Hg & Hsub & Hin). by eapply held_ok_cons.
  - by eapply tear_down_held.
Qed.

Lemma when_ok {A} (o : option A) d om w held step :
  held_ok d om w held -> (forall a, good (held_ok d om) (step a held w)) ->
  good (held_ok d om) (when o held w step).
Proof. intros Hh Hs. by destruct o; cbn [when]. Qed.

Lemma tun_config_no_panic (info : ServerInfo Net4 Net6) : tun_config_of info <> Panic.
Proof.
  assert (Hv : forall p, validate_prefix_len6 p <> Panic) by (intros p; unfold validate_prefix_len6; by case_match).
  unfold tun_config_of, with_ipv6, ipv6_only.
  repeat match goal with |- context [match ?x with Some _ => _ | None => _ end] => destruct x end; try done;
    match goal with |- context [validate_prefix_len6 ?p] => specialize (Hv p); by destruct (validate_prefix_len6 p) end.
Qed.

Lemma create_ok info :
  good (fun w '(d, held) => held = [RDevice d] /\ session_inv d None w)
    (acquire_with (Net4:=Net4) parse_ip show_ip os landed ab None RDevice [] (create_tun_device with_netmask os w0 info)).
Proof.
  unfold create_tun_device. pose proof (tun_config_no_panic info) as Hp.
  assert (Hnone : forall w, tear_down (Net4:=Net4) (Net6:=Net6) parse_ip show_ip os landed ab None [] w = w).
  { intros w. unfold tear_down. cbn. by destruct (ab_device_first ab). }
  destruct (tun_config_of info) as [config|e|];
    [|cbn [acquire_with step_ok]; rewrite Hnone; by apply restored_tables|done].
  destruct (TunDevice_create _ _ _ _) as [w1 r] eqn:Hc. apply create_device_view in Hc.
  destruct r as [d|e|]; cbn [acquire_with step_ok];
    [|rewrite Hnone; by apply restored_tables|done]. destruct Hc as [Hn [= Ht Hh]].
  split; [done|]. by split_and!.
Qed.

(** Everything [connect] sets up, or nothing. *)
Lemma establish_ok info routes routes6 relay :
  good (fun w '(d, om, held) => held_ok d om w held)
    (establish parse_ip show_ip with_netmask os landed ab w0 info routes routes6 relay).
Proof.
  unfold establish. eapply (then_ok _ (fun w '(d, held) => held = [RDevice d] /\ session_inv d None w)).
  { apply create_ok. }
  intros w1 [d held] [-> Hs].
  set (will := _ || _).
  assert (Hm : let r := (if will then let '(w, m) := add_iroh_bypass_routes parse_ip show_ip os w1 (td_name d)
        routes routes6 relay (info_server_addrs info) in (w, Some m) else (w1, None)) in
      session_inv d r.2 r.1).
  { destruct will; [|done]. pose proof (bootstrap_inv w1 (td_name d) routes routes6 relay (info_server_addrs info)) as [Hm Ht].
    destruct (add_iroh_bypass_routes _ _ _ _ _ _ _ _ _) as [w2 m]. cbn [fst snd] in *.
    destruct Hs as (Hn & Ho & Hh). split; [done|]. split; [congruence|]. by rewrite <-Hh. }
  cbv zeta in Hm. destruct (if will then _ else _) as [w2 om]. cbn [fst snd] in Hm.
  assert (Hh : held_ok d om w2 [RDevice d]).
  { exists []. by split_and!. }
  eapply (then_ok _ (held_ok d om)); [apply when_ok; [done|]; intros net; by apply add4_ok|].
  intros w3 h3 H3'. eapply (then_ok _ (held_ok d om)); [apply when_ok; [done|]; intros [ip6 net6]; by apply add6_ok|].
  intros w4 h4 H4'. eapply (then_ok _ (held_ok d om)); [apply when_ok; [done|]; intros rs; by apply add4_ok|].
  intros w5 h5 H5'. eapply (then_ok _ (held_ok d om)); [apply when_ok; [done|]; intros ip6; by apply add6_ok|].
  by intros w6 h6 H6'.
Qed.

End SetUp.

Lemma guards_of_held d om w held :
  held_ok d om w held -> exists gs, List.filter is_route_guard held = gs /\ Forall (on_tun (td_name d) w) gs.
Proof.
  intros (gs & -> & Hgs & _). eexists. split; [reflexivity|]. rewrite List.filter_app. apply Forall_app. split.
  - apply Forall_forall. intros r Hr%list_elem_of_In%List.filter_In. rewrite Forall_forall in Hgs.
    apply Hgs, list_elem_of_In, Hr.
  - done.
Qed.

(** Guards dropped after their device is gone have nothing left to remove. *)
Lemma after_tunnel_table d om w held w1 :
  held_ok d om w held -> table w1 = table w0 ->
  table (unwind os w1 (List.filter is_route_guard held)) = table w0 /\
  hosts (unwind os w1 (List.filter is_route_guard held)) = hosts w1.
Proof.
  intros Hh Ht1. destruct (guards_of_held _ _ _ _ Hh) as (gs & -> & Hgs).
  destruct Hh as (_ & _ & _ & _ & Ho & _).
  destruct (unwind_guards _ _ w1 _ Hgs) as [[= Hv1 Hv2] Hsub].
  split; [|done]. rewrite Ht1 in Hv1, Hsub. rewrite <-Ho, other_idemp in Hv1.
  rewrite <-Ho, <-Hv1. unfold other. apply set_eq. intros k. split; [|set_solver].
  intros Hk. apply elem_of_filter. split; [|done]. apply Hsub in Hk. rewrite <-Ho in Hk.
  by apply elem_of_filter in Hk as [? _].
Qed.

End Held.

(** ** Errors of the set-up *)

(** No [ConnectionLost] among the errors. *)
Definition never_lost {A} (r : vres A) : Prop := forall m, r <> Fail (ConnectionLost m).

Lemma configure_ipv6_never_lost w n a p : never_lost (configure_tun_ipv6 os w n a p).2.
Proof.
  unfold configure_tun_ipv6. destruct (configure_tun_ipv6_command os n a p) as [prog args].
  destruct (run w prog args) as [w1 [out|]]; [|done]. destruct (success out); [done|].
  match goal with |- context [if ?b then (w1, Ret tt) else _] => by destruct b end.
Qed.

Lemma create_device_never_lost w config : never_lost (TunDevice_create with_netmask os w config).2.
Proof.
  unfold TunDevice_create. destruct (create_as_async _ _) as [w1 [d|]]; [|done].
  destruct (tun_name _ _) as [n|]; [|done].
  destruct (match os with LinuxOs => configure_linux_tun_offload _ _ _ | _ => _ end) as [w2 st].
  destruct (match os with MacOs => configure_macos_ipv4 _ _ _ _ _ | _ => _ end) as [w3 r3] eqn:Hm.
  assert (H3' : never_lost r3).
  { destruct os; try (by injection Hm as _ <-). unfold configure_macos_ipv4 in Hm.
    repeat case_match; simplify_eq; done. }
  destruct (match r3 with Ret _ => _ | _ => _ end) as [w4 r4] eqn:H6.
  assert (H4' : never_lost r4).
  { destruct r3 as [[]|e|]; [|by injection H6 as _ <-..].
    destruct (tc_address6 config) as [a6|], (tc_prefix_len6 config) as [p6|]; try (by injection H6 as _ <-).
    pose proof (configure_ipv6_never_lost w3 n a6 p6) as Hv. by rewrite H6 in Hv. }
  destruct r4 as [[]|e|]; [done| |done]. cbn. intros m [= ->]. by apply (H4' m).
Qed.

Lemma add_each_never_lost {R} `{Route R} tun (add : W -> R -> W * vres RouteAddOutcome) :
  (forall w r, never_lost (add w r).2) -> forall rs w acc, never_lost (add_each os add tun w rs acc).2.
Proof.
  intros Ha. induction rs as [|r rs IH]; intros w acc; cbn [add_each]; [done|].
  specialize (Ha w r). destruct (add w r) as [w1 [[]|e|]]; cbn [snd] in *; [apply IH..| |done].
  intros m [= ->]. by apply (Ha m).
Qed.

Lemma add_route_never_lost {R} `{Route R} o w tun (r : R) : never_lost (add_route_generic o w tun r).2.
Proof.
  destruct o; cbn [add_route_generic]; unfold handle_route_add_output, windows_add_route, interface_luid;
    repeat case_match; simplify_eq/=; done.
Qed.

Lemma add_routes_never_lost tun w (routes : list Net4) : never_lost (add_routes os w tun routes).2.
Proof.
  unfold add_routes. destruct (expand_all_cover expand_default_route4 routes) as (final & -> & _);
    [apply expand4_cover|].
  pose proof (add_each_never_lost tun _ (fun w r => add_route_never_lost os w tun r) final w []) as Hn.
  destruct (add_each _ _ _ _ _ _) as [w1 [?|e|]]; cbn [snd] in *; [done| |done]. intros m [= ->]. by apply (Hn m).
Qed.

Lemma add_routes6_never_lost tun w (routes : list Net6) src : never_lost (add_routes6_with_src os w tun routes src).2.
Proof.
  unfold add_routes6_with_src. destruct (expand_all_cover expand_default_route6 routes) as (final & -> & _);
    [apply expand6_cover|].
  assert (Ha : forall w (r : Net6), never_lost (add_route6_with_src os w tun r src).2).
  { intros w1 r. destruct os; cbn [add_route6_with_src]; [|apply (add_route_never_lost (R:=Net6))..].
    repeat case_match; simplify_eq/=; done. }
  pose proof (add_each_never_lost tun _ Ha final w []) as Hn.
  destruct (add_each _ _ _ _ _ _) as [w1 [?|e|]]; cbn [snd] in *; [done| |done]. intros m [= ->]. by apply (Hn m).
Qed.

Lemma then_never_lost {A B} (r : W * vres A) (f : A -> W -> W * vres B) :
  never_lost r.2 -> (forall a w, never_lost (f a w).2) -> never_lost (then_ r f).2.
Proof.
  intros Hr Hf. destruct r as [w [a|e|]]; cbn [then_ snd] in *; [apply Hf| |done].
  intros m [= ->]. by apply (Hr m).
Qed.

Lemma acquire_never_lost {A} ab om (mk : A -> resource Net4 Net6) held (r : W * vres A) :
  never_lost r.2 -> never_lost (acquire_with parse_ip show_ip os landed ab om mk held r).2.
Proof. intros Hr m. destruct r as [w [a|e|]]; cbn in *; [done| |done]. intros [= ->]. by apply (Hr m). Qed.

Lemma when_never_lost {A} (o : option A) held w step :
  (forall a, never_lost (step a held w).2) ->
  never_lost (when (W:=W) (Net4:=Net4) (Net6:=Net6) o held w step).2.
Proof. intros Hs. by destruct o; cbn [when]. Qed.

Lemma add4_never_lost ab om tun routes held w : never_lost (add4 (Net6:=Net6) parse_ip show_ip os landed ab om tun routes held w).2.
Proof.
  unfold add4. pose proof (acquire_never_lost ab om RGuard4 held _ (add_routes_never_lost tun w routes)) as Ha.
  destruct (acquire_with _ _ _ _ _ _ _ _ _) as [w1 [[g h]|e|]]; cbn [snd] in *; [done| |done]. intros m [= ->]. by apply (Ha m).
Qed.

Lemma add6_never_lost ab om tun routes src held w : never_lost (add6 (Net4:=Net4) parse_ip show_ip os landed ab om tun routes src held w).2.
Proof.
  unfold add6. pose proof (acquire_never_lost ab om RGuard6 held _ (add_routes6_never_lost tun w routes src)) as Ha.
  destruct (acquire_with _ _ _ _ _ _ _ _ _) as [w1 [[g h]|e|]]; cbn [snd] in *; [done| |done]. intros m [= ->]. by apply (Ha m).
Qed.

Lemma establish_never_lost ab w info routes routes6 relay :
  never_lost (establish parse_ip show_ip with_netmask os landed ab w info routes routes6 relay).2.
Proof.
  unfold establish. apply then_never_lost.
  { apply acquire_never_lost. unfold create_tun_device.
    destruct (tun_config_of info) as [config|e|] eqn:Hc; [apply create_device_never_lost| |done].
    intros m [= ->]. unfold tun_config_of, with_ipv6, ipv6_only, validate_prefix_len6 in Hc.
    repeat case_match; simplify_eq/=. }
  intros [d held] w1. destruct (if _ || _ then _ else _) as [w2 om].
  apply then_never_lost; [apply when_never_lost; intros; apply add4_never_lost|]. intros h3 w3.
  apply then_never_lost; [apply when_never_lost; intros [? ?]; apply add6_never_lost|]. intros h4 w4.
  apply then_never_lost; [apply when_never_lost; intros; apply add4_never_lost|]. intros h5 w5.
  apply then_never_lost; [apply when_never_lost; intros; apply add6_never_lost|]. done.
Qed.

Lemma check_params_never_lost est `{EqDecision Net4} `{EqDecision Net6} (info : ServerInfo Net4 Net6) :
  never_lost (check_params_against est info).2.
Proof. unfold check_params_against. repeat case_match; done. Qed.

Lemma overlap_never_lost (routes : list Net4) (routes6 : list Net6) locals m :
  overlap_error routes routes6 locals <> Some (ConnectionLost m).
Proof. unfold overlap_error. by destruct (split_tunnel_conflict routes routes6 locals) as [[]|]. Qed.
End Effects.

(** C24. The bypass manager as it runs, with its guards and its system calls,
    refines the abstract manager of [Routing], also when its task is aborted in
    the middle of an update: from the bootstrap set and any sequence of
    published sets it has the active and collected addresses of that manager,
    run on the sets it came to (all of them unless it was aborted) with the
    installations that succeeded.  At every point the accounted host routes of
    the system are the initial ones, those its guards own and, after an abort,
    at most one more, of the command that was running; the routes over devices
    are untouched; and dropping the manager removes what its guards own, so
    that the initial host routes are left, that one, and those whose deletion
    failed. *)
Theorem bypass_manager_refined {Net4 Net6 : Type} `{NetLaws V4_BITS Net4} `{NetLaws V6_BITS Net6} {W : Type}
    `{System W} `{TunApi W} (table : W -> gset route_key) (hosts undeleted : W -> gset host_key) (iface : Z -> string)
    `{!KernelLaws W table} `{!HostRouteLaws W hosts undeleted} `{!SessionLaws W table hosts iface}
    `{!SessionLaws W table undeleted iface} (parse_ip : string -> option IpAddr) (show_ip : IpAddr -> string)
    (os : Os) (landed : bool) w tun routes routes6 relay addrs updates c :
  let acc := accounted hosts undeleted in
  let '(w1, m1) := add_iroh_bypass_routes (Net4:=Net4) (Net6:=Net6) parse_ip show_ip os w tun routes routes6 relay addrs in
  let '(w2, m2, ended) := manager_run_async parse_ip show_ip os landed m1 updates w1 c in
  let extra_bound := match ended with Some _ => 0 | None => leak landed end in
  (c = None -> ended <> None) /\
  (exists installs, manager_view m2 = run_bypass_route_manager (manager_view m1) installs /\
     installs.*1 `prefix_of` updates /\ (ended <> None -> installs.*1 = updates)) /\
  (exists extra : gset host_key, size extra <= extra_bound /\ forall k, k ∈ acc w2 <-> k ∈ acc w \/ k ∈ extra \/
     exists ip g, m_active m2 !! ip = Some g /\ bg_owned g = true /\ k = guard_key os g) /\
  table w2 = table w /\
  let w3 := drop_manager os w2 m2 in
  table w3 = table w /\ acc w ⊆ acc w3 /\ size (acc w3 ∖ acc w) <= extra_bound.
Proof.
  intros acc. pose proof (bootstrap_inv table acc iface parse_ip show_ip os w tun routes routes6 relay addrs) as [Hm Ht].
  destruct (add_iroh_bypass_routes _ _ _ _ _ _ _ _ _) as [w1 m1]. cbn [fst snd] in *.
  pose proof (run_async_refines table acc iface parse_ip show_ip os landed w1 m1 updates c) as Hr.
  pose proof (run_async_ok table acc iface parse_ip show_ip os landed (acc w) w1 m1 updates c Hm) as Hok.
  pose proof (manager_run_inv table acc iface parse_ip show_ip os (acc w) w1 m1 updates Hm) as Hi.
  destruct (manager_run_async _ _ _ _ _ _ _ _) as [[w2 m2] ended].
  assert (Hl : (c = None -> ended <> None) /\ table w2 = table w /\ exists extra : gset host_key,
    size extra <= (match ended with Some _ => 0 | None => leak landed end) /\ manager_inv acc os (acc w ∪ extra) w2 m2).
  { destruct ended as [c'|]; cbn [update_ok] in Hok.
    - destruct Hok as [Hok _]. rewrite <-Hok in Hi. destruct Hi as [Hm2 Ht2]. cbn [fst snd] in *.
      split; [done|]. split; [congruence|]. exists ∅. by rewrite size_empty, union_empty_r_L.
    - destruct Hok as (Hc & (extra & Hz & Hm2) & Ht2). split; [done|]. split; [congruence|]. by exists extra. }
  destruct Hl as (Hc & Ht2 & extra & Hz & Hm2). cbv zeta. split; [done|]. split; [by eexists|].
  split; [exists extra; split; [done|]; intros k; rewrite (mi_hosts _ _ _ _ _ Hm2); set_solver|].
  split; [done|]. rewrite (drop_manager_restores table acc iface os _ _ _ Hm2).
  split; [by rewrite (drop_manager_table table acc iface os _ _ w2 m2 Hm2)|]. split; [set_solver|]. etrans; [|exact Hz]. apply subseteq_size. set_solver.
Qed.

(** ** Evaluation *)

(** A host with the two route tables of the earlier samples and devices
    "tun0", "tun1", ... *)
Record SampleOs : Type := mkSampleOs { so_routes : SampleHost; so_net : SampleNet; so_next : Z }.

Definition so_table (w : SampleOs) : gset route_key := sh_table (so_routes w).
Definition so_hosts (w : SampleOs) : gset host_key := sn_hosts (so_net w).
Definition so_undeleted (w : SampleOs) : gset host_key := sn_undeleted (so_net w).
Abbreviation so_accounted := (accounted so_hosts so_undeleted).
Definition so_iface (d : Z) : string := "tun" +:+ pretty (Z.to_N d).

Definition so_route_run (w : SampleHost) (prog : string) (args : list arg) : SampleHost * option Output :=
  if String.eqb prog "ifconfig" || String.eqb prog "netsh" then (w, None) else sample_run w prog args.

Definition so_run (w : SampleOs) (prog : string) (args : list arg) : SampleOs * option Output :=
  match so_route_run (so_routes w) prog args with
  | (r, Some o) => (mkSampleOs r (so_net w) (so_next w), Some o)
  | (_, None) => let '(n, o) := run (so_net w) prog args in (mkSampleOs (so_routes w) n (so_next w), o)
  end.

Definition so_entry (f : SampleHost -> ForwardRow -> SampleHost * Z) (w : SampleOs) (row : ForwardRow)
  : SampleOs * Z :=
  let '(r, s) := f (so_routes w) row in (mkSampleOs r (so_net w) (so_next w), s).

#[export] Instance so_system : System SampleOs := {|
  run := so_run;
  ConvertInterfaceAliasToLuid w d := ConvertInterfaceAliasToLuid (so_routes w) d;
  CreateIpForwardEntry2 := so_entry CreateIpForwardEntry2;
  DeleteIpForwardEntry2 := so_entry DeleteIpForwardEntry2;
|}.

#[export] Instance so_tun : TunApi SampleOs := {|
  create_as_async w c :=
    if bool_decide (set_Forall (fun k => k.2 <> so_iface (so_next w)) (so_table w))
    then (mkSampleOs (so_routes w) (so_net w) (so_next w + 1), Some (so_next w)) else (w, None);
  tun_name w d := Some (so_iface d);
  tun_index w d := Some d;
  set_vnet_hdr_size w d n := (w, None);
  set_offload w d n := (w, None);
  set_ipv4_address w n a b c := (w, true);
  add_subnet_route w i s := (w, None);
  close_device w d := mkSampleOs (mkSampleHost (other (so_iface d) (so_table w))) (so_net w) (so_next w);
|}.

Lemma so_run_routes w prog args r o :
  so_route_run (so_routes w) prog args = (r, Some o) -> so_run w prog args = (mkSampleOs r (so_net w) (so_next w), Some o).
Proof. unfold so_run. by intros ->. Qed.

Lemma so_run_net w prog args r :
  so_route_run (so_routes w) prog args = (r, None) ->
  so_run w prog args =
    (mkSampleOs (so_routes w) (run (so_net w) prog args).1 (so_next w), (run (so_net w) prog args).2).
Proof. unfold so_run. intros ->. by destruct (run (so_net w) prog args). Qed.

Lemma so_route_run_add prog args key w : add_command prog args key ->
  so_route_run w prog args = run w prog args /\ (so_route_run w prog args).2 <> None.
Proof.
  intros Hc. destruct Hc; (split; [reflexivity|]); cbn [so_route_run sample_run String.eqb]; unfold so_route_run;
    cbn; unfold sample_add; repeat case_match; done.
Qed.

Lemma so_route_run_delete prog args key w : delete_command prog args key ->
  so_route_run w prog args = run w prog args /\ (so_route_run w prog args).2 <> None.
Proof.
  intros Hc. destruct Hc; (split; [reflexivity|]); unfold so_route_run; cbn; unfold sample_delete;
    repeat case_match; done.
Qed.

#[export] Instance so_kernel : KernelLaws SampleOs so_table.
Proof.
  constructor.
  - intros prog args key w w' o Hc Hr. destruct (so_route_run_add _ _ _ (so_routes w) Hc) as [Hsame Hn].
    destruct (so_route_run (so_routes w) prog args) as [r [o'|]] eqn:Hs; [|done].
    cbn [run so_system] in Hr. rewrite (so_run_routes _ _ _ _ _ Hs) in Hr. injection Hr as <- <-.
    exact (law_add (W:=SampleHost) prog args key _ _ _ Hc (eq_sym Hsame)).
  - intros prog args key w w' o Hc Hr. destruct (so_route_run_delete _ _ _ (so_routes w) Hc) as [Hsame Hn].
    destruct (so_route_run (so_routes w) prog args) as [r [o'|]] eqn:Hs; [|done].
    cbn [run so_system] in Hr. rewrite (so_run_routes _ _ _ _ _ Hs) in Hr. injection Hr as <- <-.
    exact (law_delete (W:=SampleHost) prog args key _ _ _ Hc (eq_sym Hsame)).
  - intros w d luid row w' s Hl Hrow Hc. cbn [CreateIpForwardEntry2 so_system so_entry] in Hc. unfold so_entry in Hc.
    destruct (CreateIpForwardEntry2 (so_routes w) row) as [r s'] eqn:He. injection Hc as <- <-.
    exact (law_create (W:=SampleHost) (so_routes w) d luid row r s' Hl Hrow He).
  - intros w d luid row w' s Hl Hrow Hc. cbn [DeleteIpForwardEntry2 so_system so_entry] in Hc. unfold so_entry in Hc.
    destruct (DeleteIpForwardEntry2 (so_routes w) row) as [r s'] eqn:He. injection Hc as <- <-.
    exact (law_delete_entry (W:=SampleHost) (so_routes w) d luid row r s' Hl Hrow He).
  - intros w d s luid k Hl Hs. exact (law_no_interface (W:=SampleHost) (so_routes w) d s luid k Hl Hs).
Qed.

(** The commands about host routes and the queries are not route commands. *)
Lemma bypass_add_other os info prog args w :
  bypass_add_command os info = Ret (prog, args) -> so_route_run w prog args = (w, None).
Proof.
  intros Hc. destruct info as [[p|p] dev [gw|] [gs|] [idx|]], os; cbn in Hc; try done; by injection Hc as <- <-.
Qed.

Lemma bypass_delete_other os g prog args w :
  bypass_delete_command os g = Some (prog, args) -> is_Some (bg_gateway g) -> so_route_run w prog args = (w, None).
Proof.
  intros Hc Hg. destruct g as [[p|p] dev [gw|] [gs|] [idx|] owned], os; cbn in Hc, Hg;
    try (by destruct Hg); try done; by injection Hc as <- <-.
Qed.

Lemma query_other prog args w : query_command prog args -> so_route_run w prog args = (w, None).
Proof. intros Hq. destruct Hq as [[]|[]|[]|[]|cmdlet a [->| ->]]; try done; by destruct a. Qed.

#[export] Instance so_host_laws : HostRouteLaws SampleOs so_hosts so_undeleted.
Proof.
  constructor.
  - intros os info prog args w w' o Hc Hr. cbn [run so_system] in Hr.
    rewrite (so_run_net _ _ _ _ (bypass_add_other _ _ _ _ (so_routes w) Hc)) in Hr.
    destruct (run (so_net w) prog args) as [n o'] eqn:Hn. injection Hr as <- <-.
    exact (law_host_add (W:=SampleNet) os info prog args (so_net w) n o' Hc Hn).
  - intros os g prog args w w' o Hc Hg Hr. cbn [run so_system] in Hr.
    rewrite (so_run_net _ _ _ _ (bypass_delete_other _ _ _ _ (so_routes w) Hc Hg)) in Hr.
    destruct (run (so_net w) prog args) as [n o'] eqn:Hn. injection Hr as <- <-.
    exact (law_host_delete (W:=SampleNet) os g prog args (so_net w) n o' Hc Hg Hn).
  - by intros [] [] ip w.
Qed.

(** What is observed of the host routes is not changed by anything else. *)
Lemma so_session_laws (obs : SampleNet -> gset host_key) :
  (forall prog args n, query_command prog args -> obs (run n prog args).1 = obs n) ->
  SessionLaws SampleOs so_table (fun w => obs (so_net w)) so_iface.
Proof.
  intros Hobs. constructor.
  - by intros w d n [= <-].
  - intros w c w' o. cbn [create_as_async so_tun]. case_bool_decide as Hf; intros [= <- <-]; [|done].
    split; [done|]. split.
    + intros k Hk. by apply (Hf _ Hk).
    + unfold other. apply set_eq. intros k. rewrite elem_of_filter. split; [by intros [_ ?]|].
      intros Hk. split; [by apply Hf|done].
  - done.
  - done.
  - done.
  - done.
  - done.
  - intros os w n a p prog args. destruct os; cbn [configure_tun_ipv6_command]; by intros [= <- <-].
  - intros prog args key w Hc. destruct (so_route_run_add _ _ _ (so_routes w) Hc) as [Hsame Hn]. cbn [run so_system].
    destruct (so_route_run (so_routes w) prog args) as [r [o'|]] eqn:Hs; [|done].
    by rewrite (so_run_routes _ _ _ _ _ Hs).
  - intros prog args key w Hc. destruct (so_route_run_delete _ _ _ (so_routes w) Hc) as [Hsame Hn]. cbn [run so_system].
    destruct (so_route_run (so_routes w) prog args) as [r [o'|]] eqn:Hs; [|done].
    by rewrite (so_run_routes _ _ _ _ _ Hs).
  - intros w row. cbn [CreateIpForwardEntry2 DeleteIpForwardEntry2 so_system]. unfold so_entry.
    by destruct (CreateIpForwardEntry2 (so_routes w) row), (DeleteIpForwardEntry2 (so_routes w) row).
  - intros os info prog args w Hc. cbn [run so_system].
    by rewrite (so_run_net _ _ _ _ (bypass_add_other _ _ _ _ (so_routes w) Hc)).
  - intros os g prog args w Hc Hg. cbn [run so_system].
    by rewrite (so_run_net _ _ _ _ (bypass_delete_other _ _ _ _ (so_routes w) Hc Hg)).
  - intros prog args w Hq. cbn [run so_system]. rewrite (so_run_net _ _ _ _ (query_other _ _ (so_routes w) Hq)).
    split; [done|]. by apply Hobs.
Qed.

Lemma sample_query_keeps prog args n : query_command prog args -> (run (n : SampleNet) prog args).1 = n.
Proof. intros Hq. destruct Hq as [[]|[]|[]|[]|cmdlet a [->| ->]]; try done; by destruct a. Qed.

#[export] Instance so_session_hosts : SessionLaws SampleOs so_table so_hosts so_iface.
Proof. apply (so_session_laws sn_hosts). intros prog args n Hq. by rewrite sample_query_keeps. Qed.
#[export] Instance so_session_undeleted : SessionLaws SampleOs so_table so_undeleted so_iface.
Proof. apply (so_session_laws sn_undeleted). intros prog args n Hq. by rewrite sample_query_keeps. Qed.

#[local] Instance so_laws4 : NetLaws V4_BITS (CNet V4_BITS) := CNet_laws V4_BITS eq_refl.
#[local] Instance so_laws6 : NetLaws V6_BITS (CNet V6_BITS) := CNet_laws V6_BITS eq_refl.

(** A host with a route of its own; every route query is answered with the
    default gateway. *)
Definition sample_os : SampleOs :=
  mkSampleOs (mkSampleHost {[(V4 (2 ^ 31), 1%Z, "eth0")]})
    (mkSampleNet ∅ ∅ "default via 192.168.1.1 dev eth0") 0.

Definition v4_host (a : Z) : option (CNet V4_BITS) := cnet_new V4_BITS a 32.

(** The server assigned 10.0.0.2, with 10.0.0.1 as the gateway, and publishes
    203.0.113.9. *)
Definition sample_info : ServerInfo (CNet V4_BITS) (CNet V6_BITS) :=
  mkServerInfo (Some 167772162%Z) (v4_host 167772161) (Some 167772161%Z) None None None [V4 3405803785].

Definition sample_client : VpnClient (CNet V4_BITS) (CNet V6_BITS) unit :=
  mkClient "server" (cnets V4_BITS [(0, 0)]%Z) [] None (handle_new "work" "server" 255).

Definition sample_attempt : Attempt (CNet V4_BITS) (CNet V6_BITS) unit unit :=
  mkAttemptInput [] (fun _ => DialOk tt) (inr sample_info) [] ∅ 0
    (mkTunnel None [{[V4 3405803786]}] [("liveness", EndedWith "heartbeat timed out"); ("inbound", Cancelled)] [] [])
    5000000000 250.

Abbreviation sample_bootstrap :=
  (add_iroh_bypass_routes sample_parse_ip (fun _ => "ip") LinuxOs sample_os "tun0" (cl_routes sample_client)
     (cl_routes6 sample_client) ∅ [V4 3405803785]).
Abbreviation sample_manager :=
  (manager_run_async sample_parse_ip (fun _ => "ip") LinuxOs true sample_bootstrap.2
     [{[V4 3405803786]}; {[V4 3405803787]}] sample_bootstrap.1).

(** The task is aborted while the command of the last address runs: two guards,
    three host routes, one of which stays. *)
Lemma bypass_manager_refined_witness :
  let '(w2, m2, ended) := sample_manager (Some 5) in
  ended = None /\ size (m_active m2) = 2 /\ size (so_accounted w2) = 3 /\
  size (so_accounted (drop_manager LinuxOs w2 m2) ∖ so_accounted sample_os) <= 1.
Proof.
  pose proof (bypass_manager_refined so_table so_hosts so_undeleted so_iface sample_parse_ip (fun _ => "ip") LinuxOs true
    sample_os "tun0" (cl_routes sample_client) (cl_routes6 sample_client) ∅ [V4 3405803785]
    [{[V4 3405803786]}; {[V4 3405803787]}] (Some 5)) as Hm.
  assert (He : (sample_manager (Some 5)).2 = None) by (vm_compute; reflexivity).
  assert (Hs : size (m_active (sample_manager (Some 5)).1.2) = 2) by (vm_compute; reflexivity).
  assert (Ha : size (so_accounted (sample_manager (Some 5)).1.1) = 3) by (vm_compute; reflexivity).
  cbv zeta in Hm. destruct sample_bootstrap as [w1 m1]. cbn [fst snd] in *.
  destruct (manager_run_async _ _ _ _ _ _ _ _) as [[w2 m2] ended]. cbn [fst snd] in *. subst ended.
  destruct Hm as (_ & _ & _ & _ & _ & _ & Hz). exact (conj eq_refl (conj Hs (conj Ha Hz))).
Defined.

(** Not aborted, with a route that cannot be deleted: it stays, and is the only
    one that does. *)
Example undeleted_route_stays :
  let '(w2, m2, ended) := sample_manager None in
  let w3 := drop_manager LinuxOs w2 m2 in
  (size (m_active m2), size (so_hosts w3), size (so_accounted w3)) = (3, 1, 0).
Proof. vm_compute. reflexivity. Qed.
