(* ===== verification/SessionTasks.v ===== *)
(** * The tasks of a client session ([src/tunnel/client.rs], [src/transport/paths.rs])

    [VpnClient::connect] from the end of the handshake, where the first of them,
    the path watcher, is spawned, and [run_tunnel]: who owns which task.  A guard
    ([AbortOnDropTask], [PathWatcherGuard]) aborts its task when it is dropped; a
    bare [JoinHandle] that is dropped detaches it.  A task stops when it ends by
    itself or some time after it was aborted, and the future of [connect] can be
    dropped at any of its awaits. *)

From S2P Require Import Prelude Errors.

Inductive task : Type :=
| BypassManager | OverlapWatch
| PathWatcher                      (* [watch_connection_paths] *)
| PathStats                        (* [spawn_path_stats_logger] *)
| Outbound | Inbound | Control | Liveness | TunWriterTask.
#[export] Instance task_eq_dec : EqDecision task.
Proof. solve_decision. Defined.

Definition all_tasks : list task :=
  [BypassManager; OverlapWatch; PathWatcher; PathStats; Outbound; Inbound; Control; Liveness; TunWriterTask].
#[export] Instance task_finite : finite.Finite task.
Proof. refine {| finite.enum := all_tasks |}; [by apply (bool_decide_unpack _)|]. intros t. apply (bool_decide_unpack _). by destruct t. Defined.

(** The tasks of [run_tunnel]. *)
Definition tunnel_tasks : list task := [Outbound; Inbound; Control; Liveness; TunWriterTask].

(** Which tasks have not stopped, and which of them an abort was requested of. *)
Record runtime : Type := mkRuntime { rt_alive : gset task; rt_aborted : gset task }.

Definition spawn (t : task) (r : runtime) : runtime := mkRuntime ({[t]} ∪ rt_alive r) (rt_aborted r).
Definition abort (t : task) (r : runtime) : runtime := mkRuntime (rt_alive r) ({[t]} ∪ rt_aborted r).
Definition stops (t : task) (r : runtime) : runtime := mkRuntime (rt_alive r ∖ {[t]}) (rt_aborted r).
Definition abort_all (ts : list task) (r : runtime) : runtime := fold_right abort r ts.

(** *** [AbortOnDropTask] *)

Abbreviation AbortOnDropTask := (option task).

(** [PathWatcherGuard] is empty when the watcher was not spawned, without debug
    logging. *)
Abbreviation PathWatcherGuard := (option task).

Definition AbortOnDropTask_new (handle : task) : AbortOnDropTask := Some handle.

(** [take().expect(..)]: the guard is left empty, and its drop does nothing. *)
Definition disarm (self : AbortOnDropTask) : vres (task * AbortOnDropTask) :=
  match self with Some handle => Ret (handle, None) | None => Panic end.

Definition drop_abort_guard (self : AbortOnDropTask) (r : runtime) : runtime :=
  match self with Some handle => abort handle r | None => r end.

(** An [Option<AbortOnDropTask>]. *)
Definition drop_opt (g : option AbortOnDropTask) (r : runtime) : runtime :=
  match g with Some g => drop_abort_guard g r | None => r end.

(** *** [connect] and [run_tunnel] *)

Inductive connect_pc : Type :=
| Preparing                        (* the checks, the device, awaiting the first bypass routes *)
| Installing (routes : nat)        (* awaiting the installation of VPN routes *)
| Starting                         (* [run_tunnel] up to the split *)
| Selecting                        (* in its [select!] *)
| Joining (ts : list task)         (* awaiting the aborted tasks *)
| JoiningBypass                    (* awaiting the manager *)
| Ended                            (* [connect] has returned *)
| Dropped.                         (* its future was dropped *)

Record life : Type := mkLife {
  s_pc : connect_pc;
  s_rt : runtime;
  s_guard : option AbortOnDropTask;       (* [bypass_route_guard] *)
  s_handle : option task;                 (* [bypass_route_task] *)
  s_watch : option AbortOnDropTask;       (* [_overlap_watch] *)
  s_paths : PathWatcherGuard;             (* [_path_watcher] *)
  s_ran : bool;                           (* the tasks of [run_tunnel] were spawned *)
}.

(** [watch_connection_paths] *)
Definition watch_paths (debug : bool) (r : runtime) : runtime * PathWatcherGuard :=
  if debug then (spawn PathWatcher r, Some PathWatcher) else (r, None).

Definition life_start (debug : bool) : life :=
  let '(rt, paths) := watch_paths debug (mkRuntime ∅ ∅) in mkLife Preparing rt None None None paths false.

Inductive life_event : Type :=
| PrepareFailed                      (* a check or the creation of the device fails *)
| Prepared (bypass : bool) (routes : nat)  (* with a manager, and routes to install *)
| Installed (ok : bool)              (* a route installation returns *)
| AllInstalled (watch : bool)        (* none is left; the watch is spawned if a route can conflict *)
| SplitDone (ok stats : bool)        (* [tun_device.split()]; whether path statistics are logged *)
| FirstEnded (t : task)              (* the [select!] sees [t] end *)
| Joined                             (* the awaited task has stopped *)
| Stops (t : task)
| DropFuture.

(** The locals of [connect] are dropped: the watch, the manager's guard unless
    [run_tunnel] has taken it, and the path watcher's. *)
Definition leave (s : life) (pc : connect_pc) : life :=
  mkLife pc (drop_abort_guard (s_paths s) (drop_opt (s_guard s) (drop_opt (s_watch s) (s_rt s)))) None None None None (s_ran s).

Definition set_pc (s : life) (pc : connect_pc) : life :=
  mkLife pc (s_rt s) (s_guard s) (s_handle s) (s_watch s) (s_paths s) (s_ran s).

Definition has_stopped (s : life) (t : task) : bool := bool_decide (t ∉ rt_alive (s_rt s)).

(** [bypass_route_guard.map(AbortOnDropTask::disarm)] *)
Definition take_handle (g : option AbortOnDropTask) : vres (option task) :=
  match g with
  | None => Ret None
  | Some g => h ← disarm g; Ret (Some h.1)
  end.

Definition life_step (s : life) (e : life_event) : vres life :=
  match s_pc s, e with
  | _, Stops t => Ret (mkLife (s_pc s) (stops t (s_rt s)) (s_guard s) (s_handle s) (s_watch s) (s_paths s) (s_ran s))
  | Preparing, PrepareFailed => Ret (leave s Ended)
  | Preparing, Prepared bypass routes =>
      Ret (if bypass
           then mkLife (Installing routes) (spawn BypassManager (s_rt s)) (Some (AbortOnDropTask_new BypassManager))
                  None None (s_paths s) false
           else set_pc s (Installing routes))
  | Preparing, DropFuture => Ret (leave s Dropped)
  | Installing (S n), Installed true => Ret (set_pc s (Installing n))
  | Installing (S _), Installed false => Ret (leave s Ended)
  | Installing (S _), DropFuture => Ret (leave s Dropped)
  | Installing O, AllInstalled watch =>
      Ret (if watch
           then mkLife Starting (spawn OverlapWatch (s_rt s)) (s_guard s) (s_handle s)
                  (Some (AbortOnDropTask_new OverlapWatch)) (s_paths s) false
           else set_pc s Starting)
  | Starting, SplitDone false _ => Ret (leave s Ended)
  | Starting, SplitDone true stats =>
      let rt := if stats then spawn PathStats (s_rt s) else s_rt s in
      handle ← take_handle (s_guard s);
      Ret (mkLife Selecting (fold_right spawn rt tunnel_tasks) None handle (s_watch s) (s_paths s) true)
  | Selecting, FirstEnded t =>
      if bool_decide (t ∈ tunnel_tasks) && has_stopped s t then
        let remaining := filter (fun t' => t' <> t) tunnel_tasks in
        let rt := abort_all remaining (s_rt s) in
        let rt := match s_handle s with Some h => abort h rt | None => rt end in
        Ret (mkLife (Joining remaining) rt None (s_handle s) (s_watch s) (s_paths s) true)
      else Ret s
  | Joining (t :: ts), Joined => if has_stopped s t then Ret (set_pc s (Joining ts)) else Ret s
  | Joining [], Joined => Ret (set_pc s JoiningBypass)
  | JoiningBypass, Joined =>
      match s_handle s with
      | Some h => if has_stopped s h then Ret (leave s Ended) else Ret s
      | None => Ret (leave s Ended)
      end
  | (Selecting | Joining _ | JoiningBypass), DropFuture => Ret (leave s Dropped)
  | _, _ => Ret s
  end.

Fixpoint life_run (es : list life_event) (s : life) : vres life :=
  match es with
  | [] => Ret s
  | e :: es => s ← life_step s e; life_run es s
  end.

(** ** Who stops which task *)

(** The tasks of the tunnel that may still run where [connect] is. *)
Definition tunnel_at (pc : connect_pc) (t : task) (stopping : bool) : Prop :=
  match pc with
  | Selecting | Dropped => True
  | Joining ts => t ∈ ts /\ stopping = true
  | _ => False
  end.

(** The tasks that only watch. *)
Definition watchers : list task := [OverlapWatch; PathWatcher; PathStats].

Record life_inv (s : life) : Prop := {
  li_guard : forall g, s_guard s = Some g -> g = Some BypassManager;
  li_watch : forall g, s_watch s = Some g -> g = Some OverlapWatch;
  li_handle : forall h, s_handle s = Some h -> h = BypassManager;
  li_bypass : BypassManager ∈ rt_alive (s_rt s) ->
    BypassManager ∈ rt_aborted (s_rt s) \/ s_guard s = Some (Some BypassManager) \/
    (s_handle s = Some BypassManager /\ s_pc s = Selecting) \/ (s_pc s = Dropped /\ s_ran s = true);
  li_overlap : OverlapWatch ∈ rt_alive (s_rt s) ->
    OverlapWatch ∈ rt_aborted (s_rt s) \/ s_watch s = Some (Some OverlapWatch);
  li_paths : PathWatcher ∈ rt_alive (s_rt s) ->
    PathWatcher ∈ rt_aborted (s_rt s) \/ s_paths s = Some PathWatcher;
  li_stats : PathStats ∈ rt_alive (s_rt s) -> s_ran s = true;
  li_tunnel : forall t, t ∈ tunnel_tasks -> t ∈ rt_alive (s_rt s) ->
    s_ran s = true /\ tunnel_at (s_pc s) t (bool_decide (t ∈ rt_aborted (s_rt s)));
  li_ran : match s_pc s with
    | Preparing => s_ran s = false /\ s_guard s = None /\ s_watch s = None
    | Installing _ | Starting => s_ran s = false
    | Selecting | Joining _ | JoiningBypass => s_ran s = true /\ s_guard s = None
    | Ended | Dropped => s_guard s = None /\ s_watch s = None /\ s_paths s = None
    end;
  li_owner : match s_pc s with
    | Preparing => BypassManager ∉ rt_alive (s_rt s)
    | Installing _ | Starting => BypassManager ∈ rt_alive (s_rt s) -> s_guard s = Some (Some BypassManager)
    | Selecting | Joining _ | JoiningBypass => BypassManager ∈ rt_alive (s_rt s) -> s_handle s = Some BypassManager
    | Ended => s_ran s = true -> BypassManager ∉ rt_alive (s_rt s)
    | Dropped => True
    end;
}.

Ltac life_cbn := cbn [s_pc s_rt s_guard s_handle s_watch s_paths s_ran stops spawn rt_alive rt_aborted].

Lemma in_tunnel t : t ∈ tunnel_tasks <-> t <> BypassManager /\ t ∉ watchers.
Proof. apply (bool_decide_unpack _). by destruct t. Qed.

Lemma life_start_inv debug : life_inv (life_start debug).
Proof.
  destruct debug; split; cbn; try done; unfold tunnel_tasks; set_solver.
Qed.

Lemma stops_inv s t : life_inv s ->
  life_inv (mkLife (s_pc s) (stops t (s_rt s)) (s_guard s) (s_handle s) (s_watch s) (s_paths s) (s_ran s)).
Proof.
  intros [Hg Hw Hh Hb Ho Hpw Hst Ht Hr Hj]. split; life_cbn; try done.
  - intros Hin. apply Hb. set_solver.
  - intros Hin. apply Ho. set_solver.
  - intros Hin. apply Hpw. set_solver.
  - intros Hin. apply Hst. set_solver.
  - intros t' Ht' Hin. apply Ht; set_solver.
  - destruct (s_pc s); try done; set_solver.
Qed.

(** Moving on without touching a task. *)
Lemma set_pc_inv s pc : life_inv s ->
  (forall t, t ∈ tunnel_tasks -> t ∈ rt_alive (s_rt s) -> tunnel_at pc t (bool_decide (t ∈ rt_aborted (s_rt s)))) ->
  match s_pc s, pc with
  | Preparing, Installing _ | Installing _, (Installing _ | Starting) | Joining _, (Joining _ | JoiningBypass) => True
  | _, _ => False
  end -> life_inv (set_pc s pc).
Proof.
  intros [Hg Hw Hh Hb Ho Hpw Hst Ht Hr Hj] Htu Hpc. split; unfold set_pc; life_cbn; try done.
  - intros Hin. destruct (Hb Hin) as [?|[?|[[_ Hp]|[Hp _]]]]; auto; rewrite Hp in Hpc; done.
  - intros t Hin Hal. split; [by apply (Ht t)|by apply Htu].
  - destruct (s_pc s), pc; try done; tauto.
  - destruct (s_pc s), pc; try done.
Qed.

(** Dropping the locals: what a guard owns is aborted. *)
Lemma leave_alive s pc : rt_alive (s_rt (leave s pc)) = rt_alive (s_rt s).
Proof. unfold leave. cbn [s_rt]. destruct (s_guard s) as [[g|]|], (s_watch s) as [[w|]|], (s_paths s); done. Qed.

Lemma leave_aborted s pc t : life_inv s ->
  t ∈ rt_aborted (s_rt (leave s pc)) <->
  t ∈ rt_aborted (s_rt s) \/ (t = BypassManager /\ s_guard s <> None) \/ (t = OverlapWatch /\ s_watch s <> None) \/
  s_paths s = Some t.
Proof.
  intros [Hg Hw _ _ _ _ _ _ _ _]. unfold leave. cbn [s_rt].
  destruct (s_guard s) as [g|]; [rewrite (Hg g eq_refl)|]; destruct (s_watch s) as [w|]; try rewrite (Hw w eq_refl);
    destruct (s_paths s) as [t'|]; cbn [drop_opt drop_abort_guard abort rt_aborted]; set_solver.
Qed.

Lemma leave_inv s pc : life_inv s -> (pc = Ended \/ pc = Dropped) ->
  (pc = Ended -> forall t, t ∈ tunnel_tasks -> t ∉ rt_alive (s_rt s)) ->
  (pc = Ended -> s_ran s = true -> BypassManager ∉ rt_alive (s_rt s)) ->
  (s_pc s = Selecting -> pc = Dropped) ->
  life_inv (leave s pc).
Proof.
  intros Hinv Hpc Htun Hby Hsel. pose proof (leave_alive s pc) as Ha. pose proof (leave_aborted s pc) as Hab.
  pose proof Hinv as [Hg Hw Hh Hb Ho Hpw Hst Ht Hr Hj].
  split; try rewrite Ha; try done.
  - intros Hin. destruct (Hb Hin) as [?|[Hgd|[[Hhd Hp]|[Hp Hran]]]].
    + left. apply Hab; auto.
    + left. apply Hab; [done|]. right. left. by rewrite Hgd.
    + right. right. right. cbn. split; [auto|]. rewrite Hp in Hr. apply Hr.
    + right. right. right. cbn. split; [|done]. destruct Hpc as [-> | ->]; [|done].
      destruct (Hby eq_refl Hran Hin).
  - intros Hin. left. apply Hab; [done|]. destruct (Ho Hin) as [?|Hwd]; [by left|]. right. right. left. by rewrite Hwd.
  - intros Hin. left. apply Hab; [done|]. destruct (Hpw Hin) as [?|Hwd]; [by left|]. right. right. by right.
  - intros t Hin Hal. destruct Hpc as [-> | ->]; [by destruct (Htun eq_refl t Hin)|]. split; [|done]. by apply (Ht t).
  - destruct Hpc as [-> | ->]; done.
  - destruct Hpc as [-> | ->]; [|done]. intros Hran. by apply Hby.
Qed.

Lemma abort_all_alive ts r : rt_alive (abort_all ts r) = rt_alive r.
Proof. induction ts as [|t ts IH]; [done|]. cbn [abort_all fold_right abort rt_alive]. done. Qed.

Lemma abort_all_aborted ts r t : t ∈ rt_aborted (abort_all ts r) <-> t ∈ ts \/ t ∈ rt_aborted r.
Proof.
  induction ts as [|t0 ts IH]; [set_solver|]. unfold abort_all in *. cbn [fold_right abort rt_aborted]. set_solver.
Qed.

Lemma spawn_tunnel_alive r t : t ∈ rt_alive (fold_right spawn r tunnel_tasks) <-> t ∈ tunnel_tasks \/ t ∈ rt_alive r.
Proof. unfold tunnel_tasks. cbn [fold_right spawn rt_alive]. set_solver. Qed.

(** The select is over: everything else is aborted. *)
Lemma select_inv s t : life_inv s -> s_pc s = Selecting -> t ∈ tunnel_tasks -> t ∉ rt_alive (s_rt s) ->
  let remaining := filter (fun t' => t' <> t) tunnel_tasks in
  let rt := abort_all remaining (s_rt s) in
  let rt := match s_handle s with Some h => abort h rt | None => rt end in
  life_inv (mkLife (Joining remaining) rt None (s_handle s) (s_watch s) (s_paths s) true).
Proof.
  intros Hinv Hpc Ht Hgone remaining rt1 rt2. pose proof Hinv as [Hg Hw Hh Hb Ho Hpw Hst Htu Hr Hj].
  assert (Hal : rt_alive rt2 = rt_alive (s_rt s)) by (unfold rt2, rt1; destruct (s_handle s); apply abort_all_alive).
  assert (Hab : forall x, x ∈ rt_aborted rt2 <-> s_handle s = Some x \/ x ∈ remaining \/ x ∈ rt_aborted (s_rt s)).
  { intros x. unfold rt2. destruct (s_handle s) as [h|]; cbn [abort rt_aborted];
      rewrite ?elem_of_union, ?elem_of_singleton; unfold rt1; rewrite abort_all_aborted; naive_solver. }
  split; life_cbn; rewrite ?Hal; try done.
  - intros Hin. left. apply Hab. destruct (Hb Hin) as [?|[Hgd|[[Hhd _]|[Hp _]]]]; [auto| |by left|congruence].
    rewrite Hpc in Hr. destruct Hr as [_ Hr]. congruence.
  - intros Hin. destruct (Ho Hin) as [?|?]; [left; apply Hab; auto|by right].
  - intros Hin. destruct (Hpw Hin) as [?|?]; [left; apply Hab; auto|by right].
  - intros x Hx Hin. split; [done|]. assert (Hrem : x ∈ remaining).
    { apply list_elem_of_filter. split; [|done]. intros ->. done. }
    split; [done|]. apply bool_decide_eq_true, Hab. auto.
  - rewrite Hpc in Hj. done.
Qed.

Lemma manager_spawned_inv s routes : life_inv s -> s_pc s = Preparing ->
  life_inv (mkLife (Installing routes) (spawn BypassManager (s_rt s)) (Some (AbortOnDropTask_new BypassManager))
    None None (s_paths s) false).
Proof.
  intros [Hg Hw Hh Hb Ho Hpw Hst Ht Hr Hj] Hpc. rewrite Hpc in *. destruct Hr as (Hran & Hgn & Hwn).
  split; life_cbn; try done.
  - by intros g [= <-].
  - intros _. right. by left.
  - intros Hin. rewrite Hwn in Ho. apply Ho. set_solver.
  - intros Hin. apply Hpw. set_solver.
  - intros Hin. rewrite <-Hran. apply Hst. set_solver.
  - intros t Hin Hal. apply in_tunnel in Hin as Hin'. destruct (Ht t Hin) as [? ?]; [set_solver|done].
Qed.

Lemma watch_inv s : life_inv s -> s_pc s = Installing 0 ->
  life_inv (mkLife Starting (spawn OverlapWatch (s_rt s)) (s_guard s) (s_handle s)
    (Some (AbortOnDropTask_new OverlapWatch)) (s_paths s) false).
Proof.
  intros [Hg Hw Hh Hb Ho Hpw Hst Ht Hr Hj] Hpc. rewrite Hpc in *.
  split; life_cbn; try done.
  - by intros g [= <-].
  - intros Hin. right. left. apply Hj. set_solver.
  - intros _. by right.
  - intros Hin. apply Hpw. set_solver.
  - intros Hin. rewrite <-Hr. apply Hst. set_solver.
  - intros t Hin Hal. pose proof Hin as Hin2. apply in_tunnel in Hin2 as [_ Hin']. unfold watchers in Hin'. destruct (Ht t Hin) as [? ?]; [set_solver|done].
  - intros Hin. apply Hj. set_solver.
Qed.

Lemma tunnel_inv s (stats : bool) handle : life_inv s -> s_pc s = Starting -> take_handle (s_guard s) = Ret handle ->
  life_inv (mkLife Selecting (fold_right spawn (if stats then spawn PathStats (s_rt s) else s_rt s) tunnel_tasks) None
    handle (s_watch s) (s_paths s) true).
Proof.
  intros [Hg Hw Hh Hb Ho Hpw Hst Ht Hr Hj] Hpc Htake. rewrite Hpc in *.
  set (rt := if stats then spawn PathStats (s_rt s) else s_rt s).
  assert (Hhandle : forall h, handle = Some h <-> s_guard s = Some (Some h)).
  { intros h. unfold take_handle, disarm in Htake. destruct (s_guard s) as [g|]; [rewrite (Hg g eq_refl) in *|]; cbn in Htake;
      simplify_eq; naive_solver. }
  assert (Hal : forall t, t ∉ tunnel_tasks -> t <> PathStats -> t ∈ rt_alive (fold_right spawn rt tunnel_tasks) ->
    t ∈ rt_alive (s_rt s)).
  { intros t Hn Hne. rewrite spawn_tunnel_alive. unfold rt. destruct stats; cbn [spawn rt_alive]; set_solver. }
  assert (Hab : rt_aborted (fold_right spawn rt tunnel_tasks) = rt_aborted (s_rt s)) by (unfold rt; by destruct stats).
  assert (Hout : forall t, t = BypassManager \/ t ∈ watchers -> t ∉ tunnel_tasks) by (intros t; rewrite in_tunnel; tauto).
  split; life_cbn; try done; rewrite ?Hab.
  - intros h Hhd. apply Hhandle in Hhd. specialize (Hg _ Hhd). by simplify_eq.
  - intros Hin. right. right. left. split; [|done]. apply Hhandle. apply Hj, Hal; [apply Hout; by left|done|done].
  - intros Hin. apply Ho, Hal; [apply Hout; right; unfold watchers; set_solver|done|done].
  - intros Hin. apply Hpw, Hal; [apply Hout; right; unfold watchers; set_solver|done|done].
  - intros Hin. apply Hhandle. apply Hj, Hal; [apply Hout; by left|done|done].
Qed.

(** No step panics, and each keeps the tasks owned. *)
Lemma life_step_inv s e : life_inv s -> exists s', life_step s e = Ret s' /\ life_inv s'.
Proof.
  intros Hinv. pose proof Hinv as [Hg Hw Hh Hb Ho Hpw Hst Ht Hr Hj]. unfold life_step.
  assert (Hsame : exists s', (Ret s : vres life) = Ret s' /\ life_inv s') by (by exists s).
  assert (Hnone : s_ran s = false -> forall t, t ∈ tunnel_tasks -> t ∉ rt_alive (s_rt s)).
  { intros Hran t Hin Hal. destruct (Ht t Hin Hal). congruence. }
  destruct e as [|bypass routes|ok|watch|ok stats|t| |t|].
  8:{ exists (mkLife (s_pc s) (stops t (s_rt s)) (s_guard s) (s_handle s) (s_watch s) (s_paths s) (s_ran s)).
      split; [by destruct (s_pc s) as [|[]| | |[]| | |]|by apply stops_inv]. }
  all: destruct (s_pc s) as [|[|n]| | |[|t0 ts]| | |] eqn:Hpc; try exact Hsame.
  - eexists. split; [reflexivity|]. destruct Hr as [Hran _].
    apply leave_inv; [done|by left|intros _; by apply Hnone|congruence|congruence].
  - eexists. split; [reflexivity|]. destruct bypass; [by apply manager_spawned_inv|].
    apply set_pc_inv; [done| |by rewrite Hpc]. intros t Hin Hal. destruct Hr as [Hran _]. by destruct (Hnone Hran t Hin).
  - destruct ok; eexists; (split; [reflexivity|]).
    + apply set_pc_inv; [done| |by rewrite Hpc]. intros t Hin Hal. by destruct (Hnone Hr t Hin).
    + apply leave_inv; [done|by left|intros _; by apply Hnone|congruence|congruence].
  - eexists. split; [reflexivity|]. destruct watch; [by apply watch_inv|].
    apply set_pc_inv; [done| |by rewrite Hpc]. intros t Hin Hal. by destruct (Hnone Hr t Hin).
  - destruct ok.
    + cbv zeta. destruct (take_handle (s_guard s)) as [handle|e|] eqn:Htake.
      * eexists. split; [reflexivity|]. by apply tunnel_inv.
      * unfold take_handle, disarm in Htake. destruct (s_guard s) as [[g|]|]; done.
      * unfold take_handle, disarm in Htake. destruct (s_guard s) as [g|]; [rewrite (Hg g eq_refl) in Htake|]; done.
    + eexists. split; [reflexivity|]. apply leave_inv; [done|by left|intros _; by apply Hnone|congruence|congruence].
  - destruct (bool_decide (t ∈ tunnel_tasks) && has_stopped s t) eqn:Hc; [|exact Hsame].
    apply andb_true_iff in Hc as [Hin Hstop]. apply bool_decide_eq_true in Hin, Hstop.
    eexists. split; [reflexivity|]. by apply select_inv.
  - eexists. split; [reflexivity|]. apply set_pc_inv; [done| |by rewrite Hpc].
    intros t Hin Hal. destruct (Ht t Hin Hal) as [_ [Hn _]]. set_solver.
  - destruct (has_stopped s t0) eqn:Hstop; [|exact Hsame]. apply bool_decide_eq_true in Hstop.
    eexists. split; [reflexivity|]. apply set_pc_inv; [done| |by rewrite Hpc].
    intros t Hin Hal. destruct (Ht t Hin Hal) as [? [Hn ?]]. split; [set_solver|done].
  - assert (Hgone : forall t, t ∈ tunnel_tasks -> t ∉ rt_alive (s_rt s)) by (intros t Hin Hal; by destruct (Ht t Hin Hal)).
    destruct (s_handle s) as [h|] eqn:Hhd; [destruct (has_stopped s h) eqn:Hstop; [|exact Hsame]|];
      eexists; (split; [reflexivity|]); (apply leave_inv; [done|by left|by intros _| |congruence]); intros _ _ Hin.
    + apply bool_decide_eq_true in Hstop. specialize (Hj Hin). by simplify_eq.
    + specialize (Hj Hin). congruence.
  - eexists. split; [reflexivity|]. by apply leave_inv; [done|right|..].
  - eexists. split; [reflexivity|]. by apply leave_inv; [done|right|..].
  - eexists. split; [reflexivity|]. by apply leave_inv; [done|right|..].
  - eexists. split; [reflexivity|]. by apply leave_inv; [done|right|..].
  - eexists. split; [reflexivity|]. by apply leave_inv; [done|right|..].
  - eexists. split; [reflexivity|]. by apply leave_inv; [done|right|..].
Qed.

Lemma life_run_inv es : forall s, life_inv s -> exists s', life_run es s = Ret s' /\ life_inv s'.
Proof.
  induction es as [|e es IH]; intros s Hinv; [by exists s|]. cbn [life_run].
  destruct (life_step_inv s e Hinv) as (s1 & -> & Hinv1). cbn [mbind outcome_bind]. by apply IH.
Qed.

(** Once the tasks it has aborted stop, [connect] returns. *)
Lemma joining_ends ts : forall s, life_inv s -> s_pc s = Joining ts -> Forall (fun t => t ∈ tunnel_tasks) ts ->
  rt_alive (s_rt s) ⊆ list_to_set watchers ->
  exists s', life_run (replicate (length ts + 2) Joined) s = Ret s' /\ s_pc s' = Ended.
Proof.
  assert (Hstop : forall s t, t ∉ watchers -> rt_alive (s_rt s) ⊆ list_to_set watchers -> has_stopped s t = true).
  { intros s t Hne Hs. apply bool_decide_eq_true. set_solver. }
  induction ts as [|t ts IH]; intros s Hinv Hpc Hts Hal; cbn [length replicate Nat.add life_run]; unfold life_step; rewrite Hpc.
  - cbn [mbind outcome_bind set_pc s_pc s_handle]. destruct (s_handle s) as [h|] eqn:Hh; [|by eexists].
    rewrite (Hstop (set_pc s JoiningBypass) h); [by eexists| |done]. rewrite (li_handle s Hinv h Hh). unfold watchers. set_solver.
  - inversion Hts as [|? ? Ht Hts']; subst. apply in_tunnel in Ht as [_ Ht].
    destruct (life_step_inv s Joined Hinv) as (s1 & Hs1 & Hinv1). unfold life_step in Hs1.
    rewrite Hpc, (Hstop s t Ht Hal) in *. cbn [mbind outcome_bind]. injection Hs1 as <-. by apply IH.
Qed.

Lemma stops_run ts : forall s, exists s', life_run (map Stops ts) s = Ret s' /\ s_pc s' = s_pc s /\
  forall t, t ∈ rt_alive (s_rt s') <-> t ∈ rt_alive (s_rt s) /\ t ∉ ts.
Proof.
  induction ts as [|t ts IH]; intros s; [exists s; set_solver|]. cbn [map life_run].
  set (s1 := mkLife (s_pc s) (stops t (s_rt s)) (s_guard s) (s_handle s) (s_watch s) (s_paths s) (s_ran s)).
  assert (life_step s (Stops t) = Ret s1) as -> by (unfold life_step; by destruct (s_pc s) as [|[]| | |[]| | |]).
  cbn [mbind outcome_bind]. destruct (IH s1) as (s' & Hr & Hpc & Hal). exists s'. split; [done|]. split; [done|].
  intros t'. rewrite Hal. unfold s1. cbn [s_rt stops rt_alive]. set_solver.
Qed.

Lemma life_run_app es1 es2 s : life_run (es1 ++ es2) s = (s1 ← life_run es1 s; life_run es2 s1).
Proof.
  revert s. induction es1 as [|e es1 IH]; intros s; cbn [app life_run]; [done|].
  destruct (life_step s e); cbn [mbind outcome_bind]; [apply IH|done..].
Qed.

(** What happens when the first of the tunnel's tasks has ended. *)
Definition winding_down (t : task) : list life_event :=
  [Stops t; FirstEnded t] ++ map Stops (BypassManager :: tunnel_tasks) ++ replicate 6 Joined.

Lemma winding_down_ends s t : life_inv s -> s_pc s = Selecting -> t ∈ tunnel_tasks ->
  exists s', life_run (winding_down t) s = Ret s' /\ s_pc s' = Ended.
Proof.
  intros Hinv Hpc Ht. unfold winding_down. cbn [app life_run].
  pose proof (stops_inv s t Hinv) as Hinv1. set (s1 := mkLife (s_pc s) (stops t (s_rt s)) _ _ _ _ _) in Hinv1.
  assert (life_step s (Stops t) = Ret s1) as -> by (unfold life_step, s1; by rewrite Hpc). cbn [mbind outcome_bind].
  assert (Hpc1 : s_pc s1 = Selecting) by done.
  assert (Hst : has_stopped s1 t = true) by (apply bool_decide_eq_true; cbn [s1 s_rt stops rt_alive]; set_solver).
  destruct (life_step_inv s1 (FirstEnded t) Hinv1) as (s2 & Hs2 & Hinv2). rewrite Hs2. cbn [mbind outcome_bind].
  assert (Hpc2 : s_pc s2 = Joining (filter (fun t' => t' <> t) tunnel_tasks)).
  { unfold life_step in Hs2. rewrite Hpc1, (bool_decide_true _ Ht), Hst in Hs2. cbn [andb] in Hs2. injection Hs2 as <-. done. }
  rewrite life_run_app. destruct (stops_run (BypassManager :: tunnel_tasks) s2) as (s3 & Hr3 & Hpc3 & Hal3).
  rewrite Hr3. cbn [mbind outcome_bind]. destruct (life_run_inv (map Stops (BypassManager :: tunnel_tasks)) s2 Hinv2) as (s3' & Hr3' & Hinv3).
  rewrite Hr3 in Hr3'. injection Hr3' as <-. rewrite Hpc2 in Hpc3.
  replace 6%nat with (length (filter (fun t' => t' <> t) tunnel_tasks) + 2)%nat
    by (apply in_tunnel in Ht as [Ht1 Ht2]; unfold watchers in Ht2; destruct t; try reflexivity; exfalso; set_solver).
  apply (joining_ends _ s3 Hinv3 Hpc3).
  - apply Forall_forall. intros x Hx. by apply list_elem_of_filter in Hx as [_ ?].
  - intros x Hx. apply Hal3 in Hx as [_ Hx]. apply elem_of_list_to_set. destruct (decide (x ∈ watchers)); [done|].
    exfalso. apply Hx. destruct (decide (x = BypassManager)) as [->|]; [left|]. right. by apply in_tunnel.
Qed.


(** A session with a manager and two route installations whose tunnel loses its
    connection. *)
Definition sample_life : list life_event :=
  [Prepared true 2; Installed true; Installed true; AllInstalled true; SplitDone true true] ++ winding_down Liveness.

Example sample_life_ends :
  match life_run sample_life (life_start true) with
  | Ret s => s_pc s = Ended /\ bool_decide (rt_alive (s_rt s) = {[OverlapWatch; PathWatcher; PathStats]} /\
      rt_aborted (s_rt s) = {[BypassManager; OverlapWatch; PathWatcher; Outbound; Inbound; Control; TunWriterTask]}) = true
  | _ => False
  end.
Proof. vm_compute. split; reflexivity. Qed.

(** A route that cannot be installed: the manager is aborted, not awaited. *)
Example sample_life_fails :
  match life_run [Prepared true 1; Installed false] (life_start false) with
  | Ret s => s_pc s = Ended /\
      bool_decide (rt_alive (s_rt s) = {[BypassManager]} /\ rt_aborted (s_rt s) = {[BypassManager]}) = true
  | _ => False
  end.
Proof. vm_compute. split; reflexivity. Qed.

