(* ===== verification/Cancel.v ===== *)
(** * [connect] and the reconnect loop, cancelled anywhere ([src/tunnel/client.rs], [src/main.rs])

    [VpnClient::connect] and [run_with_reconnect] as futures: the client's
    future is raced against a shutdown signal, and can be dropped at any of its
    awaits; what it holds is dropped then, innermost first, while a command it
    has started goes on running.  A future that is not dropped is [connect] as
    it runs; the manager's task is aborted wherever it is in either case. *)

From S2P Require Import Prelude Text Future Errors Net Config Signaling Handshake Client.
From S2P Require Import DeviceRoutes Bypass Device Routing Status Session SessionProofs.

#[local] Open Scope string_scope.

Section Cancel.
Context {Net4 Net6 : Type} `{EqDecision Net4} `{EqDecision Net6}.
Context `{NetOps V4_BITS Net4} `{NetOps V6_BITS Net6}.
Context {W : Type} `{System W} `{TunApi W}.
Context (parse_ip : string -> option IpAddr) (show_ip : IpAddr -> string).
Context (with_netmask : Z -> Z -> option Net4).
Context (os : Os) (landed : bool).

Abbreviation Info := (ServerInfo Net4 Net6).
Abbreviation Res := (resource Net4 Net6).
Abbreviation Mgr := (Manager Net4 Net6).

(** ** Routes over the device *)

(** Route commands are awaited; the IP Helper calls of Windows block. *)
Definition route_call {A} (f : W -> W * A) : async W A :=
  match os with WindowsOs => blocking f | _ => awaiting landed f end.

Section Routes.
Context {R : Type} `{Route R}.

Fixpoint rollback_async (tun_name : string) (rev_added : list R) : async W unit :=
  match rev_added with
  | [] => mret tt
  | r :: rest => _ ← route_call (fun w => remove_route_generic os w tun_name r); rollback_async tun_name rest
  end.

Fixpoint add_each_async (add : W -> R -> W * vres RouteAddOutcome) (tun_name : string)
    (routes added : list R) : async W (vres (list R)) :=
  match routes with
  | [] => mret (Ret added)
  | route :: routes =>
      outcome ← route_call (fun w => add w route);
      match outcome with
      | Ret Added => add_each_async add tun_name routes (added ++ [route])%list
      | Ret AlreadyExisted => add_each_async add tun_name routes added
      | Fail e => _ ← rollback_async tun_name (rev added); mret (Fail e)
      | Panic => mret Panic
      end
  end.

(** The guard is made of the routes once all of them are there. *)
Definition add_all_async (expanded : vres (list R)) (add : W -> R -> W * vres RouteAddOutcome)
    (tun_name : string) : async W (vres (RouteGuard (R:=R))) :=
  match expanded with
  | Ret routes =>
      r ← add_each_async add tun_name routes [];
      mret (match r with Ret added => Ret (mkGuard tun_name added) | Fail e => Fail e | Panic => Panic end)
  | Fail e => mret (Fail e)
  | Panic => mret Panic
  end.
End Routes.

Definition add_routes_async (tun_name : string) (routes : list Net4) : async W (vres (RouteGuard (R:=Net4))) :=
  add_all_async (expand_all expand_default_route4 routes) (fun w r => add_route_generic os w tun_name r) tun_name.

Definition add_routes6_async (tun_name : string) (routes : list Net6) (src : Z)
  : async W (vres (RouteGuard (R:=Net6))) :=
  add_all_async (expand_all expand_default_route6 routes)
    (fun w r => add_route6_with_src os w tun_name r src) tun_name.

(** ** Bypass routes *)

(** The manager is a local of the bootstrap until it is handed to its task. *)
Definition add_iroh_bypass_routes_async (tun_name : string) (routes : list Net4) (routes6 : list Net6)
    (relay_ips : gset IpAddr) (initial_server_addrs : list IpAddr) : async W Mgr :=
  underlay_gw4 ← (match routes with
                  | [] => (mret None : async W (option UnderlayGateway))
                  | _ => awaiting landed (fun w => capture_underlay_gateway parse_ip show_ip os w false)
                  end);
  underlay_gw6 ← (match routes6 with
                  | [] => (mret None : async W (option UnderlayGateway))
                  | _ => awaiting landed (fun w => capture_underlay_gateway parse_ip show_ip os w true)
                  end);
  relay_ips ← awaiting landed (fun w => (w, relay_ips));
  let m := mkManager ∅ tun_name routes routes6 underlay_gw4 underlay_gw6 ∅ in
  let bootstrap_ips := relay_ips ∪ list_to_set initial_server_addrs in
  if decide (bootstrap_ips = ∅) then (mret m : async W Mgr)
  else fun w c =>
    match manager_update_async parse_ip show_ip os landed m bootstrap_ips w c with
    | (w, m, Some c) => (w, Some (m, c))
    | (w, m, None) => (drop_manager os w m, None)
    end.

(** ** The set-up of a session *)

(** The await of a step that acquires a resource while the manager runs and
    [held] is held. *)
Definition acquire_async {A} (ab : Abort) (manager : option Mgr) (mk : A -> Res) (held : list Res)
    (step : async W (vres A)) : async W (vres (A * list Res)) :=
  let let_go := tear_down parse_ip show_ip os landed ab manager held in
  dropping let_go (
    r ← step;
    match r with
    | Ret a => mret (Ret (a, mk a :: held))
    | Fail e => blocking (fun w => (let_go w, Fail e))
    | Panic => mret Panic
    end).

Definition bind_ok {A B} (m : async W (vres A)) (f : A -> async W (vres B)) : async W (vres B) :=
  r ← m; match r with Ret a => f a | Fail e => mret (Fail e) | Panic => mret Panic end.

Definition when_async {A} (o : option A) (held : list Res)
    (step : A -> list Res -> async W (vres (list Res))) : async W (vres (list Res)) :=
  match o with Some a => step a held | None => mret (Ret held) end.

Definition add4_async (ab : Abort) (manager : option Mgr) (tun : string) (routes : list Net4) (held : list Res)
  : async W (vres (list Res)) :=
  bind_ok (acquire_async ab manager RGuard4 held (add_routes_async tun routes)) (fun '(_, held) => mret (Ret held)).

Definition add6_async (ab : Abort) (manager : option Mgr) (tun : string) (routes : list Net6) (src : Z)
    (held : list Res) : async W (vres (list Res)) :=
  bind_ok (acquire_async ab manager RGuard6 held (add_routes6_async tun routes src)) (fun '(_, held) => mret (Ret held)).

Definition establish_async (ab : Abort) (info : Info) (routes : list Net4) (routes6 : list Net6)
    (relay_ips : gset IpAddr)  : async W (vres (TunDevice * option Mgr * list Res)) :=
  bind_ok (blocking (fun w => create_tun_device with_netmask os w info)) (fun dev =>
    let tun := td_name dev in
    let will_add_routes :=
      (family_assigned (info_assigned_ip info) && nonempty routes)
      || (family_assigned (info_assigned_ip6 info) && nonempty routes6) in
    manager ← (if will_add_routes
               then dropping (fun w => unwind os w [RDevice dev]) (
                      m ← add_iroh_bypass_routes_async tun routes routes6 relay_ips (info_server_addrs info);
                      mret (Some m))
               else mret None);
    let held := [RDevice dev] in
    bind_ok (when_async (info_network info) held (fun net => add4_async ab manager tun [net])) (fun held =>
    bind_ok (when_async (match info_assigned_ip6 info, info_network6 info with
                         | Some ip6, Some net6 => Some (ip6, net6)
                         | _, _ => None
                         end) held (fun '(ip6, net6) => add6_async ab manager tun [net6] ip6)) (fun held =>
    bind_ok (when_async (if family_assigned (info_assigned_ip info) && nonempty routes then Some routes else None)
               held (add4_async ab manager tun)) (fun held =>
    bind_ok (when_async (match info_assigned_ip6 info with
                         | Some ip6 => if nonempty routes6 then Some ip6 else None
                         | None => None
                         end) held (fun ip6 => add6_async ab manager tun routes6 ip6)) (fun held =>
    mret (Ret (dev, manager, held))))))).

(** ** The tunnel *)

(** The future is dropped while the tunnel runs: the route guards go with the
    frame of [connect]; the tasks that own the device and the manager are
    detached since the split, and go with the runtime, in either order. *)
Definition shutdown_tunnel (w : W) (dev : TunDevice) (manager : option Mgr) (held : list Res) (ab : Abort) : W :=
  tear_down parse_ip show_ip os landed ab manager [RDevice dev] (unwind os w (List.filter is_route_guard held)).

(** ** [connect] and the reconnect loop *)

Section Connect.
Context {EndpointId Conn : Type} (parse_endpoint_id : string -> option EndpointId).
Context (show_net4 : Net4 -> string) (show_net6 : Net6 -> string) (to_string : VpnError -> string).

Abbreviation Client := (VpnClient Net4 Net6 Conn).

(** An attempt, where its manager's task is when it is aborted or dropped, and
    whether what else the session holds goes before or after it. *)
Record CutAttempt : Type := mkCutAttempt {
  ca_attempt : Attempt Net4 Net6 EndpointId Conn;
  ca_manager_cut : cut;
  ca_device_first : bool;
}.

Definition abort_of (ca : CutAttempt) : Abort :=
  mkAbort (t_updates (at_tunnel (ca_attempt ca))) (ca_manager_cut ca) (ca_device_first ca).

(** The session from the established routes on. *)
Definition run_session_async (c : Client) (ca : CutAttempt) (conn : Conn) (info : Info) (dev : TunDevice)
    (manager : option Mgr) (held : list Res) : async W (Client * vres unit) := fun w k =>
  let a := ca_attempt ca in
  let t := at_tunnel a in
  let routes4 := routes_for info (cl_routes c) in
  let routes6 := routes6_for info (cl_routes6 c) in
  let c := map_status (set_connected (at_connected a) (connected_info show_ip show_net4 show_net6 info routes4 routes6)
                         conn (match manager with Some _ => Some tt | None => None end)) c in
  let detected :=
    if has_refusable_routes routes4 routes6
    then overlap_watch routes4 routes6 (td_name dev) (retain_others (td_name dev) (t_first_sweep t)) (t_sweeps t)
    else None in
  let finished k :=
    let '(w, result) := run_tunnel parse_ip show_ip os landed w dev manager t (abort_of ca) in
    let c := map_status set_disconnected c in
    (unwind os w (List.filter is_route_guard held), Some ((c, Fail (default result detected)), k)) in
  match t_split_error t, k with
  | None, Some O => (shutdown_tunnel w dev manager held (abort_of ca), None)
  | None, Some (S n) => finished (Some n)
  | _, _ => finished k
  end.

Definition connect_async (c : Client) (ca : CutAttempt) : async W (Client * vres unit) :=
  let a := ca_attempt ca in
  match resolve_server_addr parse_endpoint_id c (at_relay_urls a) with
  | Ret addr =>
      dialled ← awaiting landed (fun w => (w, connect_with_timeout (at_dial a addr)));
      match dialled with
      | Ret conn =>
          greeted ← awaiting landed (fun w => (w, of_sum (at_handshake a)));
          match greeted with
          | Ret info =>
              match check_params_against (cl_established c) info with
              | (p, Ret _) =>
                  let c := set_established c p in
                  match overlap_error (routes_for info (cl_routes c)) (routes6_for info (cl_routes6 c)) (at_locals a) with
                  | Some err => mret (c, Fail err)
                  | None =>
                      established ← establish_async (abort_of ca) info (cl_routes c) (cl_routes6 c) (at_relay_ips a);
                      match established with
                      | Ret (dev, manager, held) => run_session_async c ca conn info dev manager held
                      | Fail e => mret (c, Fail e)
                      | Panic => mret (c, Panic)
                      end
                  end
              | (p, Fail e) => mret (set_established c p, Fail e)
              | (p, Panic) => mret (set_established c p, Panic)
              end
          | Fail e => mret (c, Fail e)
          | Panic => mret (c, Panic)
          end
      | Fail e => mret (c, Fail e)
      | Panic => mret (c, Panic)
      end
  | Fail e => mret (c, Fail e)
  | Panic => mret (c, Panic)
  end.

(** The delays slept, and the result if the loop ends within the attempts. *)
Fixpoint run_with_reconnect_async (max_attempts : option Z) (failures : Z) (c : Client)
    (attempts : list CutAttempt) : async W (Client * list Z * option (vres unit)) :=
  match attempts with
  | [] => mret (c, [], None)
  | ca :: rest =>
      attempted ← connect_async c ca;
      match attempted with
      | (c, Ret _) => mret (c, [], Some (Ret tt))
      | (c, Panic) => mret (c, [], Some Panic)
      | (c, Fail e) =>
          if is_recoverable e then
            let failures := next_failures failures e in
            if (match max_attempts with Some max => (max <? failures)%Z | None => false end)
            then mret (c, [], Some (Fail (MaxReconnectAttemptsExceeded (default 0%Z max_attempts))))
            else
              let a := ca_attempt ca in
              let delay := calculate_backoff failures (at_jitter a) in
              let c := map_status (set_reconnecting failures (to_string e) (at_failed a + delay * MILLIS)) c in
              _ ← awaiting landed (fun w => (w, tt));
              ended ← run_with_reconnect_async max_attempts failures c rest;
              let '(c, delays, r) := ended in mret (c, delay :: delays, r)
          else mret (c, [], Some (Fail e))
      end
  end.
End Connect.
End Cancel.
Arguments CutAttempt : clear implicits.
