(* ===== verification/CancelProofs.v ===== *)
(** * The client restores the host ([src/tunnel/client.rs])

    What [connect] and the reconnect loop leave behind when they end, and when
    they are dropped at any await of the set-up, of the tunnel or of the loop;
    the loop as an instance of the abstract one.  The lemmas are about any
    account [hosts] of the host routes; the theorems take [accounted]. *)

From S2P Require Import Prelude Text Future Errors Net Config Signaling Handshake Client.
From S2P Require Import DeviceRoutes Bypass Device Routing Status Session SessionProofs Cancel.

#[local] Open Scope string_scope.

Section Cancellation.
Context {Net4 Net6 : Type} `{NetLaws V4_BITS Net4} `{NetLaws V6_BITS Net6}.
Context {W : Type} `{System W} `{TunApi W}.
Context (table : W -> gset route_key) (hosts : W -> gset host_key) (iface : Z -> string).
Context `{!KernelLaws W table} `{!HostAccount W hosts} `{!SessionLaws W table hosts iface}.
Context (parse_ip : string -> option IpAddr) (show_ip : IpAddr -> string).
Context (with_netmask : Z -> Z -> option Net4).
Context (os : Os) (landed : bool).

Abbreviation view := (view table hosts).
Abbreviation cost := (cost landed).
Abbreviation tables := (tables table hosts).
Abbreviation leak := (leak landed).
Abbreviation restored := (restored table hosts).
Abbreviation bounded := (bounded table hosts landed).

(** ** Routes over the device *)

Lemma implements_route {A} (f : W -> W * A) : implements (route_call os landed f) f.
Proof. unfold route_call. destruct os; auto with async. Qed.

Lemma dropped_route {A} (f : W -> W * A) w (D : W -> Prop) :
  D w -> D (f w).1 -> dropped (route_call os landed f) w D.
Proof. intros H1' H2'. unfold route_call. destruct os; auto using dropped_awaiting with async. Qed.

Section Routes.
Context {R : Type} `{Route R} (tun : string) (add : W -> R -> W * vres RouteAddOutcome).
Context (Hadd : forall w r, view tun (add w r).1 = view tun w).
Context (Hdel : forall w (r : R), view tun (remove_route_generic os w tun r).1 = view tun w).

Lemma implements_rollback (l : list R) :
  implements (rollback_async os landed tun l)
    (fun w => (fold_left (fun w r => (remove_route_generic os w tun r).1) l w, tt)).
Proof.
  induction l as [|r l IH]; cbn [rollback_async]; [apply implements_ret|].
  eapply implements_ext; [|eapply implements_bind; [apply implements_route|intros ?; exact IH]].
  intros w. cbn [fold_left]. by destruct (remove_route_generic os w tun r).
Qed.

Lemma implements_add_each (routes added : list R) :
  implements (add_each_async os landed add tun routes added) (fun w => add_each os add tun w routes added).
Proof.
  revert added. induction routes as [|r routes IH]; intros added; cbn [add_each_async]; [apply implements_ret|].
  eapply implements_ext; [|apply implements_bind; [apply implements_route|]].
  2:{ intros o. instantiate (1 := fun o w => match o with
        | Ret Added => add_each os add tun w routes (added ++ [r])
        | Ret AlreadyExisted => add_each os add tun w routes added
        | Fail e => (rollback os w tun added, Fail e)
        | Panic => (w, Panic) end). destruct o as [[]|e|]; [apply IH..| |apply implements_ret].
      eapply implements_ext; [|apply implements_bind; [apply implements_rollback|intros ?; apply implements_ret]].
      intros w. done. }
  intros w. cbn [add_each]. by destruct (add w r) as [w1 [[]|e|]].
Qed.

Lemma dropped_rollback (l : list R) w w0 :
  view tun w = view tun w0 -> dropped (rollback_async os landed tun l) w (fun w' => view tun w' = view tun w0).
Proof.
  revert w. induction l as [|r l IH]; intros w Hw; cbn [rollback_async]; [apply dropped_ret|].
  eapply dropped_bind; [apply implements_route|apply dropped_route; [done|by rewrite Hdel]|].
  apply IH. by rewrite Hdel.
Qed.

Lemma dropped_add_each (routes added : list R) w w0 :
  view tun w = view tun w0 ->
  dropped (add_each_async os landed add tun routes added) w (fun w' => view tun w' = view tun w0).
Proof.
  revert added w. induction routes as [|r routes IH]; intros added w Hw; cbn [add_each_async]; [apply dropped_ret|].
  assert (H1' : view tun (add w r).1 = view tun w0) by (by rewrite Hadd).
  eapply dropped_bind; [apply implements_route|by apply dropped_route|].
  destruct (add w r) as [w1 [[]|e|]]; cbn [fst snd] in *; [by apply IH..| |apply dropped_ret].
  eapply dropped_bind; [apply implements_rollback|by apply dropped_rollback|apply dropped_ret].
Qed.

Lemma dropped_add_all expanded w :
  dropped (add_all_async os landed expanded add tun) w (fun w' => view tun w' = view tun w).
Proof.
  destruct expanded as [routes|e|]; cbn [add_all_async]; [|apply dropped_ret..].
  eapply dropped_bind; [apply implements_add_each|by apply dropped_add_each|apply dropped_ret].
Qed.
End Routes.

Lemma add_effect_view (key : route_key) tun w r :
  key.2 = tun -> add_effect table key w r -> hosts r.1 = hosts w -> view tun r.1 = view tun w.
Proof.
  intros Hk He Hh. unfold SessionProofs.view. rewrite Hh. f_equal. unfold add_effect in He.
  destruct r.2 as [[]|e|]; [destruct He as [_ ->]|by rewrite He..].
  rewrite (union_comm_L {[key]}), other_union; [done|]. by intros k ->%elem_of_singleton.
Qed.

Lemma implements_add_routes tun (routes : list Net4) :
  implements (add_routes_async os landed tun routes) (fun w => add_routes os w tun routes).
Proof.
  unfold add_routes_async, add_routes. destruct (expand_all _ _) as [l|e|]; cbn [add_all_async]; [|apply implements_ret..].
  eapply implements_ext; [|apply implements_bind; [apply implements_add_each|intros ?; apply implements_ret]].
  intros w. cbv beta. by destruct (add_each _ _ _ _ _ _) as [w' [?|?|]].
Qed.

Lemma implements_add_routes6 tun (routes : list Net6) src :
  implements (add_routes6_async os landed tun routes src) (fun w => add_routes6_with_src os w tun routes src).
Proof.
  unfold add_routes6_async, add_routes6_with_src.
  destruct (expand_all _ _) as [l|e|]; cbn [add_all_async]; [|apply implements_ret..].
  eapply implements_ext; [|apply implements_bind; [apply implements_add_each|intros ?; apply implements_ret]].
  intros w. cbv beta. by destruct (add_each _ _ _ _ _ _) as [w' [?|?|]].
Qed.

Lemma dropped_add_routes tun (routes : list Net4) w :
  dropped (add_routes_async os landed tun routes) w (fun w' => view tun w' = view tun w).
Proof.
  apply dropped_add_all.
  - intros w1 r. apply (add_effect_view (key4 tun r)); [done|apply (add_route4_effect table)|].
    by apply (add_route4_hosts table hosts iface).
  - intros w1 r. apply (remove_view table hosts os (key4 tun)); [done|apply (remove_route4_effect (Net6:=Net6) table)|].
    by apply (remove_route4_hosts table hosts iface).
Qed.

Lemma dropped_add_routes6 tun (routes : list Net6) src w :
  dropped (add_routes6_async os landed tun routes src) w (fun w' => view tun w' = view tun w).
Proof.
  apply dropped_add_all.
  - intros w1 r. apply (add_effect_view (key6 tun r)); [done|apply (add_route6_effect table)|].
    by apply (add_route6_hosts table hosts iface).
  - intros w1 r. apply (remove_view table hosts os (key6 tun)); [done|apply (remove_route6_effect (Net4:=Net4) table)|].
    by apply (remove_route6_hosts table hosts iface).
Qed.

(** ** The set-up of a session *)

Definition capture_async {A} (l : list A) (v6 : bool) : async W (option UnderlayGateway) :=
  match l with
  | [] => mret None
  | _ => awaiting landed (fun w => capture_underlay_gateway parse_ip show_ip os w v6)
  end.

Lemma implements_capture {A} (l : list A) v6 :
  implements (capture_async l v6)
    (fun w => match l with [] => (w, None) | _ => capture_underlay_gateway parse_ip show_ip os w v6 end).
Proof. destruct l; [apply implements_ret|apply implements_awaiting]. Qed.

Lemma dropped_capture {A} (l : list A) v6 w :
  dropped (capture_async l v6) w (fun w' => tables w' = tables w).
Proof.
  destruct l; [apply dropped_ret|]. apply dropped_awaiting; [done|]. intros _.
  by apply (capture_tables table hosts iface).
Qed.

Lemma capture_state {A} (l : list A) v6 w :
  tables (match l with [] => (w, None) | _ => capture_underlay_gateway parse_ip show_ip os w v6 end).1 = tables w.
Proof. destruct l; [done|]. by apply (capture_tables table hosts iface). Qed.

Abbreviation bootstrap := (add_iroh_bypass_routes (Net4:=Net4) (Net6:=Net6) parse_ip show_ip os).
Abbreviation bootstrap_async := (add_iroh_bypass_routes_async (Net4:=Net4) (Net6:=Net6) parse_ip show_ip os landed).

(** The bootstrap's update, whose manager is still a local. *)
Definition first_update_async (m : Manager Net4 Net6) (ips : gset IpAddr) : async W (Manager Net4 Net6) :=
  if decide (ips = ∅) then mret m else fun w c =>
    match manager_update_async parse_ip show_ip os landed m ips w c with
    | (w, m, Some c) => (w, Some (m, c))
    | (w, m, None) => (drop_manager os w m, None)
    end.

Lemma first_update_ok m ips w c :
  m_active m = ∅ ->
  match first_update_async m ips w c with
  | (w', Some (m', c')) =>
      (if decide (ips = ∅) then (w, m) else manager_update parse_ip show_ip os w m ips) = (w', m') /\
      (c = None -> c' = None)
  | (w', None) => c <> None /\ restored leak w w'
  end.
Proof.
  intros Hm. unfold first_update_async. case_decide; [done|].
  assert (Hf : manager_inv hosts os (hosts w) w m) by (destruct m; cbn in Hm; subst; apply fresh_inv).
  pose proof (update_async_ok table hosts iface parse_ip show_ip os landed (hosts w) w m ips c Hf) as Hu.
  destruct (manager_update_async _ _ _ _ _ _ _ _) as [[w1 m1] [c1|]]; cbn [update_ok] in Hu.
  - by destruct Hu as [-> ?].
  - destruct Hu as (? & ? & ?). split; [done|]. by apply (drop_leaky_manager table hosts iface).
Qed.

Lemma implements_first_update m ips :
  m_active m = ∅ ->
  implements (first_update_async m ips)
    (fun w => if decide (ips = ∅) then (w, m) else manager_update parse_ip show_ip os w m ips).
Proof.
  intros Hm w c. pose proof (first_update_ok m ips w c Hm) as Hf.
  by destruct (first_update_async m ips w c) as [w' [[m' c']|]]; [|destruct Hf].
Qed.

Lemma bootstrap_async_eq tun routes routes6 relay addrs :
  bootstrap_async tun routes routes6 relay addrs =
  (gw4 ← capture_async routes false; gw6 ← capture_async routes6 true;
   relay ← awaiting landed (fun w => (w, relay));
   first_update_async (mkManager ∅ tun routes routes6 gw4 gw6 ∅) (relay ∪ list_to_set addrs)).
Proof. done. Qed.

Lemma implements_bootstrap tun routes routes6 relay addrs :
  implements (bootstrap_async tun routes routes6 relay addrs) (fun w => bootstrap w tun routes routes6 relay addrs).
Proof.
  rewrite bootstrap_async_eq. unfold add_iroh_bypass_routes.
  eapply implements_ext; [|apply implements_bind; [apply implements_capture|]; intros gw4;
    apply implements_bind; [apply implements_capture|]; intros gw6;
    apply implements_bind; [apply implements_awaiting|]; intros rel; by apply implements_first_update].
  intros w. cbv beta. destruct (match routes with [] => _ | _ => _ end) as [w1 gw4].
  by destruct (match routes6 with [] => _ | _ => _ end) as [w2 gw6].
Qed.

Lemma dropped_bootstrap tun routes routes6 relay addrs w :
  dropped (bootstrap_async tun routes routes6 relay addrs) w (restored leak w).
Proof.
  rewrite bootstrap_async_eq.
  eapply dropped_bind; [apply implements_capture|eapply dropped_weaken, dropped_capture; intros; by apply restored_tables|].
  cbv beta. pose proof (capture_state routes false w) as H1'. destruct (match routes with [] => _ | _ => _ end) as [w1 gw4].
  eapply dropped_bind; [apply implements_capture|eapply dropped_weaken, dropped_capture; intros; apply restored_tables; congruence|].
  cbv beta. pose proof (capture_state routes6 true w1) as H2'.
  destruct (match routes6 with [] => _ | _ => _ end) as [w2 gw6]. cbn [fst snd] in *.
  assert (Hw : tables w2 = tables w) by congruence.
  eapply dropped_bind; [apply implements_awaiting|apply dropped_awaiting; intros; by apply restored_tables|].
  intros c w' Hc. cbv beta iota zeta delta [fst snd] in Hc.
  pose proof (first_update_ok (mkManager ∅ tun routes routes6 gw4 gw6 ∅) (relay ∪ list_to_set addrs) w2 c eq_refl) as Hf.
  destruct (first_update_async _ _ w2 c) as [w3 [[m3 c3]|]]; [done|]. injection Hc as <-. destruct Hf as [_ Hf]. by eapply restored_from.
Qed.

Lemma implements_ok {A B} (m : async W (vres A)) f (k : A -> async W (vres B)) g :
  implements m f -> (forall a, implements (k a) (g a)) -> implements (bind_ok m k) (fun w => then_ (f w) g).
Proof.
  intros Hm Hk. eapply implements_ext; [|apply implements_bind; [exact Hm|]].
  2:{ intros r. instantiate (1 := fun r w => then_ (w, r) g). destruct r; [apply Hk|apply implements_ret..]. }
  intros w. cbv beta. by destruct (f w) as [w' [?|?|]].
Qed.

Lemma dropped_ok {A B} n w0 (P : W -> A -> Prop) (m : async W (vres A)) f (k : A -> async W (vres B)) w D :
  implements m f -> dropped m w D -> step_ok table hosts w0 n P (f w) ->
  (forall w1 a, P w1 a -> dropped (k a) w1 D) -> dropped (bind_ok m k) w D.
Proof.
  intros Hm Hd Hs Hk. eapply dropped_bind; [exact Hm|exact Hd|].
  destruct (f w) as [w1 [a|e|]]; cbn [fst snd step_ok] in *; [by apply Hk|apply dropped_ret..].
Qed.

Section Abort.
Context (ab : Abort).

Lemma implements_acquire {A} om (mk : A -> resource Net4 Net6) held step f :
  implements step f ->
  implements (acquire_async parse_ip show_ip os landed ab om mk held step)
    (fun w => acquire_with parse_ip show_ip os landed ab om mk held (f w)).
Proof.
  intros Hs. apply implements_dropping. eapply implements_ext; [|apply implements_bind; [exact Hs|]].
  2:{ intros r. instantiate (1 := fun r w => acquire_with parse_ip show_ip os landed ab om mk held (w, r)).
      destruct r; cbn [acquire_with]; auto using implements_ret, implements_blocking. }
  intros w. cbv beta. by destruct (f w).
Qed.

Lemma implements_when {A} (o : option A) (held : list (resource Net4 Net6)) step step' :
  (forall a held, implements (step a held) (step' a held)) ->
  implements (when_async (W:=W) o held step) (fun w => when o held w step').
Proof. intros Hs. destruct o; cbn; [apply Hs|apply implements_ret]. Qed.

Lemma implements_add4 om tun routes (held : list (resource Net4 Net6)) :
  implements (add4_async parse_ip show_ip os landed ab om tun routes held)
    (add4 parse_ip show_ip os landed ab om tun routes held).
Proof.
  eapply implements_ext; [|apply implements_ok; [apply implements_acquire, implements_add_routes|]].
  2:{ intros [g h]. instantiate (1 := fun '(_, h) w => (w, Ret h)). apply implements_ret. }
  intros w. unfold add4. by destruct (acquire_with _ _ _ _ _ _ _ _ _) as [w1 [[g h]|e|]].
Qed.

Lemma implements_add6 om tun routes src (held : list (resource Net4 Net6)) :
  implements (add6_async parse_ip show_ip os landed ab om tun routes src held)
    (add6 parse_ip show_ip os landed ab om tun routes src held).
Proof.
  eapply implements_ext; [|apply implements_ok; [apply implements_acquire, implements_add_routes6|]].
  2:{ intros [g h]. instantiate (1 := fun '(_, h) w => (w, Ret h)). apply implements_ret. }
  intros w. unfold add6. by destruct (acquire_with _ _ _ _ _ _ _ _ _) as [w1 [[g h]|e|]].
Qed.

Section Held.
Context (w0 : W) (d : TunDevice) (om : option (Manager Net4 Net6)).
Abbreviation ok := (held_ok table hosts iface os w0 d om).

(** Whatever step is dropped, the manager is aborted and what is held unwound. *)
Lemma dropped_acquire {A} (mk : A -> resource Net4 Net6) held step f w :
  ok w held -> implements step f -> dropped step w (fun w' => view (td_name d) w' = view (td_name d) w) ->
  dropped (acquire_async parse_ip show_ip os landed ab om mk held step) w (restored leak w0).
Proof.
  intros Hh Hi Hd. apply dropped_dropping. eapply dropped_bind; [exact Hi| |].
  - eapply dropped_weaken; [|exact Hd]. intros w' Hv. apply (restored_mono (cost (ab_cut ab))).
    + unfold SessionProofs.cost. destruct (ab_cut ab); lia.
    + by apply (tear_down_held table hosts iface parse_ip show_ip os landed w0 d om ab w held Hh).
  - destruct (f w) as [w1 [a|e|]]; [apply dropped_ret|apply dropped_blocking|apply dropped_ret].
Qed.

Lemma dropped_add4 routes held w :
  ok w held -> dropped (add4_async parse_ip show_ip os landed ab om (td_name d) routes held) w (restored leak w0).
Proof.
  intros Hh. eapply dropped_bind; [apply implements_acquire, implements_add_routes| |].
  - by eapply dropped_acquire; [exact Hh|apply implements_add_routes|apply dropped_add_routes].
  - cbv beta. destruct (acquire_with _ _ _ _ _ _ _ _ _) as [w1 [[g h]|e|]]; apply dropped_ret.
Qed.

Lemma dropped_add6 routes src held w :
  ok w held -> dropped (add6_async parse_ip show_ip os landed ab om (td_name d) routes src held) w (restored leak w0).
Proof.
  intros Hh. eapply dropped_bind; [apply implements_acquire, implements_add_routes6| |].
  - by eapply dropped_acquire; [exact Hh|apply implements_add_routes6|apply dropped_add_routes6].
  - cbv beta. destruct (acquire_with _ _ _ _ _ _ _ _ _) as [w1 [[g h]|e|]]; apply dropped_ret.
Qed.

(** An optional step of the set-up and what follows it. *)
Lemma dropped_when {A B} (o : option A) held (step : A -> list (resource Net4 Net6) -> async W _) step'
    (k : list (resource Net4 Net6) -> async W (vres B)) w :
  ok w held -> (forall a held, implements (step a held) (step' a held)) ->
  (forall a, dropped (step a held) w (restored leak w0)) ->
  (forall a, step_ok table hosts w0 (cost (ab_cut ab)) ok (step' a held w)) ->
  (forall w1 h1, ok w1 h1 -> dropped (k h1) w1 (restored leak w0)) ->
  dropped (bind_ok (when_async o held step) k) w (restored leak w0).
Proof.
  intros Hh Hi Hd Hs Hk. eapply (dropped_ok (cost (ab_cut ab)) w0 ok); [by apply implements_when| | |exact Hk].
  - destruct o; [apply Hd|apply dropped_ret].
  - by apply when_ok.
Qed.
End Held.

Abbreviation establish_now := (establish (Net4:=Net4) (Net6:=Net6) parse_ip show_ip with_netmask os landed).
Abbreviation establish_later := (establish_async (Net4:=Net4) (Net6:=Net6) parse_ip show_ip with_netmask os landed).

(** The bootstrap of the bypass routes, if there are routes to protect. *)
Definition manager_step (will : bool) (dev : TunDevice) routes routes6 relay addrs
  : async W (option (Manager Net4 Net6)) :=
  if will then dropping (fun w => unwind os w [RDevice dev]) (
    m ← bootstrap_async (td_name dev) routes routes6 relay addrs; mret (Some m))
  else mret None.

Lemma implements_manager_step will dev routes routes6 relay addrs :
  implements (manager_step will dev routes routes6 relay addrs) (fun w =>
    if will then let '(w, m) := bootstrap w (td_name dev) routes routes6 relay addrs in (w, Some m) else (w, None)).
Proof.
  unfold manager_step. destruct will; [|apply implements_ret]. apply implements_dropping, implements_bind.
  - apply implements_bootstrap.
  - intros m. apply implements_ret.
Qed.

Lemma implements_establish info routes routes6 relay :
  implements (establish_later ab info routes routes6 relay) (fun w => establish_now ab w info routes routes6 relay).
Proof.
  unfold establish_async, establish. eapply implements_ext; [|apply implements_ok; [apply implements_blocking|]; intros dev;
    apply implements_bind; [apply (implements_manager_step _ dev routes routes6 relay (info_server_addrs info))|]; intros om;
    apply implements_ok; [apply implements_when; intros net h; apply implements_add4|]; intros h1;
    apply implements_ok; [apply (implements_when _ _ _ (fun '(ip6, net6) => add6 parse_ip show_ip os landed ab om (td_name dev) [net6] ip6));
      intros [ip6 net6] h; apply implements_add6|]; intros h2;
    apply implements_ok; [apply implements_when; intros rs h; apply implements_add4|]; intros h3;
    apply implements_ok; [apply implements_when; intros ip6 h; apply implements_add6|]; intros h4; apply implements_ret].
  intros w. cbv beta. unfold acquire_with. destruct (create_tun_device with_netmask os w info) as [w1 [dev|e|]]; [done| |done].
  cbn [then_]. unfold tear_down. cbn. by destruct (ab_device_first ab).
Qed.

(** The device goes when the bootstrap is dropped. *)
Lemma close_restored n w0 d w w' :
  session_inv (Net4:=Net4) (Net6:=Net6) table hosts iface os w0 d None w -> restored n w w' ->
  restored n w0 (close_device w' (td_handle d)).
Proof.
  intros (Hn & Ho & Hh) (Ht & Hs & Hz). destruct (sl_close (table:=table) (hosts:=hosts) w' (td_handle d)) as [Ht' Hh'].
  unfold restored. rewrite Ht', Hh', Ht, <-Hn, Ho, <-Hh. done.
Qed.

Lemma manager_step_inv (will : bool) w0 dev routes routes6 relay addrs w :
  session_inv (Net4:=Net4) (Net6:=Net6) table hosts iface os w0 dev None w ->
  let r := (if will then let '(w, m) := bootstrap w (td_name dev) routes routes6 relay addrs in (w, Some m)
            else (w, None)) in
  session_inv (Net4:=Net4) (Net6:=Net6) table hosts iface os w0 dev r.2 r.1.
Proof.
  intros Hs. destruct will; [|done].
  pose proof (bootstrap_inv table hosts iface parse_ip show_ip os w (td_name dev) routes routes6 relay addrs) as [Hm Ht].
  destruct (bootstrap _ _ _ _ _ _) as [w2 m]. cbn [fst snd] in *.
  destruct Hs as (Hn & Ho & Hh). split; [done|]. split; [congruence|]. by rewrite <-Hh.
Qed.

Lemma dropped_manager_step will w0 dev routes routes6 relay addrs w :
  session_inv (Net4:=Net4) (Net6:=Net6) table hosts iface os w0 dev None w ->
  dropped (manager_step will dev routes routes6 relay addrs) w (restored leak w0).
Proof.
  intros Hs. unfold manager_step. destruct will; [|apply dropped_ret]. apply dropped_dropping.
  eapply dropped_bind; [apply implements_bootstrap| |apply dropped_ret].
  eapply dropped_weaken; [|apply dropped_bootstrap]. intros w' Hr. by eapply close_restored.
Qed.

Lemma dropped_establish info routes routes6 relay w0 :
  dropped (establish_later ab info routes routes6 relay) w0 (restored leak w0).
Proof.
  unfold establish_async. eapply dropped_bind; [apply implements_blocking|apply dropped_blocking|]. cbv beta.
  pose proof (create_ok table hosts iface parse_ip show_ip with_netmask os landed w0 ab info) as Hc.
  destruct (create_tun_device with_netmask os w0 info) as [w1 [dev|e|]]; cbn [fst snd acquire_with step_ok] in *;
    [|apply dropped_ret..]. destruct Hc as [_ Hs].
  set (will := _ || _).
  eapply dropped_bind; [apply (implements_manager_step will dev routes routes6 relay (info_server_addrs info))|
    by apply dropped_manager_step|].
  pose proof (manager_step_inv will w0 dev routes routes6 relay (info_server_addrs info) w1 Hs) as Hs1.
  cbv beta. cbv zeta in Hs1. destruct (if will then _ else _) as [w2 om]. cbn [fst snd] in *.
  assert (Hh : held_ok table hosts iface os w0 dev om w2 [RDevice dev]).
  { exists []. by split_and!. }
  eapply (dropped_when w0 dev om); [exact Hh|intros; apply implements_add4|intros; by apply (dropped_add4 w0 dev om)|
    intros; by apply (add4_ok table hosts iface)|]. intros w3 h3 H3'.
  eapply (dropped_when w0 dev om); [exact H3'|intros []; instantiate (1 := fun '(ip6, net6) => add6 parse_ip show_ip os landed ab om (td_name dev) [net6] ip6);
    intros; apply implements_add6|intros []; by apply (dropped_add6 w0 dev om)|intros []; by apply (add6_ok table hosts iface)|]. intros w4 h4 H4'.
  eapply (dropped_when w0 dev om); [exact H4'|intros; apply implements_add4|intros; by apply (dropped_add4 w0 dev om)|
    intros; by apply (add4_ok table hosts iface)|]. intros w5 h5 H5'.
  eapply (dropped_when w0 dev om); [exact H5'|intros; apply implements_add6|intros; by apply (dropped_add6 w0 dev om)|
    intros; by apply (add6_ok table hosts iface)|]. intros w6 h6 H6'. apply dropped_ret.
Qed.

End Abort.

(** ** [connect] and the reconnect loop *)

Section Connect.
Context `{EqDecision Net4} `{EqDecision Net6}.
Context {EndpointId Conn : Type} (parse_endpoint_id : string -> option EndpointId).
Context (show_net4 : Net4 -> string) (show_net6 : Net6 -> string) (to_string : VpnError -> string).

Abbreviation Client := (VpnClient Net4 Net6 Conn).
Abbreviation Cut := (CutAttempt Net4 Net6 EndpointId Conn).
Abbreviation establish_later := (establish_async (Net4:=Net4) (Net6:=Net6) parse_ip show_ip with_netmask os landed).
Abbreviation session_later := (run_session_async (EndpointId:=EndpointId) (Conn:=Conn) parse_ip show_ip os landed
  show_net4 show_net6).
Abbreviation connect_later := (connect_async (Conn:=Conn) parse_ip show_ip with_netmask os landed parse_endpoint_id
  show_net4 show_net6).
Abbreviation loop_later := (run_with_reconnect_async (Conn:=Conn) parse_ip show_ip with_netmask os landed
  parse_endpoint_id show_net4 show_net6 to_string).

Lemma session_bounded w0 (c : Client) (ca : Cut) conn info dev om held w k :
  held_ok table hosts iface os w0 dev om w held ->
  match session_later c ca conn info dev om held w k with
  | (w', Some (_, k')) => restored (cost (ca_manager_cut ca)) w0 w' /\ (k = None -> k' = None)
  | (w', None) => restored (cost (ca_manager_cut ca)) w0 w' /\ k <> None
  end.
Proof.
  intros Hh. destruct (guards_of_held table hosts iface os w0 dev om w held Hh) as (gs & Heq & Hgs).
  pose proof Hh as (_ & _ & _ & Hs). unfold run_session_async, shutdown_tunnel, run_tunnel.
  pose proof (tear_down_restored table hosts iface parse_ip show_ip os landed w0 dev om [] (abort_of ca)) as Htear.
  cbn [app abort_of ab_cut] in Htear.
  assert (Hd : restored (cost (ca_manager_cut ca)) w0
    (tear_down parse_ip show_ip os landed (abort_of ca) om [RDevice dev] (unwind os w (List.filter is_route_guard held)))).
  { apply (Htear _ w); [constructor|]. rewrite Heq. eapply (session_inv_view table hosts iface); [|exact Hs].
    by apply (unwind_guards table hosts iface os (td_name dev) gs w w). }
  assert (Hu : restored (cost (ca_manager_cut ca)) w0
    (unwind os (tear_down parse_ip show_ip os landed (abort_of ca) om [RDevice dev] w) (List.filter is_route_guard held))).
  { destruct (Htear w w) as (Ht & Hsub & Hz); [constructor|done|].
    destruct (after_tunnel_table table hosts iface os w0 dev om w held _ Hh Ht) as [H1' H2'].
    unfold restored. by rewrite H1', H2'. }
  destruct (t_split_error _), k as [[|k]|]; by split.
Qed.

Lemma connect_bounded (c : Client) (ca : Cut) : bounded (cost (ca_manager_cut ca)) (connect_later c ca).
Proof.
  set (n := cost _). change n with (0 + n). unfold connect_async.
  destruct (resolve_server_addr _ _ _) as [addr|e|]; [|apply bounded_ret..].
  apply bounded_bind; [by apply bounded_pure|]. intros [conn|e|]; [|apply bounded_ret..]. change n with (0 + n).
  apply bounded_bind; [by apply bounded_pure|]. intros [info|e|]; [|apply bounded_ret..].
  destruct (check_params_against _ _) as [p [u|e|]]; [|apply bounded_ret..].
  destruct (overlap_error _ _ _); [apply bounded_ret|].
  set (c' := set_established c p). intros w k. unfold mbind, async_bind.
  pose proof (implements_establish (abort_of ca) info (cl_routes c') (cl_routes6 c') (at_relay_ips (ca_attempt ca)) w k) as Hi.
  pose proof (dropped_establish (abort_of ca) info (cl_routes c') (cl_routes6 c') (at_relay_ips (ca_attempt ca)) w k) as Hd.
  pose proof (establish_ok table hosts iface parse_ip show_ip with_netmask os landed w (abort_of ca) info (cl_routes c')
    (cl_routes6 c') (at_relay_ips (ca_attempt ca))) as Hok.
  destruct (establish_async _ _ _ _ _ _ _ _ _ _ w k) as [w1 [[r k1]|]].
  2:{ split; [|done]. eapply restored_mono; [|by apply Hd]. lia. }
  destruct Hi as [Hi Hk]. rewrite Hi in Hok. destruct r as [[[dev om] held]|e|]; cbn [step_ok] in Hok; [| |done].
  2:{ by split. }
  pose proof (session_bounded w c' ca conn info dev om held w1 k1 Hok) as Hs. fold n in Hs.
  destruct (session_later _ _ _ _ _ _ _ _ _) as [w2 [[a k2]|]]; destruct Hs as [Hs Hk2]; (split; [|tauto]); [done|].
  eapply restored_mono; [|done]. lia.
Qed.

(** *** How one attempt ends *)

(** The handle is disconnected; [r] is its reconnect state. *)
Definition down (r : ReconnectState) (h : ClientStateInner Conn unit) : Prop :=
  handle_for None h /\ h_reconnect h = r.

(** A computation whose result, if it has one, is as [P] says. *)
Definition ends {A} (P : A -> Prop) (m : async W A) : Prop := forall w k w' a k', m w k = (w', Some (a, k')) -> P a.

Lemma ends_ret {A} (P : A -> Prop) (a : A) : P a -> ends P (mret a).
Proof. intros Ha w k w' a' k' [= <- <- <-]. done. Qed.

Lemma ends_bind {A B} (P : A -> Prop) (Q : B -> Prop) (m : async W A) f :
  ends P m -> (forall a, P a -> ends Q (f a)) -> ends Q (m ≫= f).
Proof.
  intros Hm Hf w k w' b k'. unfold mbind, async_bind. specialize (Hm w k).
  destruct (m w k) as [w1 [[a k1]|]]; [|done]. apply Hf. by eapply Hm.
Qed.

Lemma ends_awaiting {A} (P : A -> Prop) (f : W -> W * A) : (forall w, P (f w).2) -> ends P (awaiting landed f).
Proof.
  intros Hf w k w' a k'. unfold awaiting. specialize (Hf w).
  destruct k as [[|n]|]; [done|..]; destruct (f w); intros [= <- <- <-]; done.
Qed.

Lemma ends_implements {A} (P : A -> Prop) (m : async W A) f : implements m f -> (forall w, P (f w).2) -> ends P m.
Proof. intros Hi Hf w k w' a k' He. specialize (Hi w k). rewrite He in Hi. destruct Hi as [Hi _]. specialize (Hf w). by rewrite Hi in Hf. Qed.

(** It ends with an error, disconnected; the tunnel came up or it did not. *)
Definition attempt_ended (c : Client) (x : Client * vres unit) : Prop :=
  (exists e, x.2 = Fail e) /\
  forall r0, down r0 (cl_status c) -> down reconnect_default (cl_status x.1) \/ down r0 (cl_status x.1).

Lemma failed_ended (c : Client) p e : attempt_ended c (set_established c p, Fail e).
Proof. split; [by eexists|]. intros r0 Hd. by right. Qed.

Lemma failed_early (c : Client) e : attempt_ended c (c, Fail e).
Proof. split; [by eexists|]. intros r0 Hd. by right. Qed.

Lemma session_ended (c : Client) p (ca : Cut) conn info dev om held :
  ends (attempt_ended c) (session_later (set_established c p) ca conn info dev om held).
Proof.
  intros w k w' x k'. unfold run_session_async. destruct (run_tunnel _ _ _ _ _ _ _ _ _) as [w1 e].
  destruct (t_split_error _), k as [[|k]|]; intros [= <- <- <-]; (split; [by eexists|]; intros r0 Hd; by left).
Qed.

Lemma never_panics {A} (v : vres A) : v <> Panic -> (exists a, v = Ret a) \/ exists e, v = Fail e.
Proof. destruct v; [left; by eexists|right; by eexists|done]. Qed.

Lemma connect_ended (c : Client) (ca : Cut) : ends (attempt_ended c) (connect_later c ca).
Proof.
  unfold connect_async, resolve_server_addr.
  destruct (parse_endpoint_id _) as [id|]; cbn [mbind outcome_bind ok_or]; [|apply ends_ret, failed_early].
  apply (ends_bind (fun v => v <> Panic)); [apply ends_awaiting; intros w; cbn [snd]; by destruct (at_dial _ _)|].
  intros v Hv. destruct (never_panics v Hv) as [[conn ->]|[e ->]]; [|apply ends_ret, failed_early].
  apply (ends_bind (fun v => v <> Panic)); [apply ends_awaiting; intros w; cbn [snd]; by destruct (at_handshake _)|].
  intros v' Hv'. destruct (never_panics v' Hv') as [[info ->]|[e ->]]; [|apply ends_ret, failed_early].
  destruct (check_params_against (cl_established c) info) as [p rp] eqn:Hp.
  assert (Hrp : rp <> Panic). { unfold check_params_against in Hp. repeat case_match; by simplify_eq. }
  destruct (never_panics rp Hrp) as [[[] ->]|[e ->]]; [|apply ends_ret, failed_ended]. cbv zeta.
  destruct (overlap_error _ _ _) as [err|]; [apply ends_ret, failed_ended|].
  apply (ends_bind (fun v => v <> Panic)).
  - eapply ends_implements; [apply implements_establish|]. intros w. cbv beta.
    pose proof (establish_ok table hosts iface parse_ip show_ip with_netmask os landed w (abort_of ca) info
      (cl_routes (set_established c p)) (cl_routes6 (set_established c p)) (at_relay_ips (ca_attempt ca))) as Hok.
    by destruct (establish _ _ _ _ _ _ _ _ _ _) as [w1 [?|?|]].
  - intros v2 Hv2. destruct (never_panics v2 Hv2) as [[[[dev om] held] ->]|[e ->]]; [apply session_ended|apply ends_ret, failed_ended].
Qed.

(** Refused after the handshake: nothing has been touched. *)
Lemma connect_refused w (c : Client) (ca : Cut) info :
  at_handshake (ca_attempt ca) = inr info ->
  (check_params_against (cl_established c) info).2 <> Ret tt \/
  overlap_error (routes_for info (cl_routes c)) (routes6_for info (cl_routes6 c)) (at_locals (ca_attempt ca)) <> None ->
  (connect_later c ca w None).1 = w.
Proof.
  intros Hh Hr. unfold connect_async. rewrite Hh.
  destruct (resolve_server_addr _ _ _); [|done..].
  unfold mbind, async_bind, awaiting. destruct (connect_with_timeout _); [|done..]. cbn [of_sum].
  destruct (check_params_against (cl_established c) info) as [p [[]|e|]]; [|done..].
  destruct Hr as [Hr|Hr]; [done|]. cbn [cl_routes cl_routes6 set_established].
  by destruct (overlap_error _ _ _).
Qed.

(** [ConnectionLost] comes from a tunnel that was up. *)
Lemma connect_lost w (c : Client) (ca : Cut) w' c' m k' :
  connect_later c ca w None = (w', Some ((c', Fail (ConnectionLost m)), k')) ->
  (forall m, at_handshake (ca_attempt ca) <> inl (ConnectionLost m)) ->
  exists info w1 x, at_handshake (ca_attempt ca) = inr info /\
    establish_later (abort_of ca) info (cl_routes c) (cl_routes6 c) (at_relay_ips (ca_attempt ca)) w None =
      (w1, Some (Ret x, None)).
Proof.
  unfold connect_async, resolve_server_addr. intros Hc Hl.
  destruct (parse_endpoint_id _) as [id|]; cbn [mbind outcome_bind ok_or] in Hc; [|done].
  unfold mbind, async_bind, awaiting in Hc. destruct (at_dial _ _) as [| |conn]; cbn [connect_with_timeout] in Hc; [done..|].
  destruct (at_handshake _) as [e|info]; cbn [of_sum] in Hc.
  { exfalso. injection Hc as _ _ ->. by apply (Hl m). }
  pose proof (check_params_never_lost (cl_established c) info m) as Hp.
  destruct (check_params_against _ _) as [p [[]|e|]]; cbn [snd] in Hp; [|by injection Hc as _ _ ->|done].
  cbn [cl_routes cl_routes6 set_established] in Hc.
  pose proof (overlap_never_lost (routes_for info (cl_routes c)) (routes6_for info (cl_routes6 c))
    (at_locals (ca_attempt ca)) m) as Ho.
  destruct (overlap_error _ _ _) as [e|]; [by injection Hc as _ _ ->|].
  pose proof (establish_never_lost parse_ip show_ip with_netmask os landed (abort_of ca) w info (cl_routes c) (cl_routes6 c) (at_relay_ips (ca_attempt ca)) m) as He.
  pose proof (implements_establish (abort_of ca) info (cl_routes c) (cl_routes6 c) (at_relay_ips (ca_attempt ca)) w None) as Hi.
  destruct (establish_later _ _ _ _ _ w None) as [w1 [[r k1]|]] eqn:Hest; [|done]. destruct Hi as [Hi Hk].
  rewrite Hi in He. rewrite (Hk eq_refl) in *. cbn [snd] in He. destruct r as [x|e|]; [|by injection Hc as _ _ ->|done].
  exists info, w1, x. done.
Qed.

(** The attempts whose manager was aborted in the middle of an update. *)
Definition aborted (attempts : list Cut) : nat := length (filter (fun ca => ca_manager_cut ca <> None) attempts).

Lemma aborted_cons (ca : Cut) rest :
  cost (ca_manager_cut ca) + leak * aborted rest = leak * aborted (ca :: rest).
Proof.
  unfold aborted, cost. rewrite filter_cons. destruct (ca_manager_cut ca) eqn:Hc.
  - rewrite decide_True by done. cbn [length]. lia.
  - rewrite decide_False; [done|]. by intros [].
Qed.

Lemma loop_bounded max failures (c : Client) (attempts : list Cut) :
  bounded (leak * aborted attempts) (loop_later max failures c attempts).
Proof.
  revert failures c. induction attempts as [|ca rest IH]; intros failures c; cbn [run_with_reconnect_async];
    [apply bounded_ret|].
  rewrite <-aborted_cons. apply bounded_bind; [apply connect_bounded|].
  intros [c1 [u|e|]]; [apply bounded_ret| |apply bounded_ret].
  destruct (is_recoverable e); [|apply bounded_ret]. cbv zeta.
  destruct (match max with Some m => (m <? _)%Z | None => false end); [apply bounded_ret|].
  rewrite <-(Nat.add_0_l (leak * aborted rest)). apply bounded_bind; [by apply bounded_pure|]. intros _.
  rewrite <-(Nat.add_0_r (leak * aborted rest)). apply bounded_bind; [apply IH|].
  intros [[c2 delays] r]. apply bounded_ret.
Qed.

(** The results of the attempts in turn, each on the state the last one left. *)
Fixpoint results_along (failures : Z) (w : W) (c : Client) (attempts : list Cut) : list attempt :=
  match attempts with
  | [] => []
  | ca :: rest =>
      let a := ca_attempt ca in
      match connect_later c ca w None with
      | (w, Some ((c, Fail e), _)) =>
          let failures := next_failures failures e in
          let at_ := (at_failed a + calculate_backoff failures (at_jitter a) * MILLIS)%Z in
          mkAttempt (inl e) (at_jitter a) ::
            results_along failures w (map_status (set_reconnecting failures (to_string e) at_) c) rest
      | _ => [mkAttempt (inr tt) (at_jitter a)]
      end
  end.

(** While it waits, the published status is that of the outage. *)
Definition waiting_status (failures : Z) w (c : Client) (attempts : list Cut) (delays : list Z) (c' : Client) : Prop :=
  forall ca, last attempts = Some ca ->
    exists e d, last (results_along failures w c attempts) = Some (mkAttempt (inl e) (at_jitter (ca_attempt ca))) /\
      last delays = Some d /\
      h_reconnect (cl_status c') =
        mkReconnect (outage failures (results_along failures w c attempts)) (Some (to_string e))
          (Some (at_failed (ca_attempt ca) + d * MILLIS)%Z).

Lemma loop_refines max failures w (c : Client) (attempts : list Cut) :
  handle_for None (cl_status c) ->
  exists w' c' delays r, loop_later max failures c attempts w None = (w', Some ((c', delays, r), None)) /\
  run_with_reconnect max failures (results_along failures w c attempts) = (delays, r) /\
  handle_for None (cl_status c') /\ r <> Some (Ret tt) /\ r <> Some Panic /\
  (r = None -> waiting_status failures w c attempts delays c').
Proof.
  unfold waiting_status. revert failures w c. induction attempts as [|ca rest IH]; intros failures w c Hd;
    cbn [run_with_reconnect_async results_along].
  { exists w, c, [], None. by split_and!. }
  pose proof (connect_bounded c ca w None) as Hb. pose proof (connect_ended c ca w None) as He.
  unfold mbind at 1, async_bind at 1.
  destruct (connect_later c ca w None) as [w1 [[[c1 r1] k1]|]]; [|by destruct Hb].
  destruct Hb as [_ Hk]. rewrite (Hk eq_refl) in *.
  destruct (He w1 _ None eq_refl) as [[e Hr] Hs]. cbn [fst snd] in *. subst r1.
  assert (Hd1 : handle_for None (cl_status c1)).
  { by destruct (Hs (h_reconnect (cl_status c)) (conj Hd eq_refl)) as [[? _]|[? _]]. }
  cbn [run_with_reconnect result jitter]. destruct (is_recoverable e) eqn:Hrec.
  2:{ exists w1, c1, [], (Some (Fail e)). by split_and!. }
  cbv zeta. set (f1 := next_failures failures e).
  destruct (match max with Some m => (m <? f1)%Z | None => false end) eqn:Hcap.
  { exists w1, c1, []. eexists. by split_and!. }
  set (c2 := map_status _ c1). destruct (IH f1 w1 c2 Hd1) as (w' & c' & delays & r & Hloop & Hrun & Hd' & Hr1 & Hr2 & Hlast).
  exists w', c', (calculate_backoff f1 (at_jitter (ca_attempt ca)) :: delays), r. rewrite Hrun.
  split; [unfold mbind, async_bind, awaiting; by rewrite Hloop|]. do 4 (split; [done|]). intros Hr a' Ha'. specialize (Hlast Hr).
  destruct rest as [|b rest].
  - injection Ha' as <-. cbn in Hloop. injection Hloop as <- <- <- <-. exists e. eexists. by split_and!.
  - change (last (ca :: b :: rest)) with (last (b :: rest)) in Ha'.
    destruct (Hlast a' Ha') as (e' & d & Hl1 & Hl2 & Hl3). exists e', d.
    cbn [outage result]. fold f1. split_and!; [| |done].
    + by destruct (results_along f1 w1 c2 (b :: rest)).
    + by destruct delays.
Qed.
End Connect.
End Cancellation.

(** ** Theorems *)

Section Theorems.
Context {Net4 Net6 : Type} `{NetLaws V4_BITS Net4} `{NetLaws V6_BITS Net6}.
Context `{EqDecision Net4} `{EqDecision Net6}.
Context {W : Type} `{System W} `{TunApi W}.
Context (table : W -> gset route_key) (hosts undeleted : W -> gset host_key) (iface : Z -> string).
Context `{!KernelLaws W table} `{!HostRouteLaws W hosts undeleted}.
Context `{!SessionLaws W table hosts iface} `{!SessionLaws W table undeleted iface}.
Context (parse_ip : string -> option IpAddr) (show_ip : IpAddr -> string).
Context (with_netmask : Z -> Z -> option Net4).
Context (os : Os) (landed : bool).
Context {EndpointId Conn : Type} (parse_endpoint_id : string -> option EndpointId).
Context (show_net4 : Net4 -> string) (show_net6 : Net6 -> string) (to_string : VpnError -> string).

Abbreviation Client := (VpnClient Net4 Net6 Conn).
Abbreviation Cut := (CutAttempt Net4 Net6 EndpointId Conn).
Abbreviation acc := (accounted hosts undeleted).
Abbreviation connect := (connect_async (Conn:=Conn) parse_ip show_ip with_netmask os landed parse_endpoint_id
  show_net4 show_net6).
Abbreviation establish := (establish_async (Net4:=Net4) (Net6:=Net6) parse_ip show_ip with_netmask os landed).
Abbreviation loop := (run_with_reconnect_async (Conn:=Conn) parse_ip show_ip with_netmask os landed
  parse_endpoint_id show_net4 show_net6 to_string).
Abbreviation results := (results_along parse_ip show_ip with_netmask os landed parse_endpoint_id show_net4 show_net6
  to_string).

(** C9. One connection attempt, not cut off from outside, always ends, with an
    error and disconnected, whichever way it ends (refused, failed at any step
    of the set-up, or after a tunnel that ran), and wherever the bypass
    manager's task is when it is aborted: the routes over devices are those of
    before; the host routes are those of before, those whose deletion failed,
    and at most one more, if the manager was aborted while the command of a
    bypass route ran and the command completes all the same.  [ConnectionLost]
    comes only from a tunnel that was up; a handshake whose parameters changed,
    or whose routes overlap a local network, is refused before any system call.
    While the tunnel runs, the table differs from the initial one only in routes
    over the tunnel's device, and contains those of all its guards. *)
Theorem connect_restores_host w (c : Client) (ca : Cut) :
  let a := ca_attempt ca in
  handle_for None (cl_status c) -> (forall m, at_handshake a <> inl (ConnectionLost m)) ->
  exists w' c' e, connect c ca w None = (w', Some ((c', Fail e), None)) /\
  table w' = table w /\ acc w ⊆ acc w' /\
  size (acc w' ∖ acc w) <= (match ca_manager_cut ca with Some _ => leak landed | None => 0 end) /\
  handle_for None (cl_status c') /\
  (forall m, e = ConnectionLost m -> exists info w1 x, at_handshake a = inr info /\
     establish (abort_of ca) info (cl_routes c) (cl_routes6 c) (at_relay_ips a) w None = (w1, Some (Ret x, None))) /\
  (forall info, at_handshake a = inr info ->
     ((check_params_against (cl_established c) info).2 <> Ret tt \/
      overlap_error (routes_for info (cl_routes c)) (routes6_for info (cl_routes6 c)) (at_locals a) <> None ->
      w' = w) /\
     forall w1 d om held,
       establish (abort_of ca) info (cl_routes c) (cl_routes6 c) (at_relay_ips a) w None =
         (w1, Some (Ret (d, om, held), None)) ->
       other (td_name d) (table w1) = table w /\
       Forall (fun r => match r with
                        | RGuard4 g => forall n, n ∈ g_routes g -> key4 (td_name d) n ∈ table w1
                        | RGuard6 g => forall n, n ∈ g_routes g -> key6 (td_name d) n ∈ table w1
                        | RDevice d' => d' = d
                        end) held).
Proof.
  intros a Hd Hl.
  pose proof (connect_bounded table acc iface parse_ip show_ip with_netmask os landed parse_endpoint_id show_net4 show_net6
    c ca w None) as Hb.
  pose proof (connect_ended table acc iface parse_ip show_ip with_netmask os landed parse_endpoint_id show_net4 show_net6
    c ca w None) as He.
  destruct (connect c ca w None) as [w' [[[c' r] k']|]] eqn:Hc; [|by destruct Hb].
  destruct Hb as [(Ht & Hs & Hz) Hk]. rewrite (Hk eq_refl) in *.
  destruct (He w' _ None eq_refl) as [[e Hr] Hst]. cbn [fst snd] in *. subst r.
  exists w', c', e. split; [done|]. split; [done|]. split; [done|]. split; [done|].
  split; [by destruct (Hst (h_reconnect (cl_status c)) (conj Hd eq_refl)) as [[? _]|[? _]]|].
  split; [intros m ->; by eapply (connect_lost table acc iface)|]. intros info Hi. split.
  - intros Hr. pose proof (connect_refused parse_ip show_ip with_netmask os landed parse_endpoint_id show_net4 show_net6
      w c ca info Hi Hr) as Hw. by rewrite Hc in Hw.
  - intros w1 d om held Hest.
    pose proof (implements_establish table acc iface parse_ip show_ip with_netmask os landed (abort_of ca) info (cl_routes c)
      (cl_routes6 c) (at_relay_ips a) w None) as Him. rewrite Hest in Him. destruct Him as [Him _].
    pose proof (establish_ok table acc iface parse_ip show_ip with_netmask os landed w (abort_of ca) info (cl_routes c)
      (cl_routes6 c) (at_relay_ips a)) as Hok.
    rewrite Him in Hok. destruct Hok as (gs & -> & Hgs & _ & Ho & _). split; [done|]. apply Forall_app. split.
    + eapply Forall_impl; [exact Hgs|]. intros [?|?|?]; [done| |]; by intros [_ ?].
    + by repeat constructor.
Qed.


(** C11. The reconnect loop with all its effects runs as the abstract loop does
    on the results of its attempts (the same delays and the same outcome), so
    everything proved of that loop holds of it; it never returns success, since
    a tunnel only ever ends with an error; however it ends, the routes over
    devices are those of before and the host routes too, but for those whose
    deletion failed and at most one for every attempt whose manager was aborted
    in the middle of an update; and while it waits, the published status is
    disconnected with the failures of the current outage, the last error and
    the time of the next attempt. *)
Theorem reconnect_loop_refined max failures w (c : Client) (attempts : list Cut) :
  handle_for None (cl_status c) ->
  exists w' c' delays r, loop max failures c attempts w None = (w', Some ((c', delays, r), None)) /\
  run_with_reconnect max failures (results failures w c attempts) = (delays, r) /\
  table w' = table w /\ acc w ⊆ acc w' /\ size (acc w' ∖ acc w) <= leak landed * aborted attempts /\
  handle_for None (cl_status c') /\ r <> Some (Ret tt) /\ r <> Some Panic /\
  (r = None -> forall ca, last attempts = Some ca ->
     exists e d, last (results failures w c attempts) = Some (mkAttempt (inl e) (at_jitter (ca_attempt ca))) /\
       last delays = Some d /\
       h_reconnect (cl_status c') =
         mkReconnect (outage failures (results failures w c attempts)) (Some (to_string e))
           (Some (at_failed (ca_attempt ca) + d * MILLIS)%Z)).
Proof.
  intros Hd.
  destruct (loop_refines table acc iface parse_ip show_ip with_netmask os landed parse_endpoint_id show_net4 show_net6
    to_string max failures w c attempts Hd) as (w' & c' & delays & r & Hloop & Hrun & Hd' & Hr1 & Hr2 & Hlast).
  pose proof (loop_bounded table acc iface parse_ip show_ip with_netmask os landed parse_endpoint_id show_net4 show_net6
    to_string max failures c attempts w None) as Hb.
  rewrite Hloop in Hb. destruct Hb as [(Ht & Hs & Hz) _].
  exists w', c', delays, r. by split_and!.
Qed.
End Theorems.

(** ** Evaluation *)

#[local] Instance cancel_laws4 : NetLaws V4_BITS (CNet V4_BITS) := CNet_laws V4_BITS eq_refl.
#[local] Instance cancel_laws6 : NetLaws V6_BITS (CNet V6_BITS) := CNet_laws V6_BITS eq_refl.

Abbreviation sample_connect :=
  (connect_async sample_parse_ip (fun _ => "ip") (fun _ _ => None) LinuxOs true (fun _ => Some tt) (fun _ => "net4")
     (fun _ => "net6") sample_client).
Abbreviation sample_loop landed :=
  (run_with_reconnect_async sample_parse_ip (fun _ => "ip") (fun _ _ => None) LinuxOs landed (fun _ => Some tt)
     (fun _ => "net4") (fun _ => "net6") (fun _ => "lost") None 0 sample_client).

Definition was_dropped {A B} (r : A * option B) : bool := match r.2 with Some _ => false | None => true end.

(** An attempt whose manager's task is aborted at its [n]th await, if at all. *)
Definition sample_cut (n : cut) : CutAttempt (CNet V4_BITS) (CNet V6_BITS) unit unit := mkCutAttempt sample_attempt n true.

(** The session of [sample_attempt], its manager aborted in the middle of the
    update: the host route of that update stays. *)
Lemma connect_restores_host_witness :
  exists w' c' e, sample_connect (sample_cut (Some 2)) sample_os None = (w', Some ((c', Fail e), None)) /\
    so_table w' = so_table sample_os /\ size (so_accounted w' ∖ so_accounted sample_os) <= 1 /\
    handle_for None (cl_status c') /\
    size (so_accounted (sample_connect (sample_cut (Some 2)) sample_os None).1) = 1.
Proof.
  destruct (connect_restores_host so_table so_hosts so_undeleted so_iface sample_parse_ip (fun _ => "ip") (fun _ _ => None)
    LinuxOs true (fun _ => Some tt) (fun _ => "net4") (fun _ => "net6") sample_os sample_client (sample_cut (Some 2)))
    as (w' & c' & e & Hc & Ht & _ & Hz & Hd & _).
  - repeat split.
  - intros m Hm. discriminate Hm.
  - exists w', c', e. split; [exact Hc|]. split; [exact Ht|]. split; [exact Hz|]. split; [exact Hd|].
    vm_compute. reflexivity.
Defined.


Lemma reconnect_loop_refined_witness :
  exists w' c', sample_loop true [sample_cut None; sample_cut (Some 2)] sample_os None =
      (w', Some ((c', [1250; 1250]%Z, None), None)) /\
    so_table w' = so_table sample_os /\ size (so_accounted w' ∖ so_accounted sample_os) <= 1 /\
    handle_for None (cl_status c').
Proof.
  destruct (reconnect_loop_refined so_table so_hosts so_undeleted so_iface sample_parse_ip (fun _ => "ip") (fun _ _ => None)
    LinuxOs true (fun _ => Some tt) (fun _ => "net4") (fun _ => "net6") (fun _ => "lost") None 0 sample_os
    sample_client [sample_cut None; sample_cut (Some 2)]) as (w' & c' & delays & r & Hl & _ & Ht & _ & Hz & Hd & _).
  - repeat split.
  - assert (Hdr : (fun x => (x.1.1.2, x.1.2)) <$> (sample_loop true [sample_cut None; sample_cut (Some 2)] sample_os None).2 =
      Some ([1250; 1250]%Z, None)) by (vm_compute; reflexivity).
    rewrite Hl in Hdr. injection Hdr as -> ->. exists w', c'. exact (conj Hl (conj Ht (conj Hz Hd))).
Defined.

(** The observable outcome of a run: the sizes of the tables while the tunnel
    is up, and the error. *)
Example sample_session_outcome :
  ((fun x => x.1.2) <$> (sample_connect (sample_cut None) sample_os None).2) =
    Some (Fail (ConnectionLost (msg "heartbeat timed out"))) /\
  let r := establish_async sample_parse_ip (fun _ => "ip") (fun _ _ => None) LinuxOs true (abort_of (sample_cut None))
    sample_info (cl_routes sample_client) (cl_routes6 sample_client) ∅ sample_os None in
  (size (so_table r.1), size (so_hosts r.1)) = (4, 1).
Proof. vm_compute. split_and!; reflexivity. Qed.

(** Dropped while [ip route add] runs, the client leaves the bypass route of
    the server behind; a later session, which runs to its end, finds the route
    there, takes it for somebody else's and leaves it.  The same interruption
    leaves nothing behind if the command does not complete. *)
Theorem interrupted_bypass_route_stays :
  let w1 := (sample_loop true [sample_cut None] sample_os (Some 5)).1 in
  let w2 := (sample_loop true [sample_cut None] w1 None).1 in
  let w3 := (sample_loop false [sample_cut None] sample_os (Some 5)).1 in
  (size (so_hosts sample_os), size (so_hosts w1), size (so_hosts w2), size (so_hosts w3)) = (0, 1, 1, 0) /\
  was_dropped (sample_loop true [sample_cut None] sample_os (Some 5)) = true /\
  bool_decide (so_table w2 = so_table sample_os) = true.
Proof. vm_compute. split_and!; reflexivity. Qed.

(** A route that cannot be added ends the set-up; the manager's task, aborted
    while it runs a command for a published address, leaves that route. *)
Definition failing_client : VpnClient (CNet V4_BITS) (CNet V6_BITS) unit :=
  mkClient "server" (cnets V4_BITS [(0, 0); (0, 13)]%Z) [] None (handle_new "work" "server" 255).

Example aborted_setup_leaves_route :
  let r cut := connect_async sample_parse_ip (fun _ => "ip") (fun _ _ => None) LinuxOs true (fun _ => Some tt)
    (fun _ => "net4") (fun _ => "net6") failing_client (sample_cut cut) sample_os None in
  (size (so_hosts (r None).1), size (so_hosts (r (Some 2)).1)) = (0, 1) /\
  bool_decide (so_table (r (Some 2)).1 = so_table sample_os) = true.
Proof. vm_compute. split; reflexivity. Qed.
