(* ===== verification/ControlStream.v ===== *)
(** * The control stream of a session

    The server's side: the frames its publisher ([publish_server_addrs],
    [run_server_addr_publisher]) and its heartbeat responder hand to the
    control writer task of [handle_connection_inner]
    ([src/tunnel/server.rs]).  The client's side: the control task of
    [run_tunnel] ([src/tunnel/client.rs]), which hands what it reads to the
    heartbeat and to the bypass-route manager. *)

From S2P Require Import Prelude Errors Net Signaling Stream Forward Routing.

(** ** Bounded channels *)

(** A bounded channel: everything it ever accepted, how much of that has been
    received, and whether the receiver exists. *)
Record mpsc (A : Type) : Type := mkMpsc { ch_sent : list A; ch_received : nat; ch_alive : bool }.
Arguments mkMpsc {_}.
Arguments ch_sent {_}.
Arguments ch_received {_}.
Arguments ch_alive {_}.

Definition ch_queue {A} (c : mpsc A) : list A := drop (ch_received c) (ch_sent c).

Definition mpsc_try_send {A} (cap : nat) (c : mpsc A) (x : A) : mpsc A * try_result :=
  if negb (ch_alive c) then (c, TryClosed)
  else if (length (ch_queue c) <? cap)%nat
  then (mkMpsc (ch_sent c ++ [x]) (ch_received c) true, TryOk)
  else (c, TryFull).

Definition mpsc_recv_many {A} (limit : nat) (c : mpsc A) : mpsc A * list A :=
  let batch := take limit (ch_queue c) in
  (mkMpsc (ch_sent c) (ch_received c + length batch) (ch_alive c), batch).

Definition mpsc_new {A} : mpsc A := mkMpsc [] 0 true.

(** ** The server *)

Definition CONTROL_CHANNEL_SIZE : nat := 1024.
Definition CONTROL_WRITE_BATCH : nat := 256.

Section Server.
Context {Net4 Net6 : Type} `{NetOps V4_BITS Net4} `{NetOps V6_BITS Net6}.
Context `{Json ServerAddrsMsg}.
Context (overlay_v4 : option Net4) (overlay_v6 : option Net6).

(** The result is [Err(())] exactly when the receiver is gone. *)
Definition publish_server_addrs (endpoint_ips : list IpAddr) (packet_tx : mpsc (list Z))
  : mpsc (list Z) * bool :=
  let addrs := server_candidate_addrs endpoint_ips overlay_v4 overlay_v6 in
  match addrs with
  | [] => (packet_tx, true)
  | _ =>
      match encode_server_addrs_frame [] (mkServerAddrsMsg addrs) with
      | Ret (buf, _) =>
          match mpsc_try_send CONTROL_CHANNEL_SIZE packet_tx buf with
          | (tx, TryOk) => (tx, true)
          | (tx, TryFull) => (tx, true)
          | (tx, TryClosed) => (tx, false)
          end
      | _ => (packet_tx, true)
      end
  end.

(** What the publisher waits for, with the endpoint's addresses at that time. *)
Inductive pub_event : Type :=
| ConnectionClosed
| IntervalTick (endpoint_ips : list IpAddr)
| AddrsChanged (endpoint_ips : list IpAddr)
| WatcherEnded.

(** The publisher's state: running with or without its watcher, or ended. *)
Inductive publisher : Type := Publishing (watcher_alive : bool) | PublisherEnded.

Definition run_server_addr_publisher (p : publisher) (ev : pub_event) (tx : mpsc (list Z))
  : publisher * mpsc (list Z) :=
  let publish p ips := let '(tx, ok) := publish_server_addrs ips tx in
                       (if ok : bool then p else PublisherEnded, tx) in
  match p, ev with
  | PublisherEnded, _ => (p, tx)
  | Publishing _, ConnectionClosed => (PublisherEnded, tx)
  | Publishing _, IntervalTick ips => publish p ips
  | Publishing true, AddrsChanged ips => publish p ips
  | Publishing true, WatcherEnded => (Publishing false, tx)
  | Publishing false, (AddrsChanged _ | WatcherEnded) => (p, tx)
  end.

(** The heartbeat responder answers a ping through the control writer; a full
    queue drops the pong. *)
Definition answer_frame (body : list Z) (tx : mpsc (list Z)) : mpsc (list Z) :=
  match classify body with
  | Ret (FPing seq) => (mpsc_try_send CONTROL_CHANNEL_SIZE tx (encode_heartbeat_frame Pong seq)).1
  | _ => tx
  end.

Context {W : Type} (write_all : W -> list Z -> W * vres unit).

(** One round of the control writer on a non-empty queue; a failed write ends
    the task and drops its receiver. *)
Definition control_writer (send : W) (rx : mpsc (list Z)) : W * mpsc (list Z) * bool :=
  let '(rx, batch) := mpsc_recv_many CONTROL_WRITE_BATCH rx in
  match write_frames write_all send batch with
  | (send, _, Ret _) => (send, rx, true)
  | (send, _, _) => (send, mkMpsc (ch_sent rx) (ch_received rx) false, false)
  end.

(** The three tasks on their shared channel. *)
Record Controls : Type := mkControls {
  c_publisher : publisher;
  c_channel : mpsc (list Z);
  c_stream : W;
  c_writing : bool;
}.

Inductive ctl_event : Type :=
| EvPublish (ev : pub_event)
| EvFrame (body : list Z)
| EvWrite.

Definition control_step (s : Controls) (e : ctl_event) : Controls :=
  match e with
  | EvPublish ev =>
      let '(p, tx) := run_server_addr_publisher (c_publisher s) ev (c_channel s) in
      mkControls p tx (c_stream s) (c_writing s)
  | EvFrame body => mkControls (c_publisher s) (answer_frame body (c_channel s)) (c_stream s) (c_writing s)
  | EvWrite =>
      match c_writing s, ch_queue (c_channel s) with
      | true, _ :: _ =>
          let '(send, rx, go) := control_writer (c_stream s) (c_channel s) in
          mkControls (c_publisher s) rx send go
      | _, _ => s
      end
  end.

Definition control_run (s : Controls) (es : list ctl_event) : Controls := fold_left control_step es s.

Definition controls_new (send : W) : Controls := mkControls (Publishing true) mpsc_new send true.
End Server.

(** ** The client *)

Definition PONG_CHANNEL_SIZE : nat := 4.
Definition SERVER_ADDR_CHANNEL_SIZE : nat := 8.

Section ControlClient.
Context `{Json ServerAddrsMsg}.

(** The channels to the heartbeat and to the bypass-route manager, if one runs. *)
Record ClientChans : Type := mkChans {
  pong_tx : mpsc Z;
  server_addr_tx : option (mpsc (gset IpAddr));
}.

Inductive ctl_end : Type := StreamClosed | StreamFailed (e : VpnError).

(** One frame. *)
Definition control_frame (body : list Z) (st : ClientChans) : ClientChans :=
  match classify body with
  | Ret (FPong seq) => mkChans (mpsc_try_send PONG_CHANNEL_SIZE (pong_tx st) seq).1 (server_addr_tx st)
  | Ret (FPing _) => st
  | Ret (FServerAddrs body) =>
      match server_addr_tx st with
      | Some tx =>
          match ServerAddrsMsg_decode body with
          | Ret m => mkChans (pong_tx st)
                       (Some (mpsc_try_send SERVER_ADDR_CHANNEL_SIZE tx (list_to_set (addrs m))).1)
          | _ => st
          end
      | None => st
      end
  | _ => st
  end.

(** The receivers take from their channels, or go away, between two frames. *)
Definition consume {A} (n : nat) (alive : bool) (c : mpsc A) : mpsc A :=
  mkMpsc (ch_sent c) (Nat.min (length (ch_sent c)) (ch_received c + n)) (ch_alive c && alive).

Record consumers : Type := mkConsumers { took_pongs : nat; took_addrs : nat; both_alive : bool }.

Definition consumed (t : consumers) (st : ClientChans) : ClientChans :=
  mkChans (consume (took_pongs t) (both_alive t) (pong_tx st))
          (consume (took_addrs t) (both_alive t) <$> server_addr_tx st).

(** The task; each frame is at least five bytes, so that the length of the
    stream is fuel enough. *)
Fixpoint control_task (fuel : nat) (recv : RecvStream) (meanwhile : list consumers) (st : ClientChans)
  : option (ClientChans * ctl_end) :=
  match fuel with
  | O => None
  | S fuel =>
      let st := match meanwhile with t :: _ => consumed t st | [] => st end in
      match read_frame recv with
      | Ret (Some body, recv) => control_task fuel recv (tail meanwhile) (control_frame body st)
      | Ret (None, _) => Some (st, StreamClosed)
      | Fail e => Some (st, StreamFailed e)
      | Panic => None
      end
  end.
End ControlClient.

(** ** What travels *)

Inductive ctl_msg : Type :=
| MPong (seq : Z)
| MAddrs (candidates : list IpAddr).

Section Wire.
Context `{JsonLaws ServerAddrsMsg}.

(** The frame of a message. *)
Definition wire (m : ctl_msg) (frame : list Z) : Prop :=
  match m with
  | MPong seq => is_uint 64 seq /\ frame = encode_heartbeat_frame Pong seq
  | MAddrs l => exists n, encode_server_addrs_frame [] (mkServerAddrsMsg l) = Ret (frame, n)
  end.

(** What a message does to the client's channels. *)
Definition deliver (m : ctl_msg) (st : ClientChans) : ClientChans :=
  match m with
  | MPong seq => mkChans (mpsc_try_send PONG_CHANNEL_SIZE (pong_tx st) seq).1 (server_addr_tx st)
  | MAddrs l =>
      mkChans (pong_tx st)
        ((fun tx => (mpsc_try_send SERVER_ADDR_CHANNEL_SIZE tx (list_to_set l)).1) <$> server_addr_tx st)
  end.

Definition meantime (meanwhile : list consumers) (st : ClientChans) : ClientChans :=
  match meanwhile with t :: _ => consumed t st | [] => st end.

Fixpoint deliver_all (msgs : list ctl_msg) (meanwhile : list consumers) (st : ClientChans) : ClientChans :=
  match msgs with
  | [] => meantime meanwhile st
  | m :: msgs => deliver_all msgs (tail meanwhile) (deliver m (meantime meanwhile st))
  end.

Lemma wire_read m frame tl e st :
  wire m frame -> exists body,
    read_frame (mkRecvStream (frame ++ tl) e) = Ret (Some body, mkRecvStream tl e) /\
    control_frame body st = deliver m st.
Proof.
  destruct m as [seq|l]; cbn [wire].
  - intros [Hs ->]. destruct (heartbeat_frame_read Pong seq tl e) as (body & Hr & Hc); [done..|].
    exists body. split; [done|]. unfold control_frame. by rewrite Hc.
  - intros [n He]. destruct (addrs_frame_read _ _ _ tl e He) as (_ & body & json & Hr & Hc & Hd).
    exists body. split; [done|]. unfold control_frame. rewrite Hc. cbn [deliver].
    destruct (server_addr_tx st) as [tx|] eqn:Htx; [by rewrite Hd|]. destruct st. cbn in *. by rewrite Htx.
Qed.

(** The shape of a frame on the wire. *)
Lemma wire_form m frame : wire m frame ->
  exists body, frame = be_bytes 4 (Z.of_nat (length body)) ++ body /\
    (1 <= Z.of_nat (length body) <= MAX_FRAME_BODY)%Z.
Proof.
  assert (Hmax : (MAX_FRAME_BODY = 65547)%Z) by reflexivity.
  destruct m as [seq|l]; cbn [wire].
  - intros [_ ->]. exists ([as_byte Pong] ++ be_bytes 8 seq). rewrite length_app, be_bytes_length.
    split; [done|]. cbn. lia.
  - intros [n He]. unfold encode_server_addrs_frame in He. apply bind_ret_inv in He as (body & _ & He).
    destruct (Z.ltb_spec MAX_FRAME_BODY (Z.of_nat (1 + length body))); [done|].
    apply Ret_inj in He. simplify_eq. exists ([as_byte ServerAddrs] ++ body). split; [done|]. cbn [length app]. lia.
Qed.

(** A truncated frame is an error. *)
Lemma truncated_frame m frame p e : wire m frame -> p `prefix_of` frame -> p <> [] -> p <> frame ->
  exists err, read_frame (mkRecvStream p e) = Fail err.
Proof.
  intros Hw [q Hq] Hp Hf. destruct (wire_form _ _ Hw) as (body & -> & Hb).
  assert (Hlen : (length p < 4 + length body)%nat).
  { pose proof (f_equal length Hq) as Hl. rewrite !length_app, be_bytes_length in Hl.
    destruct q; [|cbn in Hl; lia]. rewrite app_nil_r in Hq. congruence. }
  unfold read_frame, read_exact, FRAME_LEN_PREFIX. cbn [inbound end_of].
  destruct (Nat.leb_spec 4 (length p)) as [H4|H4].
  - assert (Ht : take 4 p = be_bytes 4 (Z.of_nat (length body))).
    { pose proof (f_equal (take 4) Hq) as Ht. rewrite take_app_le in Ht by (by rewrite be_bytes_length).
      rewrite take_app_le in Ht by lia. rewrite take_ge in Ht by (by rewrite be_bytes_length). done. }
    assert (Hmax : (MAX_FRAME_BODY = 65547)%Z) by reflexivity.
    cbn [inbound end_of]. rewrite Ht, be_value_be32 by ulia.
    destruct (Z.eqb_spec (Z.of_nat (length body)) 0); [lia|].
    destruct (Z.ltb_spec MAX_FRAME_BODY (Z.of_nat (length body))); [lia|]. cbn [orb].
    rewrite length_drop. destruct (Nat.leb_spec (Z.to_nat (Z.of_nat (length body))) (length p - 4)); [lia|].
    destruct e; by eexists.
  - destruct e; [|by eexists]. destruct (length p) eqn:Hl; [by destruct p|]. by eexists.
Qed.

(** Whole frames are delivered one by one. *)
Lemma control_task_frames msgs frames fuel tl e meanwhile st :
  Forall2 wire msgs frames ->
  exists ms',
  control_task (length msgs + fuel) (mkRecvStream (concat frames ++ tl) e) meanwhile st =
    match fuel with
    | O => None
    | S f =>
        match read_frame (mkRecvStream tl e) with
        | Ret (Some body, recv) => control_task f recv ms' (control_frame body (deliver_all msgs meanwhile st))
        | Ret (None, _) => Some (deliver_all msgs meanwhile st, StreamClosed)
        | Fail err => Some (deliver_all msgs meanwhile st, StreamFailed err)
        | Panic => None
        end
    end.
Proof.
  intros Hw. revert meanwhile st. induction Hw as [|m frame msgs frames Hm Hw IH]; intros meanwhile st.
  - exists (tail meanwhile). cbn [length Nat.add concat app deliver_all]. by destruct fuel.
  - cbn [length Nat.add concat control_task deliver_all]. rewrite <-app_assoc. fold (meantime meanwhile st).
    destruct (wire_read m frame (concat frames ++ tl) e (meantime meanwhile st) Hm) as (body & -> & ->).
    destruct (IH (tail meanwhile) (deliver m (meantime meanwhile st))) as (ms' & ->). by exists ms'.
Qed.

(** A prefix of a sequence of frames is some whole frames and a part of the
    next one. *)
Lemma prefix_frames (frames : list (list Z)) l : l `prefix_of` concat frames ->
  exists k p, l = concat (take k frames) ++ p /\ (k <= length frames)%nat /\
    (p = [] \/ exists f, frames !! k = Some f /\ p `prefix_of` f /\ p <> [] /\ p <> f).
Proof.
  revert l. induction frames as [|f frames IH]; intros l Hl.
  { apply prefix_nil_inv in Hl as ->. exists 0%nat, []. auto. }
  cbn [concat] in Hl. destruct (Nat.le_gt_cases (length f) (length l)) as [Hle|Hgt].
  - assert (Hf : f `prefix_of` l).
    { destruct Hl as [q Hq]. exists (drop (length f) l). rewrite <-(take_drop (length f) l) at 1. f_equal.
      pose proof (f_equal (take (length f)) Hq) as Ht. rewrite take_app_length, take_app_le in Ht by lia. done. }
    destruct Hf as [r ->]. apply prefix_app_inv in Hl. destruct (IH r Hl) as (k & p & -> & Hk & Hp).
    exists (S k), p. cbn [take concat length]. rewrite app_assoc. split_and!; [done|lia|]. done.
  - exists 0%nat, l. split_and!; [done|lia|]. destruct (decide (l = [])) as [|Hn]; [by left|].
    right. exists f. cbn. split; [done|]. split; [|split; [done|intros ->; lia]].
    destruct Hl as [q Hq]. exists (drop (length l) f). rewrite <-(take_drop (length l) f) at 1. f_equal.
    pose proof (f_equal (take (length l)) Hq) as Ht. rewrite take_app_length, take_app_le in Ht by lia. done.
Qed.

(** No message without bytes. *)
Lemma wire_length msgs frames : Forall2 wire msgs frames -> (length msgs <= length (concat frames))%nat.
Proof.
  induction 1 as [|m f ms fs Hm _ IH]; [done|]. cbn [concat length]. rewrite length_app.
  destruct (wire_form _ _ Hm) as (body & -> & _). rewrite length_app, be_bytes_length. lia.
Qed.

(** All bytes mean all messages. *)
Lemma whole_frames msgs frames k : Forall2 wire msgs frames -> (k <= length frames)%nat ->
  concat (take k frames) = concat frames -> k = length msgs.
Proof.
  intros Hw Hk Hc. pose proof (Forall2_length _ _ _ Hw) as Hlen.
  pose proof (wire_length _ _ (Forall2_drop _ _ _ k Hw)) as Hd. rewrite length_drop in Hd.
  pose proof (concat_app (take k frames) (drop k frames)) as Ha. rewrite take_drop in Ha.
  apply (f_equal length) in Hc, Ha. rewrite length_app in Ha. lia.
Qed.

(** The task on any part of the stream. *)
Lemma control_task_prefix msgs frames l e meanwhile st fuel :
  Forall2 wire msgs frames -> l `prefix_of` concat frames -> (length l < fuel)%nat ->
  exists k r, (k <= length msgs)%nat /\
    control_task fuel (mkRecvStream l e) meanwhile st = Some (deliver_all (take k msgs) meanwhile st, r) /\
    (l = concat frames -> k = length msgs /\ (e = Finished -> r = StreamClosed)).
Proof.
  intros Hw Hl Hfuel. destruct (prefix_frames frames l Hl) as (k & p & Heq & Hk & Hp).
  pose proof (Forall2_length _ _ _ Hw) as Hlen. pose proof (Forall2_take _ _ _ k Hw) as Hwk.
  assert (Hmin : length (take k msgs) = k) by (rewrite length_take; lia).
  pose proof (wire_length _ _ Hwk) as Hcount. pose proof (f_equal length Heq) as Hll. rewrite length_app in Hll.
  destruct (control_task_frames _ _ (fuel - k) p e meanwhile st Hwk) as (ms' & Ht).
  rewrite Hmin in Ht. replace (k + (fuel - k))%nat with fuel in Ht by lia. rewrite <-Heq in Ht.
  destruct (fuel - k)%nat as [|f] eqn:Hf; [lia|]. rewrite Ht. exists k. clear Ht.
  destruct Hp as [->|(g & Hg & Hpre & Hp & Hne)].
  - rewrite app_nil_r in Heq. destruct e; eexists; (split; [lia|split; [done|]]); intros Hall;
      (split; [|done]); apply (whole_frames _ _ _ Hw Hk); congruence.
  - destruct (Forall2_lookup_r _ _ _ _ _ Hw Hg) as (m & _ & Hm).
    destruct (truncated_frame _ _ _ e Hm Hpre Hp Hne) as [err ->]. eexists. split; [lia|]. split; [done|].
    intros Hall. exfalso. rewrite <-(take_drop_middle frames k g Hg) in Hall.
    rewrite Heq, concat_app in Hall. apply app_inv_head in Hall. destruct Hpre as [q ->].
    cbn [concat] in Hall. rewrite <-app_assoc in Hall. rewrite <-(app_nil_r p) in Hall at 1.
    apply app_inv_head in Hall. symmetry in Hall. apply app_eq_nil in Hall as [-> _]. by rewrite app_nil_r in Hne.
Qed.

(** *** What the receivers get *)

Definition pongs (msgs : list ctl_msg) : list Z :=
  omap (fun m => match m with MPong seq => Some seq | _ => None end) msgs.
Definition publications (msgs : list ctl_msg) : list (gset IpAddr) :=
  omap (fun m => match m with MAddrs l => Some (list_to_set l) | _ => None end) msgs.

(** [c'] is [c] after accepting some of [xs], and all of them if there is room. *)
Definition fed {A} (cap : nat) (alive : bool) (c c' : mpsc A) (xs : list A) : Prop :=
  exists ys, ch_sent c' = ch_sent c ++ ys /\ ys `sublist_of` xs /\
    (alive = true -> ch_alive c = true -> (length (ch_queue c) + length xs <= cap)%nat ->
     ys = xs /\ ch_alive c' = true).

Lemma fed_nil {A} cap (c : mpsc A) : fed cap true c c [].
Proof. exists []. rewrite app_nil_r. done. Qed.

Lemma fed_consume {A} cap n b alive (c c' : mpsc A) xs :
  fed cap alive (consume n b c) c' xs -> fed cap (b && alive) c c' xs.
Proof.
  intros (ys & Hs & Hsub & Hall). exists ys. split; [done|]. split; [done|]. intros Hb Ha Hl.
  apply andb_true_iff in Hb as [-> ->]. apply Hall; [done|by cbn; rewrite Ha|].
  unfold ch_queue, consume in *. cbn [ch_sent ch_received]. rewrite length_drop in *. lia.
Qed.

Lemma fed_send {A} cap alive (c c' : mpsc A) x xs :
  fed cap alive (mpsc_try_send cap c x).1 c' xs -> fed cap alive c c' (x :: xs).
Proof.
  unfold mpsc_try_send. destruct (ch_alive c) eqn:Ha; cbn [negb].
  - destruct (Nat.ltb_spec (length (ch_queue c)) cap); cbn [fst]; intros (ys & Hs & Hsub & Hall).
    + exists (x :: ys). cbn [ch_sent] in Hs. rewrite <-app_assoc in Hs. split; [done|].
      split; [by apply sublist_skip|]. intros Hb _ Hl. cbn [ch_alive] in Hall.
      destruct Hall as [-> ?]; [done|done| |done]. unfold ch_queue in *. cbn [ch_sent ch_received].
      rewrite length_drop, length_app in *. cbn [length] in *. lia.
    + exists ys. split; [done|]. split; [by apply sublist_cons|]. intros _ _. cbn [length]. lia.
  - cbn [fst]. intros (ys & Hs & Hsub & _). exists ys. split; [done|]. split; [by apply sublist_cons|].
    intros _. by rewrite Ha.
Qed.

Definition all_alive (meanwhile : list consumers) : bool := forallb both_alive meanwhile.

Lemma deliver_all_fed msgs meanwhile st :
  let st' := deliver_all msgs meanwhile st in
  fed PONG_CHANNEL_SIZE (all_alive meanwhile) (pong_tx st) (pong_tx st') (pongs msgs) /\
  match server_addr_tx st, server_addr_tx st' with
  | Some tx, Some tx' =>
      fed SERVER_ADDR_CHANNEL_SIZE (all_alive meanwhile) tx tx' (publications msgs)
  | None, None => True
  | _, _ => False
  end.
Proof.
  cbn zeta. revert meanwhile st. induction msgs as [|m msgs IH]; intros meanwhile st.
  - cbn [deliver_all pongs publications omap list_omap]. destruct meanwhile as [|t ms]; cbn [meantime].
    + split; [apply fed_nil|]. by destruct (server_addr_tx st); [apply fed_nil|].
    + assert (Hc : forall {A} cap n (c : mpsc A), fed cap (all_alive (t :: ms)) c (consume n (both_alive t) c) []).
      { intros A cap n c. exists []. rewrite app_nil_r. cbn [consume ch_sent ch_alive]. split_and!; [done|done|].
        intros Hb -> _. apply andb_true_iff in Hb as [-> _]. done. }
      cbn [consumed pong_tx server_addr_tx]. split; [apply Hc|].
      by destruct (server_addr_tx st); [apply Hc|].
  - cbn [deliver_all]. specialize (IH (tail meanwhile) (deliver m (meantime meanwhile st))).
    destruct IH as [Hp Ha].
    destruct meanwhile as [|t ms]; cbn [meantime consumed tail all_alive forallb] in *.
    + destruct m as [seq|l]; cbn [deliver consumed pong_tx server_addr_tx] in Hp, Ha |- *.
      * split; [by apply fed_send|done].
      * split; [done|]. destruct (server_addr_tx st); cbn [fmap option_fmap option_map] in Ha |- *; [|done].
        destruct (server_addr_tx (deliver_all _ _ _)); [|done]. by apply fed_send.
    + destruct m as [seq|l]; cbn [deliver consumed pong_tx server_addr_tx] in Hp, Ha |- *.
      * split; [eapply fed_consume; by apply fed_send|]. destruct (server_addr_tx st); cbn [fmap option_fmap option_map] in Ha |- *; [|done].
        destruct (server_addr_tx (deliver_all _ _ _)); [|done]. by eapply fed_consume.
      * split; [by eapply fed_consume|]. destruct (server_addr_tx st); cbn [fmap option_fmap option_map] in Ha |- *; [|done].
        destruct (server_addr_tx (deliver_all _ _ _)); [|done]. eapply fed_consume. by apply fed_send.
Qed.
End Wire.

(** ** From the server's tasks to the client's *)

Section EndToEnd.
Context {Net4 Net6 : Type} `{NetOps V4_BITS Net4} `{NetOps V6_BITS Net6}.
Context `{JsonLaws ServerAddrsMsg}.
Context (overlay_v4 : option Net4) (overlay_v6 : option Net6).

(** The message an event hands to the control writer. *)
Definition publication (ips : list IpAddr) : option ctl_msg :=
  match server_candidate_addrs ips overlay_v4 overlay_v6 with [] => None | l => Some (MAddrs l) end.

Definition offer_of (e : ctl_event) : option ctl_msg :=
  match e with
  | EvPublish (IntervalTick ips | AddrsChanged ips) => publication ips
  | EvFrame body => match classify body with Ret (FPing seq) => Some (MPong seq) | _ => None end
  | _ => None
  end.

Definition offers (es : list ctl_event) : list ctl_msg := omap offer_of es.

(** The endpoint and its watcher are there, and what is offered can be
    encoded. *)
Definition undisturbed (e : ctl_event) : Prop :=
  e <> EvPublish ConnectionClosed /\ e <> EvPublish WatcherEnded /\
  forall m, offer_of e = Some m -> exists f, wire m f.

(** The frames read from the client are bytes. *)
Definition frame_bytes (e : ctl_event) : Prop :=
  match e with EvFrame body => bytes_ok body | _ => True end.

(** Handing over (at most) one message leaves the channel as it is or appends
    the message's frame; it does append it when there is room. *)
Definition chan_moves (c c' : mpsc (list Z)) (o : option ctl_msg) : Prop :=
  ch_received c' = ch_received c /\ ch_alive c' = ch_alive c /\
  (ch_sent c' = ch_sent c \/ exists m f, o = Some m /\ wire m f /\ ch_sent c' = ch_sent c ++ [f]).

Definition chan_takes (c c' : mpsc (list Z)) (o : option ctl_msg) : Prop :=
  ch_alive c = true -> (length (ch_sent c) < CONTROL_CHANNEL_SIZE)%nat ->
  forall m, o = Some m -> (exists f, wire m f) -> exists f, wire m f /\ ch_sent c' = ch_sent c ++ [f].

Lemma chan_moves_refl c o : chan_moves c c o.
Proof. split_and!; [done|done|by left]. Qed.

Lemma try_send_step c m f : wire m f ->
  let c' := (mpsc_try_send CONTROL_CHANNEL_SIZE c f).1 in
  chan_moves c c' (Some m) /\ chan_takes c c' (Some m).
Proof.
  intros Hw. cbn zeta. unfold mpsc_try_send. destruct (ch_alive c) eqn:Ha; cbn [negb].
  - destruct (Nat.ltb_spec (length (ch_queue c)) CONTROL_CHANNEL_SIZE) as [Hl|Hl]; cbn [fst].
    + split; [split_and!; [done|done|right; by exists m, f]|]. intros _ _ m' [= <-] _. by exists f.
    + split; [apply chan_moves_refl|]. intros _ Hs. unfold ch_queue in Hl. rewrite length_drop in Hl. lia.
  - cbn [fst]. split; [apply chan_moves_refl|]. intros Hb. congruence.
Qed.

Lemma publish_step ips c :
  let '(c', ok) := publish_server_addrs overlay_v4 overlay_v6 ips c in
  chan_moves c c' (publication ips) /\ chan_takes c c' (publication ips) /\
  (ch_alive c = true -> ok = true).
Proof.
  unfold publish_server_addrs, publication.
  destruct (server_candidate_addrs ips overlay_v4 overlay_v6) as [|a l].
  { split; [apply chan_moves_refl|]. by split. }
  destruct (encode_server_addrs_frame [] _) as [[buf n]|e|] eqn:He.
  - destruct (try_send_step c (MAddrs (a :: l)) buf (ex_intro _ n He)) as [Hm Ht]. unfold mpsc_try_send in *.
    destruct (ch_alive c); cbn [negb] in *; [|by split_and!].
    destruct (_ <? _)%nat; by split_and!.
  - split; [apply chan_moves_refl|]. split; [|done]. intros _ _ m [= <-] (f & n & Hf). congruence.
  - split; [apply chan_moves_refl|]. split; [|done]. intros _ _ m [= <-] (f & n & Hf). congruence.
Qed.

Lemma publisher_step p ev c :
  let '(p', c') := run_server_addr_publisher overlay_v4 overlay_v6 p ev c in
  let o := offer_of (EvPublish ev) in
  chan_moves c c' o /\
  (p = Publishing true -> undisturbed (EvPublish ev) -> ch_alive c = true -> p' = p /\ chan_takes c c' o).
Proof.
  assert (Hpub : forall ips b, let '(tx, ok) := publish_server_addrs overlay_v4 overlay_v6 ips c in
    chan_moves c tx (publication ips) /\
    (Publishing b = Publishing true -> undisturbed (EvPublish ev) -> ch_alive c = true ->
     (if ok : bool then Publishing b else PublisherEnded) = Publishing b /\ chan_takes c tx (publication ips))).
  { intros ips b. pose proof (publish_step ips c) as Hs. destruct (publish_server_addrs _ _ _ _) as [tx ok].
    destruct Hs as (Hm & Ht & Hok). split; [done|]. intros _ _ Ha. by rewrite (Hok Ha). }
  unfold run_server_addr_publisher. destruct p as [b|]; [|split; [apply chan_moves_refl|done]].
  destruct b, ev as [|ips|ips|];
    try (split; [apply chan_moves_refl|by intros ? (? & ? & _)]); cbn [offer_of].
  - specialize (Hpub ips true). by destruct (publish_server_addrs _ _ _ _).
  - specialize (Hpub ips true). by destruct (publish_server_addrs _ _ _ _).
  - specialize (Hpub ips false). by destruct (publish_server_addrs _ _ _ _).
Qed.

(** A ping read from the client has a 64-bit number. *)
Lemma classify_ping body seq : bytes_ok body -> classify body = Ret (FPing seq) -> is_uint 64 seq.
Proof.
  intros Hb. unfold classify. destruct body as [|t rest]; [done|]. apply Forall_cons in Hb as [_ Hr].
  destruct (from_byte t) as [[]|]; try done; destruct (Nat.eqb_spec (length rest) 8) as [Hl|]; try done.
  intros Hc. apply Ret_inj in Hc. rewrite decide_True in Hc by done. injection Hc as <-.
  pose proof (be_value_bound rest Hr) as Hv. rewrite Hl in Hv. unfold is_uint. lia.
Qed.

Lemma answer_step body c : bytes_ok body ->
  let o := offer_of (EvFrame body) in
  chan_moves c (answer_frame body c) o /\ chan_takes c (answer_frame body c) o.
Proof.
  intros Hb. cbn zeta. unfold answer_frame, offer_of.
  assert (Hno : chan_moves c c None /\ chan_takes c c None) by (by split; [apply chan_moves_refl|]).
  destruct (classify body) as [[j|seq|seq]|e|] eqn:Hc; try done.
  apply try_send_step. split; [by eapply classify_ping|done].
Qed.

Context {W : Type} (write_all : W -> list Z -> W * vres unit) (written : W -> list Z).

(** [SendStream::write_all] writes its argument, or fails after a part of it. *)
Definition stream_laws : Prop :=
  forall w d w' r, write_all w d = (w', r) ->
    exists p, written w' = written w ++ p /\ p `prefix_of` d /\ (r = Ret tt -> p = d).

Context (Hstream : stream_laws).

Abbreviation step := (control_step overlay_v4 overlay_v6 write_all).
Abbreviation run := (control_run overlay_v4 overlay_v6 write_all).

(** The stream carries a prefix of the accepted frames (all that were received,
    while the writer runs), which are those of some of the messages offered (of
    all of them, if nothing disturbs the tasks). *)
Definition control_inv (w0 : W) (es : list ctl_event) (s : Controls) : Prop :=
  let c := c_channel s in
  exists msgs p, Forall2 wire msgs (ch_sent c) /\ msgs `sublist_of` offers es /\
    (ch_received c <= length (ch_sent c))%nat /\
    written (c_stream s) = written w0 ++ p /\ p `prefix_of` concat (ch_sent c) /\
    (c_writing s = true -> p = concat (take (ch_received c) (ch_sent c)) /\ ch_alive c = true) /\
    (Forall undisturbed es -> c_writing s = true -> (length (offers es) <= CONTROL_CHANNEL_SIZE)%nat ->
     msgs = offers es /\ c_publisher s = Publishing true).

Lemma offers_snoc es e : offers (es ++ [e]) = offers es ++ match offer_of e with Some m => [m] | None => [] end.
Proof. unfold offers. rewrite omap_app. cbn. by destruct (offer_of e). Qed.

(** One task's move on the channel keeps the invariant. *)
Lemma control_inv_move w0 es s e p' c' :
  control_inv w0 es s -> chan_moves (c_channel s) c' (offer_of e) ->
  (c_publisher s = Publishing true -> undisturbed e -> ch_alive (c_channel s) = true ->
   p' = c_publisher s /\ chan_takes (c_channel s) c' (offer_of e)) ->
  control_inv w0 (es ++ [e]) (mkControls p' c' (c_stream s) (c_writing s)).
Proof.
  intros (msgs & p & Hw & Hsub & Hr & Hst & Hp & Hwr & Hall) (Hcr & Hca & Hcs) Htake.
  unfold control_inv. cbn [c_channel c_stream c_writing c_publisher]. rewrite offers_snoc, Hcr, Hca.
  assert (Hsame : Forall undisturbed (es ++ [e]) -> c_writing s = true ->
    (length (offers es ++ match offer_of e with Some m => [m] | None => [] end) <= CONTROL_CHANNEL_SIZE)%nat ->
    p' = Publishing true /\ msgs = offers es /\ forall m, offer_of e = Some m -> exists f, wire m f /\ ch_sent c' = ch_sent (c_channel s) ++ [f]).
  { intros [Hes He]%Forall_app Hc Hl. pose proof (proj1 (Forall_singleton _ _) He) as He'. rewrite length_app in Hl.
    destruct (Hall Hes Hc ltac:(lia)) as [-> Hpub]. destruct (Hwr Hc) as [_ Ha].
    destruct (Htake Hpub He' Ha) as [-> Ht]. split; [done|]. split; [done|]. intros m Hm.
    pose proof (Forall2_length _ _ _ Hw) as Hlen. rewrite Hm in Hl. cbn [length] in Hl.
    apply (Ht Ha ltac:(lia) m Hm). destruct He' as (_ & _ & Hf). by apply Hf. }
  destruct Hcs as [Heq|(m & f & Hm & Hmf & Heq)].
  - rewrite Heq. exists msgs, p. split_and!; try done; [by apply sublist_inserts_r|].
    intros Hes Hc Hl. destruct (Hsame Hes Hc Hl) as (-> & -> & Hf). split; [|done].
    destruct (offer_of e) as [m|]; [|by rewrite app_nil_r]. destruct (Hf m eq_refl) as (f & _ & Hf').
    rewrite Heq in Hf'. apply (f_equal length) in Hf'. rewrite length_app in Hf'. cbn in Hf'. lia.
  - rewrite Heq, Hm. exists (msgs ++ [m]), p. split_and!.
    + by apply Forall2_app; [|constructor].
    + by apply sublist_app.
    + rewrite length_app. lia.
    + done.
    + rewrite concat_app. by apply prefix_app_r.
    + intros Hc. destruct (Hwr Hc) as [-> Ha]. by rewrite take_app_le.
    + intros Hes Hc Hl. rewrite Hm in Hsame. by destruct (Hsame Hes Hc Hl) as (-> & -> & _).
Qed.

Lemma control_inv_write w0 es s :
  control_inv w0 es s -> control_inv w0 (es ++ [EvWrite]) (step s EvWrite).
Proof.
  intros (msgs & p & Hw & Hsub & Hr & Hst & Hp & Hwr & Hall). unfold control_inv. rewrite offers_snoc, app_nil_r.
  assert (Hes : Forall undisturbed (es ++ [EvWrite]) -> Forall undisturbed es) by (by intros [? _]%Forall_app).
  cbn [control_step]. destruct (c_writing s) eqn:Hc; [|exists msgs, p; rewrite Hc; by split_and!; auto].
  destruct (ch_queue (c_channel s)) as [|f q] eqn:Hq; [exists msgs, p; rewrite Hc; by split_and!; auto|].
  clear f q Hq. destruct (Hwr eq_refl) as [-> Ha]. assert (Hall' := fun H => Hall (Hes H) eq_refl).
  unfold control_writer, mpsc_recv_many, write_frames. set (batch := take CONTROL_WRITE_BATCH (ch_queue (c_channel s))).
  assert (Hb : take (ch_received (c_channel s) + length batch) (ch_sent (c_channel s))
               = take (ch_received (c_channel s)) (ch_sent (c_channel s)) ++ batch).
  { rewrite <-(take_drop (ch_received (c_channel s)) (ch_sent (c_channel s))) at 1.
    rewrite take_app_add' by (rewrite length_take; lia). f_equal. unfold batch, ch_queue.
    rewrite length_take. destruct (Nat.min_spec CONTROL_WRITE_BATCH (length (drop (ch_received (c_channel s)) (ch_sent (c_channel s))))) as [[? ->]|[? ->]]; [done|].
    by rewrite !take_ge. }
  destruct (write_all (c_stream s) (concat batch)) as [w' r] eqn:Hwa.
  destruct (Hstream _ _ _ _ Hwa) as (p' & Hp1 & Hp2 & Hp3).
  assert (Hpre : concat (take (ch_received (c_channel s)) (ch_sent (c_channel s))) ++ p' `prefix_of` concat (ch_sent (c_channel s))).
  { rewrite <-(take_drop (ch_received (c_channel s) + length batch) (ch_sent (c_channel s))) at 2.
    rewrite Hb, !concat_app, <-app_assoc. apply prefix_app. by apply prefix_app_r. }
  assert (Hlen : (ch_received (c_channel s) + length batch <= length (ch_sent (c_channel s)))%nat).
  { unfold batch, ch_queue. rewrite length_take, length_drop. lia. }
  exists msgs, (concat (take (ch_received (c_channel s)) (ch_sent (c_channel s))) ++ p').
  destruct r as [[]|e|]; cbn [c_channel c_stream c_writing c_publisher ch_sent ch_received ch_alive];
    rewrite Hp1, Hst, app_assoc; split_and!; try done.
  - intros _. by rewrite (Hp3 eq_refl), Hb, concat_app.
  - intros Hu _ Hl. by apply Hall'.
Qed.

Lemma control_run_inv w0 es : Forall frame_bytes es -> control_inv w0 es (run (controls_new w0) es).
Proof.
  induction es as [|e es IH] using rev_ind; intros Hb.
  { exists [], []. cbn. rewrite app_nil_r. split_and!; try done. }
  apply Forall_app in Hb as [Hb He%(proj1 (Forall_singleton _ _))]. specialize (IH Hb).
  unfold control_run in *. rewrite fold_left_app. cbn [fold_left]. set (s := fold_left _ es _) in *.
  destruct e as [ev|body|].
  - cbn [control_step]. pose proof (publisher_step (c_publisher s) ev (c_channel s)) as Hp.
    destruct (run_server_addr_publisher _ _ _ _ _) as [p' c']. destruct Hp as [Hm Ht].
    by apply control_inv_move.
  - cbn [control_step]. destruct (answer_step body (c_channel s) He) as [Hm Ht].
    apply (control_inv_move _ _ _ (EvFrame body)); [done|done|]. intros _ _ _. by split.
  - by apply control_inv_write.
Qed.

(** C29. The control stream end to end.  Whatever the server's publisher,
    heartbeat responder and control writer do, in any order, and wherever the
    stream breaks off, the client's control task ends by itself after a number
    of frames bounded by the bytes and has read exactly a prefix of the
    messages the channel accepted, which are, in order, some of the messages
    offered (pongs for the pings read, candidate address sets).  Of what it
    reads, the heartbeat is handed the pongs and the bypass manager the address
    sets, in order, each at most once and nothing else, and all of them if they
    fit the channel of [PONG_CHANNEL_SIZE] or [SERVER_ADDR_CHANNEL_SIZE] and
    its receiver lives; a full channel drops the rest.  If nothing disturbs
    the server's tasks, the offers fit their channel and the whole stream is
    read, the task reads everything offered, and a stream that is finished
    ends the task as closed. *)
Theorem control_stream_exact w0 es n e meanwhile st fuel :
  written w0 = [] -> Forall frame_bytes es ->
  let s := run (controls_new w0) es in
  let bytes := take n (written (c_stream s)) in
  (length bytes < fuel)%nat ->
  exists msgs k r, msgs `sublist_of` offers es /\ Forall2 wire msgs (ch_sent (c_channel s)) /\
    control_task fuel (mkRecvStream bytes e) meanwhile st = Some (deliver_all (take k msgs) meanwhile st, r) /\
    let st' := deliver_all (take k msgs) meanwhile st in
    fed PONG_CHANNEL_SIZE (all_alive meanwhile) (pong_tx st) (pong_tx st') (pongs (take k msgs)) /\
    match server_addr_tx st, server_addr_tx st' with
    | Some tx, Some tx' =>
        fed SERVER_ADDR_CHANNEL_SIZE (all_alive meanwhile) tx tx' (publications (take k msgs))
    | None, None => True
    | _, _ => False
    end /\
    (Forall undisturbed es -> (length (offers es) <= CONTROL_CHANNEL_SIZE)%nat -> c_writing s = true ->
     ch_queue (c_channel s) = [] -> (length (written (c_stream s)) <= n)%nat ->
     take k msgs = offers es /\ (e = Finished -> r = StreamClosed)).
Proof.
  intros Hw0 Hb s bytes Hf. destruct (control_run_inv w0 es Hb) as (msgs & p & Hw & Hsub & Hr & Hst & Hp & Hwr & Hall).
  fold s in Hw, Hr, Hst, Hp, Hwr, Hall. rewrite Hw0, app_nil_l in Hst. unfold bytes in *. rewrite Hst in *.
  assert (Hpre : take n p `prefix_of` concat (ch_sent (c_channel s))).
  { etransitivity; [|exact Hp]. exists (drop n p). by rewrite take_drop. }
  destruct (control_task_prefix _ _ _ e meanwhile st fuel Hw Hpre Hf) as (k & r & Hk & Ht & Hend).
  exists msgs, k, r. split_and!; [done|done|done| | |].
  - apply deliver_all_fed.
  - pose proof (deliver_all_fed (take k msgs) meanwhile st) as [_ Ha]. exact Ha.
  - intros Hu Hl Hc Hq Hn. rewrite take_ge in Hend by done. destruct (Hall Hu Hc Hl) as [-> _].
    destruct (Hwr Hc) as [-> _]. unfold ch_queue in Hq.
    rewrite <-(app_nil_r (take _ _)), <-Hq, take_drop in Hend. destruct (Hend eq_refl) as [-> Hr'].
    by rewrite firstn_all.
Qed.
End EndToEnd.

(** A server at 203.0.113.1 publishes its address and answers ping 7. *)
Definition sample_addr : IpAddr := V4 3405803777.
Definition sample_published : ServerAddrsMsg := mkServerAddrsMsg [sample_addr].
Definition sample_stream (w d : list Z) : list Z * vres unit := (w ++ d, Ret tt).
Definition sample_controls : list ctl_event :=
  [EvPublish (IntervalTick [sample_addr]); EvFrame (2 :: be_bytes 8 7)%Z; EvWrite].

Lemma sample_stream_laws : stream_laws sample_stream id.
Proof. intros w d w' r [= <- <-]. exists d. done. Qed.

Lemma control_stream_exact_witness :
  let J := one_value_json sample_published [91; 93]%Z in
  let s := control_run (Net4 := CNet V4_BITS) (Net6 := CNet V6_BITS) None None sample_stream
             (controls_new []) sample_controls in
  exists st, control_task 100 (mkRecvStream (take 100 (c_stream s)) Finished) []
               (mkChans mpsc_new (Some mpsc_new)) = Some (st, StreamClosed) /\
    ch_sent (pong_tx st) = [7]%Z /\ (ch_sent <$> server_addr_tx st) = Some [list_to_set [sample_addr]].
Proof.
  intros J s. assert (Hl : @JsonLaws _ J) by (apply one_value_json_laws; repeat constructor; done).
  destruct (control_stream_exact (Net4 := CNet V4_BITS) (Net6 := CNet V6_BITS) None None sample_stream id
    sample_stream_laws [] sample_controls 100 Finished [] (mkChans mpsc_new (Some mpsc_new)) 100)
    as (msgs & k & r & _ & _ & Ht & Hp & Ha & Hend).
  - reflexivity.
  - repeat constructor; done.
  - vm_compute. lia.
  - destruct Hend as [Hm Hr].
    + repeat constructor; try done; intros m [= <-]; [by eexists _, _|].
      eexists. split; [|done]. split; vm_compute; done.
    + vm_compute. lia.
    + reflexivity.
    + reflexivity.
    + vm_compute. lia.
    + exists (deliver_all (take k msgs) [] (mkChans mpsc_new (Some mpsc_new))).
      rewrite (Hr eq_refl) in Ht. split; [exact Ht|]. rewrite Hm in *. split; reflexivity.
Defined.
