(* ===== verification/ClientTasks.v ===== *)
(** * The data tasks of the client's tunnel ([src/tunnel/client.rs])

    The outbound task of [run_tunnel] (TUN device to datagrams), its inbound
    task (datagrams to the TUN writer), and the client's own copy of the
    self-encapsulation test.  Times are in nanoseconds; the results of the
    device's reads and the times at which they are made are inputs; the
    counters are unbounded. *)

From S2P Require Import Prelude Errors Net Checksum Offload Segment Signaling Stream Packet Forward Outbound.

(** ** The self-encapsulation test *)

Definition client_extract_udp_ports (packet : list Z) : vres (option (Z * Z)) :=
  let IPV4_MIN_HEADER_BYTES := 20%nat in
  let IPV6_MIN_HEADER_BYTES := 40%nat in
  if (length packet <? IPV4_MIN_HEADER_BYTES)%nat then Ret None else
  b0 ← idx packet 0;
  if (Z.shiftr b0 4 =? 4)%Z then
    let ihl := (Z.to_nat (Z.land b0 15) * 4)%nat in
    if (ihl <? IPV4_MIN_HEADER_BYTES)%nat || (length packet <? ihl + 8)%nat then Ret None else
    proto ← idx packet 9;
    if negb (proto =? 17)%Z then Ret None else
    s0 ← idx packet ihl; s1 ← idx packet (ihl + 1);
    d0 ← idx packet (ihl + 2); d1 ← idx packet (ihl + 3);
    Ret (Some (be16 s0 s1, be16 d0 d1))
  else if (Z.shiftr b0 4 =? 6)%Z then
    if (length packet <? IPV6_MIN_HEADER_BYTES + 8)%nat then Ret None else
    proto ← idx packet 6;
    if negb (proto =? 17)%Z then Ret None else
    s0 ← idx packet 40; s1 ← idx packet 41;
    d0 ← idx packet 42; d1 ← idx packet 43;
    Ret (Some (be16 s0 s1, be16 d0 d1))
  else Ret None.

Definition client_has_local_iroh_udp_port (packet : list Z) (blocked_ports : gset Z) : vres bool :=
  if decide (blocked_ports = ∅) then Ret false else
  ports ← client_extract_udp_ports packet;
  match ports with
  | None => Ret false
  | Some (src_port, dst_port) =>
      Ret (bool_decide (src_port ∈ blocked_ports) || bool_decide (dst_port ∈ blocked_ports))
  end.

(** ** Outbound *)

Definition DATAGRAM_SEND_BATCH : nat := 64.
Definition TUN_DRAIN_SPIN : Z := 100000.
Definition TUN_DRAIN_BATCH_MAX : Z := 1000000.
Definition TUN_SPIN_MIN_RATE : Z := 10 * 1024 * 1024.
Definition TUN_SPIN_RATE_WINDOW : Z := 20000000.

Inductive tun_result : Type :=
| TunFrame (frame : list Z)
| TunError (e : string).

(** A batch of the loop: the blocking read, the datagram size at that time, the
    start of the batch, the further reads (the time at which each is tried and
    what it gives within a budget; afterwards nothing is ready), and the times
    of the two clock readings at the end of the batch. *)
Record Burst : Type := mkBurst {
  bu_first : tun_result;
  bu_max_size : option nat;
  bu_start : Z;
  bu_polls : list (Z * (Z -> option tun_result));
  bu_end : Z;
  bu_restart : Z;
}.

Section OutboundTask.
Context {C : Type}.
Context (try_send_many_datagrams : C -> list (list Z) -> C * (nat + SendDatagramError)).
Context (send_datagram_wait : C -> list Z -> C * (unit + SendDatagramError)).
Context (PACKET_INFORMATION_LENGTH : nat).
Context (reader : TunReader) (ports : gset Z).

(** One frame. *)
Definition outbound_frame (max_size : option nat) (raw : list Z) (s : prep_state) : outcome unit prep_state :=
  match split_frame PACKET_INFORMATION_LENGTH reader raw with
  | Ret (offload, packet) =>
      match client_has_local_iroh_udp_port packet ports with
      | Ret true => Ret s
      | Ret false => prepare_ip_datagrams max_size offload packet s
      | _ => Panic
      end
  | Fail _ => Ret s
  | Panic => Panic
  end.

(** The time a poll of the device may take. *)
Definition poll_budget (spin batch_start now : Z) : Z :=
  Z.min spin (Z.max 0 (TUN_DRAIN_BATCH_MAX - (now - batch_start))).

(** The inner loop, entered with [reads] frames read before [raw]; a read
    error is returned with the state. *)
Fixpoint drain_tun (spin batch_start : Z) (max_size : option nat) (reads : nat) (raw : list Z)
    (polls : list (Z * (Z -> option tun_result))) (window_bytes : Z) (s : prep_state)
  : outcome unit (prep_state * Z * option string) :=
  let window_bytes := (window_bytes + Z.of_nat (length raw))%Z in
  s ← outbound_frame max_size raw s;
  if (DATAGRAM_SEND_BATCH <=? S reads)%nat then Ret (s, window_bytes, None) else
  match polls with
  | [] => Ret (s, window_bytes, None)
  | (now, try_read_buf_within) :: polls =>
      match try_read_buf_within (poll_budget spin batch_start now) with
      | None => Ret (s, window_bytes, None)
      | Some (TunFrame []) => Ret (s, window_bytes, None)
      | Some (TunFrame raw) =>
          drain_tun spin batch_start max_size (S reads) raw polls window_bytes s
      | Some (TunError e) => Ret (s, window_bytes, Some e)
      end
  end.

(** The task's variables. *)
Record OutboundState : Type := mkOutState {
  out_conn : C;
  out_arena : list Z;
  out_dropped_too_large : Z;
  out_warned : bool;
  window_start : Z;
  window_bytes : Z;
  out_spin : Z;
}.

(** The byte-rate gate at the end of a batch. *)
Definition rate_gate (b : Burst) (st : OutboundState) : Z * Z * Z :=
  let elapsed := (bu_end b - window_start st)%Z in
  if (TUN_SPIN_RATE_WINDOW <=? elapsed)%Z then
    let rate := (window_bytes st * 1000 / Z.max (elapsed / 1000000) 1)%Z in
    (bu_restart b, 0%Z, if (TUN_SPIN_MIN_RATE <=? rate)%Z then TUN_DRAIN_SPIN else 0%Z)
  else (window_start st, window_bytes st, out_spin st).

(** One batch with a frame [raw] read: its error, if a read failed. *)
Definition outbound_batch (b : Burst) (raw : list Z) (st : OutboundState)
  : outcome unit (OutboundState * option string) :=
  r ← drain_tun (out_spin st) (bu_start b) (bu_max_size b) 0 raw (bu_polls b) (window_bytes st)
        (mkPrep (out_arena st) [] outcome_zero);
  let '(s, bytes, err) := r in
  match err with
  | Some e =>
      Ret (mkOutState (out_conn st) (arena s) (out_dropped_too_large st) (out_warned st)
             (window_start st) bytes (out_spin st), Some e)
  | None =>
      sent ← match pending s with
             | [] => Ret (out_conn st, counts s)
             | pending =>
                 r ← send_datagram_batch try_send_many_datagrams send_datagram_wait
                       (out_conn st) pending (counts s);
                 Ret (r.1.1, r.1.2)
             end;
      let '(conn, oc) := sent in
      let '(start, bytes, spin) :=
        rate_gate b (mkOutState conn (arena s) 0 false (window_start st) bytes (out_spin st)) in
      let dropped := (0 <? dropped_too_large oc)%Z in
      Ret (mkOutState conn (arena s)
             (if dropped then out_dropped_too_large st + dropped_too_large oc else out_dropped_too_large st)%Z
             (out_warned st || dropped) start bytes spin, None)
  end.

(** The task: its state, and the read error that ends it. *)
Fixpoint outbound_task (bursts : list Burst) (st : OutboundState)
  : outcome unit (OutboundState * option string) :=
  match bursts with
  | [] => Ret (st, None)
  | b :: bursts =>
      match bu_first b with
      | TunError e => Ret (st, Some e)
      | TunFrame [] => outbound_task bursts st
      | TunFrame raw =>
          r ← outbound_batch b raw st;
          match r with
          | (st, Some e) => Ret (st, Some e)
          | (st, None) => outbound_task bursts st
          end
      end
  end.
End OutboundTask.
Arguments OutboundState : clear implicits.

(** ** Inbound *)

Section InboundTask.
Context {C : Type} (try_send : C -> TunWriteRequest -> C * try_result)
  (send : C -> TunWriteRequest -> C * bool).

Definition enqueue_inbound_tun_write (tx : C) (req : TunWriteRequest) : C * bool :=
  match try_send tx req with
  | (tx, TryOk) => (tx, true)
  | (tx, TryFull) => send tx req
  | (tx, TryClosed) => (tx, false)
  end.

Fixpoint enqueue_all (tx : C) (datagrams : list (list Z)) : C * bool :=
  match datagrams with
  | [] => (tx, true)
  | packet :: datagrams =>
      match enqueue_inbound_tun_write tx (mkReq packet None) with
      | (tx, true) => enqueue_all tx datagrams
      | (tx, false) => (tx, false)
      end
  end.

(** How the task ended: the writer's channel is closed, or the read failed. *)
Inductive inbound_end : Type := WriterGone | DatagramReadEnded (e : string).

Fixpoint inbound_task (tx : C) (reads : list (list (list Z) + string)) : C * option inbound_end :=
  match reads with
  | [] => (tx, None)
  | inr e :: _ => (tx, Some (DatagramReadEnded e))
  | inl datagrams :: reads =>
      match enqueue_all tx datagrams with
      | (tx, true) => inbound_task tx reads
      | (tx, false) => (tx, Some WriterGone)
      end
  end.
End InboundTask.

(** ** Properties *)

(** The client's test is the server's. *)
Lemma client_ports_agree packet : client_extract_udp_ports packet = extract_udp_ports packet.
Proof. reflexivity. Qed.

Lemma client_filter_ok packet ports :
  client_has_local_iroh_udp_port packet ports = Ret (self_encapsulated ports packet).
Proof. exact (packet_filter_ok packet ports). Qed.

Section OutboundProofs.
Context {C : Type}.
Context (try_many : C -> list (list Z) -> C * (nat + SendDatagramError)).
Context (wait_one : C -> list Z -> C * (unit + SendDatagramError)).
Context (PACKET_INFORMATION_LENGTH : nat).
Context (reader : TunReader) (ports : gset Z).

(** The packets a frame read from the device stands for, and whether there is
    one more that cannot be segmented. *)
Definition frame_packets (raw : list Z) : list (list Z) * nat :=
  match split_frame PACKET_INFORMATION_LENGTH reader raw with
  | Ret (offload, packet) =>
      if self_encapsulated ports packet then ([], 0%nat) else
      match offload with
      | Some h => let '(segs, r) := materialize_offload_into collect h packet [] in
                  (segs, if is_ret r then 0%nat else 1%nat)
      | None => ([packet], 0%nat)
      end
  | _ => ([], 0%nat)
  end.

Definition packet_count (frames : list (list Z)) : nat :=
  sum_list_with (fun raw => length (frame_packets raw).1 + (frame_packets raw).2)%nat frames.

Definition offered (max_size : option nat) (frames : list (list Z)) : list (list Z) :=
  frames ≫= fun raw => filter (fits max_size) (frame_packets raw).1.

(** [s'] is [s] after preparing [frames]. *)
Definition prepared (max_size : option nat) (s s' : prep_state) (frames : list (list Z)) : Prop :=
  arena s' = [] /\ pending s' = pending s ++ offered max_size frames /\
  sent (counts s') = sent (counts s) /\
  (accounted (counts s') + Z.of_nat (length (pending s')) =
   accounted (counts s) + Z.of_nat (length (pending s)) + Z.of_nat (packet_count frames))%Z.

Lemma prepared_app max_size s s1 s2 f1 f2 :
  prepared max_size s s1 f1 -> prepared max_size s1 s2 f2 -> prepared max_size s s2 (f1 ++ f2).
Proof.
  intros (_ & Hp1 & Hs1 & Ha1) (Hr2 & Hp2 & Hs2 & Ha2). unfold prepared, offered, packet_count in *.
  rewrite bind_app, sum_list_with_app, Hp2, Hp1, app_assoc in *. split_and!; try done; [congruence|].
  rewrite !length_app in *. lia.
Qed.

Lemma accounted_drops max_size n : accounted (drops max_size n) = Z.of_nat n.
Proof. unfold accounted, drops. destruct max_size; cbn; lia. Qed.

Lemma sent_drops max_size n : sent (drops max_size n) = 0%Z.
Proof. by destruct max_size. Qed.

Lemma accounted_other n : accounted (mkOutcome 0 0 n) = n.
Proof. done. Qed.

Lemma sent_add a b : sent (outcome_add a b) = (sent a + sent b)%Z.
Proof. reflexivity. Qed.

Lemma outbound_frame_spec max_size raw s : arena s = [] ->
  exists s', outbound_frame PACKET_INFORMATION_LENGTH reader ports max_size raw s = Ret s' /\
    prepared max_size s s' [raw].
Proof.
  intros Ha. unfold outbound_frame, prepared, offered, packet_count, frame_packets.
  cbn [mbind list_bind sum_list_with]. rewrite app_nil_r, Nat.add_0_r.
  assert (Hkeep : prepared max_size s s []) by (unfold prepared; cbn; rewrite app_nil_r; split_and!; [done..|lia]).
  destruct (split_frame _ reader raw) as [[offload packet]|e|] eqn:Hsp.
  - rewrite client_filter_ok. destruct (self_encapsulated ports packet); [by exists s|].
    pose proof (prepare_exact max_size offload packet s Ha) as Hp.
    destruct offload as [h|]; [destruct (materialize_offload_into collect h packet []) as [segs r]|];
      destruct Hp as [_ ->]; eexists; (split; [done|]); cbn [arena pending counts fst snd];
      rewrite !accounted_add, accounted_drops, accounted_other, !length_app;
      (split_and!; [done|done|rewrite !sent_add, sent_drops; cbn [sent]; lia|]);
      pose proof (length_filter (fits max_size)) as Hf.
    + specialize (Hf segs). destruct (is_ret r); lia.
    + specialize (Hf [packet]). cbn [is_ret]. lia.
  - by exists s.
  - by destruct (split_frame_not_panic _ _ _ Hsp).
Qed.

(** The frames of the inner loop after the first, and its error, when the
    polls are granted the times of [budgets]. *)
Fixpoint gather (budgets : list Z) (reads : nat) (polls : list (Z * (Z -> option tun_result)))
  : list (list Z) * option string :=
  if (DATAGRAM_SEND_BATCH <=? S reads)%nat then ([], None) else
  match polls, budgets with
  | (_, poll) :: polls, budget :: budgets =>
      match poll budget with
      | None | Some (TunFrame []) => ([], None)
      | Some (TunFrame raw) => let '(fs, e) := gather budgets (S reads) polls in (raw :: fs, e)
      | Some (TunError e) => ([], Some e)
      end
  | _, _ => ([], None)
  end.

Lemma gather_bound budgets reads polls :
  (reads < DATAGRAM_SEND_BATCH)%nat ->
  (S (reads + length (gather budgets reads polls).1) <= DATAGRAM_SEND_BATCH)%nat.
Proof.
  revert budgets reads. induction polls as [|[now poll] polls IH]; intros [|budget budgets] reads Hr; cbn [gather];
    (destruct (Nat.leb_spec DATAGRAM_SEND_BATCH (S reads)); [cbn; lia|]); try (cbn; lia).
  destruct (poll _) as [[[|x raw]|e]|]; cbn [fst length]; try lia.
  specialize (IH budgets (S reads) ltac:(lia)). destruct (gather budgets (S reads) polls). cbn [fst length] in *. lia.
Qed.

(** The time granted to a poll made at [now] in a batch begun at [start]: as
    much of [spin] as there is until the batch is [TUN_DRAIN_BATCH_MAX] old,
    and none afterwards. *)
Definition budget_ok (spin start now budget : Z) : Prop :=
  (0 <= budget <= spin)%Z /\
  (now + budget <= Z.max now (start + TUN_DRAIN_BATCH_MAX))%Z /\
  (budget = spin \/ start + TUN_DRAIN_BATCH_MAX <= now + budget)%Z.

Definition spin_ok (spin : Z) : Prop := spin = 0%Z \/ spin = TUN_DRAIN_SPIN.

(** The times granted in a batch. *)
Definition budgets_ok (b : Burst) (budgets : list Z) : Prop :=
  exists spin, spin_ok spin /\
    Forall2 (fun poll budget => budget_ok spin (bu_start b) poll.1 budget) (bu_polls b) budgets.

Definition granted (spin start : Z) (polls : list (Z * (Z -> option tun_result))) : list Z :=
  map (fun poll => poll_budget spin start poll.1) polls.

Lemma granted_ok spin b : spin_ok spin -> budgets_ok b (granted spin (bu_start b) (bu_polls b)).
Proof.
  intros Hs. exists spin. split; [done|].
  assert (H0 : (0 <= spin)%Z) by (destruct Hs as [-> | ->]; unfold TUN_DRAIN_SPIN; lia).
  unfold granted. induction (bu_polls b) as [|[now poll] polls IH]; cbn [map]; constructor; [|exact IH].
  unfold budget_ok, poll_budget. cbn [fst]. lia.
Qed.

Definition bytes_of (frames : list (list Z)) : Z := Z.of_nat (length (concat frames)).

Lemma drain_spec spin start max_size reads raw polls wb s : arena s = [] ->
  let '(fs, e) := gather (granted spin start polls) reads polls in
  exists s', drain_tun PACKET_INFORMATION_LENGTH reader ports spin start max_size reads raw polls wb s
             = Ret (s', wb + bytes_of (raw :: fs), e)%Z /\ prepared max_size s s' (raw :: fs).
Proof.
  revert reads raw wb s. induction polls as [|[now poll] polls IH]; intros reads raw wb s Ha; cbn [granted map gather drain_tun fst];
    destruct (outbound_frame_spec max_size raw s Ha) as (s1 & -> & Hp1); cbn [mbind outcome_bind];
    assert (Hone : bytes_of [raw] = Z.of_nat (length raw)) by (unfold bytes_of; cbn [concat]; by rewrite app_nil_r);
    (destruct (Nat.leb_spec DATAGRAM_SEND_BATCH (S reads)) as [|_]; [exists s1; by rewrite Hone|]).
  { exists s1. by rewrite Hone. }
  destruct (poll _) as [[[|x raw']|e]|]; try (exists s1; by rewrite Hone).
  specialize (IH (S reads) (x :: raw') (wb + Z.of_nat (length raw))%Z s1 ltac:(apply Hp1)).
  fold (granted spin start polls).
  destruct (gather (granted spin start polls) (S reads) polls) as [fs e]. destruct IH as (s2 & -> & Hp2). exists s2.
  split; [|by apply (prepared_app _ s s1 s2 [raw])]. f_equal. f_equal. f_equal.
  unfold bytes_of. cbn [concat]. rewrite !length_app. lia.
Qed.

(** What a batch reads. *)
Definition burst_reads (budgets : list Z) (b : Burst) : list (list Z) * option string :=
  match bu_first b with
  | TunError e => ([], Some e)
  | TunFrame [] => ([], None)
  | TunFrame raw => let '(fs, e) := gather budgets 0 (bu_polls b) in (raw :: fs, e)
  end.

(** A completed batch: the times its polls were granted, the datagrams the
    connection accepted, and the account of the batch. *)
Definition burst_done (b : Burst) (x : list Z * list (list Z) * DatagramSendOutcome) : Prop :=
  let '(budgets, acc, oc) := x in
  let '(frames, e) := burst_reads budgets b in
  budgets_ok b budgets /\ e = None /\ (length frames <= DATAGRAM_SEND_BATCH)%nat /\
  acc `sublist_of` offered (bu_max_size b) frames /\ sent oc = Z.of_nat (length acc) /\
  accounted oc = Z.of_nat (packet_count frames).

Context (queued : C -> list (list Z)) (Hlaws : conn_laws try_many wait_one queued).

Abbreviation batch := (outbound_batch try_many wait_one PACKET_INFORMATION_LENGTH reader ports).
Abbreviation task := (outbound_task try_many wait_one PACKET_INFORMATION_LENGTH reader ports).

Lemma rate_gate_spin b (st : OutboundState C) : spin_ok (out_spin st) -> spin_ok (rate_gate b st).2.
Proof.
  intros Hs. unfold rate_gate. destruct (_ <=? _)%Z; [|done]. cbn [snd]. unfold spin_ok.
  destruct (_ <=? _)%Z; auto.
Qed.

Lemma send_pending c s :
  exists c' oc, match pending s with
                | [] => Ret (c, counts s)
                | pending => r ← send_datagram_batch try_many wait_one c pending (counts s); Ret (r.1.1, r.1.2)
                end = Ret (c', oc) /\
    exists acc, queued c' = queued c ++ acc /\ acc `sublist_of` pending s /\
      sent oc = (sent (counts s) + Z.of_nat (length acc))%Z /\
      accounted oc = (accounted (counts s) + Z.of_nat (length (pending s)))%Z.
Proof.
  destruct (pending s) as [|p ps] eqn:Hp.
  - eexists _, _. split; [done|]. exists []. rewrite app_nil_r. split_and!; [done|done|cbn; lia..].
  - unfold send_datagram_batch. destruct (send_loop_spec _ _ queued Hlaws (length (p :: ps)) c (p :: ps) (counts s))
      as ([[c' oc] res] & -> & (acc & Hq & Hsub & Hsent) & Hacc & _); [lia|].
    cbn [mbind outcome_bind fst snd]. eexists _, _. split; [done|]. by exists acc.
Qed.

Lemma outbound_batch_spec b raw st : bu_first b = TunFrame raw -> raw <> [] ->
  out_arena st = [] -> spin_ok (out_spin st) ->
  exists st' r, batch b raw st = Ret (st', r) /\ out_arena st' = [] /\ spin_ok (out_spin st') /\
    match r with
    | Some e => (burst_reads (granted (out_spin st) (bu_start b) (bu_polls b)) b).2 = Some e /\ out_conn st' = out_conn st
    | None => exists acc oc, burst_done b (granted (out_spin st) (bu_start b) (bu_polls b), acc, oc) /\
                queued (out_conn st') = queued (out_conn st) ++ acc
    end.
Proof.
  intros Hb Hraw Ha Hs. unfold outbound_batch, burst_done, burst_reads. rewrite Hb.
  destruct raw as [|x raw]; [done|].
  pose proof (drain_spec (out_spin st) (bu_start b) (bu_max_size b) 0 (x :: raw) (bu_polls b) (window_bytes st)
    (mkPrep (out_arena st) [] outcome_zero) Ha) as Hd.
  pose proof (gather_bound (granted (out_spin st) (bu_start b) (bu_polls b)) 0 (bu_polls b) ltac:(unfold DATAGRAM_SEND_BATCH; lia)) as Hg.
  destruct (gather _ _ _) as [fs e]. destruct Hd as (s & -> & Har & Hp & Hsent & Hacc).
  cbn [mbind outcome_bind fst snd pending counts app] in *. destruct e as [e|]; [by eexists _, _|].
  destruct (send_pending (out_conn st) s) as (c' & oc & -> & acc & Hq & Hsub & Ho & Hoc).
  cbn [mbind outcome_bind].
  pose proof (rate_gate_spin b (mkOutState c' (arena s) 0 false (window_start st)
    (window_bytes st + bytes_of ((x :: raw) :: fs)) (out_spin st)) Hs) as Hr.
  destruct (rate_gate _ _) as [[ws wb] spin]. eexists _, _. split; [done|]. cbn [out_arena out_spin out_conn].
  split; [done|]. split; [exact Hr|]. exists acc, oc. split; [|done]. rewrite <-Hp.
  split_and!; try done; [by apply granted_ok|by rewrite Ho, Hsent|]. rewrite Hoc.
  change (accounted outcome_zero) with 0%Z in Hacc. cbn [length] in Hacc. lia.
Qed.

(** Batch by batch. *)
Lemma outbound_task_spec bursts st :
  out_arena st = [] -> spin_ok (out_spin st) ->
  exists st' r completed rest runs,
    task bursts st = Ret (st', r) /\ bursts = completed ++ rest /\ Forall2 burst_done completed runs /\
    queued (out_conn st') = queued (out_conn st) ++ concat (map (fun x => x.1.2) runs) /\
    match r with
    | None => rest = []
    | Some e => exists b rest' budgets, rest = b :: rest' /\ budgets_ok b budgets /\ (burst_reads budgets b).2 = Some e
    end.
Proof.
  revert st. induction bursts as [|b bursts IH]; intros st Ha Hs; cbn [outbound_task].
  { exists st, None, [], [], []. cbn. by rewrite app_nil_r. }
  destruct (bu_first b) as [raw|e] eqn:Hb.
  - destruct (decide (raw = [])) as [->|Hraw].
    + destruct (IH st Ha Hs) as (st' & r & done_ & rest & runs & Ht & -> & Hf & Hq & Hr).
      exists st', r, (b :: done_), rest, ((granted 0 (bu_start b) (bu_polls b), [], outcome_zero) :: runs). split_and!; try done.
      constructor; [|done]. unfold burst_done, burst_reads. rewrite Hb. split_and!; try done; [apply granted_ok; by left|cbn; lia].
    + destruct (outbound_batch_spec b raw st Hb Hraw Ha Hs) as (st1 & r1 & Hbatch & Ha1 & Hs1 & Hr1).
      destruct raw as [|x raw]; [done|]. rewrite Hbatch. cbn [mbind outcome_bind]. destruct r1 as [e|].
      * destruct Hr1 as [He Hc]. exists st1, (Some e), [], (b :: bursts), []. cbn [map concat app].
        rewrite app_nil_r, Hc. split_and!; try done. exists b, bursts, (granted (out_spin st) (bu_start b) (bu_polls b)). split_and!; [done|by apply granted_ok|done].
      * destruct Hr1 as (acc & oc & Hd & Hq1).
        destruct (IH st1 Ha1 Hs1) as (st' & r & done_ & rest & runs & Ht & -> & Hf & Hq & Hr).
        exists st', r, (b :: done_), rest, ((granted (out_spin st) (bu_start b) (bu_polls b), acc, oc) :: runs). split_and!; try done; [by constructor|].
        cbn [map concat fst snd]. by rewrite Hq, Hq1, app_assoc.
  - exists st, (Some e), [], (b :: bursts), []. cbn [map concat app]. rewrite app_nil_r. split_and!; try done.
    exists b, bursts, (granted 0 (bu_start b) (bu_polls b)). unfold burst_reads. rewrite Hb.
    split_and!; [done|apply granted_ok; by left|done].
Qed.
End OutboundProofs.

Section InboundProofs.
Context {C : Type} (try_send : C -> TunWriteRequest -> C * try_result)
  (send : C -> TunWriteRequest -> C * bool).
Context (accepted : C -> list TunWriteRequest) (Hlaws : tx_laws try_send send accepted).

Definition raw_request (packet : list Z) : TunWriteRequest := mkReq packet None.

Lemma enqueue_all_spec tx l :
  let '(tx', go) := enqueue_all try_send send tx l in
  exists head tail, l = head ++ tail /\ accepted tx' = accepted tx ++ map raw_request head /\
    (go = true -> tail = []).
Proof.
  revert tx. induction l as [|p l IH]; intros tx; cbn [enqueue_all].
  { exists [], []. cbn. by rewrite app_nil_r. }
  unfold enqueue_inbound_tun_write. destruct (try_send tx (mkReq p None)) as [tx1 o] eqn:Ht.
  pose proof (tx_try _ _ _ Hlaws _ _ _ _ Ht) as H1.
  assert (Hgo : forall tx2, accepted tx2 = accepted tx ++ [mkReq p None] ->
    let '(tx', go) := enqueue_all try_send send tx2 l in
    exists head tail, p :: l = head ++ tail /\ accepted tx' = accepted tx ++ map raw_request head /\
      (go = true -> tail = [])).
  { intros tx2 H2. specialize (IH tx2). destruct (enqueue_all _ _ tx2 l) as [tx' go].
    destruct IH as (head & tail & -> & Hacc & Htl). exists (p :: head), tail. split; [done|]. split; [|done].
    rewrite Hacc, H2, <-app_assoc. done. }
  assert (Hstop : forall tx2, accepted tx2 = accepted tx ->
    exists head tail, p :: l = head ++ tail /\ accepted tx2 = accepted tx ++ map raw_request head /\
      (false = true -> tail = [])).
  { intros tx2 H2. exists [], (p :: l). cbn. by rewrite app_nil_r. }
  destruct o; [by apply Hgo| |rewrite app_nil_r in H1; by apply Hstop].
  destruct (send tx1 (mkReq p None)) as [tx2 ok] eqn:Hs. pose proof (tx_send _ _ _ Hlaws _ _ _ _ Hs) as H2.
  rewrite app_nil_r in H1. rewrite H1 in H2. destruct ok; [by apply Hgo|rewrite app_nil_r in H2; by apply Hstop].
Qed.

(** The inbound task hands the TUN writer the received datagrams, in order,
    without offload metadata, all of them unless the writer is gone. *)
Lemma inbound_task_spec tx reads :
  let '(tx', r) := inbound_task try_send send tx reads in
  exists head tail, omap (fun x => match x with inl l => Some l | inr _ => None end) reads ≫= id = head ++ tail /\
    accepted tx' = accepted tx ++ map raw_request head /\
    match r with
    | None => tail = [] /\ Forall (fun x => exists l, x = inl l) reads
    | Some (DatagramReadEnded e) => inr e ∈ reads
    | Some WriterGone => True
    end.
Proof.
  revert tx. induction reads as [|[l|e] reads IH]; intros tx; cbn [inbound_task].
  - exists [], []. cbn. by rewrite app_nil_r.
  - pose proof (enqueue_all_spec tx l) as He. destruct (enqueue_all try_send send tx l) as [tx1 go].
    destruct He as (head & tail & -> & Hacc & Hgo). cbn [omap list_omap mbind list_bind id]. destruct go.
    + rewrite (Hgo eq_refl), app_nil_r in *. specialize (IH tx1).
      destruct (inbound_task try_send send tx1 reads) as [tx' r]. destruct IH as (h2 & t2 & Hsplit & Hacc2 & Hr).
      exists (head ++ h2), t2. split; [by rewrite Hsplit, app_assoc|].
      split; [by rewrite Hacc2, Hacc, map_app, app_assoc|]. destruct r as [[|e]|]; [done|by right|].
      destruct Hr as [-> Hf]. split; [done|]. constructor; [by eexists|done].
    + exists head, (tail ++ (omap (fun x => match x with inl l => Some l | inr _ => None end) reads ≫= id)).
      by rewrite app_assoc.
  - exists [], (omap (fun x => match x with inl l => Some l | inr _ => None end) reads ≫= id).
    cbn [omap list_omap map]. rewrite app_nil_r. split_and!; [done|done|by left].
Qed.
End InboundProofs.

(** A device with two frames ready and a third 50 µs before the batch is too
    old, which a poll of that length gets; a fourth would need another wait.
    Then it is closed. *)
Definition sample_bursts : list Burst :=
  [mkBurst (TunFrame [1; 2; 3]%Z) (Some 3%nat) 0 
     [(0%Z, fun _ => Some (TunFrame [4; 5]%Z));
      (950000%Z, fun budget => if (50000 <=? budget)%Z then Some (TunFrame [6]%Z) else None);
      (1000000%Z, fun budget => if (0 <? budget)%Z then Some (TunFrame [7]%Z) else None)] 0 0;
   mkBurst (TunError "closed") (Some 3%nat) 0 [] 0 0].

Definition sample_outbound : OutboundState (list (list Z)) := mkOutState [] [] 0 false 0 0 TUN_DRAIN_SPIN.

