(* ===== verification/ServerRun.v ===== *)
(** * The running server ([src/tunnel/server.rs])

    What [VpnServer::run] does around the connection tasks: the TUN device of
    the server ([setup_tun]), the status it publishes ([status_snapshot]) over
    the shared state of the connection tasks, and the datagram writer task of
    each client. *)

From S2P Require Import Prelude Text Errors Net Config Offload IpPool Ip6Pool Sessions Stream Forward.
From S2P Require Import DeviceRoutes Device Status.

#[local] Open Scope string_scope.

Section ServerRun.
Context {EndpointId : Type} `{Countable EndpointId}.
Context {Net4 Net6 : Type} `{NetOps V4_BITS Net4} `{NetOps V6_BITS Net6}.

Abbreviation Server := (VpnServer (EndpointId * Z) (IpPool EndpointId Net4) (Ip6Pool EndpointId Net6)).

(** ** [setup_tun] *)

Definition server_tun_config (s : Server) : vres TunConfig :=
  let v4 := (fun p => (pool_server_ip p, netmask4 (net_prefix_len (pool_network p)))) <$> ip_pool s in
  let v6 := (fun p => (server_ip6 p, net_prefix_len (network6 p))) <$> ip6_pool s in
  match v4, v6 with
  | Some (ip4, mask), Some (ip6, pl6) => with_ipv6 ip6 pl6 (with_mtu VPN_MTU (TunConfig_new ip4 mask ip4))
  | Some (ip4, mask), None => Ret (with_mtu VPN_MTU (TunConfig_new ip4 mask ip4))
  | None, Some (ip6, pl6) => ipv6_only ip6 pl6 VPN_MTU
  | None, None => Fail (VpnError_config (msg "No network configured (need at least IPv4 or IPv6)"))
  end.

Definition setup_tun {W} `{System W} `{TunApi W} (with_netmask : Z -> Z -> option Net4) (os : Os) (w : W)
    (s : Server) : W * vres TunDevice :=
  match server_tun_config s with
  | Ret tun_config => TunDevice_create with_netmask os w tun_config
  | Fail e => (w, Fail e)
  | Panic => (w, Panic)
  end.

(** ** [status_snapshot] *)

Context (show_id : EndpointId -> string) (show_ip : IpAddr -> string).
Context (show_net4 : Net4 -> string) (show_net6 : Net6 -> string).

(** The entry of a client; [paths] are those of its connection. *)
Definition client_entry (paths : list Path) (k : EndpointId * Z) (state : ClientState) : ClientEntry :=
  mkClientEntry (show_id k.1) (hex16 k.2) (session_id state)
    (show_ip <$> (V4 <$> st_assigned_ip state)) (show_ip <$> (V6 <$> st_assigned_ip6 state))
    (Some (format_connection_paths paths)).

Definition stats_view (s : VpnServerStats) : ServerStatsView :=
  mkStatsView (tun_packets_read s) (packets_to_clients s) (packets_no_route s) (packets_unknown_version s)
    (packets_dropped_full s) (packets_from_clients s) (packets_tun_write_failed s) (packets_spoofed s)
    (packets_inter_client_blocked s).

Definition server_mode (config : VpnServerConfig (Net4:=Net4) (Net6:=Net6)) : string :=
  match cfg_network config, cfg_network6 config with
  | None, _ => "ipv6"
  | Some _, Some _ => "dual-stack"
  | Some _, None => "ipv4"
  end.

Definition status_snapshot (config : VpnServerConfig (Net4:=Net4) (Net6:=Net6)) (s : Server)
    (stats : VpnServerStats) (paths : EndpointId * Z -> list Path) (node_id : string) (uptime_secs : Z)
    (bypass_addrs : list string) : ServerStatus :=
  let entries := (fun kv => client_entry (paths kv.1) kv.1 kv.2) <$> map_to_list (clients s) in
  let connected_clients := length entries in
  mkServerStatus node_id uptime_secs (server_mode config)
    (show_net4 <$> cfg_network config) (show_net6 <$> cfg_network6 config)
    connected_clients (active_connections s) entries (stats_view stats) bypass_addrs.
End ServerRun.

(** ** A client's datagram writer *)

Definition DATAGRAM_WRITE_BATCH : nat := 256.

Definition add_to_clients (n : Z) (s : VpnServerStats) : VpnServerStats :=
  let 'mkStats a b c d e f g h i j := s in mkStats a (b + n) c d e f g h i j.

Section DatagramWriter.
Context {C : Type}.
Context (try_many : C -> list (list Z) -> C * (nat + SendDatagramError)).
Context (wait_one : C -> list Z -> C * (unit + SendDatagramError)).

(** The datagrams [new] are pushed by the producers (see [try_push]). *)
Definition produced (new : list (list Z)) (q : ClientDatagramQueue) : ClientDatagramQueue :=
  mkQueue (chan q ++ new) (queued_bytes q + total_cost new) (q_arena q) (receiver_alive q).

(** One round on a non-empty queue, while [new] is pushed, and whether the task
    goes on. *)
Definition datagram_writer_round (new : list (list Z)) (conn : C) (q : ClientDatagramQueue)
    (stats : VpnServerStats) : outcome unit (C * ClientDatagramQueue * VpnServerStats * bool) :=
  let '(q, batch) := recv_many q DATAGRAM_WRITE_BATCH in
  r ← send_datagram_batch try_many wait_one conn batch outcome_zero;
  let '(conn, oc, result) := r in
  let q := release_batch (produced new q) batch in
  let stats := add_to_clients (sent oc) stats in
  let stats := if (0 <? dropped_too_large oc)%Z
               then add_dropped_too_large (dropped_too_large oc) stats else stats in
  Ret (conn, q, stats, match result with inl _ => true | inr _ => false end).

(** The task; when a send fails it ends and its receiver is dropped. *)
Fixpoint datagram_writer (pushes : list (list (list Z))) (conn : C) (q : ClientDatagramQueue)
    (stats : VpnServerStats) : outcome unit (C * ClientDatagramQueue * VpnServerStats * bool) :=
  match pushes with
  | [] => Ret (conn, q, stats, true)
  | new :: pushes =>
      match chan q with
      | [] => datagram_writer pushes conn (produced new q) stats
      | _ =>
          r ← datagram_writer_round new conn q stats;
          match r with
          | (conn, q, stats, true) => datagram_writer pushes conn q stats
          | (conn, q, stats, false) =>
              Ret (conn, mkQueue (chan q) (queued_bytes q) (q_arena q) false, stats, false)
          end
      end
  end.
End DatagramWriter.

(** ** The status *)

Section StatusProofs.
Context {EndpointId : Type} `{Countable EndpointId}.
Context {Net4 : Type} `{NetLaws V4_BITS Net4}.
Context {Net6 : Type} `{NetLaws V6_BITS Net6}.
Context (sha256 : list Z -> list Z) (endpoint_bytes : EndpointId -> list Z).
#[local] Instance status_pool6 : AddrPool (EndpointId * Z) (Ip6Pool EndpointId Net6) :=
  ip6_pool_ops sha256 endpoint_bytes.
#[local] Instance status_pool6_laws : AddrPoolLaws (EndpointId * Z) (Ip6Pool EndpointId Net6) :=
  ip6_pool_laws sha256 endpoint_bytes.
Context (show_id : EndpointId -> string) (show_ip : IpAddr -> string).
Context (show_net4 : Net4 -> string) (show_net6 : Net6 -> string).
Context (p4 : option (IpPool EndpointId Net4)) (p6 : option (Ip6Pool EndpointId Net6)).

Abbreviation Sys := (sys (EndpointId * Z) (IpPool EndpointId Net4) (Ip6Pool EndpointId Net6)).

Lemma orderly_admission (limit : Z) (s : Sys) : orderly limit p4 p6 s -> admission_inv limit s.
Proof.
  induction 1; [|by apply sys_step_admission..].
  split; unfold count; cbn; rewrite map_filter_empty, map_size_empty; lia.
Qed.

(** Every entry of [clients] is that of a counted task. *)
Lemma clients_counted (s : Sys) : sess_inv s ->
  (Z.of_nat (size (clients (srv s))) <= count counted (conns s))%Z.
Proof.
  intros Hs. unfold count. apply inj_le.
  set (m := filter (fun x => counted x.2.2 = true) (conns s)).
  rewrite <-length_map_to_list, <-(length_map_to_list m), <-(length_fmap fst), <-(length_fmap (fun x : nat * (_ * pc) => x.2.1)).
  apply submseteq_length, NoDup_submseteq; [apply NoDup_fst_map_to_list|].
  intros k ([k' st] & -> & Hk)%list_elem_of_fmap. apply elem_of_map_to_list in Hk.
  destruct (proj2 (si_clients _ Hs) _ _ Hk) as (i & c & Hi & Hc). apply list_elem_of_fmap.
  exists (i, (k', c)). split; [done|]. apply elem_of_map_to_list, map_lookup_filter_Some. split; [done|].
  by destruct c.
Qed.

(** Partial injectivity is enough for distinct results. *)
Lemma NoDup_omap_inj {A B} (f : A -> option B) l :
  NoDup l -> (forall x y z, x ∈ l -> y ∈ l -> f x = Some z -> f y = Some z -> x = y) -> NoDup (omap f l).
Proof.
  induction 1 as [|x l Hx Hl IH]; intros Hf; [constructor|]. cbn [omap list_omap].
  assert (HIH : NoDup (omap f l)) by (apply IH; intros; eapply Hf; eauto using list_elem_of_further).
  destruct (f x) as [z|] eqn:Hz; [|done]. constructor; [|done].
  intros (y & Hy & Hyz)%list_elem_of_omap. apply Hx. by rewrite (Hf x y z); [|left|right|..].
Qed.

(** What a client's entry says is held by its task. *)
Lemma entry_use (s : Sys) k st : sess_inv s -> clients (srv s) !! k = Some st ->
  (exists i c, conns s !! i = Some (k, c) /\ live c = true /\ entry c = Some st) /\
  (forall a, st_assigned_ip st = Some a -> use4 (srv s) !! k = Some a) /\
  (forall a, st_assigned_ip6 st = Some a -> use6 (srv s) !! k = Some a).
Proof.
  intros Hs Hk. destruct (proj2 (si_clients _ Hs) _ _ Hk) as (i & c & Hi & Hc).
  assert (Hl : live c = true) by (by destruct c). split; [by exists i, c|].
  destruct (sess_inv_pre _ _ _ _ Hs Hi Hl) as [_ _ Hu4 Hu6 _ _ _ _].
  split; intros a Ha; [apply Hu4|apply Hu6]; destruct c; simplify_eq/=; done.
Qed.

Lemma displayed_distinct {A} (f : A -> option Z) (fam : Z -> IpAddr) (g : A -> ClientEntry) (sel : ClientEntry -> option string) l :
  Inj (=) (=) show_ip -> Inj (=) (=) fam ->
  (forall x, sel (g x) = show_ip <$> (fam <$> f x)) -> NoDup l ->
  (forall x y a, x ∈ l -> y ∈ l -> f x = Some a -> f y = Some a -> x = y) -> NoDup (omap sel (g <$> l)).
Proof.
  intros Hip Hfam Hsel Hl Hf.
  assert (Ho : omap sel (g <$> l) = omap (fun x => sel (g x)) l).
  { clear. induction l as [|x l IH]; [done|]. cbn. by rewrite <-IH. }
  rewrite Ho. apply NoDup_omap_inj; [done|]. intros x y z Hx Hy Hxz Hyz. rewrite Hsel in Hxz, Hyz.
  destruct (f x) as [a|] eqn:Ha, (f y) as [b|] eqn:Hb; cbn in Hxz, Hyz; try done.
  apply (Hf x y a); [done..|]. rewrite Hb. f_equal. apply (inj fam), (inj show_ip). congruence.
Qed.

(** What [ezvpn server status] reports is the state of the sessions: in
    every orderly history the number of connected clients is that of the
    listed entries and at most the number of active connections, which counts
    the connection tasks; every client being served is listed with its session
    and its addresses; every entry listed belongs to a live connection task;
    and no two entries show the same address. *)
Theorem server_status_exact (limit : Z) (s : Sys) config stats paths node_id uptime bypass_addrs :
  fresh_pool p4 -> fresh_pool p6 -> orderly limit p4 p6 s -> Inj (=) (=) show_ip ->
  let st := status_snapshot show_id show_ip show_net4 show_net6 config (srv s) stats paths node_id uptime bypass_addrs in
  ss_connected_clients st = length (ss_clients st) /\
  (Z.of_nat (ss_connected_clients st) <= ss_active_connections st)%Z /\
  ss_active_connections st = count counted (conns s) /\
  (forall i k sid a4 a6, conns s !! i = Some (k, Serving sid a4 a6) ->
     client_entry show_id show_ip (paths k) k (mkClientState sid a4 a6) ∈ ss_clients st) /\
  (forall e, e ∈ ss_clients st -> exists i k c state, conns s !! i = Some (k, c) /\ live c = true /\
     entry c = Some state /\ e = client_entry show_id show_ip (paths k) k state) /\
  NoDup (omap ce_assigned_ip (ss_clients st)) /\ NoDup (omap ce_assigned_ip6 (ss_clients st)).
Proof.
  intros H4 H6 Ho Hip st. assert (Hs : sess_inv s) by (by apply (orderly_inv limit p4 p6)).
  destruct (orderly_admission limit s Ho) as [Hact _]. pose proof (clients_counted s Hs) as Hcnt.
  assert (Hent : forall kv, kv ∈ map_to_list (clients (srv s)) -> clients (srv s) !! kv.1 = Some kv.2).
  { intros [k x] Hk. by apply elem_of_map_to_list in Hk. }
  assert (Hkey : forall kv kv', kv ∈ map_to_list (clients (srv s)) -> kv' ∈ map_to_list (clients (srv s)) ->
    kv.1 = kv'.1 -> kv = kv').
  { intros kv kv' Hk Hk' He. apply Hent in Hk, Hk'. destruct kv, kv'. cbn in *. subst. congruence. }
  unfold st, status_snapshot. cbn [ss_connected_clients ss_clients ss_active_connections]. split_and!; [done| |done| | | |].
  - rewrite length_fmap, length_map_to_list. lia.
  - intros i k sid a4 a6 Hi. destruct (sess_inv_serving _ _ _ _ _ _ Hs Hi) as [Hc _].
    apply list_elem_of_fmap. exists (k, mkClientState sid a4 a6). split; [done|]. by apply elem_of_map_to_list.
  - intros e ([k x] & -> & Hk)%list_elem_of_fmap. apply Hent in Hk.
    destruct (entry_use s k x Hs Hk) as [(i & c & Hi & Hl & He) _]. by exists i, k, c, x.
  - eapply (displayed_distinct (fun kv => st_assigned_ip kv.2) V4); [done|by intros ?? [=]|done|apply NoDup_map_to_list|].
    intros x y a Hx Hy Ha Hb. apply Hkey; [done..|]. apply (use4_inj s _ _ a Hs);
      [by apply (entry_use s _ _ Hs (Hent x Hx))|by apply (entry_use s _ _ Hs (Hent y Hy))].
  - eapply (displayed_distinct (fun kv => st_assigned_ip6 kv.2) V6); [done|by intros ?? [=]|done|apply NoDup_map_to_list|].
    intros x y a Hx Hy Ha Hb. apply Hkey; [done..|]. apply (use6_inj s _ _ a Hs);
      [by apply (entry_use s _ _ Hs (Hent x Hx))|by apply (entry_use s _ _ Hs (Hent y Hy))].
Qed.

(** The device of whatever server [VpnServer::new] returns can be configured,
    with the server's addresses. *)
Lemma server_tun_ready checks lock (c : VpnServerConfig (Net4:=Net4) (Net6:=Net6)) id s :
  VpnServer_new sha256 endpoint_bytes checks lock c id = Ret s ->
  exists tc, server_tun_config s = Ret tc /\ tc_mtu tc = VPN_MTU /\
    (forall p, ip_pool s = Some p -> tc_address tc = pool_server_ip p) /\
    tc_address6 tc = server_ip6 <$> ip6_pool s.
Proof.
  intros Hnew. unfold VpnServer_new in Hnew. destruct (VpnServerConfig_validate c) as [[]|e|] eqn:Hv; [|done|done].
  cbn [map_err mbind outcome_bind] in Hnew. apply validate_iff in Hv.
  destruct lock as [[]|e|]; [|done|done]. cbn [mbind outcome_bind] in Hnew.
  assert (Hpre : forall n : Net6, validate_prefix_len6 (net_prefix_len n) = Ret tt).
  { intros n. unfold validate_prefix_len6. pose proof (law_prefix n) as Hp.
    assert (V6_BITS = 128)%Z by reflexivity.
    by destruct (Z.ltb_spec 128 (net_prefix_len n)); [lia|]. }
  pose proof (ok_some _ Hv) as Hsome.
  destruct (cfg_network c) as [n4|]; cbn [mbind outcome_bind] in Hnew;
    [destruct (map_err _ (IpPool_new _ _ _)) as [q4|e|]; cbn [mbind outcome_bind] in Hnew; [|done|done]|];
    (destruct (cfg_network6 c) as [n6|]; cbn [mbind outcome_bind] in Hnew;
     [destruct (Ip6Pool_new _ _ _ _ _ _ _) as [q6|e|]; cbn [mbind outcome_bind] in Hnew; [|done|done]|]);
    try (apply Ret_inj in Hnew as <-); unfold server_tun_config, with_ipv6, ipv6_only;
    cbn [ip_pool ip6_pool fmap option_fmap option_map]; rewrite ?Hpre; cbn [mbind outcome_bind];
    try (eexists; split; [done|]; split; [done|]; split; [by intros p [= <-]|done]).
  by destruct Hsome as [[? [=]]|[? [=]]].
Qed.
End StatusProofs.

(** ** The datagram writer *)

#[local] Open Scope list_scope.

Section WriterProofs.
Context {C : Type}.
Context (try_many : C -> list (list Z) -> C * (nat + SendDatagramError)).
Context (wait_one : C -> list Z -> C * (unit + SendDatagramError)).
Context (queued : C -> list (list Z)) (Hlaws : conn_laws try_many wait_one queued).

(** The queue is charged for exactly what it holds. *)
Definition settled (q : ClientDatagramQueue) : Prop := queued_bytes q = total_cost (chan q).

Lemma produced_settled new q : settled q -> settled (produced new q).
Proof. unfold settled, produced. cbn. rewrite total_cost_app. lia. Qed.

Lemma writer_round_spec new conn q stats : settled q ->
  exists conn' q' stats' go, datagram_writer_round try_many wait_one new conn q stats = Ret (conn', q', stats', go) /\
    settled q' /\ chan q' = drop DATAGRAM_WRITE_BATCH (chan q) ++ new /\
    receiver_alive q' = receiver_alive q /\
    exists acc, queued conn' = queued conn ++ acc /\
      acc `sublist_of` take DATAGRAM_WRITE_BATCH (chan q) /\
      packets_to_clients stats' = (packets_to_clients stats + Z.of_nat (length acc))%Z.
Proof.
  intros Hq. unfold datagram_writer_round, recv_many, send_datagram_batch.
  set (batch := take DATAGRAM_WRITE_BATCH (chan q)).
  destruct (send_loop_spec _ _ queued Hlaws (length batch) conn batch outcome_zero)
    as ([[conn' oc] res] & -> & (acc & Hc & Hsub & Hsent) & _); [lia|].
  cbn [mbind outcome_bind]. eexists _, _, _, _. split; [done|].
  split; [|split; [done|split; [done|]]].
  - unfold settled, release_batch, produced in *. cbn [chan queued_bytes]. rewrite Hq.
    rewrite <-(take_drop DATAGRAM_WRITE_BATCH (chan q)) at 1. rewrite !total_cost_app. fold batch. lia.
  - exists acc. split; [done|]. split; [done|]. cbn [sent outcome_zero] in Hsent.
    destruct stats, (0 <? dropped_too_large oc)%Z; cbn; lia.
Qed.

(** A client's datagram writer, for any behaviour of the connection and of
    the producers: it never panics; what the connection accepts is, in order,
    some of the datagrams it took from the queue, and [packets_to_clients]
    grows by exactly their number; nothing is lost between the queue and the
    writer (what was queued and what was pushed is what was taken followed by
    what is still queued); and the queue stays charged for exactly what it
    holds, so that the budget of a client is not used up by a slow or failing
    connection.  When a send fails the writer ends and its receiver is gone. *)
Theorem datagram_writer_exact pushes conn q stats :
  settled q ->
  exists conn' q' stats' go, datagram_writer try_many wait_one pushes conn q stats = Ret (conn', q', stats', go) /\
    settled q' /\ (go = true -> receiver_alive q' = receiver_alive q) /\ (go = false -> receiver_alive q' = false) /\
    exists taken acc pushed later, pushes = pushed ++ later /\ (go = true -> later = []) /\
      chan q ++ concat pushed = taken ++ chan q' /\
      queued conn' = queued conn ++ acc /\ acc `sublist_of` taken /\
      packets_to_clients stats' = (packets_to_clients stats + Z.of_nat (length acc))%Z.
Proof.
  revert conn q stats. induction pushes as [|new pushes IH]; intros conn q stats Hq; cbn [datagram_writer].
  { eexists _, _, _, _. split; [done|]. split_and!; [done..|]. exists [], [], [], []. cbn. rewrite !app_nil_r.
    split_and!; try done. cbn. lia. }
  assert (Hgo : forall conn1 q1 stats1 taken1 acc1, settled q1 -> receiver_alive q1 = receiver_alive q ->
    chan q ++ new = taken1 ++ chan q1 -> queued conn1 = queued conn ++ acc1 -> acc1 `sublist_of` taken1 ->
    packets_to_clients stats1 = (packets_to_clients stats + Z.of_nat (length acc1))%Z ->
    exists conn' q' stats' go, datagram_writer try_many wait_one pushes conn1 q1 stats1 = Ret (conn', q', stats', go) /\
      settled q' /\ (go = true -> receiver_alive q' = receiver_alive q) /\ (go = false -> receiver_alive q' = false) /\
      exists taken acc pushed later, new :: pushes = pushed ++ later /\ (go = true -> later = []) /\
        chan q ++ concat pushed = taken ++ chan q' /\ queued conn' = queued conn ++ acc /\ acc `sublist_of` taken /\
        packets_to_clients stats' = (packets_to_clients stats + Z.of_nat (length acc))%Z).
  { intros conn1 q1 stats1 taken1 acc1 Hq1 Hal Hch Hcn Hsub Hst.
    destruct (IH conn1 q1 stats1 Hq1) as (conn' & q' & stats' & go & Hw & Hq' & Ht & Hf & taken & acc & pushed & later & -> & Hl & Hc & Hn & Hs & Hp).
    exists conn', q', stats', go. split; [done|]. split; [done|]. split; [intros Hg; by rewrite Ht|]. split; [done|].
    exists (taken1 ++ taken), (acc1 ++ acc), (new :: pushed), later. cbn [concat app]. split_and!; try done.
    - by rewrite app_assoc, Hch, <-!app_assoc, Hc.
    - by rewrite Hn, Hcn, app_assoc.
    - by apply sublist_app.
    - rewrite length_app. lia. }
  destruct (chan q) as [|d ds] eqn:Hchan.
  - apply (Hgo conn (produced new q) stats [] []); try done; [by apply produced_settled| | |cbn; lia].
    + cbn. by rewrite Hchan.
    + by rewrite app_nil_r.
  - rewrite <-Hchan in *.
    destruct (writer_round_spec new conn q stats Hq) as (conn1 & q1 & stats1 & go & -> & Hq1 & Hc1 & Hal & acc & Hn & Hs & Hp).
    cbn [mbind outcome_bind].
    assert (Hsplit : chan q ++ new = take DATAGRAM_WRITE_BATCH (chan q) ++ chan q1).
    { by rewrite Hc1, app_assoc, take_drop. }
    destruct go; [by eapply Hgo|]. eexists _, _, _, _. split; [done|]. split; [exact Hq1|]. split; [done|]. split; [done|].
    exists (take DATAGRAM_WRITE_BATCH (chan q)), acc, [new], pushes. cbn [concat chan]. rewrite app_nil_r. by split_and!.
Qed.
End WriterProofs.

(** ** Evaluation *)

Lemma server_status_exact_witness :
  exists st, st = status_snapshot (fun e => pretty (Z.to_N e)) (fun ip => match ip with V4 a => "4-" +:+ pretty a | V6 a => "6-" +:+ pretty a end)
       (fun _ => "net") (fun _ => "net6") sample_config (srv sample_two) stats_zero (fun _ => []) "node" 5 [] /\
    ss_connected_clients st = length (ss_clients st) /\
    mkClientEntry "2" "0000000000000001" 2 (Some "4-167772163") None (Some (format_connection_paths [])) ∈ ss_clients st.
Proof.
  eexists. split; [reflexivity|].
  destruct (server_status_exact sample_digest (fun e => [e]) (fun e => pretty (Z.to_N e))
    (fun ip => match ip with V4 a => "4-" +:+ pretty a | V6 a => "6-" +:+ pretty a end) (fun _ => "net") (fun _ => "net6")
    (Some sample_pool) None 10 sample_two sample_config stats_zero (fun _ => []) "node" 5 []
    sample_fresh sample_fresh6 sample_two_orderly) as (H1 & _ & _ & H2 & _).
  - intros [a|a] [b|b] Heq; simplify_eq/=; done.
  - split; [exact H1|]. exact (H2 2%nat (2, 1)%Z 2%Z (Some 167772163%Z) None eq_refl).
Defined.

Lemma datagram_writer_exact_witness :
  exists conn' q' stats' go,
    datagram_writer sample_try sample_wait [[[7]]; []]%Z [] (produced [[1]; [1; 2; 3; 4]]%Z ClientDatagramQueue_new) stats_zero
      = Ret (conn', q', stats', go) /\ settled q'.
Proof.
  destruct (datagram_writer_exact sample_try sample_wait id sample_conn_laws [[[7]]; []]%Z []
    (produced [[1]; [1; 2; 3; 4]]%Z ClientDatagramQueue_new) stats_zero) as (conn' & q' & stats' & go & H1 & H2 & _).
  - reflexivity.
  - exists conn', q', stats', go. split; [exact H1 | exact H2].
Defined.
