(* ===== verification/ServerLoop.v ===== *)
(** * The accept loop and the shutdown of the server ([src/tunnel/server.rs])

    [VpnServer::run]: the connections it accepts, each on a task with a sender
    of the TUN writer's channel, the connection tasks of [Sessions], the inbound
    task that takes over the sender while a client is served, the writer task,
    and the shutdown once the accept loop ends.  One event per step of a task. *)

From S2P Require Import Prelude Text Errors Net Config Offload Signaling Handshake IpPool Ip6Pool Sessions Stream.
From S2P Require Import Forward TunWriter DeviceRoutes Device Outbound ServerRun.

#[local] Open Scope string_scope.

Definition TUN_WRITER_CHANNEL_SIZE : nat := 512.
Definition WRITE_BATCH_SIZE : nat := 256.

(** Where [run] is: in its [select!], awaiting the writer, or over. *)
Inductive main_pc : Type := Accepting | Draining | Returned.
#[export] Instance main_pc_eq_dec : EqDecision main_pc.
Proof. solve_decision. Defined.

(** Which task of a connection has its sender: [handle_connection], or the
    inbound task of [handle_client_data]. *)
Inductive holder : Type := ByHandler | ByInbound.
#[export] Instance holder_eq_dec : EqDecision holder.
Proof. solve_decision. Defined.

(** The arms of the [select!] of [handle_client_data]. *)
Inductive data_end : Type :=
| InboundJoined                       (* the inbound task has ended *)
| WriterSignalled.                    (* the inbound task is aborted *)

Section Loop.
Context {EndpointId PublicKey : Type} `{Countable EndpointId} `{Countable PublicKey}.
Context {Net4 Net6 : Type} `{NetOps V4_BITS Net4} `{NetOps V6_BITS Net6}.
Context `{Json VpnHandshake} `{Json (VpnHandshakeResponse Net4 Net6)}.
Context (parse_endpoint_id : string -> option EndpointId) (parse_public_key : string -> option PublicKey).
Context (verify_endpoint_id_signature : PublicKey -> EndpointId -> string -> bool).
Context {S : Type} (write_stream : S -> list Z -> S * vres unit).
Context {P4 P6 : Type} `{!AddrPool (EndpointId * Z) P4} `{!AddrPool (EndpointId * Z) P6}.
Context {D : Type} (write_all : D -> list Z -> D * vres unit).
Context (authorized_keys : gset PublicKey) (max_clients : Z) (self : TunWriter).

(** *** A connection up to the admission check *)

(** The peer if the connection comes up, and its stream if it opens one. *)
Record Incoming : Type := mkIncoming {
  inc_remote_id : option EndpointId;
  inc_bi : option (S * RecvStream);
}.

(** [handle_connection] up to the admission check: who has connected. *)
Definition accept_connection (incoming : Incoming) : vres (EndpointId * Z) :=
  match inc_remote_id incoming with
  | None => Fail (Signaling (msg "Failed to accept connection: {}"))
  | Some remote_id =>
      match inc_bi incoming with
      | None => Fail (Signaling (msg "Failed to accept stream: {}"))
      | Some (send, recv) =>
          let '(_, r) := accept_handshake (Net4:=Net4) (Net6:=Net6) parse_endpoint_id parse_public_key
                           verify_endpoint_id_signature write_stream authorized_keys remote_id send recv in
          accepted ← r; Ret (remote_id, device_id accepted.1)
      end
  end.

(** *** The state of [run] *)

Record server_loop : Type := mkLoop {
  lp_main : main_pc;
  lp_reader : bool;                          (* the TUN reader runs *)
  lp_pending : gset nat;                     (* tasks in their handshake *)
  lp_sys : sys (EndpointId * Z) P4 P6;       (* tasks past it *)
  lp_senders : gmap nat holder;
  lp_queue : list TunWriteRequest;
  lp_accepted : list TunWriteRequest;        (* every request that was queued *)
  lp_batches : list (list TunWriteRequest);  (* every batch the writer received *)
  lp_dev : D;
  lp_stats : VpnServerStats;
  lp_writer : bool;                          (* the TUN writer runs *)
}.

Definition loop_init (server : VpnServer (EndpointId * Z) P4 P6) (dev : D) : server_loop :=
  mkLoop Accepting true ∅ (mkSys server ∅) ∅ [] [] [] dev (mkStats 0 0 0 0 0 0 0 0 0 0) true.

(** What becomes of the handler's sender when its task is at [c]: it moves into
    the inbound task, or goes with the function that returns. *)
Definition sender_at (c : pc) (h : option holder) : option holder :=
  match c, h with
  | Serving _ _ _, Some ByHandler => Some ByInbound
  | (Leaving | Abandoned _ _ | Done | Lost _ _), Some ByHandler => None
  | _, _ => h
  end.

Definition set_tasks (s : server_loop) (pending : gset nat) (sy : sys (EndpointId * Z) P4 P6)
    (senders : gmap nat holder) : server_loop :=
  mkLoop (lp_main s) (lp_reader s) pending sy senders (lp_queue s) (lp_accepted s) (lp_batches s) (lp_dev s)
    (lp_stats s) (lp_writer s).

(** One step of the connection task [id]. *)
Definition run_task (s : server_loop) (id : nat) (write_ok : bool) : server_loop :=
  let sy := sys_step max_clients (lp_sys s) (Run id write_ok) in
  let senders := match conns sy !! id with
                 | Some (_, c) => partial_alter (sender_at c) id (lp_senders s)
                 | None => lp_senders s
                 end in
  set_tasks s (lp_pending s) sy senders.

(** One round of the writer's loop; it ends when the channel is empty and every
    sender is gone, [run]'s own included. *)
Definition writer_round (s : server_loop) : server_loop :=
  if negb (lp_writer s) then s else
  match lp_queue s with
  | [] =>
      if negb (bool_decide (lp_main s = Accepting)) && bool_decide (lp_senders s = ∅)
      then mkLoop (lp_main s) (lp_reader s) (lp_pending s) (lp_sys s) (lp_senders s) [] (lp_accepted s)
             (lp_batches s) (lp_dev s) (lp_stats s) false
      else s
  | _ =>
      let batch := take WRITE_BATCH_SIZE (lp_queue s) in
      let '(dev, stats, _) :=
        drain_batch (fun st c => server_call write_all self st c) (lp_dev s, lp_stats s) [] batch in
      mkLoop (lp_main s) (lp_reader s) (lp_pending s) (lp_sys s) (lp_senders s)
        (drop WRITE_BATCH_SIZE (lp_queue s)) (lp_accepted s) (lp_batches s ++ [batch])%list dev stats true
  end.

Inductive loop_event : Type :=
| Accept (id : nat)                                (* [endpoint.accept()], the task is spawned *)
| Handshaken (id : nat) (incoming : Incoming)      (* its handshake is over *)
| Step (id : nat) (write_ok : bool)                (* a step of a task that is not serving *)
| DataEnd (id : nat) (e : data_end) (write_ok : bool)  (* [handle_client_data] returns *)
| Deliver (id : nat) (req : TunWriteRequest)       (* an inbound task queues a request *)
| InboundEnd (id : nat)                            (* an inbound task ends *)
| WriterRuns
| SelectEnds                                       (* the endpoint is closed, or the failover ends *)
| Join.                                            (* the writer's handle is ready *)

Definition is_serving (s : server_loop) (id : nat) : bool :=
  match conns (lp_sys s) !! id with Some (_, Serving _ _ _) => true | _ => false end.

(** Has the task [id] been spawned? *)
Definition spawned (s : server_loop) (id : nat) : bool :=
  bool_decide (id ∈ lp_pending s) || bool_decide (is_Some (conns (lp_sys s) !! id)).

Definition loop_step (s : server_loop) (e : loop_event) : server_loop :=
  match e with
  | Accept id =>
      if bool_decide (lp_main s = Accepting) && negb (spawned s id)
      then set_tasks s ({[id]} ∪ lp_pending s) (lp_sys s) (<[id := ByHandler]> (lp_senders s))
      else s
  | Handshaken id incoming =>
      if negb (bool_decide (id ∈ lp_pending s)) then s else
      match accept_connection incoming with
      | Ret k =>
          set_tasks s (lp_pending s ∖ {[id]}) (sys_step max_clients (lp_sys s) (Arrive id k)) (lp_senders s)
      | _ => set_tasks s (lp_pending s ∖ {[id]}) (lp_sys s) (delete id (lp_senders s))
      end
  | Step id write_ok => if is_serving s id then s else run_task s id write_ok
  | DataEnd id e write_ok =>
      match is_serving s id, e with
      | true, WriterSignalled => run_task s id write_ok
      | true, InboundJoined =>
          if bool_decide (lp_senders s !! id = Some ByInbound) then s else run_task s id write_ok
      | false, _ => s
      end
  | Deliver id req =>
      if bool_decide (lp_senders s !! id = Some ByInbound) && (length (lp_queue s) <? TUN_WRITER_CHANNEL_SIZE)%nat
      then mkLoop (lp_main s) (lp_reader s) (lp_pending s) (lp_sys s) (lp_senders s) (lp_queue s ++ [req])%list
             (lp_accepted s ++ [req])%list (lp_batches s) (lp_dev s) (inc_from_clients (lp_stats s)) (lp_writer s)
      else s
  | InboundEnd id =>
      if bool_decide (lp_senders s !! id = Some ByInbound)
      then set_tasks s (lp_pending s) (lp_sys s) (delete id (lp_senders s))
      else s
  | WriterRuns => writer_round s
  | SelectEnds =>
      if bool_decide (lp_main s = Accepting)
      then mkLoop Draining false (lp_pending s) (lp_sys s) (lp_senders s) (lp_queue s) (lp_accepted s) (lp_batches s)
             (lp_dev s) (lp_stats s) (lp_writer s)
      else s
  | Join =>
      if bool_decide (lp_main s = Draining) && negb (lp_writer s)
      then mkLoop Returned (lp_reader s) (lp_pending s) (lp_sys s) (lp_senders s) (lp_queue s) (lp_accepted s)
             (lp_batches s) (lp_dev s) (lp_stats s) false
      else s
  end.

Definition loop_run (s : server_loop) (es : list loop_event) : server_loop := fold_left loop_step es s.

(** ** The channel *)

(** The calls the writer has made. *)
Definition calls_made (s : server_loop) : list tun_write := concat (map (calls_of []) (lp_batches s)).

Record channel_inv (dev0 : D) (s : server_loop) : Prop := {
  ci_order : (concat (lp_batches s) ++ lp_queue s)%list = lp_accepted s;
  ci_room : length (lp_queue s) <= TUN_WRITER_CHANNEL_SIZE;
  ci_batches : Forall (fun b => 0 < length b <= WRITE_BATCH_SIZE) (lp_batches s);
  ci_dev : lp_dev s = (results write_all self dev0 (calls_made s)).1;
  ci_failed : packets_tun_write_failed (lp_stats s) =
    Z.of_nat (length (filter (fun r => is_ret r = false) (results write_all self dev0 (calls_made s)).2));
  ci_from : packets_from_clients (lp_stats s) = Z.of_nat (length (lp_accepted s));
}.

Lemma results_app dev a b :
  results write_all self dev (a ++ b) =
    let '(dev1, ra) := results write_all self dev a in
    let '(dev2, rb) := results write_all self dev1 b in (dev2, (ra ++ rb)%list).
Proof.
  revert dev. induction a as [|c a IH]; intros dev; cbn [app results].
  { by destruct (results write_all self dev b). }
  destruct (perform write_all self dev c) as [dev1 r]. rewrite IH.
  destruct (results write_all self dev1 a) as [dev2 ra]. by destruct (results write_all self dev2 b).
Qed.

Lemma set_tasks_channel dev0 s p sy m : channel_inv dev0 s -> channel_inv dev0 (set_tasks s p sy m).
Proof. by intros []. Qed.

Lemma writer_round_channel dev0 s : channel_inv dev0 s -> channel_inv dev0 (writer_round s).
Proof.
  intros [Ho Hr Hb Hd Hf Hc]. unfold writer_round. destruct (lp_writer s); cbn [negb]; [|done].
  destruct (lp_queue s) as [|q0 q] eqn:Hq.
  { case_match; [|by split; rewrite ?Hq]. by split. }
  set (queue := q0 :: q) in *. rewrite drain_batch_calls.
  pose proof (server_run write_all self (calls_of [] (take WRITE_BATCH_SIZE queue)) (lp_dev s) (lp_stats s)) as Hs.
  destruct (results write_all self (lp_dev s) _) as [d rs] eqn:Hres.
  destruct (run_calls _ (lp_dev s, lp_stats s) _) as [[d' st'] stop].
  destruct Hs as (-> & _ & Hfail & Hfrom).
  assert (Hcalls : results write_all self dev0
    (concat (map (calls_of []) (lp_batches s ++ [take WRITE_BATCH_SIZE queue]))) =
    (d, ((results write_all self dev0 (calls_made s)).2 ++ rs)%list)).
  { rewrite map_app, concat_app. cbn [map concat]. rewrite app_nil_r, results_app. fold (calls_made s).
    destruct (results write_all self dev0 (calls_made s)) as [d1 r1]. cbn [fst snd] in *. subst d1. by rewrite Hres. }
  split; unfold calls_made; cbn [lp_batches lp_queue lp_accepted lp_dev lp_stats]; rewrite ?Hcalls; cbn [fst snd].
  - rewrite concat_app. cbn [concat]. by rewrite app_nil_r, <-app_assoc, take_drop.
  - rewrite length_drop. lia.
  - apply Forall_app. split; [done|]. constructor; [|constructor]. rewrite length_take. cbn [length].
    unfold WRITE_BATCH_SIZE. cbn [queue length]. lia.
  - done.
  - rewrite Hfail, Hf, filter_app, length_app. lia.
  - by rewrite Hfrom.
Qed.

Lemma loop_step_channel dev0 s e : channel_inv dev0 s -> channel_inv dev0 (loop_step s e).
Proof.
  intros Hi. pose proof Hi as [Ho Hr Hb Hd Hf Hc].
  destruct e; cbn [loop_step]; unfold run_task;
    try (by repeat case_match; auto using set_tasks_channel); [|by apply writer_round_channel|..].
  - destruct (bool_decide _); cbn [andb]; [|done]. destruct (Nat.ltb_spec (length (lp_queue s)) TUN_WRITER_CHANNEL_SIZE); [|done].
    split; cbn [lp_batches lp_queue lp_accepted lp_dev lp_stats]; try done.
    + by rewrite app_assoc, Ho.
    + rewrite length_app. cbn [length]. lia.
    + unfold calls_made in *. cbn [lp_batches]. rewrite <-Hf. by destruct (lp_stats s).
    + rewrite length_app. cbn [length]. destruct (lp_stats s). cbn in *. lia.
Qed.

(** ** Who holds a sender *)

(** The task has not reached [handle_client_data] yet. *)
Definition early (c : pc) : bool :=
  match c with
  | Arrived | Refused | Accepted | Got4 _ | Got46 _ _ | Responded _ _ | InClients _ _ _ | Routed4 _ _ _ => true
  | _ => false
  end.

Record holders_inv (s : server_loop) : Prop := {
  hi_pending : forall i, i ∈ lp_pending s -> conns (lp_sys s) !! i = None /\ lp_senders s !! i = Some ByHandler;
  hi_early : forall i k c, conns (lp_sys s) !! i = Some (k, c) -> early c = true -> lp_senders s !! i = Some ByHandler;
  hi_handler : forall i, lp_senders s !! i = Some ByHandler ->
    i ∈ lp_pending s \/ exists k c, conns (lp_sys s) !! i = Some (k, c) /\ early c = true;
  hi_inbound : forall i, lp_senders s !! i = Some ByInbound ->
    exists k c, conns (lp_sys s) !! i = Some (k, c) /\ early c = false;
}.

(** A task never goes back to its beginning. *)
Lemma conn_next_early (w : bool) (sv : VpnServer (EndpointId * Z) P4 P6) (k : EndpointId * Z) (c : pc)
    (sv' : VpnServer (EndpointId * Z) P4 P6) (c' : pc) :
  conn_next max_clients w sv k c = Some (sv', c') -> early c' = true -> early c = true.
Proof.
  destruct c; cbn [conn_next early]; unfold admit_task, allocate4_task, allocate6_task, register_task, remove_task;
    intros Hn He; repeat case_match; simplify_eq/=; done.
Qed.

(** When it leaves it, the handler gives up its sender. *)
Lemma conn_next_handover (w : bool) (sv : VpnServer (EndpointId * Z) P4 P6) (k : EndpointId * Z) (c : pc)
    (sv' : VpnServer (EndpointId * Z) P4 P6) (c' : pc) :
  conn_next max_clients w sv k c = Some (sv', c') -> early c = true -> early c' = false ->
  sender_at c' (Some ByHandler) <> Some ByHandler.
Proof.
  destruct c; cbn [conn_next early]; unfold admit_task, allocate4_task, allocate6_task, register_task, remove_task;
    intros Hn He He'; repeat case_match; simplify_eq/=; done.
Qed.

Lemma sender_at_early (c : pc) h : early c = true -> sender_at c h = h.
Proof. by destruct c, h as [[]|]. Qed.

Lemma sender_at_inbound (c : pc) h : sender_at c h = Some ByInbound -> early c = true -> h = Some ByInbound.
Proof. by destruct c, h as [[]|]. Qed.

(** The task [id] moves to [c'], and its sender accordingly. *)
Lemma move_holders (s : server_loop) (id : nat) (k : EndpointId * Z) (c c' : pc) (sv' : VpnServer (EndpointId * Z) P4 P6) :
  holders_inv s -> conns (lp_sys s) !! id = Some (k, c) ->
  (early c' = true -> sender_at c' (lp_senders s !! id) = Some ByHandler) ->
  (early c' = false -> sender_at c' (lp_senders s !! id) <> Some ByHandler) ->
  holders_inv (set_tasks s (lp_pending s) (mkSys sv' (<[id := (k, c')]> (conns (lp_sys s))))
    (partial_alter (sender_at c') id (lp_senders s))).
Proof.
  intros [Hp He Hh Hi] Hc Ha Hb.
  split; cbn [set_tasks lp_pending lp_sys lp_senders conns].
  - intros i Hin. destruct (Hp i Hin) as [Hn Hs]. assert (id <> i) by congruence.
    by rewrite lookup_insert_ne, lookup_partial_alter_ne.
  - intros i k0 c0 Hl Hea. apply lookup_insert_Some in Hl as [[<- [= <- <-]]|[Hne Hl]].
    + rewrite lookup_partial_alter_eq. auto.
    + rewrite lookup_partial_alter_ne by done. by eapply He.
  - intros i Hs. destruct (decide (id = i)) as [<-|Hne].
    + rewrite lookup_partial_alter_eq in Hs. right. exists k, c'. rewrite lookup_insert_eq. split; [done|].
      destruct (early c'); [done|]. by apply Hb in Hs.
    + rewrite lookup_partial_alter_ne in Hs by done. rewrite lookup_insert_ne by done. by apply Hh.
  - intros i Hs. destruct (decide (id = i)) as [<-|Hne].
    + rewrite lookup_partial_alter_eq in Hs. exists k, c'. rewrite lookup_insert_eq. split; [done|].
      destruct (early c') eqn:Hea; [|done]. rewrite Ha in Hs by done. done.
    + rewrite lookup_partial_alter_ne in Hs by done. rewrite lookup_insert_ne by done. by apply Hi.
Qed.

(** The handler of a task that has begun to serve has no sender. *)
Lemma late_sender (s : server_loop) (id : nat) (k : EndpointId * Z) (c : pc) :
  holders_inv s -> conns (lp_sys s) !! id = Some (k, c) -> early c = false -> lp_senders s !! id <> Some ByHandler.
Proof.
  intros [Hp He Hh Hi] Hc Hl Hs. destruct (Hh id Hs) as [Hin|(k0 & c0 & Hc0 & He0)]; [|congruence].
  destruct (Hp id Hin). congruence.
Qed.

Lemma sender_at_none (c : pc) h : h <> Some ByHandler -> sender_at c h = h.
Proof. by destruct c, h as [[]|]. Qed.

Lemma run_task_holders (s : server_loop) (id : nat) (w : bool) : holders_inv s -> holders_inv (run_task s id w).
Proof.
  intros Hinv. unfold run_task. cbn [sys_step].
  destruct (conns (lp_sys s) !! id) as [[k c]|] eqn:Hc; [|rewrite Hc; by destruct Hinv; split].
  destruct (conn_next max_clients w (srv (lp_sys s)) k c) as [[sv' c']|] eqn:Hn; cbn [conns].
  - rewrite lookup_insert_eq. eapply move_holders; [done..| |].
    + intros He. rewrite sender_at_early by done. eapply (hi_early _ Hinv); [done|]. by eapply conn_next_early.
    + intros He. destruct (early c) eqn:Hec.
      * rewrite (hi_early _ Hinv _ _ _ Hc Hec). by eapply conn_next_handover.
      * rewrite sender_at_none; by eapply late_sender.
  - rewrite Hc. replace (lp_sys s) with (mkSys (srv (lp_sys s)) (<[id := (k, c)]> (conns (lp_sys s)))) at 1
      by (rewrite insert_id by done; by destruct (lp_sys s)).
    assert (early c = false) by (by destruct c). eapply move_holders; [done..|congruence|].
    intros _. rewrite sender_at_none; by eapply late_sender.
Qed.

(** A new task in its handshake; the end of one that failed; an inbound task
    that ends. *)
Lemma spawn_holders (s : server_loop) (id : nat) :
  holders_inv s -> conns (lp_sys s) !! id = None ->
  holders_inv (set_tasks s ({[id]} ∪ lp_pending s) (lp_sys s) (<[id := ByHandler]> (lp_senders s))).
Proof.
  intros [Hp He Hh Hi] Hc. split; cbn [set_tasks lp_pending lp_sys lp_senders].
  - intros i Hin. destruct (decide (id = i)) as [<-|Hne]; [by rewrite lookup_insert_eq|].
    rewrite lookup_insert_ne by done. apply Hp. set_solver.
  - intros i k c Hl Hea. rewrite lookup_insert_ne by congruence. by eapply He.
  - intros i Hs. destruct (decide (id = i)) as [<-|Hne]; [left; set_solver|].
    rewrite lookup_insert_ne in Hs by done. destruct (Hh i Hs) as [Hin|?]; [left; set_solver|by right].
  - intros i Hs. destruct (decide (id = i)) as [<-|Hne]; [by rewrite lookup_insert_eq in Hs|].
    rewrite lookup_insert_ne in Hs by done. by apply Hi.
Qed.

Lemma fail_holders (s : server_loop) (id : nat) :
  holders_inv s -> id ∈ lp_pending s ->
  holders_inv (set_tasks s (lp_pending s ∖ {[id]}) (lp_sys s) (delete id (lp_senders s))).
Proof.
  intros [Hp He Hh Hi] Hin. destruct (Hp id Hin) as [Hc Hs0]. split; cbn [set_tasks lp_pending lp_sys lp_senders].
  - intros i Hj. assert (id <> i) by set_solver. rewrite lookup_delete_ne by done. apply Hp. set_solver.
  - intros i k c Hl Hea. rewrite lookup_delete_ne by congruence. by eapply He.
  - intros i Hs. apply lookup_delete_Some in Hs as [Hne Hs]. destruct (Hh i Hs) as [?|?]; [left; set_solver|by right].
  - intros i Hs. apply lookup_delete_Some in Hs as [Hne Hs]. by apply Hi.
Qed.

Lemma arrive_holders (s : server_loop) (id : nat) (k : EndpointId * Z) :
  holders_inv s -> id ∈ lp_pending s ->
  holders_inv (set_tasks s (lp_pending s ∖ {[id]}) (sys_step max_clients (lp_sys s) (Arrive id k)) (lp_senders s)).
Proof.
  intros [Hp He Hh Hi] Hin. destruct (Hp id Hin) as [Hc Hs0]. cbn [sys_step]. rewrite Hc.
  split; cbn [set_tasks lp_pending lp_sys lp_senders conns].
  - intros i Hj. assert (id <> i) by set_solver. rewrite lookup_insert_ne by done. apply Hp. set_solver.
  - intros i k0 c Hl Hea. apply lookup_insert_Some in Hl as [[<- _]|[_ Hl]]; [done|]. by eapply He.
  - intros i Hs. destruct (decide (id = i)) as [<-|Hne]; [right; rewrite lookup_insert_eq; eauto|].
    rewrite lookup_insert_ne by done. destruct (Hh i Hs) as [?|?]; [left; set_solver|by right].
  - intros i Hs. assert (id <> i) by congruence. rewrite lookup_insert_ne by done. by apply Hi.
Qed.

Lemma inbound_end_holders (s : server_loop) (id : nat) :
  holders_inv s -> lp_senders s !! id = Some ByInbound ->
  holders_inv (set_tasks s (lp_pending s) (lp_sys s) (delete id (lp_senders s))).
Proof.
  intros [Hp He Hh Hi] Hid. split; cbn [set_tasks lp_pending lp_sys lp_senders].
  - intros i Hin. destruct (Hp i Hin). rewrite lookup_delete_ne by congruence. done.
  - intros i k c Hl Hea. pose proof (He i k c Hl Hea). rewrite lookup_delete_ne by congruence. done.
  - intros i Hs. apply lookup_delete_Some in Hs as [_ Hs]. by apply Hh.
  - intros i Hs. apply lookup_delete_Some in Hs as [_ Hs]. by apply Hi.
Qed.

Lemma loop_step_holders (s : server_loop) e : holders_inv s -> holders_inv (loop_step s e).
Proof.
  intros Hinv. destruct e as [id|id inc|id w|id e w|id req|id| | |]; cbn [loop_step].
  - case_match eqn:Hg; [|done]. apply andb_true_iff in Hg as [_ Hg]. apply negb_true_iff, orb_false_iff in Hg as [_ Hg].
    apply spawn_holders; [done|]. apply bool_decide_eq_false in Hg. by apply eq_None_not_Some.
  - case_match eqn:Hg; [done|]. apply negb_false_iff, bool_decide_eq_true in Hg.
    destruct (accept_connection inc); auto using fail_holders, arrive_holders.
  - case_match; [done|by apply run_task_holders].
  - repeat case_match; try done; by apply run_task_holders.
  - case_match; [|done]. by destruct Hinv; split.
  - case_match eqn:Hg; [|done]. apply bool_decide_eq_true in Hg. by apply inbound_end_holders.
  - unfold writer_round. repeat case_match; try done; by destruct Hinv; split.
  - case_match; [|done]. by destruct Hinv; split.
  - case_match; [|done]. by destruct Hinv; split.
Qed.

(** ** The shutdown *)

Record shutdown_inv (s : server_loop) : Prop := {
  si_writer : lp_writer s = false -> lp_main s <> Accepting /\ lp_senders s = ∅ /\ lp_queue s = [];
  si_joined : lp_main s = Returned -> lp_writer s = false;
  si_reader : lp_main s <> Accepting -> lp_reader s = false;
}.

Lemma run_task_shutdown (s : server_loop) (id : nat) (w : bool) : shutdown_inv s -> shutdown_inv (run_task s id w).
Proof.
  intros [Hw Hj Hr]. split; [|done..]. unfold run_task. cbn [set_tasks lp_writer lp_main lp_senders lp_queue].
  intros Hd. destruct (Hw Hd) as (Hm & Hs & Hq). split_and!; [done| |done]. case_match; [|done]. destruct p as [k c].
  rewrite Hs. apply map_empty. intros i. destruct (decide (id = i)) as [<-|Hne].
  - rewrite lookup_partial_alter_eq, lookup_empty. by destruct c.
  - by rewrite lookup_partial_alter_ne.
Qed.

Lemma loop_step_shutdown (s : server_loop) e : shutdown_inv s -> shutdown_inv (loop_step s e).
Proof.
  intros Hinv. pose proof Hinv as [Hw Hj Hr].
  destruct e as [id|id inc|id w|id e w|id req|id| | |]; cbn [loop_step].
  - case_match eqn:Hg; [|done]. apply andb_true_iff in Hg as [Hg _]. apply bool_decide_eq_true in Hg.
    split; [|done..]. intros Hd. by destruct (Hw Hd).
  - case_match; [done|].
    split; [|by repeat case_match..]. intros Hd.
    assert (Hd' : lp_writer s = false) by (by repeat case_match).
    destruct (Hw Hd') as (Hm & Hs & Hq). repeat case_match; cbn [set_tasks lp_main lp_senders lp_queue]; rewrite ?Hs; done.
  - case_match; [done|by apply run_task_shutdown].
  - repeat case_match; try done; by apply run_task_shutdown.
  - case_match eqn:Hg; [|done]. apply andb_true_iff in Hg as [Hg _]. apply bool_decide_eq_true in Hg.
    split; [|done..]. intros Hd. destruct (Hw Hd) as (_ & Hs & _). by rewrite Hs in Hg.
  - case_match eqn:Hg; [|done]. apply bool_decide_eq_true in Hg.
    split; [|done..]. intros Hd. destruct (Hw Hd) as (_ & Hs & _). by rewrite Hs in Hg.
  - unfold writer_round. destruct (lp_writer s) eqn:Hd; cbn [negb]; [|done].
    destruct (lp_queue s) eqn:Hq; [|repeat case_match; by split; [|intros Hm; specialize (Hj Hm)|]].
    case_match eqn:Hg; [|done]. apply andb_true_iff in Hg as [Hm Hs].
    apply negb_true_iff, bool_decide_eq_false in Hm. apply bool_decide_eq_true in Hs. by split.
  - case_match eqn:Hg; [|done]. split; [|done..]. intros Hd. by destruct (Hw Hd) as (_ & ? & ?).
  - case_match eqn:Hg; [|done]. apply andb_true_iff in Hg as [Hm Hd]. apply bool_decide_eq_true in Hm.
    apply negb_true_iff in Hd. destruct (Hw Hd) as (_ & ? & ?). split; try done. intros _. cbn. apply Hr. by rewrite Hm.
Qed.

(** ** The connections *)

(** The tasks are those of [Sessions], each with the peer of its handshake. *)
Record tasks_inv (server : VpnServer (EndpointId * Z) P4 P6) (es : list loop_event) (s : server_loop) : Prop := {
  ti_run : exists tes, lp_sys s = sys_run max_clients (mkSys server ∅) tes;
  ti_peer : forall i k c, conns (lp_sys s) !! i = Some (k, c) ->
    exists inc, Handshaken i inc ∈ es /\ accept_connection inc = Ret k;
}.

Lemma sys_step_run server s (e : event (EndpointId * Z)) :
  (exists tes, s = sys_run max_clients (mkSys (P4:=P4) (P6:=P6) server ∅) tes) ->
  exists tes, sys_step max_clients s e = sys_run max_clients (mkSys server ∅) tes.
Proof. intros [tes ->]. exists (tes ++ [e])%list. unfold sys_run. by rewrite fold_left_app. Qed.

Lemma run_peer (sy : sys (EndpointId * Z) P4 P6) (id i : nat) (w : bool) (k : EndpointId * Z) (c : pc) :
  conns (sys_step max_clients sy (Run id w)) !! i = Some (k, c) -> exists c0, conns sy !! i = Some (k, c0).
Proof.
  cbn [sys_step]. repeat case_match; try by eauto. cbn [conns]. intros Hl.
  apply lookup_insert_Some in Hl as [[<- [= <- <-]]|[_ Hl]]; eauto.
Qed.

Lemma loop_step_tasks server es (s : server_loop) e :
  tasks_inv server es s -> tasks_inv server (es ++ [e]) (loop_step s e).
Proof.
  intros [Hr Hp].
  assert (Hp' : forall i k c, conns (lp_sys s) !! i = Some (k, c) ->
    exists inc, Handshaken i inc ∈ (es ++ [e])%list /\ accept_connection inc = Ret k).
  { intros i k c Hl. destruct (Hp i k c Hl) as (inc & Hin & Ha). exists inc. split; [|done]. set_solver. }
  assert (Hrun : forall id w, tasks_inv server (es ++ [e]) (run_task s id w)).
  { intros id w. split; unfold run_task; cbn [set_tasks lp_sys]; [by apply sys_step_run|].
    intros i k c Hl. destruct (run_peer _ _ _ _ _ _ Hl) as [c0 Hl0]. by eapply Hp'. }
  destruct e as [id|id inc|id w|id e w|id req|id| | |]; cbn [loop_step]; unfold writer_round;
    try (by repeat case_match; auto; split).
  case_match eqn:Hg; [by split|]. destruct (accept_connection inc) as [k| |] eqn:Ha; try by split.
  split; cbn [set_tasks lp_sys]; [by apply sys_step_run|]. cbn [sys_step]. intros i k0 c0.
  case_match; [apply Hp'|]. cbn [conns]. intros Hl. apply lookup_insert_Some in Hl as [[<- [= <- <-]]|[_ Hl]]; [|by eapply Hp'].
  exists inc. split; [set_solver|done].
Qed.

(** Only peers whose credential verifies get past the handshake. *)
Lemma accept_connection_auth (incoming : Incoming) (k : EndpointId * Z) :
  accept_connection incoming = Ret k -> inc_remote_id incoming = Some k.1 /\
  exists h, device_id h = k.2 /\
    verify_client_auth parse_endpoint_id parse_public_key verify_endpoint_id_signature authorized_keys (auth h) k.1 = true.
Proof.
  unfold accept_connection. destruct (inc_remote_id incoming) as [remote|]; [|done].
  destruct (inc_bi incoming) as [[send recv]|]; [|done].
  destruct (accept_handshake _ _ _ _ _ remote send recv) as [send' r] eqn:Ha.
  destruct r as [[h recv']| |]; cbn; [|done..]. intros [= <-]. cbn [fst snd]. split; [done|].
  exists h. split; [done|]. unfold accept_handshake in Ha. repeat case_match; simplify_eq. done.
Qed.

(** ** The writer drains the queue *)

Lemma writer_round_drains (s : server_loop) :
  lp_writer s = true -> lp_main s = Draining -> lp_senders s = ∅ ->
  let s' := writer_round s in
  lp_main s' = Draining /\ lp_senders s' = ∅ /\
  (lp_queue s = [] -> lp_writer s' = false) /\
  (lp_queue s <> [] -> lp_writer s' = true /\ length (lp_queue s') < length (lp_queue s)).
Proof.
  intros Hw Hm Hs s'. unfold s', writer_round. rewrite Hw. cbn [negb].
  destruct (lp_queue s) as [|q0 q] eqn:Hq.
  - rewrite Hm, (bool_decide_false (Draining = Accepting)), (bool_decide_true (lp_senders s = ∅)) by done. done.
  - destruct (drain_batch _ _ _ _) as [[dev st] stop]. cbn [lp_main lp_senders lp_writer lp_queue].
    split_and!; try done. intros _. split; [done|]. rewrite length_drop. unfold WRITE_BATCH_SIZE. cbn [length]. lia.
Qed.

Lemma writer_finishes n : forall s : server_loop,
  lp_main s = Draining -> lp_senders s = ∅ -> length (lp_queue s) < n ->
  let s' := loop_run s (replicate n WriterRuns) in lp_main s' = Draining /\ lp_writer s' = false.
Proof.
  assert (Hstop : forall m (s : server_loop), lp_writer s = false -> loop_run s (replicate m WriterRuns) = s).
  { induction m as [|m IH]; intros s Hw; [done|]. unfold loop_run in *. cbn [replicate fold_left loop_step].
    unfold writer_round. rewrite Hw. by apply IH. }
  induction n as [|n IH]; intros s Hm Hs Hl; [lia|].
  destruct (lp_writer s) eqn:Hw; [|by rewrite Hstop].
  unfold loop_run. cbn [replicate fold_left loop_step]. fold (loop_run (writer_round s) (replicate n WriterRuns)).
  destruct (writer_round_drains s Hw Hm Hs) as (Hm' & Hs' & He & Hn).
  destruct (decide (lp_queue s = [])) as [Hq|Hq].
  - rewrite Hstop by auto. auto.
  - destruct (Hn Hq). apply IH; [done..|lia].
Qed.

Lemma init_inv server dev :
  let s := loop_init server dev in
  channel_inv dev s /\ holders_inv s /\ shutdown_inv s /\ tasks_inv server [] s.
Proof.
  split_and!; split; cbn; try done.
  - unfold TUN_WRITER_CHANNEL_SIZE. lia.
  - by exists [].
Qed.

Lemma loop_run_inv server dev es :
  let s := loop_run (loop_init server dev) es in
  channel_inv dev s /\ holders_inv s /\ shutdown_inv s /\ tasks_inv server es s.
Proof.
  induction es as [|e es IH] using rev_ind; [apply init_inv|]. unfold loop_run in *. rewrite fold_left_app.
  cbn [fold_left]. destruct IH as (Hc & Hh & Hs & Ht).
  auto using loop_step_channel, loop_step_holders, loop_step_shutdown, loop_step_tasks.
Qed.

(** C12. The running server, in every interleaving of its accept loop, its
    connection and inbound tasks and its TUN writer.  Its connection tasks run
    as in [Sessions], and each is of a peer whose handshake verified under the
    id of its connection.  Every request an inbound task has queued is, in
    order, handed to the device or still in the channel, which stays within its
    capacity; the device is where the writer's calls for those packets leave
    it, and the counters are exact.  When [run] returns, the TUN reader has
    been aborted, no task holds a sender, every connection is past serving or
    has ended, and every request ever queued has been handed to the device;
    and once the accept loop is over and the senders are gone it does return,
    after at most one round of the writer per queued request and one more. *)
Theorem server_run_graceful server dev es :
  let s := loop_run (loop_init server dev) es in
  ((exists tes, lp_sys s = sys_run max_clients (mkSys server ∅) tes) /\
   (forall i k c, conns (lp_sys s) !! i = Some (k, c) ->
      exists inc h, Handshaken i inc ∈ es /\ inc_remote_id inc = Some k.1 /\ device_id h = k.2 /\
        verify_client_auth parse_endpoint_id parse_public_key verify_endpoint_id_signature authorized_keys
          (auth h) k.1 = true)) /\
  ((concat (lp_batches s) ++ lp_queue s)%list = lp_accepted s /\ length (lp_queue s) <= TUN_WRITER_CHANNEL_SIZE /\
   concat (map packets_of (calls_made s)) = map req_packet (concat (lp_batches s)) /\
   let '(dev', rs) := results write_all self dev (calls_made s) in
   lp_dev s = dev' /\
   packets_tun_write_failed (lp_stats s) = Z.of_nat (length (filter (fun r => is_ret r = false) rs)) /\
   packets_from_clients (lp_stats s) = Z.of_nat (length (lp_accepted s))) /\
  (lp_main s = Returned ->
     lp_reader s = false /\ lp_senders s = ∅ /\ lp_pending s = ∅ /\ concat (lp_batches s) = lp_accepted s /\
     (forall i k c, conns (lp_sys s) !! i = Some (k, c) -> early c = false)) /\
  (lp_main s = Draining -> lp_senders s = ∅ ->
     lp_main (loop_run s (replicate (Datatypes.S (length (lp_queue s))) WriterRuns ++ [Join])) = Returned).
Proof.
  intros s. destruct (loop_run_inv server dev es) as (Hc & Hh & Hs & Ht). fold s in Hc, Hh, Hs, Ht.
  destruct Hc as [Ho Hr Hb Hd Hf Hn]. split_and!; [apply Ht|..|].
  - intros i k c Hl. destruct (ti_peer _ _ _ Ht i k c Hl) as (inc & Hin & Ha).
    destruct (accept_connection_auth _ _ Ha) as (Hid & h & Hdev & Hv). by exists inc, h.
  - done.
  - done.
  - apply concat_calls_packets.
  - destruct (results write_all self dev (calls_made s)) as [dev' rs]. done.
  - intros Hm. destruct (si_writer _ Hs (si_joined _ Hs Hm)) as (Hna & He & Hq).
    rewrite Hq, app_nil_r in Ho. split_and!; [by apply (si_reader _ Hs)|done| |done|].
    + apply set_eq. intros i. split; [|set_solver]. intros Hin. destruct (hi_pending _ Hh i Hin) as [_ Hx]. by rewrite He in Hx.
    + intros i k c Hl. destruct (early c) eqn:Hec; [|done]. pose proof (hi_early _ Hh i k c Hl Hec) as Hx. by rewrite He in Hx.
  - intros Hm He. unfold loop_run. rewrite fold_left_app.
    destruct (writer_finishes (Datatypes.S (length (lp_queue s))) s Hm He) as [Hm' Hw']; [lia|].
    unfold loop_run in Hm', Hw'. cbn [fold_left loop_step]. rewrite Hm', Hw'. by rewrite bool_decide_true.
Qed.
End Loop.

(** ** [VpnServer::run] *)

Section Run.
Context {EndpointId PublicKey : Type} `{Countable EndpointId} `{Countable PublicKey}.
Context {Net4 Net6 : Type} `{NetLaws V4_BITS Net4} `{NetLaws V6_BITS Net6}.
Context `{Json VpnHandshake} `{Json (VpnHandshakeResponse Net4 Net6)}.
Context (parse_endpoint_id : string -> option EndpointId) (parse_public_key : string -> option PublicKey).
Context (verify_endpoint_id_signature : PublicKey -> EndpointId -> string -> bool).
Context {S : Type} (write_stream : S -> list Z -> S * vres unit).
Context (sha256 : list Z -> list Z) (endpoint_bytes : EndpointId -> list Z).
Context {D : Type} (write_all : D -> list Z -> D * vres unit).
Context {W : Type} `{System W} `{TunApi W}.
#[local] Instance run_pool6 : AddrPool (EndpointId * Z) (Ip6Pool EndpointId Net6) :=
  ip6_pool_ops sha256 endpoint_bytes.

Abbreviation Loop :=
  (server_loop (EndpointId:=EndpointId) (P4:=IpPool EndpointId Net4) (P6:=Ip6Pool EndpointId Net6) (D:=D)).

(** The device is set up and split, then the tasks run; [tun_split] gives the
    write half. *)
Definition VpnServer_run (with_netmask : Z -> Z -> option Net4) (os : Os) (w : W) (tun_split : TunDevice -> option D)
    (config : VpnServerConfig (Net4:=Net4) (Net6:=Net6)) (authorized_keys : gset PublicKey)
    (server : VpnServer (EndpointId * Z) (IpPool EndpointId Net4) (Ip6Pool EndpointId Net6))
    (es : list (loop_event (EndpointId:=EndpointId) (S:=S))) : W * vres Loop :=
  match setup_tun with_netmask os w server with
  | (w, Ret tun_device) =>
      match tun_split tun_device with
      | Some dev =>
          let self := mkTunWriter (td_vnet_hdr_enabled tun_device) (off_enabled (td_offload_status tun_device)) in
          (w, Ret (loop_run (Net4:=Net4) (Net6:=Net6) parse_endpoint_id parse_public_key verify_endpoint_id_signature
                     write_stream write_all authorized_keys (max_clients config) self (loop_init server dev) es))
      | None => (w, Fail (VpnError_tun_device (msg "Failed to split TUN device")))
      end
  | (w, Fail e) => (w, Fail e)
  | (w, Panic) => (w, Panic)
  end.
End Run.

(** ** Evaluation *)

#[local] Instance loop_handshake_json : Json VpnHandshake := one_value_json sample_handshake [123; 125]%Z.
#[local] Instance loop_response_json : Json (VpnHandshakeResponse (CNet V4_BITS) (CNet V6_BITS)) :=
  one_value_json server_full [91; 93]%Z.
#[local] Instance loop_pool6 : AddrPool (Z * Z) (Ip6Pool Z (CNet V6_BITS)) := ip6_pool_ops sample_digest (fun e => [e]).

Definition sample_incoming : Incoming (EndpointId:=Z) (S:=list Z) :=
  mkIncoming (Some 5%Z) (Some ([], mkRecvStream [0; 0; 0; 2; 123; 125]%Z Finished)).

Definition sample_request : TunWriteRequest := mkReq [69; 1]%Z None.

(** A client connects and delivers two packets; the endpoint closes, the client
    leaves, the writer drains and [run] returns. *)
Definition sample_session : list (loop_event (EndpointId:=Z) (S:=list Z)) :=
  ([Accept 1; Handshaken 1 sample_incoming] ++ replicate 7 (Step 1 true) ++
   [Deliver 1 sample_request; Deliver 1 sample_request; SelectEnds; Accept 2; WriterRuns; InboundEnd 1;
    WriterRuns; Join])%list.

Definition sample_loop (es : list (loop_event (EndpointId:=Z) (S:=list Z))) :=
  loop_run (Net4:=CNet V4_BITS) (Net6:=CNet V6_BITS) (fun _ => Some 5%Z) (fun _ => Some 9%Z) (fun _ _ _ => true)
    record_all (fun (d : list (list Z)) f => ((d ++ [f])%list, Ret tt)) {[9%Z]} 10 (mkTunWriter false false)
    (loop_init (mkServer (Some sample_pool) None ∅ ∅ ∅ 0 1) []) es.

(** All packets are written, and nobody holds a sender; the connection is still
    to be cleaned up when [run] returns. *)
Lemma server_run_graceful_witness :
  lp_main (sample_loop sample_session) = Returned /\
  lp_dev (sample_loop sample_session) = [[69; 1]; [69; 1]]%Z /\
  active_connections (srv (lp_sys (sample_loop sample_session))) = 1%Z /\
  lp_reader (sample_loop sample_session) = false /\ lp_senders (sample_loop sample_session) = ∅ /\
  concat (lp_batches (sample_loop sample_session)) = lp_accepted (sample_loop sample_session).
Proof.
  pose proof (server_run_graceful (Net4:=CNet V4_BITS) (Net6:=CNet V6_BITS) (fun _ => Some 5%Z) (fun _ => Some 9%Z)
    (fun _ _ _ => true) record_all (fun (d : list (list Z)) f => ((d ++ [f])%list, Ret tt)) {[9%Z]} 10
    (mkTunWriter false false) (mkServer (P4:=IpPool Z (CNet V4_BITS)) (P6:=Ip6Pool Z (CNet V6_BITS))
      (Some sample_pool) None ∅ ∅ ∅ 0 1) [] sample_session) as Ht.
  unfold sample_loop. cbv zeta in Ht. destruct Ht as (_ & _ & Hret & _).
  match type of Hret with lp_main ?x = _ -> _ => set (s := x) in Hret |- * end.
  assert (Hm : lp_main s = Returned) by (vm_compute; reflexivity).
  assert (Hd : lp_dev s = [[69; 1]; [69; 1]]%Z) by (vm_compute; reflexivity).
  assert (Ha : active_connections (srv (lp_sys s)) = 1%Z) by (vm_compute; reflexivity).
  destruct (Hret Hm) as (Hr & Hs & _ & Hb & _).
  split; [exact Hm|]. split; [exact Hd|]. split; [exact Ha|]. split; [exact Hr|]. split; [exact Hs|exact Hb].
Defined.
