(* ===== verification/EndToEnd.v ===== *)
(** * From one TUN device to the other

    The data path of the tunnel put together, in both directions: what the
    client's outbound task ([src/tunnel/client.rs]) reads from its device, sent
    as datagrams over a network that may lose and reorder them, filtered by the server's
    inbound task and written to its device by the TUN writer
    ([src/tunnel/server.rs], [src/net/device.rs]); and what the server queues
    for a client, sent by the client's datagram writer and written to the
    client's device. *)

From S2P Require Import Prelude Errors Net Offload Signaling Stream Packet Forward Outbound TunWriter ClientTasks ServerRun.

(** QUIC datagrams are unreliable and unordered: those of a list arrive in some
    batches, some of them not at all, none of them made up or twice. *)
Definition carries {A} (network : list (list Z) -> list (list A)) (packet : A -> list Z) : Prop :=
  forall sent, map packet (concat (network sent)) ⊆+ sent.

(** What was sent arrives in the order it was sent in, as far as it does. *)
Definition keeps_order {A} (network : list (list Z) -> list (list A)) (packet : A -> list Z) (sent : list (list Z)) : Prop :=
  map packet (concat (network sent)) `sublist_of` sent.

(** A channel hands over everything, in order, in some batches. *)
Definition batches_all {A} (batching : list A -> list (list A)) : Prop := forall l, concat (batching l) = l.

(** ** From the client to the server *)

Section Uplink.
(* the client: its connection, its device, its transport's ports *)
Context {C : Type} (try_many : C -> list (list Z) -> C * (nat + SendDatagramError)).
Context (wait_one : C -> list Z -> C * (unit + SendDatagramError)).
Context (queued : C -> list (list Z)) (conn_ok : conn_laws try_many wait_one queued).
Context (PACKET_INFORMATION_LENGTH : nat) (reader : TunReader) (client_ports : gset Z).
(* the server: its channel, its device, its transport's ports *)
Context {Key : Type} `{Countable Key}.
Context {T : Type} (try_send : T -> TunWriteRequest -> T * try_result) (send : T -> TunWriteRequest -> T * bool).
Context (accepted : T -> list TunWriteRequest) (channel_ok : tx_laws try_send send accepted).
Context (client_key : Key) (server_ports : gset Z).
Context {D : Type} (write_all : D -> list Z -> D * vres unit) (self : TunWriter).
(* what lies between *)
Context (network : list (list Z) -> list (list (Inbound Key))) (network_ok : carries network in_packet).
Context (batching : list TunWriteRequest -> list (list TunWriteRequest)) (batching_ok : batches_all batching).

Abbreviation packets_read := (frame_packets PACKET_INFORMATION_LENGTH reader client_ports).
Abbreviation done_burst := (burst_done PACKET_INFORMATION_LENGTH reader client_ports).

(** Client task, network, server task and TUN writer, one after the other. *)
Definition uplink (bursts : list Burst) (st : OutboundState C) (tx : T) (stats : VpnServerStats) (dev : D)
  : outcome unit (D * VpnServerStats * bool) :=
  r ← outbound_task try_many wait_one PACKET_INFORMATION_LENGTH reader client_ports bursts st;
  match handle_client_data try_send send client_key server_ports (network (queued (out_conn r.1))) tx stats with
  | Ret (tx, stats) => Ret (server_tun_writer write_all self dev stats (batching (accepted tx)))
  | _ => Panic
  end.

(** The frames read in the batches of [runs]. *)
Definition frames_read (completed : list Burst) (runs : list (list Z * list (list Z) * DatagramSendOutcome)) : list (list Z) :=
  concat (zip_with (fun b x => (burst_reads x.1.1 b).1) completed runs).

Lemma offered_sublist max_size frames :
  offered PACKET_INFORMATION_LENGTH reader client_ports max_size frames `sublist_of` (frames ≫= fun raw => (packets_read raw).1).
Proof.
  induction frames as [|raw frames IH]; [done|]. cbn. apply sublist_app; [apply sublist_filter|exact IH].
Qed.

Lemma packet_count_length frames :
  length (frames ≫= fun raw => (packets_read raw).1) <= packet_count PACKET_INFORMATION_LENGTH reader client_ports frames.
Proof.
  induction frames as [|raw frames IH]; [done|]. unfold packet_count in *. cbn. rewrite length_app. lia.
Qed.

(** What the client sends are packets it read, all of them when its accounts
    show no drop. *)
Lemma runs_sent completed runs :
  Forall2 done_burst completed runs ->
  let sent := concat (map (fun x => x.1.2) runs) in
  let packets := frames_read completed runs ≫= fun raw => (packets_read raw).1 in
  sent `sublist_of` packets /\
  (Forall (fun x => accounted x.2 = Stream.sent x.2) runs -> sent = packets).
Proof.
  unfold frames_read. induction 1 as [|b [[budgets acc] oc] completed runs Hb Hrest IH]; [done|]. cbn [map concat zip_with fst snd].
  unfold burst_done in Hb. destruct (burst_reads budgets b) as [frames e]. cbn [fst].
  destruct Hb as (_ & _ & _ & Hsub & Hsent & Hacc). destruct IH as [IHs IHe]. rewrite bind_app.
  pose proof (offered_sublist (bu_max_size b) frames) as Ho. split.
  - apply sublist_app; [by etrans|exact IHs].
  - intros Hall. inversion_clear Hall as [|? ? Hd Hall']. cbn [snd] in Hd. f_equal; [|by apply IHe].
    apply sublist_same_length; [by etrans|]. pose proof (packet_count_length frames). lia.
Qed.

End Uplink.

(** ** From the server to a client *)

Section Downlink.
(* the server: its device, its transport's ports, the connection of the client *)
Context {Key : Type} `{Countable Key}.
Context (PACKET_INFORMATION_LENGTH : nat) (reader : TunReader) (server_ports : gset Z).
Context {C : Type} (try_many : C -> list (list Z) -> C * (nat + SendDatagramError)).
Context (wait_one : C -> list Z -> C * (unit + SendDatagramError)).
Context (queued : C -> list (list Z)) (conn_ok : conn_laws try_many wait_one queued).
Context (k : Key).

(** What happens at the server, seen from the client [k]. *)
Inductive down_event : Type :=
| FrameRead (raw : list Z)            (* the TUN reader handles a frame *)
| SendRound                           (* a round of the client's datagram writer *)
| Retable (t : Tables Key)            (* the routing tables change *)
| Resize (max_size : option nat).     (* the connection's datagram limit changes *)

(** The server's side; [dn_routed] are the datagrams of the frames for the
    client, [dn_taken] those its writer took from the queue. *)
Record down_state : Type := mkDown {
  dn_reader : ReaderState (Key:=Key);
  dn_conn : C;
  dn_routed : list (list Z);
  dn_taken : list (list Z);
}.

Definition set_handle (st : ReaderState (Key:=Key)) (h : Handle) (stats : VpnServerStats) : ReaderState :=
  mkReader (r_tables st) (<[k := h]> (r_clients st)) stats.

(** The datagrams of a frame that are for the client. *)
Definition routed_to (st : ReaderState (Key:=Key)) (raw : list Z) : list (list Z) :=
  match frame_target PACKET_INFORMATION_LENGTH reader server_ports raw st with
  | Some (k', offload, packet) =>
      if decide (k' = k) then
        match r_clients st !! k with
        | Some h => datagrams_of (max_datagram_size h) offload packet
        | None => []
        end
      else []
  | None => []
  end.

Definition down_step (s : down_state) (e : down_event) : outcome VpnError down_state :=
  let st := dn_reader s in
  match e with
  | FrameRead raw =>
      st' ← tun_frame PACKET_INFORMATION_LENGTH reader server_ports raw st;
      Ret (mkDown st' (dn_conn s) (dn_routed s ++ routed_to st raw) (dn_taken s))
  | SendRound =>
      match r_clients st !! k with
      | None => Ret s
      | Some h =>
          let q := h_queue h in
          if negb (receiver_alive q) || bool_decide (chan q = []) then Ret s else
          match datagram_writer_round try_many wait_one [] (dn_conn s) q (r_stats st) with
          | Ret (conn, q', stats, go) =>
              let q' := mkQueue (chan q') (queued_bytes q') (q_arena q') go in
              Ret (mkDown (set_handle st (mkHandle (max_datagram_size h) q') stats) conn (dn_routed s)
                     (dn_taken s ++ take DATAGRAM_WRITE_BATCH (chan q)))
          | _ => Panic
          end
      end
  | Retable t => Ret (mkDown (mkReader t (r_clients st) (r_stats st)) (dn_conn s) (dn_routed s) (dn_taken s))
  | Resize max_size =>
      match r_clients st !! k with
      | None => Ret s
      | Some h => Ret (mkDown (set_handle st (mkHandle max_size (h_queue h)) (r_stats st)) (dn_conn s) (dn_routed s)
                         (dn_taken s))
      end
  end.

Fixpoint down_run (es : list down_event) (s : down_state) : outcome VpnError down_state :=
  match es with
  | [] => Ret s
  | e :: es => s ← down_step s e; down_run es s
  end.

(** *** The queue between the reader and the writer *)

Record down_inv (s0 s : down_state) : Prop := {
  di_arena : forall k' h, r_clients (dn_reader s) !! k' = Some h -> q_arena (h_queue h) = [];
  di_client : exists h, r_clients (dn_reader s) !! k = Some h /\ settled (h_queue h) /\
    (dn_taken s ++ chan (h_queue h)) `sublist_of` dn_routed s /\
    (receiver_alive (h_queue h) = true -> (total_cost (dn_routed s) <= CLIENT_QUEUE_BYTES)%Z ->
       dn_taken s ++ chan (h_queue h) = dn_routed s);
  di_sent : exists acc, queued (dn_conn s) = queued (dn_conn s0) ++ acc /\ acc `sublist_of` dn_taken s;
}.

Lemma total_cost_nonneg l : (0 <= total_cost l)%Z.
Proof.
  induction l as [|d l IH]; [done|]. change (total_cost (d :: l)) with (cost d + total_cost l)%Z.
  unfold cost, queued_datagram_cost, QUEUED_DATAGRAM_OVERHEAD. lia.
Qed.

Lemma frame_inv s0 s raw :
  down_inv s0 s -> exists s', down_step s (FrameRead raw) = Ret s' /\ down_inv s0 s' /\
    r_tables (dn_reader s') = r_tables (dn_reader s) /\ dn_routed s' = dn_routed s ++ routed_to (dn_reader s) raw.
Proof.
  intros [Ha (h & Hh & Hset & Hsub & Hfull) Hsent]. cbn [down_step].
  destruct (tun_frame_effect PACKET_INFORMATION_LENGTH reader server_ports raw (dn_reader s) Ha) as (st' & -> & Ht & He).
  cbn [mbind outcome_bind]. eexists. split; [done|]. split; [|done].
  unfold routed_to. destruct (frame_target _ _ _ raw (dn_reader s)) as [[[k' offload] packet]|].
  2: { split; cbn [dn_reader dn_conn dn_routed dn_taken]; rewrite ?He, ?app_nil_r; eauto. }
  destruct He as [Hoth He]. destruct (decide (k' = k)) as [->|Hne].
  - rewrite Hh in He |- *. destruct He as (q' & new & Hq & Har & Hal & Hnew & Hch & Hb & _ & Hall).
    split; cbn [dn_reader dn_conn dn_routed dn_taken]; [| |done].
    + intros k0 h0 H0. destruct (decide (k0 = k)) as [->|Hn]; [rewrite Hq in H0; by simplify_eq|].
      rewrite Hoth in H0 by done. by eapply Ha.
    + exists (mkHandle (max_datagram_size h) q'). cbn [h_queue]. split; [done|]. unfold settled in *.
      rewrite Hch, app_assoc, total_cost_app. split; [lia|]. split; [by apply sublist_app|].
      rewrite Hal. intros Hlive Hfit. rewrite total_cost_app in Hfit.
      pose proof (total_cost_nonneg (dn_taken s)). pose proof (total_cost_nonneg (datagrams_of (max_datagram_size h) offload packet)).
      specialize (Hfull Hlive ltac:(lia)). rewrite Hfull. f_equal. apply Hall; [done|].
      rewrite <-Hfull, total_cost_app in Hfit. lia.
  - split; cbn [dn_reader dn_conn dn_routed dn_taken]; rewrite ?app_nil_r; [| |done].
    + intros k0 h0 H0. destruct (decide (k0 = k')) as [->|Hn]; [|rewrite Hoth in H0 by done; by eapply Ha].
      destruct (r_clients (dn_reader s) !! k') as [h'|] eqn:Hk'; [|congruence].
      destruct He as (q' & new & Hq & Har & _). rewrite Hq in H0. by simplify_eq.
    + exists h. by rewrite Hoth.
Qed.

Lemma set_handle_arena st h stats :
  (forall k' h', r_clients st !! k' = Some h' -> q_arena (h_queue h') = []) -> q_arena (h_queue h) = [] ->
  forall k' h', r_clients (set_handle st h stats) !! k' = Some h' -> q_arena (h_queue h') = [].
Proof.
  intros Ha Hh k' h' Hl. cbn [set_handle r_clients] in Hl. apply lookup_insert_Some in Hl as [[_ <-]|[_ Hl]]; [done|].
  by eapply Ha.
Qed.

Lemma writer_round_arena new conn q stats conn' q' stats' go :
  datagram_writer_round try_many wait_one new conn q stats = Ret (conn', q', stats', go) -> q_arena q' = q_arena q.
Proof.
  unfold datagram_writer_round, recv_many. destruct (send_datagram_batch _ _ _ _ _) as [[[c o] r]| |]; cbn; [|done..].
  by intros [= <- <- <- <-].
Qed.

Lemma send_inv s0 s :
  down_inv s0 s -> exists s', down_step s SendRound = Ret s' /\ down_inv s0 s' /\
    r_tables (dn_reader s') = r_tables (dn_reader s) /\ dn_routed s' = dn_routed s.
Proof.
  intros Hinv. pose proof Hinv as [Ha (h & Hh & Hset & Hsub & Hfull) (acc0 & Hq0 & Hacc0)]. cbn [down_step]. rewrite Hh.
  destruct (receiver_alive (h_queue h)) eqn:Hal; cbn [negb orb]; [|by exists s].
  destruct (bool_decide (chan (h_queue h) = [])); [by exists s|].
  destruct (writer_round_spec try_many wait_one queued conn_ok [] (dn_conn s) (h_queue h) (r_stats (dn_reader s)) Hset)
    as (conn' & q' & stats' & go & Hw & Hset' & Hch & _ & acc & Hq & Hacc & _).
  rewrite Hw. eexists. split; [done|]. split; [|done]. rewrite app_nil_r in Hch.
  assert (Hsame : (dn_taken s ++ take DATAGRAM_WRITE_BATCH (chan (h_queue h))) ++ chan q' =
    dn_taken s ++ chan (h_queue h)) by (by rewrite Hch, <-app_assoc, take_drop).
  split; cbn [dn_reader dn_conn dn_routed dn_taken].
  - apply set_handle_arena; [done|]. cbn [h_queue q_arena]. rewrite (writer_round_arena _ _ _ _ _ _ _ _ Hw). by eapply Ha.
  - exists (mkHandle (max_datagram_size h) (mkQueue (chan q') (queued_bytes q') (q_arena q') go)).
    cbn [set_handle r_clients h_queue chan receiver_alive]. rewrite lookup_insert_eq, Hsame.
    split_and!; [done|exact Hset'|done|]. intros _ Hfit. by apply Hfull.
  - exists (acc0 ++ acc). rewrite Hq, Hq0, app_assoc. split; [done|]. by apply sublist_app.
Qed.

Lemma down_step_inv s0 s e :
  down_inv s0 s -> exists s', down_step s e = Ret s' /\ down_inv s0 s' /\
    r_tables (dn_reader s') = (match e with Retable t => t | _ => r_tables (dn_reader s) end) /\
    dn_routed s' = dn_routed s ++ (match e with FrameRead raw => routed_to (dn_reader s) raw | _ => [] end).
Proof.
  intros Hinv. destruct e as [raw| |t|max_size]; [by apply frame_inv| | |]; rewrite ?app_nil_r.
  - by apply send_inv.
  - eexists. split; [done|]. split; [|done]. by destruct Hinv.
  - destruct Hinv as [Ha (h & Hh & Hset & Hrest) Hsent]. cbn [down_step]. rewrite Hh. eexists. split; [done|].
    split; [|done]. split; cbn [dn_reader dn_conn dn_routed dn_taken]; [| |done].
    + apply set_handle_arena; [done|]. exact (Ha k h Hh).
    + exists (mkHandle max_size (h_queue h)). cbn [set_handle r_clients]. by rewrite lookup_insert_eq.
Qed.

(** A datagram of a frame read whose destination is the client's, under the
    tables [t]. *)
Definition stems_from (t : Tables Key) (raw datagram : list Z) : Prop :=
  exists offload packet dest max_size, split_frame PACKET_INFORMATION_LENGTH reader raw = Ret (offload, packet) /\
    self_encapsulated server_ports packet = false /\ dest_of packet = Some dest /\ lookup_dest t dest = Some k /\
    datagram ∈ datagrams_of max_size offload packet.

Lemma routed_stems st raw d : d ∈ routed_to st raw -> stems_from (r_tables st) raw d.
Proof.
  unfold routed_to, frame_target. intros Hd.
  destruct (split_frame _ reader raw) as [[offload packet]| |] eqn:Hsp; [|by apply not_elem_of_nil in Hd..].
  destruct (self_encapsulated server_ports packet) eqn:Hse; [by apply not_elem_of_nil in Hd|].
  destruct (dest_of packet) as [dest|] eqn:Hde; [|by apply not_elem_of_nil in Hd].
  cbn [mbind option_bind] in Hd.
  destruct (lookup_dest (r_tables st) dest) as [k'|] eqn:Hlk; [|by apply not_elem_of_nil in Hd].
  cbn [mbind option_bind] in Hd. destruct (decide (k' = k)) as [->|]; [|by apply not_elem_of_nil in Hd].
  destruct (r_clients st !! k) as [h|]; [|by apply not_elem_of_nil in Hd]. by exists offload, packet, dest, (max_datagram_size h).
Qed.

(** The routing tables after some events. *)
Definition tables_after (t : Tables Key) (es : list down_event) : Tables Key :=
  fold_left (fun t e => match e with Retable t' => t' | _ => t end) es t.

Lemma down_run_inv es : forall s0 s, down_inv s0 s ->
  exists s', down_run es s = Ret s' /\ down_inv s0 s' /\
    forall d, d ∈ dn_routed s' -> d ∈ dn_routed s \/
      exists before raw after, es = before ++ FrameRead raw :: after /\
        stems_from (tables_after (r_tables (dn_reader s)) before) raw d.
Proof.
  induction es as [|e es IH]; intros s0 s Hinv; cbn [down_run].
  { exists s. split; [done|]. split; [done|]. by left. }
  destruct (down_step_inv s0 s e Hinv) as (s1 & -> & Hinv1 & Ht1 & Hr1). cbn [mbind outcome_bind].
  destruct (IH s0 s1 Hinv1) as (s' & Hrun & Hinv' & Hd). exists s'. split; [done|]. split; [done|].
  intros d Hin. destruct (Hd d Hin) as [Hin1|(before & raw & after & -> & Hst)].
  - rewrite Hr1 in Hin1. apply elem_of_app in Hin1 as [Hin1|Hin1]; [by left|]. right.
    destruct e as [raw| | |]; try by apply not_elem_of_nil in Hin1.
    exists [], raw, es. split; [done|]. by apply routed_stems.
  - right. exists (e :: before), raw, after. split; [done|]. unfold tables_after in *. cbn [fold_left]. by rewrite <-Ht1.
Qed.

(** *** To the client's device *)

Context {T : Type} (try_send : T -> TunWriteRequest -> T * try_result) (send : T -> TunWriteRequest -> T * bool).
Context (accepted : T -> list TunWriteRequest) (channel_ok : tx_laws try_send send accepted).
Context {D : Type} (write_all : D -> list Z -> D * vres unit) (self : TunWriter).
Context (network : list (list Z) -> list (list (list Z))) (network_ok : carries network id).
Context (batching : list TunWriteRequest -> list (list TunWriteRequest)) (batching_ok : batches_all batching).

(** The server's side, the network, the client's inbound task and TUN writer. *)
Definition downlink (es : list down_event) (s : down_state) (tx : T) (dev : D) : outcome VpnError (D * Z * bool) :=
  s ← down_run es s;
  let '(tx, _) := inbound_task try_send send tx (map inl (network (queued (dn_conn s)))) in
  Ret (client_tun_writer write_all self dev (batching (accepted tx))).

Lemma inbound_accepts tx reads :
  accepted tx = [] ->
  exists got rest, concat reads = got ++ rest /\
    accepted (inbound_task try_send send tx (map inl reads)).1 = map raw_request got.
Proof.
  intros Htx. pose proof (inbound_task_spec try_send send accepted channel_ok tx (map inl reads)) as Hi.
  destruct (inbound_task _ _ tx _) as [tx' r]. destruct Hi as (head & tail & Hsplit & Hacc & _).
  exists head, tail. cbn [fst]. rewrite Hacc, Htx. split; [|done]. rewrite <-Hsplit. clear.
  induction reads as [|l reads IH]; [done|]. cbn. by rewrite IH.
Qed.

End Downlink.

(** ** Evaluation *)

(** A connection that takes everything, a network that loses the second
    datagram and delivers the others in reverse order, a channel emptied at once, and a device that records. *)
Definition open_try (c l : list (list Z)) : list (list Z) * (nat + SendDatagramError) := (c ++ l, inl (length l)).
Definition open_wait (c : list (list Z)) (d : list Z) : list (list Z) * (unit + SendDatagramError) := (c ++ [d], inl tt).

Lemma open_conn_laws : conn_laws open_try open_wait id.
Proof.
  split; unfold open_try, open_wait; intros.
  - simplify_eq. split; [done|]. by rewrite take_ge.
  - simplify_eq.
  - simplify_eq. done.
  - simplify_eq.
Qed.

Definition lossy {A} (l : list A) : list A := match l with a :: _ :: rest => a :: rest | _ => l end.

Lemma lossy_sublist {A} (l : list A) : lossy l `sublist_of` l.
Proof. destruct l as [|a [|b l]]; [done..|]. apply sublist_skip, sublist_cons. done. Qed.

Definition to_server (l : list (list Z)) : list (list (Inbound Z)) :=
  [map (fun p => mkInbound p sample_tables sample_tables) (rev (lossy l))].

Lemma to_server_ok : carries to_server in_packet.
Proof.
  intros l. unfold to_server. cbn. rewrite app_nil_r, map_map. cbn. rewrite map_id, <-Permutation_rev.
  apply sublist_submseteq, lossy_sublist.
Qed.

Definition at_once {A} (l : list A) : list (list A) := [l].
Lemma at_once_ok {A} : batches_all (@at_once A).
Proof. intros l. apply app_nil_r. Qed.

Definition record_frame (d : list (list Z)) (f : list Z) : list (list Z) * vres unit := (d ++ [f], Ret tt).

(** Client 1 sends to the gateway, to client 2 (lost on the way), with the
    address of client 2, and to another gateway. *)
Definition uplink_bursts : list Burst :=
  [mkBurst (TunFrame (sample_ipv4 2 1)) (Some 1200) 0
     [(0%Z, fun _ => Some (TunFrame (sample_ipv4 2 3))); (0%Z, fun _ => Some (TunFrame (sample_ipv4 3 1)));
      (0%Z, fun _ => Some (TunFrame (sample_ipv4 2 9)))] 0 0].

Definition sample_uplink :=
  uplink open_try open_wait id 4 (mkTunReader false false) ∅ sample_try_send sample_send id 1%Z ∅ record_frame
    (mkTunWriter false false) to_server at_once uplink_bursts sample_outbound [] stats_zero [].


(** The server reads frames for clients 2 and 1; client 2 gets its own. *)
Definition downlink_events : list (down_event (Key:=Z)) :=
  [FrameRead (sample_ipv4 9 3); FrameRead (sample_ipv4 9 2); SendRound; FrameRead (sample_ipv4 8 3); SendRound].

Definition to_client (l : list (list Z)) : list (list (list Z)) := [rev l].

Lemma to_client_ok : carries to_client id.
Proof. intros l. unfold to_client. cbn. by rewrite app_nil_r, map_id, <-Permutation_rev. Qed.

Definition sample_downlink :=
  downlink 4 (mkTunReader false false) ∅ open_try open_wait id 2%Z sample_try_send sample_send id record_frame
    (mkTunWriter false false) to_client at_once downlink_events
    (mkDown sample_reader_state [] [] []) [] [].

