(* ===== verification/ServerData.v ===== *)
(** * The data path of the running server ([src/tunnel/server.rs])

    [ServerLoop] with the tasks that move packets: the inbound task of each
    served client, which checks a packet in two lookups of the shared tables
    before it queues it, the TUN reader, which looks a frame's client up in two
    maps before it queues its datagrams, and the datagram writer of each
    session.  All of them run while the connection tasks of [Sessions] change
    the tables; one event is one step of one task. *)

From S2P Require Import Prelude Errors Net Config Offload Signaling Handshake IpPool Ip6Pool Sessions.
From S2P Require Import Checksum Segment Stream Packet Forward TunWriter Outbound Isolation ServerRun ServerLoop EndToEnd.

Definition DATAGRAM_READ_BATCH : nat := 64.

Section Data.
Context {EndpointId PublicKey : Type} `{Countable EndpointId} `{Countable PublicKey}.
Context {Net4 Net6 : Type} `{NetLaws V4_BITS Net4} `{NetLaws V6_BITS Net6}.
Context `{Json VpnHandshake} `{Json (VpnHandshakeResponse Net4 Net6)}.
Context (parse_endpoint_id : string -> option EndpointId) (parse_public_key : string -> option PublicKey).
Context (verify_endpoint_id_signature : PublicKey -> EndpointId -> string -> bool).
Context {S : Type} (write_stream : S -> list Z -> S * vres unit).
Context (sha256 : list Z -> list Z) (endpoint_bytes : EndpointId -> list Z).
Context {D : Type} (write_all : D -> list Z -> D * vres unit).
Context (authorized_keys : gset PublicKey) (max_clients : Z) (self : TunWriter).
(* the device the server reads from, and the ports of its endpoint *)
Context (PACKET_INFORMATION_LENGTH : nat) (reader : TunReader) (ports : gset Z).
(* the connection of each session *)
Context {C : Type} (try_many : C -> list (list Z) -> C * (nat + SendDatagramError)).
Context (wait_one : C -> list Z -> C * (unit + SendDatagramError)) (connection : Z -> C).
#[local] Instance data_pool6 : AddrPool (EndpointId * Z) (Ip6Pool EndpointId Net6) :=
  ip6_pool_ops sha256 endpoint_bytes.
#[local] Instance data_pool6_laws : AddrPoolLaws (EndpointId * Z) (Ip6Pool EndpointId Net6) :=
  ip6_pool_laws sha256 endpoint_bytes.

Abbreviation Key := (EndpointId * Z)%type.
Abbreviation Sys := (sys Key (IpPool EndpointId Net4) (Ip6Pool EndpointId Net6)).
Abbreviation Server := (VpnServer Key (IpPool EndpointId Net4) (Ip6Pool EndpointId Net6)).
Abbreviation Loop :=
  (server_loop (EndpointId:=EndpointId) (P4:=IpPool EndpointId Net4) (P6:=Ip6Pool EndpointId Net6) (D:=D)).
Abbreviation LoopEvent := (loop_event (EndpointId:=EndpointId) (S:=S)).
Abbreviation step_loop :=
  (loop_step (Net4:=Net4) (Net6:=Net6) parse_endpoint_id parse_public_key verify_endpoint_id_signature write_stream
     write_all authorized_keys max_clients self).
Abbreviation connects :=
  (accept_connection (Net4:=Net4) (Net6:=Net6) parse_endpoint_id parse_public_key verify_endpoint_id_signature
     write_stream authorized_keys).

(** *** The inbound task of a client *)

(** Where the body of the [for] is: the source has been looked up, or both
    have and the request is being queued. *)
Inductive inbound_pc : Type :=
| Between
| SourceChecked (packet : list Z) (t : Tables Key)
| Cleared (it : Inbound Key).

(** The rest of the batch [read_many_datagrams] gave. *)
Record inbound_state : Type := mkInTask { batch_rest : list (list Z); in_pc : inbound_pc }.

Definition inbound_new : inbound_state := mkInTask [] Between.

(** A lookup and what follows from it; [t] are the tables of this moment. *)
Definition inbound_lookup (client_key : Key) (t : Tables Key) (task : inbound_state) (stats : VpnServerStats)
  : vres (inbound_state * VpnServerStats) :=
  match in_pc task, batch_rest task with
  | Between, packet :: rest =>
      encapsulated ← packet_has_local_iroh_udp_port packet ports;
      if encapsulated : bool then Ret (mkInTask rest Between, stats) else
      valid ← source_valid client_key t packet;
      if negb valid then Ret (mkInTask rest Between, inc_spoofed stats)
      else Ret (mkInTask rest (SourceChecked packet t), stats)
  | SourceChecked packet t0, rest =>
      inter ← to_vpn_client t packet;
      if inter : bool then Ret (mkInTask rest Between, inc_blocked stats)
      else Ret (mkInTask rest (Cleared (mkInbound packet t0 t)), stats)
  | _, _ => Ret (task, stats)
  end.

(** *** The TUN reader *)

Inductive reader_pc : Type :=
| Reading
| Targeted (client_key : Key) (offload : option VirtioNetHdr) (packet : list Z)   (* the address was looked up *)
| Found (sid : Z) (offload : option VirtioNetHdr) (packet : list Z).              (* the client was *)

(** A frame up to the lookup of its destination. *)
Definition reader_frame (t : Tables Key) (raw_frame : list Z) (stats : VpnServerStats)
  : vres (reader_pc * VpnServerStats) :=
  let stats := inc_read stats in
  match split_frame PACKET_INFORMATION_LENGTH reader raw_frame with
  | Panic => Panic
  | Fail _ => Ret (Reading, stats)
  | Ret (offload, packet_ref) =>
      encapsulated ← packet_has_local_iroh_udp_port packet_ref ports;
      if encapsulated : bool then Ret (Reading, stats) else
      dest ← extract_dest_ip packet_ref;
      match dest with
      | None => Ret (Reading, inc_unknown stats)
      | Some dest_ip =>
          match lookup_dest t dest_ip with
          | None => Ret (Reading, inc_no_route stats)
          | Some client_key => Ret (Targeted client_key offload packet_ref, stats)
          end
      end
  end.

(** *** The queue, the writer and the connection of a session *)

Record session_data : Type := mkData {
  sd_queue : ClientDatagramQueue;
  sd_batch : list (list Z);          (* what the writer is sending *)
  sd_conn : C;
}.

Definition data_new (sid : Z) : session_data := mkData ClientDatagramQueue_new [] (connection sid).

(** *** The state and its steps *)

Record server_world : Type := mkWorld {
  w_loop : Loop;
  w_inbound : gmap nat inbound_state;
  w_reader : reader_pc;
  w_data : gmap Z session_data;
  w_stats : VpnServerStats;                     (* what these tasks count *)
  w_passed : list (nat * Inbound Key);          (* every packet an inbound task has queued *)
}.

Definition world_init (server : Server) (dev : D) : server_world :=
  mkWorld (loop_init server dev) ∅ Reading ∅ stats_zero [].

Definition sys_of (s : server_world) : Sys := lp_sys (w_loop s).
Definition task_of (s : server_world) (id : nat) : inbound_state := default inbound_new (w_inbound s !! id).
Definition data_of (s : server_world) (sid : Z) : session_data := default (data_new sid) (w_data s !! sid).

Definition set_loop (s : server_world) (l : Loop) : server_world :=
  mkWorld l (w_inbound s) (w_reader s) (w_data s) (w_stats s) (w_passed s).
Definition set_task (s : server_world) (id : nat) (t : inbound_state) (stats : VpnServerStats) : server_world :=
  mkWorld (w_loop s) (<[id := t]> (w_inbound s)) (w_reader s) (w_data s) stats (w_passed s).
Definition set_reader (s : server_world) (r : reader_pc) (stats : VpnServerStats) : server_world :=
  mkWorld (w_loop s) (w_inbound s) r (w_data s) stats (w_passed s).
Definition set_data (s : server_world) (r : reader_pc) (sid : Z) (d : session_data) (stats : VpnServerStats) : server_world :=
  mkWorld (w_loop s) (w_inbound s) r (<[sid := d]> (w_data s)) stats (w_passed s).

Inductive world_event : Type :=
| Loops (e : LoopEvent)                              (* a step of [ServerLoop] *)
| ReadMany (id : nat) (batch : list (list Z))        (* [read_many_datagrams] of a client's connection *)
| InboundStep (id : nat)
| FrameRead (raw : list Z)                           (* [read_buf] of the device *)
| ReaderStep (max_size : option nat)                 (* [max_size]: the connection's datagram limit now *)
| TakeBatch (sid : Z)                                (* a datagram writer's [recv_many] *)
| SendBatch (sid : Z)                                (* its [send_datagram_batch] returns *)
| StopWriter (sid : Z).                              (* it is aborted *)

(** The channel to the TUN writer has no room. *)
Definition tun_queue_full (s : server_world) : bool := negb (length (lp_queue (w_loop s)) <? TUN_WRITER_CHANNEL_SIZE)%nat.

(** An inbound task ends at an [await]: in [read_many_datagrams], or in [send]
    on a full channel. *)
Definition at_await (s : server_world) (id : nat) : bool :=
  match in_pc (task_of s id), batch_rest (task_of s id) with
  | Between, [] => true
  | Cleared _, _ => tun_queue_full s
  | _, _ => false
  end.

Definition starting (sid : Z) (x : Key * pc) : bool :=
  match x.2 with InClients sid' _ _ | Routed4 sid' _ _ => (sid' =? sid)%Z | _ => false end.

(** The session has reached [handle_client_data], from whose return on its
    writers are aborted. *)
Definition may_stop (s : server_world) (sid : Z) : bool :=
  (sid <? next_session_id (srv (sys_of s)))%Z &&
  negb (bool_decide (map_Exists (fun (_ : nat) x => starting sid x = true) (conns (sys_of s)))).

Definition inbound_runs (s : server_world) (id : nat) : bool := bool_decide (lp_senders (w_loop s) !! id = Some ByInbound).

(** One step of an inbound task; [enqueue_tun_write] waits while the channel is
    full, and is the [Deliver] of [ServerLoop]. *)
Definition inbound_step (s : server_world) (id : nat) : vres server_world :=
  match conns (sys_of s) !! id with
  | Some (client_key, _) =>
      match in_pc (task_of s id) with
      | Cleared it =>
          if tun_queue_full s then Ret s else
          Ret (mkWorld (step_loop (w_loop s) (ServerLoop.Deliver id (request_of it)))
                 (<[id := mkInTask (batch_rest (task_of s id)) Between]> (w_inbound s)) (w_reader s) (w_data s)
                 (w_stats s) (w_passed s ++ [(id, it)])%list)
      | _ =>
          r ← inbound_lookup client_key (tables_of (sys_of s)) (task_of s id) (w_stats s);
          Ret (set_task s id r.1 r.2)
      end
  | None => Ret s
  end.

(** One step of the TUN reader past its first lookup. *)
Definition reader_step (s : server_world) (max_size : option nat) : vres server_world :=
  match w_reader s with
  | Reading => Ret s
  | Targeted client_key offload packet =>
      match clients (srv (sys_of s)) !! client_key with
      | None => Ret (set_reader s Reading (inc_no_route (w_stats s)))
      | Some c => Ret (set_reader s (Found (session_id c) offload packet) (w_stats s))
      end
  | Found sid offload packet =>
      let d := data_of s sid in
      match queue_client_datagrams max_size (sd_queue d) offload packet (w_stats s) with
      | Ret (q, stats) => Ret (set_data s Reading sid (mkData q (sd_batch d) (sd_conn d)) stats)
      | _ => Panic
      end
  end.

(** The two halves of a round of a session's datagram writer. *)
Definition take_batch (s : server_world) (sid : Z) : server_world :=
  let d := data_of s sid in
  if receiver_alive (sd_queue d) && bool_decide (sd_batch d = []) && negb (bool_decide (chan (sd_queue d) = []))
  then let '(q, batch) := recv_many (sd_queue d) DATAGRAM_WRITE_BATCH in
       set_data s (w_reader s) sid (mkData q batch (sd_conn d)) (w_stats s)
  else s.

Definition send_batch (s : server_world) (sid : Z) : vres server_world :=
  let d := data_of s sid in
  match sd_batch d with
  | [] => Ret s
  | batch =>
      match send_datagram_batch try_many wait_one (sd_conn d) batch outcome_zero with
      | Ret (conn, oc, result) =>
          let q := release_batch (sd_queue d) batch in
          let q := mkQueue (chan q) (queued_bytes q) (q_arena q) (match result with inl _ => true | inr _ => false end) in
          let stats := add_to_clients (sent oc) (w_stats s) in
          let stats := if (0 <? dropped_too_large oc)%Z
                       then add_dropped_too_large (dropped_too_large oc) stats else stats in
          Ret (set_data s (w_reader s) sid (mkData q [] conn) stats)
      | _ => Panic
      end
  end.

Definition stop_writer (s : server_world) (sid : Z) : server_world :=
  let d := data_of s sid in
  let q := sd_queue d in
  set_data s (w_reader s) sid (mkData (mkQueue (chan q) (queued_bytes q) (q_arena q) false) [] (sd_conn d)) (w_stats s).

Definition world_step (s : server_world) (e : world_event) : vres server_world :=
  match e with
  | Loops (ServerLoop.Deliver _ _) => Ret s
  | Loops (InboundEnd id) =>
      if at_await s id then
        Ret (mkWorld (step_loop (w_loop s) (InboundEnd id)) (delete id (w_inbound s)) (w_reader s) (w_data s)
               (w_stats s) (w_passed s))
      else Ret s
  | Loops e => Ret (set_loop s (step_loop (w_loop s) e))
  | ReadMany id batch =>
      match inbound_runs s id && (length batch <=? DATAGRAM_READ_BATCH)%nat, in_pc (task_of s id), batch_rest (task_of s id) with
      | true, Between, [] => Ret (set_task s id (mkInTask batch Between) (w_stats s))
      | _, _, _ => Ret s
      end
  | InboundStep id => if inbound_runs s id then inbound_step s id else Ret s
  | FrameRead raw =>
      match lp_reader (w_loop s) && negb (bool_decide (raw = [])), w_reader s with
      | true, Reading =>
          r ← reader_frame (tables_of (sys_of s)) raw (w_stats s);
          Ret (set_reader s r.1 r.2)
      | _, _ => Ret s
      end
  | ReaderStep max_size => reader_step s max_size
  | TakeBatch sid => Ret (take_batch s sid)
  | SendBatch sid => send_batch s sid
  | StopWriter sid => if may_stop s sid then Ret (stop_writer s sid) else Ret s
  end.

Fixpoint world_run (es : list world_event) (s : server_world) : vres server_world :=
  match es with
  | [] => Ret s
  | e :: es => s ← world_step s e; world_run es s
  end.

(** ** What the steps do *)

Lemma source_valid_ok (k : Key) t p : source_valid k t p = Ret (source_ok k t p).
Proof.
  unfold source_valid, source_ok. rewrite extract_source_ok. cbn [mbind outcome_bind].
  destruct (source_of p) as [[a|a]|]; [done| |done]. by destruct (is_link_local a).
Qed.

Lemma to_vpn_client_ok t p : to_vpn_client (Key:=Key) t p = Ret (dest_assigned t p).
Proof.
  unfold to_vpn_client, dest_assigned. rewrite extract_dest_ok. cbn [mbind outcome_bind].
  by destruct (dest_of p) as [[a|a]|].
Qed.

(** A lookup never panics, and what it lets through has passed its check. *)
Lemma inbound_lookup_spec (k : Key) t task stats :
  exists task' stats', inbound_lookup k t task stats = Ret (task', stats') /\
    (task' = task \/
     match in_pc task, batch_rest task with
     | Between, packet :: rest => batch_rest task' = rest /\
         (in_pc task' = Between \/
          in_pc task' = SourceChecked packet t /\ self_encapsulated ports packet = false /\ source_ok k t packet = true)
     | SourceChecked packet t0, rest => batch_rest task' = rest /\
         (in_pc task' = Between \/
          in_pc task' = Cleared (mkInbound packet t0 t) /\ dest_assigned t packet = false)
     | _, _ => False
     end).
Proof.
  unfold inbound_lookup. destruct task as [[|packet rest] [|p0 t0|it]]; cbn [in_pc batch_rest]; try by eauto 10.
  - rewrite to_vpn_client_ok. cbn [mbind outcome_bind]. destruct (dest_assigned t p0) eqn:Hd; eauto 10.
  - rewrite packet_filter_ok, source_valid_ok. cbn [mbind outcome_bind].
    destruct (self_encapsulated ports packet) eqn:Hs; [by eauto 10|].
    destruct (source_ok k t packet) eqn:Ho; cbn [negb]; eauto 10.
  - rewrite to_vpn_client_ok. cbn [mbind outcome_bind]. destruct (dest_assigned t p0) eqn:Hd; eauto 10.
Qed.

Lemma reader_frame_spec t raw stats :
  exists r stats', reader_frame t raw stats = Ret (r, stats') /\
    (r = Reading \/ exists k offload packet a, r = Targeted k offload packet /\
       split_frame PACKET_INFORMATION_LENGTH reader raw = Ret (offload, packet) /\
       self_encapsulated ports packet = false /\ dest_of packet = Some a /\ lookup_dest t a = Some k).
Proof.
  unfold reader_frame. pose proof (split_frame_not_panic PACKET_INFORMATION_LENGTH reader raw) as Hnp.
  destruct (split_frame PACKET_INFORMATION_LENGTH reader raw) as [[offload packet]|e|] eqn:Hs; [|by eauto|done].
  rewrite packet_filter_ok, extract_dest_ok. cbn [mbind outcome_bind].
  destruct (self_encapsulated ports packet) eqn:He; [by eauto|].
  destruct (dest_of packet) as [a|] eqn:Hd; [|by eauto].
  destruct (lookup_dest t a) as [k|] eqn:Hl; [|by eauto].
  eexists _, _. split; [done|]. right. by exists k, offload, packet, a.
Qed.

(** ** Where every packet comes from *)

Context (queued : C -> list (list Z)) (Hlaws : conn_laws try_many wait_one queued).
Context (Hfresh : forall sid, queued (connection sid) = []).
Context (server : Server) (dev : D).

Abbreviation loop0 := (loop_init (EndpointId:=EndpointId) server dev).

(** The connection tasks were in state [sy] at some moment of the history. *)
Definition visited (es : list world_event) (sy : Sys) : Prop :=
  exists es1 es2 s, es = (es1 ++ es2)%list /\ world_run es1 (world_init server dev) = Ret s /\ sys_of s = sy.

(** The packet was read from the connection [i]. *)
Definition received (es : list world_event) (i : nat) (packet : list Z) : Prop :=
  exists batch, ReadMany i batch ∈ es /\ packet ∈ batch.

(** The packet passed both checks, each with the tables of its moment. *)
Definition cleared_by (es : list world_event) (k : Key) (it : Inbound Key) : Prop :=
  judge k ports it = Forward.Deliver /\
  exists s1 s2, visited es s1 /\ visited es s2 /\ at_source it = tables_of s1 /\ at_dest it = tables_of s2.

(** The packet was read from the device, and its address routed to [k]. *)
Definition routed (es : list world_event) (k : Key) (offload : option VirtioNetHdr) (packet : list Z) : Prop :=
  exists raw a s1, FrameRead raw ∈ es /\ split_frame PACKET_INFORMATION_LENGTH reader raw = Ret (offload, packet) /\
    self_encapsulated ports packet = false /\ dest_of packet = Some a /\ visited es s1 /\
    lookup_dest (tables_of s1) a = Some k.

(** [sid] has been the session of [k]. *)
Definition session_of (es : list world_event) (k : Key) (sid : Z) : Prop :=
  exists s2 c, visited es s2 /\ clients (srv s2) !! k = Some c /\ session_id c = sid.

Definition for_session (es : list world_event) (sid : Z) (d : list Z) : Prop :=
  exists k offload packet max_size, routed es k offload packet /\ session_of es k sid /\
    d ∈ datagrams_of max_size offload packet.

Definition task_ok (es : list world_event) (i : nat) (k : Key) (task : inbound_state) : Prop :=
  Forall (received es i) (batch_rest task) /\
  match in_pc task with
  | Between => True
  | SourceChecked p t => received es i p /\ self_encapsulated ports p = false /\ source_ok k t p = true /\
      exists s1, visited es s1 /\ t = tables_of s1
  | Cleared it => received es i (in_packet it) /\ cleared_by es k it
  end.

Definition reader_ok (es : list world_event) (r : reader_pc) : Prop :=
  match r with
  | Reading => True
  | Targeted k offload packet => routed es k offload packet
  | Found sid offload packet => exists k, routed es k offload packet /\ session_of es k sid
  end.

Definition data_ok (es : list world_event) (sid : Z) (d : session_data) : Prop :=
  q_arena (sd_queue d) = [] /\
  Forall (for_session es sid) (chan (sd_queue d) ++ sd_batch d ++ queued (sd_conn d))%list.

(** [es'] extends [es]. *)
Lemma visited_mono es es' sy : visited es sy -> visited (es ++ es') sy.
Proof. intros (a & b & s & -> & Hr & Hs). exists a, (b ++ es')%list, s. by rewrite <-app_assoc. Qed.

Lemma received_mono es es' i p : received es i p -> received (es ++ es') i p.
Proof. intros (b & Hb & Hp). exists b. set_solver. Qed.

Lemma cleared_mono es es' k it : cleared_by es k it -> cleared_by (es ++ es') k it.
Proof. intros [Hj (s1 & s2 & Hv1 & Hv2 & ?)]. split; [done|]. exists s1, s2. auto using visited_mono. Qed.

Lemma routed_mono es es' k o p : routed es k o p -> routed (es ++ es') k o p.
Proof. intros (raw & a & s1 & Hf & ? & ? & ? & Hv & ?). exists raw, a, s1. split_and!; auto using visited_mono. set_solver. Qed.

Lemma session_mono es es' k sid : session_of es k sid -> session_of (es ++ es') k sid.
Proof. intros (s2 & c & Hv & ?). exists s2, c. auto using visited_mono. Qed.

Lemma for_session_mono es es' sid d : for_session es sid d -> for_session (es ++ es') sid d.
Proof. intros (k & o & p & m & ? & ? & ?). exists k, o, p, m. auto using routed_mono, session_mono. Qed.

Lemma task_mono es es' i k t : task_ok es i k t -> task_ok (es ++ es') i k t.
Proof.
  intros [Hr Hp]. split; [eapply Forall_impl; [done|]; auto using received_mono|].
  destruct (in_pc t) as [|p t0|it]; [done| |].
  - destruct Hp as (? & ? & ? & s1 & ? & ?). split_and!; auto using received_mono. exists s1. auto using visited_mono.
  - destruct Hp. auto using received_mono, cleared_mono.
Qed.

Lemma reader_mono es es' r : reader_ok es r -> reader_ok (es ++ es') r.
Proof. destruct r; cbn; [done|apply routed_mono|]. intros (k & ? & ?). exists k. auto using routed_mono, session_mono. Qed.

Lemma data_mono es es' sid d : data_ok es sid d -> data_ok (es ++ es') sid d.
Proof. intros [Ha Hf]. split; [done|]. eapply Forall_impl; [done|]. auto using for_session_mono. Qed.

(** The moment the history ends is one of its moments. *)
Lemma visited_now es s : world_run es (world_init server dev) = Ret s -> visited es (sys_of s).
Proof. intros Hr. exists es, [], s. by rewrite app_nil_r. Qed.

Abbreviation run_loop :=
  (loop_run (Net4:=Net4) (Net6:=Net6) parse_endpoint_id parse_public_key verify_endpoint_id_signature write_stream
     write_all authorized_keys max_clients self).

Record world_inv (es : list world_event) (s : server_world) : Prop := {
  wi_run : world_run es (world_init server dev) = Ret s;
  wi_loop : exists les, w_loop s = run_loop loop0 les /\
    Forall (fun le => Loops le ∈ es \/ exists i r, le = ServerLoop.Deliver i r) les;
  wi_passed : map (fun x => request_of x.2) (w_passed s) = lp_accepted (w_loop s);
  wi_origin : Forall (fun x => exists k c, conns (sys_of s) !! x.1 = Some (k, c) /\
    received es x.1 (in_packet x.2) /\ cleared_by es k x.2) (w_passed s);
  wi_tasks : forall i t, w_inbound s !! i = Some t -> exists k c, conns (sys_of s) !! i = Some (k, c) /\ task_ok es i k t;
  wi_reader : reader_ok es (w_reader s);
  wi_data : forall sid, data_ok es sid (data_of s sid);
}.

Lemma world_run_snoc es s e : world_run (es ++ [e]) s = (s ← world_run es s; world_step s e).
Proof.
  revert s. induction es as [|e0 es IH]; intros s; cbn [app world_run].
  - cbn [mbind outcome_bind]. by destruct (world_step s e).
  - destruct (world_step s e0); cbn [mbind outcome_bind]; [apply IH|done..].
Qed.

(** A connection is of one client for good. *)
Lemma run_task_key (l : Loop) (id i : nat) (w : bool) (k : Key) c :
  conns (lp_sys l) !! i = Some (k, c) -> exists c', conns (lp_sys (run_task max_clients l id w)) !! i = Some (k, c').
Proof.
  intros Hi. unfold run_task, set_tasks. cbn [lp_sys sys_step].
  destruct (conns (lp_sys l) !! id) as [[k0 c0]|] eqn:Hid; [|by eauto].
  destruct (conn_next max_clients w (srv (lp_sys l)) k0 c0) as [[sv' c1]|]; [|by eauto]. cbn [conns].
  destruct (decide (id = i)) as [<-|Hne]; [rewrite lookup_insert_eq|rewrite lookup_insert_ne by done]; [|by eauto].
  assert (k0 = k) as -> by congruence. by eauto.
Qed.

Lemma step_key (l : Loop) (e : LoopEvent) i (k : Key) c :
  conns (lp_sys l) !! i = Some (k, c) -> exists c', conns (lp_sys (step_loop l e)) !! i = Some (k, c').
Proof.
  intros Hi. destruct e as [id|id inc|id w|id e w|id req|id| | |]; cbn [loop_step]; unfold writer_round;
    try (by repeat case_match; eauto using run_task_key).
  case_match; [by eauto|]. destruct (connects inc) as [k0| |]; cbn [set_tasks lp_sys]; [|by eauto..].
  cbn [sys_step]. destruct (conns (lp_sys l) !! id) eqn:Hid; [by eauto|]. cbn [conns].
  rewrite lookup_insert_ne by congruence. by eauto.
Qed.

Lemma step_accepted (l : Loop) (e : LoopEvent) :
  (forall i r, e <> ServerLoop.Deliver i r) -> lp_accepted (step_loop l e) = lp_accepted l.
Proof.
  intros Hn. destruct e as [id|id inc|id w|id e w|id req|id| | |]; cbn [loop_step]; unfold writer_round, run_task;
    try (by repeat case_match). by destruct (Hn id req).
Qed.

(** What a step has to preserve. *)
Lemma world_inv_step es s e s' :
  world_inv es s -> world_step s e = Ret s' ->
  (w_loop s' = w_loop s \/ exists le, w_loop s' = step_loop (w_loop s) le /\
     (e = Loops le \/ exists i r, le = ServerLoop.Deliver i r)) ->
  (w_passed s' = w_passed s /\ lp_accepted (w_loop s') = lp_accepted (w_loop s) \/
   exists i it k c, w_passed s' = (w_passed s ++ [(i, it)])%list /\
     lp_accepted (w_loop s') = (lp_accepted (w_loop s) ++ [request_of it])%list /\
     conns (sys_of s) !! i = Some (k, c) /\ received es i (in_packet it) /\ cleared_by es k it) ->
  (forall i t, w_inbound s' !! i = Some t -> w_inbound s !! i = Some t \/
     exists k c, conns (sys_of s) !! i = Some (k, c) /\ task_ok (es ++ [e]) i k t) ->
  (w_reader s' = w_reader s \/ reader_ok (es ++ [e]) (w_reader s')) ->
  (forall sid, data_of s' sid = data_of s sid \/ data_ok (es ++ [e]) sid (data_of s' sid)) ->
  world_inv (es ++ [e]) s'.
Proof.
  intros [Hrun (les & Hles & Hin) Hpass Horig Htasks Hreader Hdata] Hstep Hl Hp Ht Hr Hd.
  assert (Hkey : forall i k c, conns (sys_of s) !! i = Some (k, c) -> exists c', conns (sys_of s') !! i = Some (k, c')).
  { intros i k c Hi. unfold sys_of. destruct Hl as [->|(le & -> & _)]; [by eauto|by eapply step_key]. }
  assert (Horig' : Forall (fun x => exists k c, conns (sys_of s') !! x.1 = Some (k, c) /\
    received (es ++ [e]) x.1 (in_packet x.2) /\ cleared_by (es ++ [e]) k x.2) (w_passed s)).
  { eapply Forall_impl; [exact Horig|]. intros x (k & c & Hc & ? & ?). destruct (Hkey _ _ _ Hc) as [c' Hc'].
    exists k, c'. auto using received_mono, cleared_mono. }
  split.
  - by rewrite world_run_snoc, Hrun.
  - destruct Hl as [->|(le & -> & Hle)].
    + exists les. split; [done|]. eapply Forall_impl; [done|]. intros le [?|?]; [left; set_solver|by right].
    + exists (les ++ [le])%list. unfold loop_run in *. rewrite fold_left_app, Hles. split; [done|].
      apply Forall_app. split; [eapply Forall_impl; [done|]; intros le' [?|?]; [left; set_solver|by right]|].
      constructor; [|constructor]. destruct Hle as [->|?]; [left; set_solver|by right].
  - destruct Hp as [[-> ->]|(i & it & k & c & -> & -> & _)]; [done|]. by rewrite map_app, Hpass.
  - destruct Hp as [[-> _]|(i & it & k & c & -> & _ & Hc & Hrec & Hcl)]; [done|].
    apply Forall_app. split; [done|]. constructor; [|constructor]. destruct (Hkey _ _ _ Hc) as [c' Hc'].
    exists k, c'. auto using received_mono, cleared_mono.
  - intros i t Hi. destruct (Ht i t Hi) as [Hi'|(k & c & Hc & Hok)].
    + destruct (Htasks i t Hi') as (k & c & Hc & Hok). destruct (Hkey _ _ _ Hc) as [c' Hc']. exists k, c'. auto using task_mono.
    + destruct (Hkey _ _ _ Hc) as [c' Hc']. by exists k, c'.
  - destruct Hr as [->|Hr]; [by apply reader_mono|done].
  - intros sid. destruct (Hd sid) as [->|Hd']; [by apply data_mono|done].
Qed.

Lemma world_inv_init : world_inv [] (world_init server dev).
Proof.
  split; try done.
  - by exists [].
  - intros sid. split; [done|]. change (Forall (for_session [] sid) (queued (connection sid))). by rewrite Hfresh.
Qed.

(** An inbound task that runs belongs to a connection. *)
Lemma inbound_runs_key es s id : world_inv es s -> inbound_runs s id = true ->
  exists k c, conns (sys_of s) !! id = Some (k, c).
Proof.
  intros Hinv Hr. unfold inbound_runs in Hr. apply bool_decide_eq_true in Hr.
  destruct (wi_loop _ _ Hinv) as (les & Hl & _). unfold sys_of. rewrite Hl in *.
  destruct (loop_run_inv (Net4:=Net4) (Net6:=Net6) parse_endpoint_id parse_public_key verify_endpoint_id_signature
    write_stream write_all authorized_keys max_clients self server dev les) as (_ & Hh & _).
  destruct (hi_inbound _ Hh id Hr) as (k & c & Hc & _). by exists k, c.
Qed.

Lemma task_of_ok es s id k c : world_inv es s -> conns (sys_of s) !! id = Some (k, c) -> task_ok es id k (task_of s id).
Proof.
  intros Hinv Hc. unfold task_of. destruct (w_inbound s !! id) as [t|] eqn:Ht; cbn [from_option]; [|by repeat constructor].
  destruct (wi_tasks _ _ Hinv id t Ht) as (k' & c' & Hc' & Hok). by simplify_eq.
Qed.

Lemma loops_inv es s le : world_inv es s ->
  exists s', world_step s (Loops le) = Ret s' /\ world_inv (es ++ [Loops le]) s'.
Proof.
  intros Hinv.
  assert (Hsame : world_step s (Loops le) = Ret s -> world_inv (es ++ [Loops le]) s).
  { intros Hst. eapply world_inv_step; eauto. }
  destruct le as [id|id inc|id w|id e w|id req|id| | |];
    try (eexists; split; [reflexivity|]; eapply world_inv_step; [exact Hinv|reflexivity|..];
         [right; eexists; split; [reflexivity|by left] | left; split; [done|]; by apply step_accepted | by left..]).
  - exists s. auto.
  - cbn [world_step] in *. destruct (at_await s id) eqn:Ha; [|by exists s; auto].
    eexists. split; [reflexivity|]. eapply world_inv_step; [exact Hinv| |..].
    + cbn [world_step]. by rewrite Ha.
    + right. eexists. split; [reflexivity|by left].
    + left. split; [done|]. by apply step_accepted.
    + intros i t Hi. cbn in Hi. apply lookup_delete_Some in Hi as [_ Hi]. by left.
    + by left.
    + by left.
Qed.

Lemma read_many_inv es s id batch : world_inv es s ->
  exists s', world_step s (ReadMany id batch) = Ret s' /\ world_inv (es ++ [ReadMany id batch]) s'.
Proof.
  intros Hinv. cbn [world_step].
  assert (Hsame : world_step s (ReadMany id batch) = Ret s -> world_inv (es ++ [ReadMany id batch]) s).
  { intros Hst. eapply world_inv_step; eauto. }
  cbn [world_step] in Hsame.
  destruct (inbound_runs s id && _) eqn:Hg; [|by exists s; auto].
  destruct (in_pc (task_of s id)) eqn:Hpc; [|by exists s; auto..].
  destruct (batch_rest (task_of s id)) eqn:Hb; [|by exists s; auto].
  eexists. split; [reflexivity|]. eapply world_inv_step; [exact Hinv| |by left|by left| |by left|by left].
  { cbn [world_step]. by rewrite Hg, Hpc, Hb. }
  intros i t Hi. cbn in Hi. apply lookup_insert_Some in Hi as [[<- <-]|[_ Hi]]; [|by left]. right.
  apply andb_true_iff in Hg as [Hg _]. destruct (inbound_runs_key es s id Hinv Hg) as (k & c & Hc).
  exists k, c. split; [done|]. split; [|done]. cbn [batch_rest]. apply Forall_forall. intros p Hp. exists batch. set_solver.
Qed.

(** Both checks make up the verdict. *)
Lemma checks_judge (k : Key) packet t0 t :
  self_encapsulated ports packet = false -> source_ok k t0 packet = true -> dest_assigned t packet = false ->
  judge k ports (mkInbound packet t0 t) = Forward.Deliver.
Proof. intros Hs Ho Hd. unfold judge. cbn [in_packet at_source at_dest]. by rewrite Hs, Ho, Hd. Qed.

(** A lookup keeps the task in order. *)
Lemma lookup_task_ok es s e id k c task stats task' stats' :
  world_inv es s -> conns (sys_of s) !! id = Some (k, c) -> task_ok es id k task ->
  inbound_lookup k (tables_of (sys_of s)) task stats = Ret (task', stats') -> task_ok (es ++ [e]) id k task'.
Proof.
  intros Hinv Hc Hok Hl. destruct (inbound_lookup_spec k (tables_of (sys_of s)) task stats) as (x & y & Hl' & Hcase).
  rewrite Hl in Hl'. simplify_eq. destruct Hcase as [->|Hcase]; [by apply task_mono|].
  pose proof (visited_mono es [e] _ (visited_now es s (wi_run _ _ Hinv))) as Hv.
  apply (task_mono es [e]) in Hok as [Hrest Hpc]. unfold task_ok in *.
  destruct (in_pc task) as [|p t0|it], (batch_rest task) as [|packet rest]; try done.
  - destruct Hcase as [-> Hcase]. inversion Hrest. split; [done|].
    destruct Hcase as [->|(-> & ? & ?)]; [done|]. split_and!; try done. by exists (sys_of s).
  - destruct Hcase as [-> Hcase]. split; [constructor|]. destruct Hcase as [->|(-> & Hd)]; [done|].
    destruct Hpc as (? & ? & ? & s1 & ? & ->). split; [done|]. split; [by apply checks_judge|]. by exists s1, (sys_of s).
  - destruct Hcase as [-> Hcase]. split; [done|]. destruct Hcase as [->|(-> & Hd)]; [done|].
    destruct Hpc as (? & ? & ? & s1 & ? & ->). split; [done|]. split; [by apply checks_judge|]. by exists s1, (sys_of s).
Qed.

(** A step that does nothing. *)
Lemma idle_inv es s e : world_inv es s -> world_step s e = Ret s -> exists s', (Ret s : vres server_world) = Ret s' /\ world_inv (es ++ [e]) s'.
Proof. intros Hinv Hst. exists s. split; [done|]. eapply world_inv_step; eauto. Qed.

Lemma inbound_step_inv es s id : world_inv es s ->
  exists s', world_step s (InboundStep id) = Ret s' /\ world_inv (es ++ [InboundStep id]) s'.
Proof.
  intros Hinv. set (e := InboundStep id).
  pose proof (fun Hst => idle_inv es s e Hinv Hst) as Hsame. unfold e in *. cbn [world_step] in *.
  destruct (inbound_runs s id) eqn:Hg; [|by auto].
  unfold inbound_step in *. destruct (conns (sys_of s) !! id) as [[k c]|] eqn:Hc; [|by auto].
  pose proof (task_of_ok es s id k c Hinv Hc) as Hok.
  destruct (in_pc (task_of s id)) as [|p t0|it] eqn:Hpc.
  1,2: destruct (inbound_lookup_spec k (tables_of (sys_of s)) (task_of s id) (w_stats s)) as (task' & st' & Hl & _);
    rewrite Hl; cbn [mbind outcome_bind fst snd]; eexists; split; [reflexivity|];
    eapply world_inv_step; [exact Hinv| |by left|by left| |by left|by left];
    [cbn [world_step]; rewrite Hg; unfold inbound_step; rewrite Hc, Hpc, Hl; reflexivity|];
    intros i t Hi; cbn in Hi; apply lookup_insert_Some in Hi as [[<- <-]|[_ Hi]]; [|by left]; right;
    exists k, c; split; [done|]; by eapply lookup_task_ok.
  destruct (tun_queue_full s) eqn:Hfull; [by auto|].
  destruct Hok as [Hrest Hcl]. rewrite Hpc in Hcl. destruct Hcl as [Hrec Hcl].
  eexists. split; [reflexivity|].
  eapply world_inv_step; [exact Hinv| |..].
  - cbn [world_step]. rewrite Hg. unfold inbound_step. rewrite Hc, Hpc, Hfull. reflexivity.
  - right. eexists. split; [reflexivity|]. right. by eexists _, _.
  - right. exists id, it, k, c. split; [done|]. split; [|done]. cbn [w_loop loop_step].
    unfold inbound_runs in Hg. rewrite Hg. unfold tun_queue_full in Hfull. apply negb_false_iff in Hfull. by rewrite Hfull.
  - intros i t Hi. cbn in Hi. apply lookup_insert_Some in Hi as [[<- <-]|[_ Hi]]; [|by left]. right.
    exists k, c. split; [done|]. split; [|done]. cbn [batch_rest]. eapply Forall_impl; [exact Hrest|]. auto using received_mono.
  - by left.
  - by left.
Qed.

Lemma frame_read_inv es s raw : world_inv es s ->
  exists s', world_step s (FrameRead raw) = Ret s' /\ world_inv (es ++ [FrameRead raw]) s'.
Proof.
  intros Hinv. pose proof (idle_inv es s (FrameRead raw) Hinv) as Hsame. cbn [world_step] in *.
  destruct (_ && _) eqn:Hg; [|by auto]. destruct (w_reader s) eqn:Hr; [|by auto..].
  destruct (reader_frame_spec (tables_of (sys_of s)) raw (w_stats s)) as (r & st' & Hf & Hcase).
  rewrite Hf. cbn [mbind outcome_bind fst snd]. eexists. split; [reflexivity|].
  eapply world_inv_step; [exact Hinv| |by left|by left|by left| |by left].
  { cbn [world_step]. by rewrite Hg, Hr, Hf. }
  right. destruct Hcase as [->|(k & o & p & a & -> & Hs & He & Hd & Hl)]; [done|].
  exists raw, a, (sys_of s). split_and!; try done; [set_solver|]. by apply visited_mono, visited_now, (wi_run _ _ Hinv).
Qed.

(** The queue of a session that changes. *)
Lemma set_data_inv es s e r sid d stats :
  world_inv es s -> world_step s e = Ret (set_data s r sid d stats) ->
  (r = w_reader s \/ reader_ok (es ++ [e]) r) -> data_ok (es ++ [e]) sid d ->
  world_inv (es ++ [e]) (set_data s r sid d stats).
Proof.
  intros Hinv Hst Hr Hd. eapply world_inv_step; [exact Hinv|exact Hst|by left|by left|by left|done|].
  intros sid0. unfold data_of. cbn [set_data w_data]. destruct (decide (sid = sid0)) as [<-|Hne].
  - rewrite lookup_insert_eq. by right.
  - rewrite lookup_insert_ne by done. by left.
Qed.

Lemma reader_step_inv es s mx : world_inv es s ->
  exists s', world_step s (ReaderStep mx) = Ret s' /\ world_inv (es ++ [ReaderStep mx]) s'.
Proof.
  intros Hinv. pose proof (idle_inv es s (ReaderStep mx) Hinv) as Hsame. cbn [world_step] in *. unfold reader_step in *.
  pose proof (wi_reader _ _ Hinv) as Hr.
  destruct (w_reader s) as [|k o p|sid o p] eqn:Hw; [by auto| |].
  - destruct (clients (srv (sys_of s)) !! k) as [c|] eqn:Hc; eexists; (split; [reflexivity|]);
      (eapply world_inv_step; [exact Hinv| |by left|by left|by left| |by left];
       [cbn [world_step]; unfold reader_step; rewrite Hw, Hc; reflexivity|]); [|by right].
    right. exists k. split; [by apply routed_mono|]. exists (sys_of s), c. split; [|done].
    by apply visited_mono, visited_now, (wi_run _ _ Hinv).
  - destruct (wi_data _ _ Hinv sid) as [Har Hf].
    destruct (queue_client_datagrams_spec mx (sd_queue (data_of s sid)) o p (w_stats s) Har)
      as (q' & st' & new & Hq & Hsub & Hch & _ & _ & Har' & _). rewrite Hq.
    eexists. split; [reflexivity|]. apply set_data_inv; [done| |by right|].
    { cbn [world_step]. unfold reader_step. by rewrite Hw, Hq. }
    split; [done|]. cbn [sd_queue sd_batch sd_conn]. rewrite Hch. rewrite !Forall_app in *.
    destruct Hf as (Hf1 & Hf2 & Hf3). destruct Hr as (k & Hro & Hso).
    split_and!; try (eapply Forall_impl; [eassumption|]; auto using for_session_mono).
    apply Forall_forall. intros d Hd. exists k, o, p, mx. split_and!; [by apply routed_mono|by apply session_mono|].
    by eapply elem_of_sublist.
Qed.

(** The rounds of a datagram writer: nothing enters a session but through the
    reader. *)
Lemma take_batch_inv es s sid : world_inv es s ->
  exists s', world_step s (TakeBatch sid) = Ret s' /\ world_inv (es ++ [TakeBatch sid]) s'.
Proof.
  intros Hinv. pose proof (idle_inv es s (TakeBatch sid) Hinv) as Hsame. cbn [world_step] in *.
  unfold take_batch in *. destruct (_ && _) eqn:Hg; [|by auto].
  destruct (wi_data _ _ Hinv sid) as [Har Hf].
  assert (Hb : sd_batch (data_of s sid) = []) by (apply andb_true_iff in Hg as [[_ Hb]%andb_true_iff _]; by apply bool_decide_eq_true in Hb).
  unfold recv_many. eexists. split; [reflexivity|]. apply set_data_inv; [done| |by left|].
  { cbn [world_step]. unfold take_batch, recv_many. by rewrite Hg. }
  split; [done|]. cbn [sd_queue sd_batch sd_conn chan]. rewrite Hb in Hf. cbn [app] in Hf.
  rewrite <-(take_drop DATAGRAM_WRITE_BATCH (chan (sd_queue (data_of s sid)))) in Hf.
  rewrite !Forall_app in *. destruct Hf as ((Hf1 & Hf2) & Hf3).
  split_and!; (eapply Forall_impl; [eassumption|]; auto using for_session_mono).
Qed.

Lemma send_batch_inv es s sid : world_inv es s ->
  exists s', world_step s (SendBatch sid) = Ret s' /\ world_inv (es ++ [SendBatch sid]) s'.
Proof.
  intros Hinv. pose proof (idle_inv es s (SendBatch sid) Hinv) as Hsame. cbn [world_step] in *. unfold send_batch in *.
  destruct (wi_data _ _ Hinv sid) as [Har Hf].
  destruct (sd_batch (data_of s sid)) as [|d0 ds] eqn:Hb; [by auto|]. set (batch := d0 :: ds) in *.
  destruct (send_loop_spec _ _ queued Hlaws (length batch) (sd_conn (data_of s sid)) batch outcome_zero)
    as ([[conn' oc] res] & Hs & (acc & Hc & Hsub & _) & _); [lia|].
  unfold send_datagram_batch. rewrite Hs. eexists. split; [reflexivity|]. apply set_data_inv; [done| |by left|].
  { cbn [world_step]. unfold send_batch, send_datagram_batch. rewrite Hb. subst batch. cbv beta iota. by rewrite Hs. }
  split; [done|]. cbn [sd_queue sd_batch sd_conn chan release_batch app]. rewrite Hc.
  rewrite !Forall_app in *. destruct Hf as (Hf1 & Hf2 & Hf3).
  split_and!; try (eapply Forall_impl; [eassumption|]; auto using for_session_mono).
  apply Forall_forall. intros d Hd. apply for_session_mono. eapply Forall_forall; [exact Hf2|]. by eapply elem_of_sublist.
Qed.

Lemma stop_writer_inv es s sid : world_inv es s ->
  exists s', world_step s (StopWriter sid) = Ret s' /\ world_inv (es ++ [StopWriter sid]) s'.
Proof.
  intros Hinv. pose proof (idle_inv es s (StopWriter sid) Hinv) as Hsame. cbn [world_step] in *.
  destruct (may_stop s sid) eqn:Hm; [|by auto]. eexists. split; [reflexivity|].
  destruct (wi_data _ _ Hinv sid) as [Har Hf]. unfold stop_writer. apply set_data_inv; [done| |by left|].
  { cbn [world_step]. by rewrite Hm. }
  split; [done|]. cbn [sd_queue sd_batch sd_conn chan app].
  rewrite !Forall_app in *. destruct Hf as (Hf1 & _ & Hf3).
  split_and!; (eapply Forall_impl; [eassumption|]; auto using for_session_mono).
Qed.

Lemma world_step_inv es s e : world_inv es s ->
  exists s', world_step s e = Ret s' /\ world_inv (es ++ [e]) s'.
Proof.
  intros Hinv. destruct e; eauto using loops_inv, read_many_inv, inbound_step_inv, frame_read_inv, reader_step_inv,
    take_batch_inv, send_batch_inv, stop_writer_inv.
Qed.

Lemma world_run_inv es : exists s, world_run es (world_init server dev) = Ret s /\ world_inv es s.
Proof.
  induction es as [|e es (s & Hr & Hinv)] using rev_ind; [exists (world_init server dev); split; [done|apply world_inv_init]|].
  destruct (world_step_inv es s e Hinv) as (s' & Hs & Hinv'). exists s'. split; [|done]. by rewrite world_run_snoc, Hr.
Qed.

(** ** Sessions are never reused *)

(** Session ids are handed out once: whoever has had one is in [own]. *)
Record own_inv (es : list world_event) (s : server_world) (own : gmap Z Key) : Prop := {
  oi_past : forall k sid, session_of es k sid -> own !! sid = Some k;
  oi_next : forall sid k, own !! sid = Some k -> (sid < next_session_id (srv (sys_of s)))%Z;
}.

(** One step of the loop inserts at most one entry, under the next id. *)
Definition clients_step (sv sv' : Server) : Prop :=
  (next_session_id sv' = next_session_id sv /\ forall k c, clients sv' !! k = Some c -> clients sv !! k = Some c) \/
  (next_session_id sv' = (next_session_id sv + 1)%Z /\
   exists k0 c0, session_id c0 = next_session_id sv /\ clients sv' = <[k0 := c0]> (clients sv)).

Lemma conn_next_clients (w : bool) (sv sv' : Server) (k : Key) (c c' : pc) :
  conn_next max_clients w sv k c = Some (sv', c') -> clients_step sv sv'.
Proof.
  unfold clients_step. destruct c; cbn [conn_next]; unfold admit_task, allocate4_task, allocate6_task, register_task,
    remove_task, release4_task, release6_task; intros Hn; repeat case_match; simplify_eq/=; try (left; by split);
    [right; split; [done|by repeat eexists]|].
  left. split; [done|]. intros k0 c0 Hl. by apply lookup_delete_Some in Hl as [_ Hl].
Qed.

Lemma step_clients (l : Loop) (e : LoopEvent) : clients_step (srv (lp_sys l)) (srv (lp_sys (step_loop l e))).
Proof.
  assert (Hrun : forall id w, clients_step (srv (lp_sys l)) (srv (lp_sys (run_task max_clients l id w)))).
  { intros id w. unfold run_task, set_tasks. cbn [lp_sys sys_step]. repeat case_match; try (left; by split).
    cbn [srv]. by eapply conn_next_clients. }
  destruct e as [id|id inc|id w|id e w|id req|id| | |]; cbn [loop_step]; unfold writer_round;
    try (by repeat case_match; try apply Hrun; left).
  case_match; [by left|]. destruct (connects inc); cbn [set_tasks lp_sys sys_step]; [|by left..].
  case_match; by left.
Qed.

(** How a step changes the loop. *)
Lemma world_step_loop s e s' : world_step s e = Ret s' ->
  w_loop s' = w_loop s \/ exists le, w_loop s' = step_loop (w_loop s) le /\
    (e = Loops le \/ exists i r, le = ServerLoop.Deliver i r).
Proof.
  destruct e as [le| | | | | | |]; cbn [world_step]; unfold inbound_step, reader_step, take_batch, send_batch, stop_writer;
    intros Hs; [destruct le| | | | | | |]; repeat case_match;
    repeat match goal with Hb : mbind _ ?x = Ret _ |- _ => destruct x; cbn [mbind outcome_bind] in Hb end;
    try done; apply Ret_inj in Hs; subst s';
    first [by left | right; eexists; split; [reflexivity|first [by left | right; by eexists _, _]]].
Qed.

Lemma visited_snoc es e s s' sy : world_run es (world_init server dev) = Ret s -> world_step s e = Ret s' ->
  visited (es ++ [e]) sy -> visited es sy \/ sy = sys_of s'.
Proof.
  intros Hr Hs (a & b & x & Heq & Hx & <-). destruct b as [|e0 b _] using rev_ind.
  - rewrite app_nil_r in Heq. subst a. rewrite world_run_snoc, Hr in Hx. cbn [mbind outcome_bind] in Hx.
    rewrite Hs in Hx. simplify_eq. by right.
  - rewrite app_assoc in Heq. apply app_inj_tail in Heq as [-> ->]. left. by exists a, b, x.
Qed.

Lemma own_step es s e s' own : world_inv es s -> world_step s e = Ret s' -> own_inv es s own ->
  exists own', own_inv (es ++ [e]) s' own'.
Proof.
  intros Hinv Hs [Hpast Hnext].
  assert (Hst : clients_step (srv (sys_of s)) (srv (sys_of s'))).
  { unfold sys_of. destruct (world_step_loop s e s' Hs) as [->|(le & -> & _)]; [left; by split|apply step_clients]. }
  assert (Hnow : forall k c, clients (srv (sys_of s)) !! k = Some c -> own !! session_id c = Some k).
  { intros k c Hc. apply Hpast. exists (sys_of s), c. split; [by apply visited_now, (wi_run _ _ Hinv)|done]. }
  assert (Hsplit : forall k sid, session_of (es ++ [e]) k sid ->
    session_of es k sid \/ exists c, clients (srv (sys_of s')) !! k = Some c /\ session_id c = sid).
  { intros k sid (sy & c & Hv & Hc & Hi). destruct (visited_snoc es e s s' sy (wi_run _ _ Hinv) Hs Hv) as [Hv'| ->];
      [left; by exists sy, c|right; by exists c]. }
  destruct Hst as [[Hn Hcl]|(Hn & k0 & c0 & Hi0 & Hcl)].
  - exists own. split; [|intros sid k Hk; rewrite Hn; by eapply Hnext].
    intros k sid Hk. destruct (Hsplit k sid Hk) as [?|(c & Hc & <-)]; [by apply Hpast|]. by apply Hnow, Hcl.
  - assert (Hnone : forall k, own !! session_id c0 <> Some k).
    { intros k Hk. specialize (Hnext _ _ Hk). lia. }
    exists (<[session_id c0 := k0]> own). split.
    + intros k sid Hk. destruct (Hsplit k sid Hk) as [Hp|(c & Hc & <-)].
      * apply Hpast in Hp. rewrite lookup_insert_ne; [done|]. intros <-. by apply (Hnone k).
      * rewrite Hcl in Hc. apply lookup_insert_Some in Hc as [[<- <-]|[_ Hc]]; [by rewrite lookup_insert_eq|].
        apply Hnow in Hc. rewrite lookup_insert_ne; [done|]. intros Heq. rewrite <-Heq in Hc. by apply (Hnone k).
    + intros sid k Hk. apply lookup_insert_Some in Hk as [[<- <-]|[_ Hk]]; [lia|]. specialize (Hnext _ _ Hk). lia.
Qed.

(** No two clients ever have the same session. *)
Lemma session_owner es k k' sid : clients server = ∅ ->
  session_of es k sid -> session_of es k' sid -> k = k'.
Proof.
  intros Hempty. assert (Hex : exists s own, world_run es (world_init server dev) = Ret s /\ own_inv es s own).
  { induction es as [|e es (s & own & Hr & Hown)] using rev_ind.
    - exists (world_init server dev), ∅. split; [done|]. split; [|intros sid' k0; by rewrite lookup_empty].
      intros k0 sid' (sy & c & (a & b & x & Heq & Hx & <-) & Hc & _). symmetry in Heq.
      apply app_nil in Heq as [-> ->]. cbn in Hx. simplify_eq. cbn in Hc. by rewrite Hempty, lookup_empty in Hc.
    - destruct (world_run_inv es) as (s0 & Hr0 & Hinv). rewrite Hr in Hr0. injection Hr0 as <-.
      destruct (world_step_inv es s e Hinv) as (s' & Hs & _). destruct (own_step es s e s' own Hinv Hs Hown) as [own' Ho].
      exists s', own'. split; [|done]. by rewrite world_run_snoc, Hr. }
  destruct Hex as (s & own & _ & [Hpast _]). intros Ha Hb. apply Hpast in Ha, Hb. by simplify_eq.
Qed.


(** ** The inbound tasks make progress *)

(** What a task will let through if the tables stay as they are. *)
Definition outlook (k : Key) (t : Tables Key) (task : inbound_state) : list (Inbound Key) :=
  (match in_pc task with
   | Between => []
   | SourceChecked p t0 => if dest_assigned t p then [] else [mkInbound p t0 t]
   | Cleared it => [it]
   end ++ filter (fun it => judge k ports it = Forward.Deliver) (map (fun p => mkInbound p t t) (batch_rest task)))%list.

Definition work_left (task : inbound_state) : nat :=
  3 * length (batch_rest task) + match in_pc task with Between => 0 | SourceChecked _ _ => 2 | Cleared _ => 1 end.

(** A round of the TUN writer and a step of the task. *)
Definition serve_round (id : nat) : list world_event := [Loops WriterRuns; InboundStep id].

Lemma outlook_lookup (k : Key) t task stats task' stats' :
  inbound_lookup k t task stats = Ret (task', stats') -> (forall it, in_pc task <> Cleared it) ->
  outlook k t task' = outlook k t task /\ (work_left task' < work_left task \/ task = inbound_new /\ task' = inbound_new)%nat.
Proof.
  intros Hl Hnc. unfold inbound_lookup in Hl. destruct task as [rest pc0]. cbn [in_pc batch_rest] in *.
  destruct pc0 as [|p t0|it]; [|rewrite to_vpn_client_ok in Hl|by destruct (Hnc it)].
  - destruct rest as [|p rest]; [simplify_eq; split; [done|by right]|].
    rewrite packet_filter_ok, source_valid_ok in Hl. cbn [mbind outcome_bind] in Hl.
    unfold outlook, work_left. cbn [in_pc batch_rest map length app]. rewrite filter_cons.
    destruct (self_encapsulated ports p) eqn:Hs.
    { simplify_eq. cbn [in_pc batch_rest length app]. rewrite decide_False; [split; [done|left; lia]|].
      unfold judge. cbn [in_packet]. by rewrite Hs. }
    destruct (source_ok k t p) eqn:Ho; cbn [negb] in Hl; simplify_eq; cbn [in_pc batch_rest length app]; (split; [|left; lia]).
    + assert (Hj : judge k ports (mkInbound p t t) = if dest_assigned t p then DropIsolated else Forward.Deliver)
        by (unfold judge; cbn [in_packet at_source at_dest]; by rewrite Hs, Ho).
      rewrite Hj. destruct (dest_assigned t p); [by rewrite decide_False|by rewrite decide_True].
    + rewrite decide_False; [done|]. unfold judge. cbn [in_packet at_source]. by rewrite Hs, Ho.
  - cbn [mbind outcome_bind] in Hl. unfold outlook, work_left. cbn [in_pc batch_rest].
    destruct (dest_assigned t p); simplify_eq; cbn [in_pc batch_rest]; split; try done; left; lia.
Qed.

(** The invariants of the loop under a running server. *)
Lemma world_loop_inv es s : world_inv es s ->
  channel_inv write_all self dev (w_loop s) /\ shutdown_inv (w_loop s).
Proof.
  intros Hinv. destruct (wi_loop _ _ Hinv) as (les & Hl & _). rewrite Hl.
  destruct (loop_run_inv (Net4:=Net4) (Net6:=Net6) parse_endpoint_id parse_public_key verify_endpoint_id_signature
    write_stream write_all authorized_keys max_clients self server dev les) as (? & _ & ? & _). done.
Qed.

(** A round of the TUN writer while a task holds a sender makes room. *)
Lemma writer_round_room es s id : world_inv es s -> inbound_runs s id = true ->
  let l := step_loop (w_loop s) WriterRuns in
  lp_sys l = lp_sys (w_loop s) /\ lp_senders l = lp_senders (w_loop s) /\
  (length (lp_queue l) < TUN_WRITER_CHANNEL_SIZE)%nat.
Proof.
  intros Hinv Hr. destruct (world_loop_inv es s Hinv) as [Hc Hs]. unfold inbound_runs in Hr.
  apply bool_decide_eq_true in Hr. destruct Hc as [_ Hroom _ _ _ _]. destruct Hs as [Hw _ _].
  cbn [loop_step]. unfold writer_round. destruct (lp_writer (w_loop s)) eqn:Hwr; cbn [negb].
  2:{ destruct (Hw eq_refl) as (_ & He & _). by rewrite He in Hr. }
  destruct (lp_queue (w_loop s)) as [|q0 q] eqn:Hq.
  - rewrite (bool_decide_false (lp_senders (w_loop s) = ∅)) by (intros He; by rewrite He in Hr).
    rewrite andb_false_r, Hq. split_and!; [done..|]. unfold TUN_WRITER_CHANNEL_SIZE. cbn [length]. lia.
  - destruct (drain_batch _ _ _ _) as [[d st] stop]. cbn [lp_sys lp_senders lp_queue]. split_and!; [done..|].
    rewrite length_drop. unfold TUN_WRITER_CHANNEL_SIZE, WRITE_BATCH_SIZE in *. lia.
Qed.

Lemma serve_round_progress es s id k c : world_inv es s -> inbound_runs s id = true ->
  conns (sys_of s) !! id = Some (k, c) ->
  exists s', world_run (serve_round id) s = Ret s' /\ world_inv (es ++ serve_round id) s' /\ inbound_runs s' id = true /\
    sys_of s' = sys_of s /\
    (w_passed s' ++ map (pair id) (outlook k (tables_of (sys_of s)) (task_of s' id)) =
     w_passed s ++ map (pair id) (outlook k (tables_of (sys_of s)) (task_of s id)))%list /\
    (work_left (task_of s' id) < work_left (task_of s id) \/
     task_of s id = inbound_new /\ task_of s' id = inbound_new)%nat.
Proof.
  intros Hinv Hr Hc. destruct (writer_round_room es s id Hinv Hr) as (Hsys & Hsend & Hroom).
  destruct (world_step_inv es s (Loops WriterRuns) Hinv) as (s1 & Hs1 & Hinv1). cbn [world_step] in Hs1.
  assert (Hl1 : w_loop s1 = step_loop (w_loop s) WriterRuns) by (by apply Ret_inj in Hs1; subst s1).
  assert (Ht1 : task_of s1 id = task_of s id) by (by apply Ret_inj in Hs1; subst s1).
  assert (Hp1 : w_passed s1 = w_passed s) by (by apply Ret_inj in Hs1; subst s1).
  assert (Hsy1 : sys_of s1 = sys_of s) by (unfold sys_of; by rewrite Hl1).
  assert (Hr1 : inbound_runs s1 id = true) by (unfold inbound_runs in *; by rewrite Hl1, Hsend).
  assert (Hfull : tun_queue_full s1 = false).
  { unfold tun_queue_full. rewrite Hl1. apply negb_false_iff, Nat.ltb_lt. done. }
  destruct (world_step_inv _ s1 (InboundStep id) Hinv1) as (s2 & Hs2 & Hinv2).
  exists s2. unfold serve_round. cbn [world_run world_step]. rewrite Hs1. cbn [mbind outcome_bind].
  pose proof Hs2 as Hs2'. cbn [world_step] in Hs2'. rewrite Hs2'. cbn [mbind outcome_bind].
  rewrite <-app_assoc in Hinv2. cbn [app] in Hinv2. split; [done|]. split; [done|].
  rewrite Hr1 in Hs2'. unfold inbound_step in Hs2'. rewrite Hsy1, Hc in Hs2'.
  assert (Hcase : (exists it, in_pc (task_of s1 id) = Cleared it) \/ forall it, in_pc (task_of s1 id) <> Cleared it)
    by (destruct (in_pc (task_of s1 id)); eauto).
  destruct Hcase as [[it Hit]|Hnc].
  - rewrite Hit, Hfull in Hs2'. apply Ret_inj in Hs2'.
    assert (Ht2 : task_of s2 id = mkInTask (batch_rest (task_of s id)) Between).
    { rewrite <-Hs2', <-Ht1. unfold task_of at 1. cbn [w_inbound]. by rewrite lookup_insert_eq. }
    assert (Hp2 : w_passed s2 = (w_passed s ++ [(id, it)])%list) by (by rewrite <-Hs2', <-Hp1).
    assert (Hl2 : lp_senders (w_loop s2) = lp_senders (w_loop s1) /\ sys_of s2 = sys_of s1).
    { rewrite <-Hs2'. unfold sys_of. cbn [w_loop loop_step]. by case_match. }
    destruct Hl2 as [Hse2 Hsy2]. rewrite Ht1 in Hit. split; [unfold inbound_runs in *; by rewrite Hse2|].
    split; [by rewrite Hsy2|]. rewrite Ht2, Hp2. unfold outlook, work_left. rewrite Hit. cbn [in_pc batch_rest]. split.
    + rewrite <-app_assoc. done.
    + left. lia.
  - destruct (inbound_lookup_spec k (tables_of (sys_of s)) (task_of s1 id) (w_stats s1)) as (task' & st' & Hl & _).
    destruct (outlook_lookup k _ _ _ _ _ Hl Hnc) as [Ho Hw].
    assert (Hset : s2 = set_task s1 id task' st').
    { destruct (in_pc (task_of s1 id)) as [| |it0] eqn:Hx; [..|by destruct (Hnc it0)];
        rewrite Hl in Hs2'; cbn [mbind outcome_bind fst snd] in Hs2'; by apply Ret_inj in Hs2'. }
    assert (Ht2 : task_of s2 id = task') by (rewrite Hset; unfold task_of; cbn [set_task w_inbound]; by rewrite lookup_insert_eq).
    assert (Hp2 : w_passed s2 = w_passed s) by (by rewrite Hset).
    rewrite Ht2, Hp2, Ho, Ht1. rewrite Ht1 in Hw. rewrite Hset. split_and!; done.
Qed.

Lemma world_run_app es1 es2 s : world_run (es1 ++ es2) s = (s1 ← world_run es1 s; world_run es2 s1).
Proof.
  revert s. induction es1 as [|e es1 IH]; intros s; cbn [app world_run].
  - done.
  - destruct (world_step s e); cbn [mbind outcome_bind]; [apply IH|done..].
Qed.

Lemma serve_rounds n : forall es s id k c, world_inv es s -> inbound_runs s id = true ->
  conns (sys_of s) !! id = Some (k, c) -> (work_left (task_of s id) <= n)%nat ->
  exists s', world_run (concat (replicate n (serve_round id))) s = Ret s' /\ sys_of s' = sys_of s /\
    task_of s' id = inbound_new /\
    w_passed s' = (w_passed s ++ map (pair id) (outlook k (tables_of (sys_of s)) (task_of s id)))%list.
Proof.
  assert (Hidle : forall task, work_left task = 0%nat -> task = inbound_new).
  { intros [[|p rest] [| |]] Hw; unfold work_left in Hw; cbn [in_pc batch_rest length] in Hw; try lia. done. }
  induction n as [|n IH]; intros es s id k c Hinv Hr Hc Hn.
  { assert (Ht : task_of s id = inbound_new) by (apply Hidle; lia). exists s. rewrite Ht. cbn.
    by rewrite app_nil_r. }
  destruct (serve_round_progress es s id k c Hinv Hr Hc) as (s1 & Hs1 & Hinv1 & Hr1 & Hsy & Ho & Hw).
  cbn [replicate concat]. rewrite world_run_app, Hs1. cbn [mbind outcome_bind].
  destruct (IH _ s1 id k c Hinv1 Hr1) as (s' & Hs' & Hsy' & Ht' & Hp').
  - by rewrite Hsy.
  - destruct Hw as [?|[_ ->]]; [lia|cbn; lia].
  - exists s'. split; [done|]. split; [congruence|]. split; [done|]. rewrite Hp', Hsy. done.
Qed.

(** C13. An inbound task is never stuck, and handles its batch exactly: from any
    state the server can reach in which the task of a client has read a batch,
    after three rounds per packet in which the TUN writer and the task each
    take a step the task awaits its next read, and if the tables do not change
    in the meantime it has queued, in order, exactly the packets of the batch
    that the filter of [Forward] delivers for this client under those tables. *)
Theorem inbound_batch_served es s id k c batch :
  world_run es (world_init server dev) = Ret s -> inbound_runs s id = true ->
  conns (sys_of s) !! id = Some (k, c) -> task_of s id = mkInTask batch Between ->
  let t := tables_of (sys_of s) in
  exists s', world_run (concat (replicate (3 * length batch) (serve_round id))) s = Ret s' /\
    task_of s' id = inbound_new /\ sys_of s' = sys_of s /\
    w_passed s' = (w_passed s ++ map (pair id)
      (filter (fun it => judge k ports it = Forward.Deliver) (map (fun p => mkInbound p t t) batch)))%list.
Proof.
  intros Hrun Hr Hc Ht t. destruct (world_run_inv es) as (s0 & Hrun0 & Hinv). rewrite Hrun in Hrun0. injection Hrun0 as <-.
  destruct (serve_rounds (3 * length batch) es s id k c Hinv Hr Hc) as (s' & Hs' & Hsy & Ht' & Hp).
  { rewrite Ht. unfold work_left. cbn [batch_rest in_pc]. lia. }
  exists s'. rewrite Ht in Hp. done.
Qed.

(** ** Isolation *)

Context (p4 : option (IpPool EndpointId Net4)) (p6 : option (Ip6Pool EndpointId Net6)).

(** No client connects while an earlier connection of it is being handled. *)
Definition orderly_history (es : list world_event) : Prop :=
  forall es1 id inc es2 s1 k, es = (es1 ++ Loops (Handshaken id inc) :: es2)%list ->
    world_run es1 (world_init server dev) = Ret s1 -> connects inc = Ret k ->
    forall j c, conns (sys_of s1) !! j = Some (k, c) -> live c = false.

Lemma loop_step_sys (l : Loop) (e : LoopEvent) :
  lp_sys (step_loop l e) = lp_sys l \/
  (exists i w, lp_sys (step_loop l e) = sys_step max_clients (lp_sys l) (Run i w)) \/
  (exists i inc k, e = Handshaken i inc /\ connects inc = Ret k /\
     lp_sys (step_loop l e) = sys_step max_clients (lp_sys l) (Arrive i k)).
Proof.
  assert (Hrun : forall id w, lp_sys (run_task max_clients l id w) = sys_step max_clients (lp_sys l) (Run id w)) by done.
  destruct e as [id|id inc|id w|id e w|id req|id| | |]; cbn [loop_step]; unfold writer_round;
    try (by repeat case_match; eauto).
  destruct (negb _); [by left|]. destruct (connects inc) as [k| |] eqn:Hk; [|by left..].
  right. right. exists id, inc, k. by rewrite Hk.
Qed.

Lemma orderly_now es s : server = srv (sys_init p4 p6) -> orderly_history es ->
  world_run es (world_init server dev) = Ret s -> orderly max_clients p4 p6 (sys_of s).
Proof.
  intros Hserver. revert s. induction es as [|e es IH] using rev_ind; intros s Ho Hr.
  { cbn in Hr. simplify_eq. unfold sys_of. cbn. rewrite Hserver. apply (orderly_init max_clients p4 p6). }
  rewrite world_run_snoc in Hr. destruct (world_run es (world_init server dev)) as [s0| |] eqn:Hr0; [|done..].
  cbn [mbind outcome_bind] in Hr.
  assert (Hs0 : orderly max_clients p4 p6 (sys_of s0)).
  { apply IH; [|done]. intros es1 id inc es2 s1 k -> Hr1 Hk. eapply (Ho es1 id inc (es2 ++ [e])%list); [|done..].
    by rewrite <-app_assoc. }
  unfold sys_of in *. destruct (world_step_loop s0 e s Hr) as [->|(le & -> & Hle)]; [done|].
  destruct (loop_step_sys (w_loop s0) le) as [->|[(i & w & ->)|(i & inc & k & -> & Hk & ->)]]; [done|by constructor|].
  destruct Hle as [->|(? & ? & ?)]; [|done]. constructor; [done|]. intros j c Hj.
  by eapply (Ho es i inc [] s0 k).
Qed.

Lemma orderly_visited (es : list world_event) (sy : Sys) : server = srv (sys_init p4 p6) -> fresh_pool p4 -> fresh_pool p6 -> orderly_history es ->
  visited es sy -> sess_inv sy.
Proof.
  intros Hs Hf4 Hf6 Ho (es1 & es2 & s & -> & Hr & <-). eapply (orderly_inv max_clients p4 p6); [done..|].
  eapply orderly_now; [done| |done]. intros a id inc b s1 k -> Hr1 Hk. eapply (Ho a id inc (b ++ es2)%list); [|done..].
  by rewrite <-app_assoc.
Qed.

(** The connection has the address. *)
Definition holds (c : pc) (a : PacketIp) : Prop :=
  match a with PktV4 x => hold4 c = Some x | PktV6 x => hold6 c = Some x end.

(** What the tables lead to. *)
Lemma lookup_holder (sy : Sys) (a : PacketIp) (k : Key) : sess_inv sy -> lookup_dest (tables_of sy) a = Some k ->
  exists j c, conns sy !! j = Some (k, c) /\ live c = true /\ holds c a.
Proof.
  intros Hs. destruct a as [x|x]; cbn [lookup_dest tables_of t4 t6 holds]; intros Hl.
  - apply (si_route4 _ Hs) in Hl as (j & c & ? & ? & ?). exists j, c. auto using route4_hold.
  - apply (si_route6 _ Hs) in Hl as (j & c & ? & ? & ?). exists j, c. auto using route6_hold.
Qed.


(** A history with one handshake. *)
Definition is_handshake (e : world_event) : bool := match e with Loops (Handshaken _ _) => true | _ => false end.

Lemma orderly_one pre id inc post s0 :
  forallb (fun e => negb (is_handshake e)) pre = true -> forallb (fun e => negb (is_handshake e)) post = true ->
  world_run pre (world_init server dev) = Ret s0 -> conns (sys_of s0) = ∅ ->
  orderly_history (pre ++ Loops (Handshaken id inc) :: post).
Proof.
  intros Hpre Hpost Hr0 Hc es1 id' inc' es2 s1 k Heq Hr1 _ j c Hj.
  assert (Hno : forall l a b, forallb (fun e => negb (is_handshake e)) l = true -> Loops (Handshaken a b) ∈ l -> False).
  { intros l a b Hf Hin. rewrite forallb_forall in Hf. apply list_elem_of_In in Hin. by specialize (Hf _ Hin). }
  assert (es1 = pre) as ->; [|rewrite Hr0 in Hr1; simplify_eq; by rewrite Hc, lookup_empty in Hj].
  apply app_eq_inv in Heq as [(k1 & -> & Heq)|(k1 & -> & Heq)]; destruct k1 as [|e k1]; cbn [app] in Heq;
    rewrite ?app_nil_r; try done; simplify_eq; exfalso.
  - apply (Hno _ id' inc' Hpre), elem_of_app. right. left.
  - apply (Hno _ id' inc' Hpost), elem_of_app. right. left.
Qed.

End Data.

(** ** Evaluation *)

#[local] Instance data_handshake_json : Json VpnHandshake := one_value_json sample_handshake [123; 125]%Z.
#[local] Instance data_response_json : Json (VpnHandshakeResponse (CNet V4_BITS) (CNet V6_BITS)) :=
  one_value_json server_full [91; 93]%Z.

Abbreviation sample_event := (world_event (EndpointId:=Z) (S:=list Z)).

(** The client is served with [10.0.0.2]; of its packets the first is for the
    server, the second for a client, the third has no source; then a frame for
    it is read from the device and sent. *)
Definition sample_traffic : list sample_event :=
  ([Loops (Accept 1)] ++ Loops (Handshaken 1 sample_incoming) :: replicate 7 (Loops (ServerLoop.Step 1 true)) ++
   [ReadMany 1 [sample_ipv4 2 1; sample_ipv4 2 2; [69]%Z]] ++ replicate 6 (InboundStep 1) ++
   [FrameRead (sample_ipv4 1 2); ReaderStep None; ReaderStep (Some 1200%nat); TakeBatch 1; SendBatch 1;
    Loops WriterRuns])%list.

Definition sample_server : VpnServer (Z * Z) (IpPool Z (CNet V4_BITS)) (Ip6Pool Z (CNet V6_BITS)) :=
  mkServer (Some sample_pool) None ∅ ∅ ∅ 0 1.

Abbreviation sample_run es :=
  (world_run (Net4:=CNet V4_BITS) (Net6:=CNet V6_BITS) (fun _ => Some 5%Z) (fun _ => Some 9%Z) (fun _ _ _ => true)
    record_all sample_digest (fun e => [e]) (fun (d : list (list Z)) f => ((d ++ [f])%list, Ret tt)) {[9%Z]} 10
    (mkTunWriter false false) 4 (mkTunReader false false) ∅ open_try open_wait (fun _ => []) es
    (world_init sample_server [])).

Example sample_traffic_result :
  match sample_run sample_traffic with
  | Ret s => map (fun x => (x.1, in_packet x.2)) (w_passed s) = [(1%nat, sample_ipv4 2 1)] /\
      lp_dev (w_loop s) = [sample_ipv4 2 1] /\ packets_inter_client_blocked (w_stats s) = 1%Z /\
      packets_spoofed (w_stats s) = 1%Z /\
      sd_conn (data_of (fun _ => []) s 1) = [sample_ipv4 1 2] /\ packets_to_clients (w_stats s) = 1%Z
  | _ => False
  end.
Proof. vm_compute. split_and!; reflexivity. Qed.


Lemma sample_traffic_orderly :
  orderly_history (Net4:=CNet V4_BITS) (Net6:=CNet V6_BITS) (fun _ => Some 5%Z) (fun _ => Some 9%Z)
    (fun _ _ _ => true) record_all sample_digest (fun e => [e]) (fun (d : list (list Z)) f => ((d ++ [f])%list, Ret tt))
    {[9%Z]} 10 (mkTunWriter false false) 4 (mkTunReader false false) ∅ open_try open_wait (fun _ => []) sample_server []
    sample_traffic.
Proof. eapply orderly_one with (pre := [Loops (Accept 1)]); reflexivity. Qed.


(** The batch of [sample_traffic], up to the moment it has been read. *)
Definition sample_read : list sample_event := take 10 sample_traffic.

Lemma inbound_batch_served_witness :
  exists s s', sample_run sample_read = Ret s /\
    world_run (Net4:=CNet V4_BITS) (Net6:=CNet V6_BITS) (fun _ => Some 5%Z) (fun _ => Some 9%Z) (fun _ _ _ => true)
      record_all sample_digest (fun e => [e]) (fun (d : list (list Z)) f => ((d ++ [f])%list, Ret tt)) {[9%Z]} 10
      (mkTunWriter false false) 4 (mkTunReader false false) ∅ open_try open_wait (fun _ => [])
      (concat (replicate 9 (serve_round 1))) s = Ret s' /\
    map (fun x => in_packet x.2) (w_passed s') = [sample_ipv4 2 1].
Proof.
  assert (Hex : match sample_run sample_read with Ret s => inbound_runs s 1 = true /\
    task_of s 1 = mkInTask [sample_ipv4 2 1; sample_ipv4 2 2; [69]%Z] Between /\ w_passed s = [] /\
    exists c, conns (sys_of s) !! 1%nat = Some ((5, 7)%Z, c) /\ tables_of (sys_of s) = mkTables {[167772162%Z := (5, 7)%Z]} ∅
    | _ => False end).
  { vm_compute. split; [reflexivity|]. split; [reflexivity|]. split; [reflexivity|]. eexists. split; reflexivity. }
  destruct (sample_run sample_read) as [s| |] eqn:Hs; [|destruct Hex..].
  destruct Hex as (Hr & Ht & Hp & c & Hc & Htab). exists s.
  destruct (inbound_batch_served (Net4:=CNet V4_BITS) (Net6:=CNet V6_BITS) (fun _ => Some 5%Z) (fun _ => Some 9%Z)
    (fun _ _ _ => true) record_all sample_digest (fun e => [e]) (fun (d : list (list Z)) f => ((d ++ [f])%list, Ret tt))
    {[9%Z]} 10 (mkTunWriter false false) 4 (mkTunReader false false) ∅ open_try open_wait (fun _ => []) id open_conn_laws
    (fun _ => eq_refl) sample_server [] sample_read s 1 (5, 7)%Z c _ Hs Hr Hc Ht) as (s' & Hrun & _ & _ & Hp').
  exists s'. split; [reflexivity|]. split; [exact Hrun|]. rewrite Hp', Hp, Htab. reflexivity.
Defined.
