(* ===== verification/Mobile.v ===== *)
(** * The mobile session ([src/tunnel/mobile.rs])

    [MobileSession]: establishing a link (dial, handshake, underlay bypass
    set), the network settings the app extension applies, and [run], which
    reconnects in place over the same tun fd.  [run] is a state machine over
    the results of its calls; dialling, the handshake, name resolution and the
    tunnel are inputs. *)

From stdpp Require Import sorting.
From S2P Require Import Prelude Text Errors Net Config Signaling Handshake Client DeviceRoutes Bypass.
From S2P Require Import Device Routing Status Session.

#[local] Open Scope string_scope.

(** ** Relay addresses ([collect_relay_ips] of [src/tunnel/client.rs]) *)

(** What the URL of a relay and the resolver say of it. *)
Record RelayLookup : Type := mkLookup {
  rl_host : option string;
  rl_dns : option (list IpAddr);        (* [None]: no resolver, or the lookup failed *)
}.

Section Mobile.
Context {Net4 Net6 : Type} `{EqDecision Net4} `{EqDecision Net6}.
Context `{NetOps V4_BITS Net4} `{NetOps V6_BITS Net6}.
Context (parse_ip : string -> option IpAddr) (to_string : VpnError -> string).
Context {Conn : Type}.

(** The ports of the socket addresses are not used. *)
Definition resolve_relay_url (r : RelayLookup) : option (list IpAddr) :=
  match rl_host r with
  | None => Some []
  | Some host =>
      match parse_ip host with
      | Some ip => Some [ip]
      | None => rl_dns r
      end
  end.

Definition collect_relay_ips (relays : list RelayLookup) : gset IpAddr :=
  list_to_set (relays ≫= fun r => default [] (resolve_relay_url r)).

(** ** A link *)

Abbreviation Info := (ServerInfo Net4 Net6).

Record MobileNetworkConfig : Type := mkMobileConfig {
  mc_assigned_ip : option Z;
  mc_netmask : option Z;
  mc_gateway : option Z;
  mc_assigned_ip6 : option Z;
  mc_prefix_len6 : option Z;
  mc_gateway6 : option Z;
  mc_mtu : Z;
  mc_excluded_routes : list Z;
  mc_excluded_routes6 : list Z;
}.

#[export] Instance MobileNetworkConfig_eq_dec : EqDecision MobileNetworkConfig.
Proof. solve_decision. Defined.

Record Link : Type := mkLink {
  l_connection : Conn;
  l_server_info : Info;
  l_excluded_routes : list Z;
  l_excluded_routes6 : list Z;
}.

Definition network_config (self : Link) : MobileNetworkConfig :=
  let info := l_server_info self in
  mkMobileConfig (info_assigned_ip info) ((fun n => netmask4 (net_prefix_len n)) <$> info_network info)
    (info_server_ip info) (info_assigned_ip6 info) (net_prefix_len <$> info_network6 info)
    (info_server_ip6 info) VPN_MTU (l_excluded_routes self) (l_excluded_routes6 self).

(** What one call of [establish] meets. *)
Record Dialed : Type := mkDialed {
  d_dial : dial Conn;
  d_handshake : VpnError + Info;
  d_relays : list RelayLookup;
}.

Definition opt_list {A} (o : option A) : list A := match o with Some a => [a] | None => [] end.

Definition mobile_establish (routes : list Net4) (routes6 : list Net6) (d : Dialed) : vres Link :=
  connection ← connect_with_timeout (d_dial d);
  server_info ← of_sum (d_handshake d);
  let candidates := (elements (collect_relay_ips (d_relays d)) ++ info_server_addrs server_info)%list in
  let candidates := dedup (merge_sort ip_le candidates) in
  let routed4 := (routes ++ opt_list (info_network server_info))%list in
  let routed6 := (routes6 ++ opt_list (info_network6 server_info))%list in
  let '(excluded_routes, excluded_routes6) := overlapping_underlay_excludes candidates routed4 routed6 in
  Ret (mkLink connection server_info excluded_routes excluded_routes6).

(** ** [MobileSession::run] *)

Inductive SessionEvent : Type := Reconnecting (reason : string) | Reconnected.

Inductive mobile_action : Type :=
| Report (e : SessionEvent)
| SleepFor (ms : Z)
| UseConnection (c : Conn)          (* [current_connection] *)
| CloseConnection (c : Conn).

(** What happens next: the tunnel over the fd ends (or the fd cannot be
    wrapped), or the delay has passed and the server is dialled. *)
Inductive mobile_input : Type :=
| TunnelEnded (fd_error : option VpnError) (result : vres unit)
| Redial (jitter : Z) (d : Dialed).

Inductive mobile_state : Type :=
| Up (link : Link)
| Down (failures : Z)
| Over (result : vres unit).

Definition config_changed : VpnError := ServerConfigChanged (msg "network parameters changed on reconnect (was {applied:?}, now {params:?})").

Definition mobile_step (routes : list Net4) (routes6 : list Net6) (with_events : bool)
    (applied : MobileNetworkConfig) (s : mobile_state) (i : mobile_input)
  : mobile_state * list mobile_action :=
  match s, i with
  | Up link, TunnelEnded (Some e) _ => (Over (Fail e), [])
  | Up link, TunnelEnded None (Fail lost) =>
      if negb with_events then (Over (Fail lost), [])
      else if negb (is_recoverable lost) then (Over (Fail lost), [])
      else (Down 0, [Report (Reconnecting (to_string lost))])
  | Up link, TunnelEnded None r => (Over r, [])
  | Down failures, Redial jitter d =>
      let failures := Z.min U32_MAX (failures + 1) in
      let delay := calculate_backoff failures jitter in
      match mobile_establish routes routes6 d with
      | Ret link =>
          let params := network_config link in
          if decide (params = applied)
          then (Up link, [SleepFor delay; UseConnection (l_connection link); Report Reconnected])
          else (Over (Fail config_changed), [SleepFor delay; CloseConnection (l_connection link)])
      | Fail e =>
          if is_recoverable e
          then (Down failures, [SleepFor delay; Report (Reconnecting (to_string e))])
          else (Over (Fail e), [SleepFor delay])
      | Panic => (Over Panic, [SleepFor delay])
      end
  | _, _ => (s, [])
  end.

Fixpoint mobile_run (routes : list Net4) (routes6 : list Net6) (with_events : bool)
    (applied : MobileNetworkConfig) (s : mobile_state) (inputs : list mobile_input)
  : mobile_state * list mobile_action :=
  match inputs with
  | [] => (s, [])
  | i :: inputs =>
      let '(s, acts) := mobile_step routes routes6 with_events applied s i in
      let '(s, more) := mobile_run routes routes6 with_events applied s inputs in
      (s, (acts ++ more)%list)
  end.

(** [connect] then [run]: the settings applied are those of the first link. *)
Definition mobile_session (routes : list Net4) (routes6 : list Net6) (with_events : bool) (first : Dialed)
    (inputs : list mobile_input) : vres (Link * (mobile_state * list mobile_action)) :=
  link ← mobile_establish routes routes6 first;
  Ret (link, mobile_run routes routes6 with_events (network_config link) (Up link) inputs).
End Mobile.
Arguments Link : clear implicits.
Arguments Dialed : clear implicits.
Arguments mobile_state : clear implicits.
Arguments mobile_input : clear implicits.
Arguments mobile_action : clear implicits.

(** ** Properties *)

#[local] Open Scope list_scope.

Section MobileProofs.
Context {Net4 Net6 : Type} `{EqDecision Net4} `{EqDecision Net6}.
Context `{NetOps V4_BITS Net4} `{NetOps V6_BITS Net6}.
Context (parse_ip : string -> option IpAddr) (to_string : VpnError -> string).
Context {Conn : Type} (routes : list Net4) (routes6 : list Net6) (with_events : bool).

Abbreviation MLink := (Link Net4 Net6 Conn).
Abbreviation establishes := (mobile_establish parse_ip (Conn := Conn) routes routes6).

(** Reported events: a loss is followed by its attempts and at most one
    reconnection.  The flag says whether the session is down. *)
Fixpoint events_state (down : bool) (evs : list SessionEvent) : option bool :=
  match evs with
  | [] => Some down
  | Reconnecting _ :: evs => events_state true evs
  | Reconnected :: evs => if down then events_state false evs else None
  end.

Definition reports (acts : list (mobile_action Conn)) : list SessionEvent :=
  omap (fun a => match a with Report e => Some e | _ => None end) acts.
Definition sleeps (acts : list (mobile_action Conn)) : list Z :=
  omap (fun a => match a with SleepFor d => Some d | _ => None end) acts.
Definition last_used (c : Conn) (acts : list (mobile_action Conn)) : Conn :=
  fold_left (fun c a => match a with UseConnection c' => c' | _ => c end) acts c.

Lemma events_state_app down evs1 evs2 d : events_state down evs1 = Some d ->
  events_state down (evs1 ++ evs2) = events_state d evs2.
Proof.
  revert down. induction evs1 as [|[r|] evs1 IH]; intros down; cbn [events_state app].
  - by intros [= ->].
  - apply IH.
  - destruct down; [apply IH|done].
Qed.

(** Which input ends the session, and how. *)
Definition ends (applied : MobileNetworkConfig) (i : mobile_input Net4 Net6 Conn) (r : vres unit) : Prop :=
  match i with
  | TunnelEnded (Some e) _ => r = Fail e
  | TunnelEnded None r' => r = r' /\ (forall e, r = Fail e -> with_events = false \/ is_recoverable e = false)
  | Redial _ d =>
      match establishes d with
      | Ret l => network_config l <> applied /\ r = Fail config_changed
      | Fail e => is_recoverable e = false /\ r = Fail e
      | Panic => r = Panic
      end
  end.

Definition jitter_ok (i : mobile_input Net4 Net6 Conn) : Prop :=
  match i with Redial j _ => (0 <= j < BACKOFF_JITTER_MS)%Z | _ => True end.

(** The input a session in this state is waiting for: the end of its tunnel
    while it is up, the next attempt while it is down. *)
Definition awaits (s : mobile_state Net4 Net6 Conn) (i : mobile_input Net4 Net6 Conn) : Prop :=
  match s, i with
  | Up _, TunnelEnded _ _ | Down _, Redial _ _ => True
  | _, _ => False
  end.

(** Where an input that does not end the session takes it: a lost tunnel is
    retried, and a link that could be established is used. *)
Definition retried (i : mobile_input Net4 Net6 Conn) (s : mobile_state Net4 Net6 Conn) : Prop :=
  match i with
  | TunnelEnded _ _ => s = Down 0
  | Redial _ d => match establishes d with Ret l => s = Up l | _ => exists n, s = Down n end
  end.

(** A state of a session whose settings are [applied]: the connection in use
    is [c], [down] is the state of the reported events. *)
Definition mobile_good (applied : MobileNetworkConfig) (c : Conn) (down : bool)
    (s : mobile_state Net4 Net6 Conn) : Prop :=
  match s with
  | Up l => network_config l = applied /\ l_connection l = c /\ down = false
  | Down n => with_events = true /\ (0 <= n <= U32_MAX)%Z /\ down = true
  | Over _ => True
  end.

Abbreviation step := (mobile_step parse_ip to_string (Conn := Conn) routes routes6 with_events).
Abbreviation runs := (mobile_run parse_ip to_string (Conn := Conn) routes routes6 with_events).

Lemma mobile_step_good applied c down s i : mobile_good applied c down s -> jitter_ok i ->
  let '(s', acts) := step applied s i in
  (exists down', events_state down (reports acts) = Some down' /\ mobile_good applied (last_used c acts) down' s') /\
  Forall (fun d => 1000 <= d <= 60000)%Z (sleeps acts) /\
  (with_events = false -> acts = []).
Proof.
  intros Hg Hj.
  destruct s as [l|n|r]; [destruct i as [[e|] r|j d]|destruct i as [o r|j d]|].
  - cbn. split; [by exists down|]. done.
  - cbn [mobile_step]. destruct r as [[]|e|].
    + cbn. split; [by exists down|]. done.
    + destruct Hg as (_ & _ & ->). destruct with_events eqn:He; cbn [negb].
      * destruct (is_recoverable e) eqn:Hr; cbn.
        -- split; [exists true; split_and!; try done; ulia|]. done.
        -- split; [by exists false|]. done.
      * cbn. split; [by exists false|]. done.
    + cbn. split; [by exists down|]. done.
  - cbn. split; [by exists down|]. done.
  - cbn. split; [by exists down|]. done.
  - destruct Hg as (He & Hn & ->). cbn [mobile_step jitter_ok] in *.
    assert (Hb : (1000 <= calculate_backoff (Z.min U32_MAX (n + 1)) j <= 60000)%Z) by (apply backoff_bounds; [ulia|done]).
    destruct (establishes d) as [l|e|].
    + destruct (decide (network_config l = applied)) as [Heq|Hne]; cbn.
      * split; [by exists false|]. split; [by apply Forall_singleton|]. congruence.
      * split; [by exists true|]. split; [by apply Forall_singleton|]. congruence.
    + destruct (is_recoverable e) eqn:Hr; cbn.
      * split; [exists true; split_and!; try done; ulia|]. split; [by apply Forall_singleton|]. congruence.
      * split; [by exists true|]. split; [by apply Forall_singleton|]. congruence.
    + cbn. split; [by exists true|]. split; [by apply Forall_singleton|]. congruence.
  - cbn. split; [by exists down|]. done.
Qed.

(** An awaited input ends the session exactly when [ends] says so. *)
Lemma mobile_step_awaited applied s i : awaits s i ->
  (exists r, ends applied i r /\ (step applied s i).1 = Over r) \/
  ((forall r, ~ ends applied i r) /\ retried i (step applied s i).1).
Proof.
  destruct s as [l|n|r], i as [[e|] r'|j d]; try done; intros _.
  - left. by exists (Fail e).
  - cbn [mobile_step ends retried]. destruct r' as [[]|e|]; [left; by exists (Ret ())| |left; by exists Panic].
    destruct with_events; cbn [negb].
    + destruct (is_recoverable e) eqn:Hr; cbn [negb fst].
      * right. split; [|done]. intros r [-> Hend]. destruct (Hend e eq_refl) as [?|?]; congruence.
      * left. exists (Fail e). split; [|done]. split; [done|]. intros e' [= <-]. by right.
    + left. exists (Fail e). split; [|done]. split; [done|]. intros e' _. by left.
  - cbn [mobile_step ends retried]. destruct (establishes d) as [l|e|].
    + destruct (decide (network_config l = applied)) as [Heq|Hne]; cbn [fst].
      * right. split; [|done]. by intros r [? _].
      * left. by exists (Fail config_changed).
    + destruct (is_recoverable e) eqn:Hr; cbn [fst].
      * right. split; [by intros r [? _]|by eexists].
      * left. by exists (Fail e).
    + left. by exists Panic.
Qed.

(** Other inputs leave it as it is. *)
Lemma mobile_step_ignored applied s i : ~ awaits s i -> (step applied s i).1 = s.
Proof. destruct s, i as [[]|]; cbn; done || (intros Hn; by destruct Hn). Qed.

Lemma ends_functional applied i r r' : ends applied i r -> ends applied i r' -> r = r'.
Proof.
  destruct i as [[e|] v|j d]; cbn [ends]; [congruence| |].
  - intros [-> _] [-> _]. done.
  - destruct (establishes d); [by intros [_ ->] [_ ->]..|by intros -> ->].
Qed.

Lemma awaits_dec s i : awaits s i \/ ~ awaits s i.
Proof. destruct s, i; cbn; tauto. Qed.

Lemma mobile_run_over applied r (inputs : list (mobile_input Net4 Net6 Conn)) : (runs applied (Over r) inputs).1 = Over r.
Proof.
  induction inputs as [|i inputs IH]; [done|]. cbn [mobile_run mobile_step].
  destruct (runs applied (Over r) inputs) as [s2 a2]. done.
Qed.

Lemma mobile_run_cons applied s i inputs :
  (runs applied s (i :: inputs)).1 = (runs applied (step applied s i).1 inputs).1.
Proof.
  cbn [mobile_run]. destruct (step applied s i) as [s1 a1]. cbn [fst]. by destruct (runs applied s1 inputs).
Qed.

(** The session is over exactly when an input it awaited ended it. *)
Lemma mobile_run_ended applied inputs s r : (forall r, s <> Over r) ->
  (runs applied s inputs).1 = Over r <->
  exists before i after, inputs = before ++ i :: after /\ awaits (runs applied s before).1 i /\ ends applied i r.
Proof.
  revert s. induction inputs as [|i inputs IH]; intros s Hs.
  { split; [by intros ?%Hs|]. intros (before & i & after & He & _). by destruct before. }
  rewrite mobile_run_cons. destruct (awaits_dec s i) as [Ha|Ha].
  - destruct (mobile_step_awaited applied s i Ha) as [(v & Hv & Hs1)|[Hno Hr]].
    + rewrite Hs1, mobile_run_over. split.
      * intros [= <-]. by exists [], i, inputs.
      * intros (before & k & after & He & Hk & Hend). destruct before as [|b before]; injection He as <- ->.
        -- by rewrite (ends_functional _ _ _ _ Hend Hv).
        -- by rewrite mobile_run_cons, Hs1, mobile_run_over in Hk.
    + assert (Hs1 : forall v, (step applied s i).1 <> Over v).
      { intros v Hv. rewrite Hv in Hr. destruct i as [o v'|j d]; cbn [retried] in Hr; [done|].
        destruct (establishes d); [done|by destruct Hr..]. }
      rewrite (IH _ Hs1). split; intros (before & k & after & He & Hk & Hend).
      * exists (i :: before), k, after. rewrite He, mobile_run_cons. done.
      * destruct before as [|b before]; injection He as <- ->; [by destruct (Hno r)|].
        rewrite mobile_run_cons in Hk. by exists before, k, after.
  - rewrite (mobile_step_ignored applied s i Ha), (IH s Hs).
    split; intros (before & k & after & He & Hk & Hend).
    + exists (i :: before), k, after. rewrite He, mobile_run_cons, (mobile_step_ignored applied s i Ha). done.
    + destruct before as [|b before]; injection He as <- ->; [done|].
      rewrite mobile_run_cons, (mobile_step_ignored applied s i Ha) in Hk. by exists before, k, after.
Qed.

Lemma mobile_run_snoc applied s inputs i :
  (runs applied s (inputs ++ [i])).1 = (step applied (runs applied s inputs).1 i).1.
Proof.
  revert s. induction inputs as [|j inputs IH]; intros s; cbn [app].
  - rewrite mobile_run_cons. done.
  - rewrite !mobile_run_cons. apply IH.
Qed.

Lemma mobile_run_good applied inputs c down s : mobile_good applied c down s -> Forall jitter_ok inputs ->
  let '(s', acts) := runs applied s inputs in
  (exists down', events_state down (reports acts) = Some down' /\ mobile_good applied (last_used c acts) down' s') /\
  Forall (fun d => 1000 <= d <= 60000)%Z (sleeps acts) /\
  (with_events = false -> acts = []).
Proof.
  revert c down s. induction inputs as [|i inputs IH]; intros c down s Hg Hj; cbn [mobile_run].
  { cbn. split; [by exists down|]. done. }
  apply Forall_cons in Hj as [Hi Hj]. pose proof (mobile_step_good applied c down s i Hg Hi) as Hs.
  destruct (step applied s i) as [s1 a1]. destruct Hs as ((d1 & He1 & Hg1) & Hd1 & Hn1).
  specialize (IH (last_used c a1) d1 s1 Hg1 Hj). destruct (runs applied s1 inputs) as [s2 a2].
  destruct IH as ((d2 & He2 & Hg2) & Hd2 & Hn2). unfold reports, sleeps, last_used in *.
  rewrite !omap_app, fold_left_app. split_and!.
  - exists d2. by rewrite (events_state_app _ _ _ _ He1).
  - by apply Forall_app.
  - intros Hw. by rewrite (Hn1 Hw), (Hn2 Hw).
Qed.

(** The bypass set of a link. *)
Lemma mobile_excludes d l : establishes d = Ret l ->
  d_handshake d = inr (l_server_info l) /\ d_dial d = DialOk (l_connection l) /\
  let routed4 := routes ++ opt_list (info_network (l_server_info l)) in
  let routed6 := routes6 ++ opt_list (info_network6 (l_server_info l)) in
  let candidate ip := ip ∈ collect_relay_ips parse_ip (d_relays d) \/ ip ∈ info_server_addrs (l_server_info l) in
  (forall a, a ∈ l_excluded_routes l <-> candidate (V4 a) /\ bypassable routed4 routed6 (V4 a)) /\
  (forall a, a ∈ l_excluded_routes6 l <-> candidate (V6 a) /\ bypassable routed4 routed6 (V6 a)).
Proof.
  unfold mobile_establish. destruct (d_dial d) as [| |conn]; cbn [connect_with_timeout mbind outcome_bind]; [done..|].
  destruct (d_handshake d) as [e|info]; cbn [of_sum mbind outcome_bind]; [done|].
  set (cands := dedup _). set (r4 := routes ++ _). set (r6 := routes6 ++ _).
  pose proof (excludes_spec cands r4 r6) as Hs. destruct (overlapping_underlay_excludes cands r4 r6) as [v4 v6].
  intros Hl. apply Ret_inj in Hl. subst l. cbn [l_server_info l_connection l_excluded_routes l_excluded_routes6 fst snd] in *.
  split; [done|]. split; [done|].
  assert (Hc : forall ip, ip ∈ cands <-> ip ∈ collect_relay_ips parse_ip (d_relays d) \/ ip ∈ info_server_addrs info).
  { intros ip. unfold cands. rewrite elem_of_dedup, merge_sort_Permutation, elem_of_app, elem_of_elements. done. }
  split; intros a; rewrite <-Hc; apply Hs.
Qed.

End MobileProofs.

(** A session that is lost, fails to reconnect once and then does. *)
Definition mobile_info : ServerInfo (CNet V4_BITS) (CNet V6_BITS) :=
  mkServerInfo (Some 167772162%Z) (cnet_new V4_BITS 167772161 32) (Some 167772161%Z) None None None [V4 3405803777].

Definition mobile_first : Dialed (CNet V4_BITS) (CNet V6_BITS) Z := mkDialed (DialOk 1%Z) (inr mobile_info) [].

Definition mobile_inputs : list (mobile_input (CNet V4_BITS) (CNet V6_BITS) Z) :=
  [TunnelEnded None (Fail (ConnectionLost (msg "idle timeout")));
   Redial 0 (mkDialed DialTimeout (inr mobile_info) []);
   Redial 0 (mkDialed (DialOk 2%Z) (inr mobile_info) [])].

(** The same session lost once more, and then rejected by the server. *)
Definition mobile_rejection : VpnError := AuthenticationFailed (msg "token revoked").
Definition mobile_rejected : list (mobile_input (CNet V4_BITS) (CNet V6_BITS) Z) :=
  mobile_inputs ++
  [TunnelEnded None (Fail (ConnectionLost (msg "idle timeout")));
   Redial 0 (mkDialed (DialOk 3%Z) (inl mobile_rejection) []);
   Redial 0 (mkDialed (DialOk 4%Z) (inr mobile_info) [])].

Abbreviation sample_mobile := (mobile_session (fun _ => None) (fun _ => "lost"%string) [] [] true mobile_first).

