(* ===== verification/Ffi.v ===== *)
(** * The C interface of the Apple clients ([src/ffi.rs])

    The handle of a session: connecting, running the tunnel with its event
    callback, and stopping.  The callback runs on library threads under the
    lock of the [stopped] flag, so that the tunnel task and the caller's
    [ezvpn_stop] interleave; their steps are the locked regions.  A C string
    buffer is its list of bytes, [None] for a null pointer. *)

From S2P Require Import Prelude Text Errors Net Config Handshake DeviceRoutes Routing Status Session Mobile.

#[local] Open Scope string_scope.

(** ** Buffers *)

Definition cbuf : Type := option (list Z).

Definition write_cstr (buf : cbuf) (s : list Z) : cbuf * bool :=
  match buf with
  | None => (buf, false)
  | Some [] => (buf, false)
  | Some mem =>
      let copy := Nat.min (length s) (length mem - 1) in
      (* the copy and the NUL are two writes into the caller's memory *)
      (Some (take copy s ++ 0%Z :: drop (copy + 1) mem)%list, (copy =? length s)%nat)
  end.

(** A text the C side passes. *)
Inductive cstring : Type := NullPtr | NotUtf8 | Utf8 (json : string).

Record FfiConfig : Type := mkFfiConfig {
  fc_server_node_id : string;
  fc_auth_key : string;
  fc_relay_urls : list string;
  fc_relay_auth_token : option string;
  fc_routes : list string;
  fc_routes6 : list string;
  fc_exclude_direct_paths : list string;
}.

Definition bytes_of_string (s : string) : list Z :=
  map (fun c => Z.of_N (Ascii.N_of_ascii c)) (String.list_ascii_of_string s).

(** ** Keys and paths (with [src/ffi_common.rs])

    A text or a message goes to the buffer; [1] tells that the whole text is
    there. *)

Definition reply (out : cbuf) (r : outcome string string) : cbuf * Z :=
  match r with
  | Ret text =>
      let '(out, ok) := write_cstr out (bytes_of_string text) in (out, if ok : bool then 1 else 0)%Z
  | Fail m => ((write_cstr out (bytes_of_string m)).1, 0%Z)
  | Panic => (out, 0%Z)
  end.

Section Keys.
Context {Key : Type} (from_secret_str : string -> option Key) (public_str : Key -> string) (secret_str : Key -> string).
(** serde_json's rendering of the two documents. *)
Context (key_json : string -> string -> string -> string)
  (paths_json : list (string * string * bool) -> list CustomRelayStatus -> string).

(** [generated] is [None] when the system's random generator is unavailable. *)
Definition generate_client_key_json (generated : option Key) (created : string) : outcome string string :=
  key ← ok_or "cannot generate a key" generated;
  Ret (key_json created (public_str key) (secret_str key)).

Definition ezvpn_generate_client_key (generated : option Key) (created : string) (out : cbuf) : cbuf * Z :=
  reply out (generate_client_key_json generated created).

Definition client_public_key (secret : string) : outcome string string :=
  match from_secret_str (trim secret) with
  | Some key => Ret (public_str key)
  | None => Fail "invalid secret key"
  end.

Definition ezvpn_client_public_key (secret_key : cstring) (out : cbuf) : cbuf * Z :=
  match secret_key with
  | NullPtr => reply out (Fail "secret_key is null")
  | NotUtf8 => reply out (Fail "secret_key is not valid UTF-8")
  | Utf8 secret => reply out (client_public_key secret)
  end.

Definition path_kind (k : ConnPathKind) : string :=
  match k with KDirect => "direct" | KRelay => "relay" | KOther => "other" end.

Definition conn_path_json (snapshot : option ConnectionSnapshot) : string :=
  let '(paths, custom_relays) :=
    match snapshot with Some s => (cn_paths s, cn_custom_relays s) | None => ([], []) end in
  paths_json ((fun p => (path_kind (cp_kind p), cp_display p, cp_selected p)) <$> paths) custom_relays.

(** [None]: a null handle. *)
Definition ezvpn_conn_path (handle : option ConnectionSnapshot) (out : cbuf) : cbuf * Z :=
  match handle with
  | None => ((write_cstr out (bytes_of_string "")).1, (-1)%Z)
  | Some snapshot => reply out (Ret (conn_path_json (Some snapshot)))
  end.
End Keys.

(** ** Connecting *)

Section Connect.
Context {Net4 Net6 : Type} `{EqDecision Net4} `{EqDecision Net6}.
Context `{NetOps V4_BITS Net4} `{NetOps V6_BITS Net6}.
Context {Conn Relays Key : Type}.
Context (from_str : string -> option FfiConfig)
  (from_urls_with_token : list string -> option string -> option Relays)
  (from_secret_str : string -> option Key)
  (parse_net4 : string -> option Net4) (parse_net6 : string -> option Net6)
  (parse_net : string -> option (IpNet Net4 Net6))
  (render : MobileNetworkConfig -> string).

Record MobileConfig : Type := mkMobileCfg {
  mb_server_node_id : string;
  mb_client_key : Key;
  mb_relay_config : Relays;
  mb_routes : list Net4;
  mb_routes6 : list Net6;
  mb_exclude_direct_paths : list (IpNet Net4 Net6);
}.

(** The first malformed entry fails the whole list. *)
Fixpoint parse_routes {A} (parse : string -> option A) (label : string) (raw : list string)
  : outcome string (list A) :=
  match raw with
  | [] => Ret []
  | s :: raw =>
      match parse s with
      | None => Fail ("invalid " +:+ label +:+ " '" +:+ s +:+ "'")
      | Some a => rest ← parse_routes parse label raw; Ret (a :: rest)
      end
  end.

Definition ffi_config (json : string) : outcome string MobileConfig :=
  cfg ← ok_or "invalid config JSON" (from_str json);
  relay_config ← ok_or "invalid relays" (from_urls_with_token (fc_relay_urls cfg) (fc_relay_auth_token cfg));
  client_key ← ok_or "invalid auth key" (from_secret_str (trim (fc_auth_key cfg)));
  routes ← parse_routes parse_net4 "IPv4 route" (fc_routes cfg);
  routes6 ← parse_routes parse_net6 "IPv6 route" (fc_routes6 cfg);
  exclude ← parse_routes parse_net "excluded direct-path network" (fc_exclude_direct_paths cfg);
  Ret (mkMobileCfg (fc_server_node_id cfg) client_key relay_config routes routes6 exclude).

(** The session is established by [connect], which fails with a message. *)
Definition connect_inner (connect : MobileConfig -> outcome string (Link Net4 Net6 Conn)) (json : string)
  : outcome string (Link Net4 Net6 Conn * string) :=
  cfg ← ffi_config json;
  link ← connect cfg;
  Ret (link, render (network_config link)).

(** A handle, or null, with what the caller finds in its buffer. *)
Definition ezvpn_connect (connect : MobileConfig -> outcome string (Link Net4 Net6 Conn))
    (config_json : cstring) (out : cbuf) : cbuf * option (Link Net4 Net6 Conn) :=
  match config_json with
  | NullPtr => ((write_cstr out (bytes_of_string "config_json is null")).1, None)
  | NotUtf8 => ((write_cstr out (bytes_of_string "config_json is not valid UTF-8")).1, None)
  | Utf8 json =>
      match connect_inner connect json with
      | Ret (handle, result_json) =>
          match write_cstr out (bytes_of_string result_json) with
          | (out, true) => (out, Some handle)
          | (out, false) => ((write_cstr out (bytes_of_string "out_buf too small for network-config JSON")).1, None)
          end
      | Fail m => ((write_cstr out (bytes_of_string m)).1, None)
      | Panic => (out, None)
      end
  end.
End Connect.

(** ** Events *)

Definition EZVPN_EVENT_RECONNECTING : Z := 1.
Definition EZVPN_EVENT_RECONNECTED : Z := 2.
Definition EZVPN_EVENT_ENDED : Z := 3.
Definition EZVPN_EVENT_RECONFIGURE : Z := 4.

Record ffi_event : Type := mkEvent { ev_code : Z; ev_message : option string }.

#[export] Instance ffi_event_eq_dec : EqDecision ffi_event.
Proof. solve_decision. Defined.

Section Events.
Context (to_string : VpnError -> string).

(** [CString::new] refuses a text with a NUL inside. *)
Definition has_nul (m : string) : bool := existsb (Ascii.eqb Ascii.zero) (String.list_ascii_of_string m).

(** [EventTarget::emit]: what the C callback is called with. *)
Definition emit (event : Z) (message : option string) : ffi_event :=
  mkEvent event ((fun m => if has_nul m then "(unprintable)" else m) <$> message).

Definition session_event (e : SessionEvent) : ffi_event :=
  match e with
  | Reconnecting reason => emit EZVPN_EVENT_RECONNECTING (Some reason)
  | Reconnected => emit EZVPN_EVENT_RECONNECTED None
  end.

(** The exit hook, which a task that panics does not reach. *)
Definition exit_event (r : vres unit) : option ffi_event :=
  match r with
  | Ret _ => Some (emit EZVPN_EVENT_ENDED None)
  | Fail (ServerConfigChanged m) => Some (emit EZVPN_EVENT_RECONFIGURE (Some (to_string (ServerConfigChanged m))))
  | Fail e => Some (emit EZVPN_EVENT_ENDED (Some (to_string e)))
  | Panic => None
  end.

(** What the task would call the callback with, for a session that did [acts]
    and is at [s]; [on_event] tells whether the caller passed a callback. *)
Definition task_events {Net4 Net6 Conn} (on_event : bool) (s : mobile_state Net4 Net6 Conn)
    (acts : list (mobile_action Conn)) : list ffi_event :=
  if on_event
  then (map session_event (reports acts) ++ match s with Over r => opt_list (exit_event r) | _ => [] end)%list
  else [].
End Events.

(** ** The handle *)

(** Where the task is: before the next report, inside a callback (holding the
    lock), or gone. *)
Inductive task_pc : Type :=
| NoTask
| Reporting (todo : list ffi_event)
| InCallback (e : ffi_event) (todo : list ffi_event)
| TaskGone.

(** Where the caller's [stop] is. *)
Inductive stop_pc : Type := NotStopping | WaitingForLock | Flagged | StopReturned.

Record ffi_handle : Type := mkFfiHandle {
  h_session : bool;               (* a connected session, not yet run *)
  h_task : task_pc;
  h_stopped : bool;
  h_stop : stop_pc;
  h_delivered : list ffi_event;       (* callbacks entered *)
}.

Definition handle_connected : ffi_handle := mkFfiHandle true NoTask false NotStopping [].

(** [EzvpnHandle::run]: [trace] is what the task will report; the session is
    put back when the fd cannot be duplicated. *)
Definition ezvpn_run (dup_ok : bool) (trace : list ffi_event) (h : ffi_handle) : ffi_handle * Z :=
  if negb (h_session h) then (h, -1)%Z
  else if negb dup_ok then (mkFfiHandle true (h_task h) (h_stopped h) (h_stop h) (h_delivered h), -1)%Z
  else (mkFfiHandle false (Reporting trace) (h_stopped h) (h_stop h) (h_delivered h), 0%Z).

Definition lock_free (h : ffi_handle) : bool := match h_task h with InCallback _ _ => false | _ => true end.

(** The calls with a possibly null handle. *)
Definition ezvpn_run_call (dup_ok : bool) (trace : list ffi_event) (handle : option ffi_handle)
  : option ffi_handle * Z :=
  match handle with
  | None => (None, (-1)%Z)
  | Some h => let '(h, r) := ezvpn_run dup_ok trace h in (Some h, r)
  end.

(** In milliseconds. *)
Definition STOP_CLOSE_TIMEOUT : Z := 3000.

(** How the endpoint goes: closed with the peer told, abandoned when the close
    takes too long, or dropped without a word. *)
Inductive closing : Type := Closed | CloseTimedOut | NotClosed.

(** The teardown that [stop] leaves to a thread, if one can be spawned: the
    endpoint's close takes [close_time], if it ends at all.  The result tells
    how the endpoint went and how long the thread has run. *)
Definition teardown (spawned : bool) (close_time : option Z) : closing * Z :=
  if negb spawned then (NotClosed, 0%Z)
  else match close_time with
       | Some t => if (t <=? STOP_CLOSE_TIMEOUT)%Z then (Closed, t) else (CloseTimedOut, STOP_CLOSE_TIMEOUT)
       | None => (CloseTimedOut, STOP_CLOSE_TIMEOUT)
       end.

(** The peer is told of the end exactly when a thread was there for it and the
    close was quick enough; the thread is gone within the timeout. *)
Lemma teardown_bounded spawned close_time :
  (forall t, close_time = Some t -> (0 <= t)%Z) ->
  (0 <= (teardown spawned close_time).2 <= STOP_CLOSE_TIMEOUT)%Z /\
  ((teardown spawned close_time).1 = Closed <->
     spawned = true /\ exists t, close_time = Some t /\ (t <= STOP_CLOSE_TIMEOUT)%Z).
Proof.
  intros Ht. unfold teardown, STOP_CLOSE_TIMEOUT. destruct spawned; cbn [negb]; [|cbn; naive_solver lia].
  destruct close_time as [t|]; [|cbn; naive_solver lia]. specialize (Ht t eq_refl).
  destruct (Z.leb_spec t 3000); cbn; naive_solver lia.
Qed.

(** The interleaving of the caller and the task.  The caller's calls come one
    after the other, and [stop] consumes the handle. *)
Inductive ffi_step (trace : list ffi_event) : ffi_handle -> ffi_handle -> Prop :=
| step_run h dup_ok : h_stop h = NotStopping -> ffi_step trace h (ezvpn_run dup_ok trace h).1
| step_report h e todo : h_task h = Reporting (e :: todo) ->
    (* the lock is taken and the flag read *)
    ffi_step trace h
      (if h_stopped h
       then mkFfiHandle (h_session h) (Reporting todo) true (h_stop h) (h_delivered h)
       else mkFfiHandle (h_session h) (InCallback e todo) false (h_stop h) (h_delivered h ++ [e])%list)
| step_callback_returns h e todo : h_task h = InCallback e todo ->
    ffi_step trace h (mkFfiHandle (h_session h) (Reporting todo) (h_stopped h) (h_stop h) (h_delivered h))
| step_task_done h : h_task h = Reporting [] ->
    ffi_step trace h (mkFfiHandle (h_session h) TaskGone (h_stopped h) (h_stop h) (h_delivered h))
| step_stop_called h : h_stop h = NotStopping ->
    ffi_step trace h (mkFfiHandle (h_session h) (h_task h) (h_stopped h) WaitingForLock (h_delivered h))
| step_stop_flag h : h_stop h = WaitingForLock -> lock_free h = true ->
    ffi_step trace h (mkFfiHandle (h_session h) (h_task h) true Flagged (h_delivered h))
| step_stop_returns h : h_stop h = Flagged ->
    (* the task is told to abort; the session and the connection are dropped *)
    ffi_step trace h (mkFfiHandle false (h_task h) (h_stopped h) StopReturned (h_delivered h))
| step_abort h todo : h_task h = Reporting todo -> h_stop h = Flagged \/ h_stop h = StopReturned ->
    (* the abort lands at an await point *)
    ffi_step trace h (mkFfiHandle (h_session h) TaskGone (h_stopped h) (h_stop h) (h_delivered h)).

Inductive ffi_steps (trace : list ffi_event) : ffi_handle -> ffi_handle -> Prop :=
| ffi_refl h : ffi_steps trace h h
| ffi_more h h1 h2 : ffi_steps trace h h1 -> ffi_step trace h1 h2 -> ffi_steps trace h h2.

(** ** Properties *)

#[local] Open Scope list_scope.

(** The buffer keeps its size, always ends up terminated, and holds the whole
    text exactly when the call says so. *)
Lemma write_cstr_spec mem s : mem <> [] ->
  exists mem', write_cstr (Some mem) s = (Some mem', (length s <? length mem)%nat) /\
    length mem' = length mem /\ exists n, take n s ++ [0%Z] `prefix_of` mem' /\
      (n < length mem)%nat /\ ((length s < length mem)%nat -> n = length s).
Proof.
  intros Hm.
  assert (Hl : (1 <= length mem)%nat) by (destruct mem; [done|cbn; lia]).
  set (copy := Nat.min (length s) (length mem - 1)).
  assert (Hw : write_cstr (Some mem) s = (Some (take copy s ++ 0%Z :: drop (copy + 1) mem), (copy =? length s)%nat)).
  { unfold write_cstr. destruct mem; [done|]. done. }
  eexists. rewrite Hw. split; [f_equal|split].
  - destruct (Nat.eqb_spec copy (length s)), (Nat.ltb_spec (length s) (length mem)); unfold copy in *; lia || done.
  - rewrite length_app. cbn [length]. rewrite length_take, length_drop. unfold copy. lia.
  - exists copy. split; [exists (drop (copy + 1) mem); by rewrite <-app_assoc|]. unfold copy. lia.
Qed.

Lemma write_cstr_length buf s : length <$> (write_cstr buf s).1 = length <$> buf.
Proof.
  destruct buf as [[|b mem]|]; [done| |done].
  destruct (write_cstr_spec (b :: mem) s) as (mem' & -> & Hl & _); [done|]. cbn [fst fmap option_fmap option_map]. by rewrite Hl.
Qed.

(** The calls that answer with a text: [1] exactly when the whole text and its
    NUL are in the caller's buffer, which is never exceeded. *)
Lemma reply_exact out r :
  let '(out', code) := reply out r in
  length <$> out' = length <$> out /\ (code = 0 \/ code = 1)%Z /\
  (code = 1%Z <-> exists text mem, r = Ret text /\ out = Some mem /\ (length (bytes_of_string text) < length mem)%nat) /\
  (code = 1%Z -> exists text mem', r = Ret text /\ out' = Some mem' /\ bytes_of_string text ++ [0%Z] `prefix_of` mem').
Proof.
  destruct r as [text|m|]; cbn [reply].
  - pose proof (write_cstr_length out (bytes_of_string text)) as Hl.
    destruct out as [[|b mem]|].
    1,3: (cbn [write_cstr]; split_and!; [done|by left| |done]; split; [done|];
          intros (t & mm & Hr & Ho & Hlen); apply Ret_inj in Hr; simplify_eq; cbn in Hlen; lia).
    destruct (write_cstr_spec (b :: mem) (bytes_of_string text) ltac:(done)) as (mem' & Hw & _ & n & Hp & _ & Hfit).
    rewrite Hw in *. split; [exact Hl|].
    destruct (Nat.ltb_spec (length (bytes_of_string text)) (length (b :: mem))) as [Hlt|Hge].
    + split_and!; [by right|split; [by exists text, (b :: mem)|done]|].
      intros _. exists text, mem'. rewrite (Hfit Hlt), firstn_all in Hp. done.
    + split_and!; [by left| |done]. split; [done|]. intros (t & mm & Hr & Ho & Hlen).
      apply Ret_inj in Hr. simplify_eq. lia.
  - split_and!; [apply write_cstr_length|by left| |done]. split; [done|by intros (t & mm & Hr & _)].
  - split_and!; [done|by left| |done]. split; [done|by intros (t & mm & Hr & _)].
Qed.

Section ConnectProofs.
Context {Net4 Net6 : Type} `{EqDecision Net4} `{EqDecision Net6}.
Context `{NetOps V4_BITS Net4} `{NetOps V6_BITS Net6}.
Context {Conn Relays Key : Type}.
Context (from_str : string -> option FfiConfig)
  (from_urls_with_token : list string -> option string -> option Relays)
  (from_secret_str : string -> option Key)
  (parse_net4 : string -> option Net4) (parse_net6 : string -> option Net6)
  (parse_net : string -> option (IpNet Net4 Net6))
  (render : MobileNetworkConfig -> string).
Context (connect : MobileConfig (Net4:=Net4) (Net6:=Net6) (Relays:=Relays) (Key:=Key) -> outcome string (Link Net4 Net6 Conn)).

Abbreviation inner := (connect_inner from_str from_urls_with_token from_secret_str parse_net4 parse_net6 parse_net render connect).
Abbreviation ffi_connect := (ezvpn_connect from_str from_urls_with_token from_secret_str parse_net4 parse_net6 parse_net render connect).

Lemma parse_routes_spec {A} (parse : string -> option A) label raw l :
  parse_routes parse label raw = Ret l <-> mapM parse raw = Some l.
Proof.
  revert l. induction raw as [|s raw IH]; intros l; cbn [parse_routes mapM].
  { split; [intros Hr; apply Ret_inj in Hr as <-; done|by intros [= <-]]. }
  destruct (parse s) as [a|]; [|done]. cbn [mbind option_bind].
  destruct (parse_routes parse label raw) as [r|e|] eqn:Hp; cbn [mbind outcome_bind].
  - rewrite (proj1 (IH r) eq_refl). cbn. split; [intros Hr; apply Ret_inj in Hr as <-; done|by intros [= <-]].
  - destruct (mapM parse raw) as [r|]; [discriminate (proj2 (IH r) eq_refl)|done].
  - destruct (mapM parse raw) as [r|]; [discriminate (proj2 (IH r) eq_refl)|done].
Qed.

(** [ezvpn_connect] in the caller's memory: it never writes outside the
    buffer; a handle comes back exactly when the configuration is accepted, the
    session is established and the settings fit, and then the buffer holds them
    entire and terminated; otherwise there is no handle (a session whose
    settings do not fit is dropped), and a usable buffer holds a terminated,
    possibly cut message. *)
Theorem connect_buffer_exact config_json out :
  let '(out', h) := ffi_connect config_json out in
  length <$> out' = length <$> out /\
  (forall link, h = Some link <-> exists json text mem, config_json = Utf8 json /\ out = Some mem /\
     inner json = Ret (link, text) /\ (length (bytes_of_string text) < length mem)%nat) /\
  (forall link, h = Some link -> exists json text mem', config_json = Utf8 json /\ inner json = Ret (link, text) /\
     out' = Some mem' /\ bytes_of_string text ++ [0%Z] `prefix_of` mem') /\
  (h = None -> forall mem, out = Some mem -> mem <> [] -> (forall json, config_json = Utf8 json -> inner json <> Panic) ->
     exists mem' m n, out' = Some mem' /\ take n m ++ [0%Z] `prefix_of` mem').
Proof.
  assert (Hmsg : forall buf m, let out' := (write_cstr buf m).1 in
    length <$> out' = length <$> buf /\
    (forall mem, buf = Some mem -> mem <> [] -> exists mem' m n, out' = Some mem' /\ take n m ++ [0%Z] `prefix_of` mem')).
  { intros buf m. cbn zeta. split; [apply write_cstr_length|]. intros mem -> Hm.
    destruct (write_cstr_spec mem m Hm) as (mem' & -> & _ & n & Hp & _). by exists mem', m, n. }
  assert (Hno : forall buf m, (forall json, config_json <> Utf8 json) \/
      (exists json, config_json = Utf8 json /\ forall x, inner json <> Ret x) ->
    length <$> (write_cstr buf m).1 = length <$> buf /\
    (forall link : Link Net4 Net6 Conn, None = Some link <-> exists json text mem, config_json = Utf8 json /\ out = Some mem /\
       inner json = Ret (link, text) /\ (length (bytes_of_string text) < length mem)%nat) /\
    (forall link : Link Net4 Net6 Conn, None = Some link -> exists json text mem', config_json = Utf8 json /\ inner json = Ret (link, text) /\
       (write_cstr buf m).1 = Some mem' /\ bytes_of_string text ++ [0%Z] `prefix_of` mem')).
  { intros buf m Hc. split; [apply write_cstr_length|]. split; [|done]. intros link. split; [done|].
    intros (json & text & mem & Hj & _ & Hi & _). destruct Hc as [Hc|(json' & Hj' & Hc)]; [by destruct (Hc json)|].
    simplify_eq. by destruct (Hc _ Hi). }
  unfold ezvpn_connect. destruct config_json as [| |json].
  - destruct (Hno out (bytes_of_string "config_json is null")) as (H1 & H2 & H3); [by left|].
    split_and!; [done..|]. intros _ mem Ho Hm _. by apply (proj2 (Hmsg out _) mem).
  - destruct (Hno out (bytes_of_string "config_json is not valid UTF-8")) as (H1 & H2 & H3); [by left|].
    split_and!; [done..|]. intros _ mem Ho Hm _. by apply (proj2 (Hmsg out _) mem).
  - destruct (inner json) as [[link text]|m|] eqn:Hi.
    + destruct out as [[|b mem]|].
      1,3: (cbn [write_cstr fst]; split_and!; [done| |done|by intros _ ? [= <-]]; intros l; split; [done|];
            intros (j & t & mm & [= <-] & Ho & Hj & Hlen); simplify_eq; cbn in Hlen; lia).
      destruct (write_cstr_spec (b :: mem) (bytes_of_string text) ltac:(done)) as (mem' & -> & Hlen & n & Hp & Hn & Hfit).
      destruct (Nat.ltb_spec (length (bytes_of_string text)) (length (b :: mem))) as [Hlt|Hge].
      * split; [cbn; by rewrite Hlen|]. split; [|split; [|done]].
        -- intros l. split; [intros [= <-]; by exists json, text, (b :: mem)|].
           intros (j & t & mm & [= <-] & _ & Hj & _). rewrite Hi in Hj. apply Ret_inj in Hj. by simplify_eq.
        -- intros l [= <-]. exists json, text, mem'. rewrite (Hfit Hlt), firstn_all in Hp. done.
      * split; [rewrite write_cstr_length; cbn; by rewrite Hlen|]. split; [|split; [done|]].
        -- intros l. split; [done|]. intros (j & t & mm & [= <-] & [= <-] & Hj & Hlt).
           rewrite Hi in Hj. apply Ret_inj in Hj. simplify_eq. cbn in *. lia.
        -- intros _ mm _ _ _. apply (proj2 (Hmsg (Some mem') _) mem' eq_refl). intros ->. done.
    + destruct (Hno out (bytes_of_string m)) as (H1 & H2 & H3); [right; exists json; split; [done|congruence]|].
      split_and!; [done..|]. intros _ mem Ho Hm _. by apply (proj2 (Hmsg out _) mem).
    + split; [done|]. split; [|split; [done|]].
      * intros l. split; [done|]. intros (j & t & mm & [= <-] & _ & Hj & _). congruence.
      * intros _ mem _ _ Hp. by destruct (Hp json eq_refl).
Qed.
End ConnectProofs.

(** *** The handle *)

Section HandleProofs.
Context (trace : list ffi_event).

(** What is still to be reported. *)
Definition ffi_todo (h : ffi_handle) : list ffi_event :=
  match h_task h with Reporting todo | InCallback _ todo => todo | _ => [] end.

Record ffi_inv (h : ffi_handle) : Prop := {
  fi_prefix : h_delivered h `prefix_of` trace;
  fi_flag : h_stopped h = true <-> h_stop h = Flagged \/ h_stop h = StopReturned;
  fi_callback : lock_free h = false -> h_stopped h = false;
  fi_session : h_session h = true -> h_task h = NoTask;
  fi_todo : h_stopped h = false ->
    match h_task h with
    | NoTask => h_delivered h = []
    | _ => h_delivered h ++ ffi_todo h = trace
    end;
}.

Lemma ffi_inv_init : ffi_inv handle_connected.
Proof. split; try done; [by exists trace|]. split; [done|]. by intros [[=]|[=]]. Qed.

Lemma ffi_step_inv h h' : ffi_inv h -> ffi_step trace h h' -> ffi_inv h'.
Proof.
  intros Hi Hstep. pose proof Hi as [Hp Hf Hc Hs Ht]. destruct Hstep as [h dup Hn|h e todo Hk|h e todo Hk|h Hk|h Hn|h Hn Hl|h Hn|h todo Hk Hn].
  - unfold ezvpn_run. destruct (h_session h) eqn:Hse; cbn [negb fst]; [|exact Hi].
    specialize (Hs eq_refl). assert (Hst : h_stopped h = false).
    { destruct (h_stopped h); [|done]. destruct (proj1 Hf eq_refl); congruence. }
    rewrite Hs in Ht. destruct dup; cbn [negb fst].
    + split; cbn [h_delivered h_stopped h_stop h_task h_session ffi_todo]; try done. intros _. by rewrite Ht.
    + split; cbn [h_delivered h_stopped h_stop h_task h_session]; try done; rewrite Hs; done.
  - unfold ffi_todo, lock_free in *. rewrite Hk in *. destruct (h_stopped h) eqn:Hst.
    + split; cbn [h_delivered h_stopped h_stop h_task h_session lock_free]; try done. intros Hse. by specialize (Hs Hse).
    + specialize (Ht eq_refl). split; cbn [h_delivered h_stopped h_stop h_task h_session ffi_todo]; try done.
      * exists todo. by rewrite <-app_assoc.
      * intros Hse. by specialize (Hs Hse).
      * intros _. by rewrite <-app_assoc.
  - unfold ffi_todo, lock_free in *. rewrite Hk in *.
    split; cbn [h_delivered h_stopped h_stop h_task h_session ffi_todo]; try done. intros Hse. by specialize (Hs Hse).
  - unfold ffi_todo, lock_free in *. rewrite Hk in *.
    split; cbn [h_delivered h_stopped h_stop h_task h_session ffi_todo]; try done. intros Hse. by specialize (Hs Hse).
  - split; cbn [h_delivered h_stopped h_stop h_task h_session]; try done. rewrite Hf, Hn. by split; intros [?|?].
  - split; cbn [h_delivered h_stopped h_stop h_task h_session]; try done; [split; [by left|done]|].
    unfold lock_free in *. cbn [h_task]. intros Hx. congruence.
  - split; cbn [h_delivered h_stopped h_stop h_task h_session]; try done.
    split; [by right|]. intros _. apply Hf. by left.
  - unfold ffi_todo, lock_free in *. rewrite Hk in *. split; cbn [h_delivered h_stopped h_stop h_task h_session ffi_todo]; try done.
    + intros Hse. by specialize (Hs Hse).
    + intros Hst. rewrite (proj2 Hf Hn) in Hst. done.
Qed.

Lemma ffi_steps_inv h h' : ffi_steps trace h h' -> ffi_inv h -> ffi_inv h'.
Proof. induction 1; [done|]. eauto using ffi_step_inv. Qed.

(** Once the flag is set, nothing is delivered any more. *)
Lemma ffi_silent_step h h' : ffi_inv h -> h_stopped h = true -> ffi_step trace h h' ->
  h_delivered h' = h_delivered h /\ h_stopped h' = true.
Proof.
  intros Hi Hst Hstep. destruct Hstep as [h dup Hn|h e todo Hk|h e todo Hk|h Hk|h Hn|h Hn Hl|h Hn|h todo Hk Hn];
    cbn [h_delivered h_stopped]; try done.
  - by destruct (proj1 (fi_flag _ Hi) Hst) as [?|?]; congruence.
  - by rewrite Hst.
Qed.

Lemma ffi_silent h h' : ffi_steps trace h h' -> ffi_inv h -> h_stopped h = true ->
  h_delivered h' = h_delivered h /\ h_stopped h' = true.
Proof.
  intros Hs. induction Hs as [h|h h1 h2 Hs IH Hstep]; intros Hi Hst; [done|].
  destruct (IH Hi Hst) as [<- H1]. apply ffi_silent_step; [by eapply ffi_steps_inv|done..].
Qed.

Lemma ffi_free_when_stopped h : ffi_inv h -> h_stopped h = true -> lock_free h = true.
Proof. intros Hi Hst. destruct (lock_free h) eqn:Hl; [done|]. pose proof (fi_callback _ Hi Hl). congruence. Qed.
End HandleProofs.

Section SessionEvents.
Context {Net4 Net6 : Type} `{EqDecision Net4} `{EqDecision Net6}.
Context `{NetOps V4_BITS Net4} `{NetOps V6_BITS Net6} {Conn : Type}.
Context (to_string : VpnError -> string).

(** The codes after which nothing follows. *)
Definition final_event (e : ffi_event) : bool :=
  (ev_code e =? EZVPN_EVENT_ENDED)%Z || (ev_code e =? EZVPN_EVENT_RECONFIGURE)%Z.

Lemma exit_event_final r e : exit_event to_string r = Some e ->
  final_event e = true /\ (ev_code e = EZVPN_EVENT_RECONFIGURE <-> exists m, r = Fail (ServerConfigChanged m)).
Proof.
  destruct r as [[]|err|]; cbn [exit_event]; [intros [= <-]; split; [done|split; [done|by intros [m [=]]]]| |done].
  destruct err; cbn [exit_event]; intros [= <-]; (split; [done|]); split; try done; try (by intros [m' [=]]). by eexists.
Qed.

Lemma task_events_final on_event (s : mobile_state Net4 Net6 Conn) acts pre e post :
  pre ++ e :: post `prefix_of` task_events to_string on_event s acts -> final_event e = true ->
  post = [] /\ exists r, s = Over r /\ exit_event to_string r = Some e.
Proof.
  unfold task_events. destruct on_event; [|by destruct pre; intros Hp%prefix_nil_inv].
  generalize (reports acts). intros evs. revert pre. induction evs as [|x evs IH]; intros pre Hp Hf.
  - cbn [map app] in Hp. destruct s as [l|n|r]; [by destruct pre; apply prefix_nil_inv in Hp|by destruct pre; apply prefix_nil_inv in Hp|].
    destruct (exit_event to_string r) as [x|] eqn:Hx; [|by destruct pre; apply prefix_nil_inv in Hp].
    cbn [opt_list] in Hp. destruct pre as [|y pre]; cbn [app] in Hp.
    + apply prefix_cons_inv_1 in Hp as He. apply prefix_cons_inv_2, prefix_nil_inv in Hp. subst. eauto.
    + apply prefix_cons_inv_2, prefix_nil_inv in Hp. by destruct pre.
  - cbn [map app] in Hp. destruct pre as [|y pre]; cbn [app] in Hp.
    + apply prefix_cons_inv_1 in Hp as ->. by destruct x.
    + apply prefix_cons_inv_2 in Hp. by apply (IH pre).
Qed.

(** C30. Events and [ezvpn_stop], in every interleaving of the tunnel's task
    with the caller: the callback sees a prefix of what the session reports, in
    order, and all of it when the task ends by itself without a stop; a final
    event is the last one and tells how the session ended, a request to
    reconfigure exactly for changed settings; once [ezvpn_stop] has returned,
    no callback is in progress and none is ever made again; and [ezvpn_stop]
    waits for nothing but a callback in progress. *)
Theorem ffi_events_exact on_event (s : mobile_state Net4 Net6 Conn) acts h :
  let trace := task_events to_string on_event s acts in
  ffi_steps trace handle_connected h ->
  h_delivered h `prefix_of` trace /\
  (h_stop h = NotStopping -> h_task h = TaskGone -> h_delivered h = trace) /\
  (forall pre e post, h_delivered h = pre ++ e :: post -> final_event e = true ->
     post = [] /\ exists r, s = Over r /\ exit_event to_string r = Some e /\
       (ev_code e = EZVPN_EVENT_RECONFIGURE <-> exists m, r = Fail (ServerConfigChanged m))) /\
  (h_stop h = StopReturned -> forall h', ffi_steps trace h h' ->
     h_delivered h' = h_delivered h /\ lock_free h' = true) /\
  (h_stop h = WaitingForLock ->
     (exists h1, ffi_step trace h h1 /\ h_stop h1 = Flagged) \/
     (exists e todo h1 h2, h_task h = InCallback e todo /\ ffi_step trace h h1 /\ ffi_step trace h1 h2 /\
        h_stop h2 = Flagged)).
Proof.
  intros trace Hr. pose proof (ffi_steps_inv trace _ _ Hr (ffi_inv_init trace)) as Hi. split_and!.
  - apply Hi.
  - intros Hn Hk. assert (Hst : h_stopped h = false).
    { destruct (h_stopped h) eqn:Hst; [|done]. destruct (proj1 (fi_flag _ _ Hi) Hst); congruence. }
    pose proof (fi_todo _ _ Hi Hst) as Ht. unfold ffi_todo in Ht. rewrite Hk, app_nil_r in Ht. done.
  - intros pre e post Hd Hf. pose proof (fi_prefix _ _ Hi) as Hp. rewrite Hd in Hp.
    destruct (task_events_final on_event s acts pre e post Hp Hf) as (-> & r & -> & He). split; [done|].
    exists r. split_and!; [done|done|]. by apply exit_event_final.
  - intros Hs h' Hh. assert (Hst : h_stopped h = true) by (apply (fi_flag _ _ Hi); by right).
    destruct (ffi_silent trace h h' Hh Hi Hst) as [Hd Hst']. split; [done|].
    apply (ffi_free_when_stopped trace); [by eapply ffi_steps_inv|done].
  - intros Hw. destruct (h_task h) as [|todo|e todo|] eqn:Hk;
      [left|left|right|left]; try (eexists; split; [apply step_stop_flag; [done|unfold lock_free; by rewrite Hk]|done]).
    exists e, todo. eexists _, _. split; [done|]. split; [by eapply step_callback_returns|].
    split; [by apply step_stop_flag|done].
Qed.
End SessionEvents.

(** A session that is lost is stopped while it reconnects: the loss was
    reported, its end is not. *)
Definition sample_over : mobile_state (CNet V4_BITS) (CNet V6_BITS) Z := Over (Fail config_changed).
Definition sample_acts : list (mobile_action Z) := [Report (Reconnecting "lost")].
Definition sample_trace : list ffi_event := task_events (fun _ => "error"%string) true sample_over sample_acts.
Definition lost_event : ffi_event := mkEvent EZVPN_EVENT_RECONNECTING (Some "lost"%string).

Lemma sample_stopped : ffi_steps sample_trace handle_connected
  (mkFfiHandle false (Reporting (tail sample_trace)) true StopReturned [lost_event]).
Proof.
  eapply ffi_more; [|by apply (step_stop_returns _ (mkFfiHandle false (Reporting (tail sample_trace)) true Flagged [lost_event]))].
  eapply ffi_more; [|by apply (step_stop_flag _ (mkFfiHandle false (Reporting (tail sample_trace)) false WaitingForLock [lost_event]))].
  eapply ffi_more; [|by apply (step_callback_returns _ (mkFfiHandle false (InCallback lost_event (tail sample_trace)) false WaitingForLock [lost_event]) lost_event (tail sample_trace))].
  eapply ffi_more; [|by apply (step_stop_called _ (mkFfiHandle false (InCallback lost_event (tail sample_trace)) false NotStopping [lost_event]))].
  eapply ffi_more; [|by apply (step_report _ (mkFfiHandle false (Reporting sample_trace) false NotStopping []) lost_event (tail sample_trace))].
  eapply ffi_more; [|by apply (step_run _ handle_connected true)]. constructor.
Qed.

(** Its task then ends by the abort. *)
Definition sample_halted : ffi_handle := mkFfiHandle false (Reporting (tail sample_trace)) true StopReturned [lost_event].
Definition sample_aborted : ffi_handle := mkFfiHandle false TaskGone true StopReturned [lost_event].

Lemma sample_aborts : ffi_steps sample_trace sample_halted sample_aborted.
Proof. eapply ffi_more; [constructor|]. apply (step_abort _ sample_halted (tail sample_trace)); [done|by right]. Qed.

Lemma ffi_events_exact_witness :
  h_delivered sample_aborted = [lost_event] /\ lock_free sample_aborted = true.
Proof.
  destruct (ffi_events_exact (fun _ => "error"%string) true sample_over sample_acts sample_halted sample_stopped)
    as (_ & _ & _ & H & _).
  exact (H eq_refl sample_aborted sample_aborts).
Defined.
