(* ===== verification/ClientMain.v ===== *)
(** * The life of a client process ([src/main.rs], [src/ffi_windows.rs], [src/tunnel/client.rs])

    Creating the client (its configuration, its lock), running it until it ends
    or is told to stop, and what is left afterwards: the foreground command and
    daemon, and the start and stop calls of the Windows library, with its
    worker thread. *)

From S2P Require Import Prelude Text Future Errors Runtime Net Config FileConfig Signaling Handshake Client.
From S2P Require Import DeviceRoutes Bypass Device Routing Status PathSelect Transport Session SessionProofs Cancel CancelProofs Ffi.

#[local] Open Scope string_scope.

(** ** The client's configuration *)

Record VpnClientConfig (Key Net4 Net6 : Type) : Type := mkClientConfig {
  vc_server_node_id : string;
  vc_client_key : Key;
  vc_routes : list Net4;
  vc_routes6 : list Net6;
}.
Arguments mkClientConfig {_ _ _}.
Arguments vc_server_node_id {_ _ _}.
Arguments vc_client_key {_ _ _}.
Arguments vc_routes {_ _ _}.
Arguments vc_routes6 {_ _ _}.

Definition is_empty_string (s : string) : bool := match s with "" => true | _ => false end.

Section ClientMain.
Context {Net4 Net6 : Type} `{EqDecision Net4} `{EqDecision Net6}.
Context `{NetOps V4_BITS Net4} `{NetOps V6_BITS Net6}.
Context {W : Type} `{System W} `{TunApi W}.
Context (parse_ip : string -> option IpAddr) (show_ip : IpAddr -> string).
Context (with_netmask : Z -> Z -> option Net4).
Context (os : Os) (landed : bool).
Context {EndpointId Conn Key : Type} (parse_endpoint_id : string -> option EndpointId).
Context (show_net4 : Net4 -> string) (show_net6 : Net6 -> string) (to_string : VpnError -> string).
Context (dir : string) (pid : N).

Abbreviation ClientConfig := (VpnClientConfig Key Net4 Net6).
Abbreviation Client := (VpnClient Net4 Net6 Conn).
Abbreviation Cut := (CutAttempt Net4 Net6 EndpointId Conn).

Definition VpnClientConfig_validate (self : ClientConfig) : outcome string unit :=
  if is_empty_string (vc_server_node_id self) then Fail "'server_node_id' is required and cannot be empty"
  else match parse_endpoint_id (vc_server_node_id self) with
       | None => Fail "'server_node_id' is not a valid iroh node ID"
       | Some _ => Ret tt
       end.

(** ** [VpnClient::new] *)

(** The results of the calls that take the lock, and the device id drawn. *)
Record new_calls : Type := mkNew { nw_oks : list bool; nw_partial : string; nw_device_id : Z }.

(** The client and the path of its lock. *)
Definition VpnClient_new (n : new_calls) (files : Files) (config : ClientConfig) (instance : string)
  : Files * vres (Client * string) :=
  match map_err (fun e => VpnError_config (msg e)) (VpnClientConfig_validate config) with
  | Ret _ =>
      match acquire dir (nw_oks n) (nw_partial n) Runtime.Client instance pid files with
      | (files, Ret lock) =>
          let status := handle_new instance (vc_server_node_id config) (nw_device_id n) in
          (files, Ret (mkClient (vc_server_node_id config) (vc_routes config) (vc_routes6 config) None status, lock))
      | (files, Fail e) => (files, Fail e)
      | (files, Panic) => (files, Panic)
      end
  | Fail e => (files, Fail e)
  | Panic => (files, Panic)
  end.

(** ** Running it *)

(** With or without auto-reconnect; [None]: not ended within the attempts. *)
Definition run_client (c : Client) (auto_reconnect : bool) (max_attempts : option Z) (attempts : list Cut)
  : async W (Client * option (vres unit)) :=
  if auto_reconnect then
    ended ← run_with_reconnect_async parse_ip show_ip with_netmask os landed parse_endpoint_id show_net4 show_net6
              to_string max_attempts 0 c attempts;
    let '(c, _, r) := ended in mret (c, r)
  else
    match attempts with
    | ca :: _ =>
        ended ← connect_async parse_ip show_ip with_netmask os landed parse_endpoint_id show_net4 show_net6 c ca;
        let '(c, r) := ended in mret (c, Some r)
    | [] => mret (c, None)
    end.

(** What the process has of the machine: the routing state, the lock files and
    its own congestion settings. *)
Record Desk : Type := mkDesk { dk_os : W; dk_files : Files; dk_cell : congestion_cell }.

(** The run raced against the shutdown, after which the client goes with its
    lock; [None]: it was told to stop. *)
Definition run_until_shutdown (d : Desk) (c : Client) (lock : string) (auto_reconnect : bool)
    (max_attempts : option Z) (attempts : list Cut) (shutdown : cut) : Desk * option (option (vres unit)) :=
  let '(w, ended) := run_client c auto_reconnect max_attempts attempts (dk_os d) shutdown in
  let d := mkDesk w (unlock (dk_files d) lock pid) (dk_cell d) in
  (d, (fun '(_, r, _) => r) <$> ended).

(** ** [run_vpn_client] *)

Section Command.
Context {RelayConfig Factory Timeout Endpoint : Type} `{Controllers Factory}.
Context (idle_timeout_of : Z -> option Timeout).
Context (create_endpoint : RelayConfig ->
  EndpointBuilder (Factory:=Factory) (Timeout:=Timeout) RelayConfig Key Net4 Net6 -> outcome string (Endpoint * list string)).
Context (from_secret_str : string -> option Key) (load_client_key_from_file : string -> option Key).
Context (parse_net4 : string -> option Net4) (parse_net6 : string -> option Net6).

Abbreviation Resolved := (ResolvedVpnClientConfig (Net4:=Net4) (Net6:=Net6) (RelayConfig:=RelayConfig)).

Definition as_ipnet (n : Net4 + Net6) : IpNet Net4 Net6 := match n with inl a => IpNetV4 a | inr b => IpNetV6 b end.

Definition client_key_of (resolved : Resolved) : outcome string Key :=
  match rc_auth_key resolved with
  | Some secret => ok_or "Invalid client secret key" (from_secret_str (trim secret))
  | None =>
      match rc_auth_key_file resolved with
      | Some path => ok_or "Failed to load the client key file" (load_client_key_from_file path)
      | None => Fail "VPN client requires an authentication keypair."
      end
  end.

(** The configuration of the client, from the resolved one. *)
Definition client_config_of (resolved : Resolved) : outcome string ClientConfig :=
  client_key ← client_key_of resolved;
  routes ← map_err (fun _ => "Invalid route CIDR") (client_routes parse_net4 parse_net6 resolved);
  let '(parsed_routes, parsed_routes6) := routes in
  Ret (mkClientConfig (rc_server_node_id resolved) client_key parsed_routes parsed_routes6).

Definition run_vpn_client (d : Desk) (n : new_calls) (resolved : Resolved) (instance : string)
    (daemon_log : option string) (attempts : list Cut) (shutdown : cut) : Desk * outcome string unit :=
  match client_config_of resolved with
  | Ret config =>
      match create_client_endpoint idle_timeout_of create_endpoint (dk_cell d) (rc_relay_config resolved)
              (as_ipnet <$> rc_exclude_direct_paths resolved) with
      | (cell, Ret endpoint) =>
          let d := mkDesk (dk_os d) (dk_files d) cell in
          match VpnClient_new n (dk_files d) config instance with
          | (files, Ret (client, lock)) =>
              let client := map_status (set_log_file daemon_log) client in
              let '(d, ended) :=
                run_until_shutdown (mkDesk (dk_os d) files cell) client lock (rc_auto_reconnect resolved)
                  (rc_max_reconnect_attempts resolved) attempts shutdown in
              (d, match ended with
                  | Some (Some (Fail e)) => Fail ("VPN connection error: " +:+ to_string e)
                  | Some (Some Panic) => Panic
                  | _ => Ret tt
                  end)
          | (files, Fail e) => (mkDesk (dk_os d) files cell, Fail ("Failed to create VPN client: " +:+ to_string e))
          | (files, Panic) => (mkDesk (dk_os d) files cell, Panic)
          end
      | (cell, Fail e) => (mkDesk (dk_os d) (dk_files d) cell, Fail "Failed to create iroh endpoint")
      | (cell, Panic) => (mkDesk (dk_os d) (dk_files d) cell, Panic)
      end
  | Fail e => (d, Fail e)
  | Panic => (d, Panic)
  end.

(** ** The Windows library *)

Record FfiWinConfig : Type := mkFfiWinConfig {
  fw_server_node_id : string;
  fw_auth_key : string;
  fw_relay_urls : list string;
  fw_relay_auth_token : option string;
  fw_routes : list string;
  fw_routes6 : list string;
  fw_exclude_direct_paths : list string;
  fw_instance : string;
  fw_auto_reconnect : bool;
  fw_max_reconnect_attempts : option Z;
}.

Definition default_instance : string := "default".
Definition default_true : bool := true.

(** The handle: the worker's client and lock, and how it runs. *)
Record EzvpnHandle : Type := mkHandle {
  hd_client : Client;
  hd_lock : string;
  hd_auto_reconnect : bool;
  hd_max_attempts : option Z;
}.

Context (from_str : string -> option FfiWinConfig)
  (from_urls_with_token : list string -> option string -> option RelayConfig)
  (parse_net : string -> option (IpNet Net4 Net6)).

(** What the worker thread is started with. *)
Record start_config : Type := mkStart {
  sc_config : ClientConfig;
  sc_exclude_direct_paths : list (IpNet Net4 Net6);
  sc_relay_config : RelayConfig;
  sc_instance : string;
  sc_auto_reconnect : bool;
  sc_max_attempts : option Z;
}.

Definition start_config_of (json : string) : outcome string start_config :=
  cfg ← ok_or "invalid config JSON" (from_str json);
  client_key ← ok_or "invalid auth key" (from_secret_str (trim (fw_auth_key cfg)));
  routes ← parse_routes parse_net4 "IPv4 route" (fw_routes cfg);
  routes6 ← parse_routes parse_net6 "IPv6 route" (fw_routes6 cfg);
  exclude_direct_paths ← parse_routes parse_net "excluded direct-path network" (fw_exclude_direct_paths cfg);
  relay_config ← ok_or "invalid relays" (from_urls_with_token (fw_relay_urls cfg) (fw_relay_auth_token cfg));
  (* [NonZeroU32::new] *)
  let max_attempts := n ← fw_max_reconnect_attempts cfg; if (n =? 0)%Z then None else Some n in
  Ret (mkStart (mkClientConfig (fw_server_node_id cfg) client_key routes routes6) exclude_direct_paths relay_config
         (fw_instance cfg) (fw_auto_reconnect cfg) max_attempts).

(** The thread is spawned, and its runtime built. *)
Record worker_calls : Type := mkWorker { wk_spawn : bool; wk_runtime : bool; wk_new : new_calls }.

(** The worker up to its report over the channel. *)
Definition worker_setup (d : Desk) (k : worker_calls) (s : start_config) : Desk * outcome string EzvpnHandle :=
  if negb (wk_runtime k) then (d, Fail "failed to build tokio runtime")
  else
    match create_client_endpoint idle_timeout_of create_endpoint (dk_cell d) (sc_relay_config s)
            (sc_exclude_direct_paths s) with
    | (cell, Ret endpoint) =>
        match VpnClient_new (wk_new k) (dk_files d) (sc_config s) (sc_instance s) with
        | (files, Ret (client, lock)) =>
            (mkDesk (dk_os d) files cell, Ret (mkHandle client lock (sc_auto_reconnect s) (sc_max_attempts s)))
        | (files, Fail e) => (mkDesk (dk_os d) files cell, Fail ("failed to create VPN client: " +:+ to_string e))
        | (files, Panic) => (mkDesk (dk_os d) files cell, Fail "tunnel thread exited before setup completed")
        end
    | (cell, Fail e) => (mkDesk (dk_os d) (dk_files d) cell, Fail ("failed to create iroh endpoint: " +:+ e))
    | (cell, Panic) => (mkDesk (dk_os d) (dk_files d) cell, Fail "tunnel thread exited before setup completed")
    end.

Definition start_inner (d : Desk) (k : worker_calls) (json : string) : Desk * outcome string EzvpnHandle :=
  match start_config_of json with
  | Ret s => if negb (wk_spawn k) then (d, Fail "failed to spawn tunnel thread") else worker_setup d k s
  | Fail e => (d, Fail e)
  | Panic => (d, Panic)
  end.

(** A handle, or null. *)
Definition ezvpn_start (d : Desk) (k : worker_calls) (config_json : cstring) (out : cbuf)
  : Desk * cbuf * option EzvpnHandle :=
  match config_json with
  | NullPtr => (d, (write_cstr out (bytes_of_string "config_json is null")).1, None)
  | NotUtf8 => (d, (write_cstr out (bytes_of_string "config_json is not valid UTF-8")).1, None)
  | Utf8 json =>
      match start_inner d k json with
      | (d, Ret handle) => (d, out, Some handle)
      | (d, Fail m) => (d, (write_cstr out (bytes_of_string m)).1, None)
      | (d, Panic) => (d, out, None)
      end
  end.

(** [ezvpn_stop] joins the worker, which has run until the signal, or has
    ended before it. *)
Definition ezvpn_stop (d : Desk) (handle : option EzvpnHandle) (attempts : list Cut) (shutdown : cut) : Desk :=
  match handle with
  | None => d
  | Some h =>
      (run_until_shutdown d (hd_client h) (hd_lock h) (hd_auto_reconnect h) (hd_max_attempts h) attempts shutdown).1
  end.
End Command.

(** ** Status calls *)

Section StatusCalls.
Context {Bypass : Type} (probe : Conn -> ConnectionSnapshot) (collected : Bypass -> list string).
Context (status_json : StatusSnapshot -> option string).
Context (paths_json : list (string * string * bool) -> list CustomRelayStatus -> string).

Definition quoted (s : string) : string :=
  String (Ascii.ascii_of_nat 34) (s +:+ String (Ascii.ascii_of_nat 34) "").
Definition error_json (e : string) : string := "{" +:+ quoted "error" +:+ ":" +:+ quoted e +:+ "}".

(** 1 when the whole text is in the buffer. *)
Definition written_whole (out : cbuf) (json : string) : cbuf * Z :=
  let '(out, ok) := write_cstr out (bytes_of_string json) in (out, if ok : bool then 1 else 0)%Z.

Definition ezvpn_status (handle : option (ClientStateInner Conn Bypass)) (now : Z) (out : cbuf) : cbuf * Z :=
  match handle with
  | None => ((write_cstr out (bytes_of_string "")).1, (-1)%Z)
  | Some h =>
      written_whole out (match status_json (snapshot_without_connection collected now h) with
                         | Some j => j
                         | None => error_json "failed to serialize status"
                         end)
  end.

Definition win_conn_path (runtime_ok : bool) (handle : option (ClientStateInner Conn Bypass)) (out : cbuf) : cbuf * Z :=
  match handle with
  | None => ((write_cstr out (bytes_of_string "")).1, (-1)%Z)
  | Some h =>
      if negb runtime_ok then written_whole out (error_json "failed to build runtime")
      else written_whole out (conn_path_json paths_json (handle_connection_snapshot probe h))
  end.
End StatusCalls.
End ClientMain.

(** ** Locks *)

Section Locking.
Context (partial : string) (role : LockRole) (path : string) (pid : N) (w0 : Files).

(** From [try_lock] on, the lock that was free is ours and the only change. *)
Definition locking_inv (x : Files * lock_pc) : Prop :=
  match x.2 with
  | Truncating | Seeking | Writing | Holding => locks w0 !! path = None /\ locks x.1 = <[path := pid]> (locks w0)
  | Released => False
  | _ => locks x.1 = locks w0
  end.

Definition rank (pc : lock_pc) : nat :=
  match pc with
  | Preparing => 0 | Opening => 1 | Locking => 2 | Truncating => 3 | Seeking => 4 | Writing => 5
  | Holding | Failed _ => 6 | Released => 7
  end.

Lemma unlock_undoes w :
  locks w0 !! path = None -> locks w = <[path := pid]> (locks w0) -> locks (unlock w path pid) = locks w0.
Proof.
  intros Hn Hw. unfold unlock. rewrite decide_True by (by rewrite Hw, lookup_insert_eq). cbn [locks].
  by rewrite Hw, delete_insert_id.
Qed.

Abbreviation next := (fun '(w, pc) ok => lock_next ok partial role path pid pc w).

Lemma next_inv x ok :
  rank x.2 < 6 -> locking_inv x ->
  locking_inv (next x ok) /\ ((exists e, (next x ok).2 = Failed e) \/ rank (next x ok).2 = S (rank x.2)).
Proof.
  destruct x as [w pc]. unfold locking_inv. cbn [fst snd]. intros Hr Hi.
  destruct pc, ok; cbn [lock_next fst snd rank locks] in *; try lia; try (split; [done|by eauto]);
    try (split; [destruct Hi; by apply unlock_undoes|by eauto]).
  - split; [by destruct (contents w !! path)|by right].
  - rewrite Hi. destruct (locks w0 !! path) eqn:Hl; cbn [fst snd locks rank]; [by eauto|].
    split; [done|by right].
Qed.

Lemma next_failed e oks w : fold_left next oks (w, Failed e) = (w, Failed e).
Proof. induction oks as [|ok oks IH]; [done|]. cbn [fold_left lock_next]. apply IH. Qed.

Lemma next_all oks x :
  length oks + rank x.2 = 6 -> locking_inv x ->
  let y := fold_left next oks x in locking_inv y /\ (y.2 = Holding \/ exists e, y.2 = Failed e).
Proof.
  revert x. induction oks as [|ok oks IH]; intros x Hl Hi; cbn [length fold_left] in *.
  - split; [done|]. destruct x as [w []]; cbn in Hl; try lia; eauto.
  - destruct (next_inv x ok) as [Hi1 [[e He]|Hr]]; [lia|done|..].
    + destruct (next x ok) as [w1 pc1]. cbn [snd] in He. subst pc1. rewrite next_failed. eauto.
    + apply IH; [lia|done].
Qed.
End Locking.

(** Taking the lock: it was free and is ours, or nothing is locked that was not
    before. *)
Lemma acquire_locks dir oks partial role instance pid w w' r :
  6 <= length oks -> acquire dir oks partial role instance pid w = (w', r) ->
  match r with
  | Ret lock => lock = lock_path dir role instance /\ locks w !! lock = None /\ locks w' = <[lock := pid]> (locks w)
  | Fail _ => locks w' = locks w
  | Panic => False
  end.
Proof.
  intros Hl. unfold acquire. set (path := lock_path dir role instance).
  destruct (validate_instance_name instance) as [u|e|] eqn:Hv; [|by intros [= <- <-]|].
  2:{ unfold validate_instance_name in Hv. by repeat case_match. }
  destruct (next_all partial role path pid w (take 6 oks) (w, Preparing)) as [Hi Hy];
    [rewrite length_take; cbn [rank snd]; lia|done|].
  destruct (fold_left _ (take 6 oks) (w, Preparing)) as [w1 pc]. cbn [snd] in Hy.
  destruct Hy as [->|[e ->]]; intros [= <- <-]; [|done]. by destruct Hi.
Qed.

(** ** What a client leaves behind *)

Section Lifecycle.
Context {Net4 Net6 : Type} `{NetLaws V4_BITS Net4} `{NetLaws V6_BITS Net6}.
Context `{EqDecision Net4} `{EqDecision Net6}.
Context {W : Type} `{System W} `{TunApi W}.
Context (table : W -> gset route_key) (hosts undeleted : W -> gset host_key) (iface : Z -> string).
Context `{!KernelLaws W table} `{!HostRouteLaws W hosts undeleted}.
Context `{!SessionLaws W table hosts iface} `{!SessionLaws W table undeleted iface}.
Context (parse_ip : string -> option IpAddr) (show_ip : IpAddr -> string).
Context (with_netmask : Z -> Z -> option Net4).
Context (os : Os) (landed : bool).
Context {EndpointId Conn Key : Type} (parse_endpoint_id : string -> option EndpointId).
Context (show_net4 : Net4 -> string) (show_net6 : Net6 -> string) (to_string : VpnError -> string).
Context (dir : string) (pid : N).

Abbreviation ClientConfig := (VpnClientConfig Key Net4 Net6).
Abbreviation Client := (VpnClient Net4 Net6 Conn).
Abbreviation Cut := (CutAttempt Net4 Net6 EndpointId Conn).
Abbreviation running := (run_client (Conn:=Conn) parse_ip show_ip with_netmask os landed parse_endpoint_id
  show_net4 show_net6 to_string).
Abbreviation acc := (accounted hosts undeleted).
Abbreviation leftover attempts := (leak landed * (1 + aborted (EndpointId:=EndpointId) (Conn:=Conn) attempts)).

Lemma run_client_bounded (c : Client) auto max (attempts : list Cut) :
  bounded table acc landed (leak landed * aborted attempts) (running c auto max attempts).
Proof.
  unfold run_client. destruct auto.
  - rewrite <-(Nat.add_0_r (leak landed * aborted attempts)). apply bounded_bind; [by apply (loop_bounded table acc iface)|].
    intros [[c1 ds] r]. apply bounded_ret.
  - destruct attempts as [|ca rest]; [apply bounded_ret|]. rewrite <-aborted_cons. apply bounded_bind.
    + by apply (connect_bounded table acc iface).
    + intros [c1 r]. apply bounded_ret.
Qed.

(** Whether it ends or is stopped, at any point, the routes are restored and the
    lock is given back. *)
Lemma run_until_shutdown_restores d (c : Client) lock auto max (attempts : list Cut) shutdown :
  let d' := (run_until_shutdown parse_ip show_ip with_netmask os landed parse_endpoint_id show_net4 show_net6
               to_string pid d c lock auto max attempts shutdown).1 in
  restored table acc (leftover attempts) (dk_os d) (dk_os d') /\
  dk_files d' = unlock (dk_files d) lock pid /\ dk_cell d' = dk_cell d.
Proof.
  unfold run_until_shutdown. pose proof (run_client_bounded c auto max attempts (dk_os d) shutdown) as Hb.
  destruct (running c auto max attempts (dk_os d) shutdown) as [w' [[[c' r] k']|]]; destruct Hb as [Hb _];
    (split; [|done]); (eapply restored_mono; [|exact Hb]); lia.
Qed.

Lemma new_locks n files (config : ClientConfig) instance files' r :
  6 <= length (nw_oks n) ->
  VpnClient_new (Conn:=Conn) parse_endpoint_id dir pid n files config instance = (files', r) ->
  match r with
  | Ret (c, lock) => lock = lock_path dir Runtime.Client instance /\ locks files !! lock = None /\
      locks files' = <[lock := pid]> (locks files)
  | Fail _ => locks files' = locks files
  | Panic => False
  end.
Proof.
  intros Hl. unfold VpnClient_new.
  destruct (VpnClientConfig_validate parse_endpoint_id config) as [u|e|] eqn:Hv; cbn [map_err]; [|by intros [= <- <-]|].
  2:{ unfold VpnClientConfig_validate in Hv. by repeat case_match. }
  destruct (acquire dir (nw_oks n) (nw_partial n) Runtime.Client instance pid files) as [w1 r1] eqn:Ha.
  pose proof (acquire_locks _ _ _ _ _ _ _ _ _ Hl Ha) as Hr. destruct r1; intros [= <- <-]; done.
Qed.

Section Command.
Context {RelayConfig Factory Timeout Endpoint : Type} `{Controllers Factory}.
Context (idle_timeout_of : Z -> option Timeout).
Context (create_endpoint : RelayConfig ->
  EndpointBuilder (Factory:=Factory) (Timeout:=Timeout) RelayConfig Key Net4 Net6 -> outcome string (Endpoint * list string)).
Context (from_secret_str : string -> option Key) (load_client_key_from_file : string -> option Key).
Context (parse_net4 : string -> option Net4) (parse_net6 : string -> option Net6).
Context (from_str : string -> option FfiWinConfig)
  (from_urls_with_token : list string -> option string -> option RelayConfig)
  (parse_net : string -> option (IpNet Net4 Net6)).

Abbreviation command := (run_vpn_client (Conn:=Conn) parse_ip show_ip with_netmask os landed parse_endpoint_id show_net4 show_net6
  to_string dir pid idle_timeout_of create_endpoint from_secret_str load_client_key_from_file parse_net4 parse_net6).
Abbreviation start := (ezvpn_start (W:=W) (Conn:=Conn) parse_endpoint_id to_string dir pid idle_timeout_of create_endpoint
  from_secret_str parse_net4 parse_net6 from_str from_urls_with_token parse_net).
Abbreviation stop := (ezvpn_stop parse_ip show_ip with_netmask os landed parse_endpoint_id show_net4 show_net6 to_string pid).

(** C15. What a client process leaves on the machine: however [client
    start] ends (an invalid key or route, an endpoint that cannot be created, a
    lock that is held, an error of the session, or the shutdown signal, at any
    await of the run), the routes over every device are those of before; no
    host route is lost, and what is left behind are those whose deletion failed
    and at most one per interruption, of the run or of a bypass manager (none if
    interrupted commands do not complete); and the locks held on the instance
    files are exactly those held before. *)
Theorem client_process_restores d n resolved instance daemon_log (attempts : list Cut) shutdown :
  6 <= length (nw_oks n) ->
  let d' := (command d n resolved instance daemon_log attempts shutdown).1 in
  table (dk_os d') = table (dk_os d) /\ acc (dk_os d) ⊆ acc (dk_os d') /\
  size (acc (dk_os d') ∖ acc (dk_os d)) <= (if landed then 1 + aborted attempts else 0) /\
  locks (dk_files d') = locks (dk_files d).
Proof.
  intros Hl. cbv zeta.
  assert (Hsame : forall n, restored table acc n (dk_os d) (dk_os d)) by (intros; by apply restored_tables).
  assert (Hgoal : forall d', restored table acc (leftover attempts) (dk_os d) (dk_os d') /\
      locks (dk_files d') = locks (dk_files d) ->
    table (dk_os d') = table (dk_os d) /\ acc (dk_os d) ⊆ acc (dk_os d') /\
    size (acc (dk_os d') ∖ acc (dk_os d)) <= (if landed then 1 + aborted attempts else 0) /\
    locks (dk_files d') = locks (dk_files d)).
  { intros d' [(Ht & Hs & Hz) Hk]. split_and!; [done..| |done]. unfold leak in Hz. destruct landed; lia. }
  apply Hgoal. unfold run_vpn_client.
  destruct (client_config_of _ _ _ _ resolved) as [config|e|]; [|by split..].
  destruct (create_client_endpoint _ _ _ _ _) as [cell [ep|e|]]; [|by split..]. cbn [dk_files].
  destruct (VpnClient_new _ _ _ n (dk_files d) config instance) as [files r] eqn:Hn.
  pose proof (new_locks _ _ _ _ _ _ Hl Hn) as Hk. destruct r as [[c lock]|e|]; [|by split|done].
  destruct Hk as (-> & Hfree & Hf). cbn [dk_os].
  set (lock := lock_path dir Runtime.Client instance) in *.
  pose proof (run_until_shutdown_restores (mkDesk (dk_os d) files cell) (map_status (set_log_file daemon_log) c) lock
    (rc_auto_reconnect resolved) (rc_max_reconnect_attempts resolved) attempts shutdown) as Hr.
  destruct (run_until_shutdown _ _ _ _ _ _ _ _ _ _ _ _ _ _ _ _ _) as [d1 ended]. cbn [fst dk_os dk_files] in *.
  destruct Hr as (Hr & Hd & _). split; [done|]. rewrite Hd. by apply unlock_undoes.
Qed.

(** C31. The Windows library's start and stop: [ezvpn_start] returns a handle
    or writes a message; the system is untouched; without a handle no lock is
    held; with one, the caller's buffer is untouched and the lock of the
    instance, which was free, is held.  Then [ezvpn_stop], whenever it is called
    and whatever the client was doing, gives back the lock and the routes over
    every device, so that the instance can be started again; no host route is
    lost, and what is left behind are those whose deletion failed and at most
    one per interruption, of the run or of a bypass manager. *)
Theorem windows_client_lifecycle d k config_json out (attempts : list Cut) shutdown :
  6 <= length (nw_oks (wk_new k)) ->
  let '(d1, out1, handle) := start d k config_json out in
  dk_os d1 = dk_os d /\
  match handle with
  | None => locks (dk_files d1) = locks (dk_files d)
  | Some h =>
      out1 = out /\ locks (dk_files d) !! hd_lock h = None /\
      locks (dk_files d1) = <[hd_lock h := pid]> (locks (dk_files d)) /\
      let d2 := stop d1 handle attempts shutdown in
      table (dk_os d2) = table (dk_os d) /\ acc (dk_os d) ⊆ acc (dk_os d2) /\
      size (acc (dk_os d2) ∖ acc (dk_os d)) <= (if landed then 1 + aborted attempts else 0) /\
      locks (dk_files d2) = locks (dk_files d)
  end.
Proof.
  intros Hl. unfold ezvpn_start. destruct config_json as [| |json]; [done..|]. unfold start_inner.
  destruct (start_config_of _ _ _ _ _ _ json) as [s|e|]; [|done..]. destruct (wk_spawn k); [|done]. cbn [negb].
  unfold worker_setup. destruct (wk_runtime k); [|done]. cbn [negb].
  destruct (create_client_endpoint _ _ _ _ _) as [cell [ep|e|]]; [|done..].
  destruct (VpnClient_new _ _ _ (wk_new k) (dk_files d) (sc_config s) (sc_instance s)) as [files r] eqn:Hn.
  pose proof (new_locks _ _ _ _ _ _ Hl Hn) as Hk. destruct r as [[c lock]|e|]; [|done..].
  destruct Hk as (-> & Hfree & Hf). cbn [dk_os dk_files hd_lock hd_client hd_auto_reconnect hd_max_attempts ezvpn_stop].
  set (lock := lock_path dir Runtime.Client (sc_instance s)) in *. do 4 (split; [done|]).
  pose proof (run_until_shutdown_restores (mkDesk (dk_os d) files cell) c lock (sc_auto_reconnect s)
    (sc_max_attempts s) attempts shutdown) as Hr.
  destruct (run_until_shutdown _ _ _ _ _ _ _ _ _ _ _ _ _ _ _ _ _) as [d2 ended]. cbn [fst dk_os dk_files] in *.
  destruct Hr as ((Ht & Hs & Hz) & Hd & _). split_and!; [done..| |].
  - unfold leak in Hz. destruct landed; lia.
  - rewrite Hd. by apply unlock_undoes.
Qed.
End Command.
End Lifecycle.

(** ** Evaluation *)

#[local] Instance main_laws4 : NetLaws V4_BITS (CNet V4_BITS) := CNet_laws V4_BITS eq_refl.
#[local] Instance main_laws6 : NetLaws V6_BITS (CNet V6_BITS) := CNet_laws V6_BITS eq_refl.
#[local] Instance main_controllers : Controllers unit := {|
  bbr3_default := tt; bbr3_initial_window _ _ := tt; cubic_default := tt; cubic_initial_window _ _ := tt;
  new_reno_default := tt; new_reno_initial_window _ _ := tt;
|}.

Definition sample_desk : Desk (W:=SampleOs) := mkDesk sample_os (mkFiles ∅ ∅) None.
Definition sample_new : new_calls := mkNew [true; true; true; true; true; true] "" 255.
Definition all_v4 (_ : string) : option (CNet V4_BITS) := cnet_new V4_BITS 0 0.

Definition sample_resolved : ResolvedVpnClientConfig (Net4:=CNet V4_BITS) (Net6:=CNet V6_BITS) (RelayConfig:=unit) :=
  mkResolvedClient "server" (Some " key ") None ["0.0.0.0/0"] [] tt [] true None.

Abbreviation sample_command :=
  (run_vpn_client (Key:=string) sample_parse_ip (fun _ => "ip") (fun _ _ => None) LinuxOs true (fun _ => Some tt)
     (fun _ => "net4") (fun _ => "net6") (fun _ => "lost") "/run/ezvpn" 7 (Some : Z -> option Z)
     (fun _ _ => Ret (tt, [])) Some (fun _ => None) all_v4 (fun _ => None)).

Lemma client_process_restores_witness :
  let r := sample_command sample_desk sample_new sample_resolved "work" None [sample_cut None] (Some 5) in
  so_table (dk_os r.1) = so_table sample_os /\ locks (dk_files r.1) = ∅ /\ is_ret r.2 = true /\
  size (so_hosts (dk_os r.1)) = 1 /\ size (contents (dk_files r.1)) = 1.
Proof.
  pose proof (client_process_restores so_table so_hosts so_undeleted so_iface sample_parse_ip (fun _ => "ip") (fun _ _ => None)
    LinuxOs true (fun _ => Some tt) (fun _ => "net4") (fun _ => "net6") (fun _ => "lost") "/run/ezvpn" 7
    (Some : Z -> option Z) (fun _ _ => Ret (tt, [])) Some (fun _ => None) all_v4 (fun _ => None)
    sample_desk sample_new sample_resolved "work" None [sample_cut None] (Some 5)) as Hs.
  destruct Hs as (Ht & _ & _ & Hk); [apply le_n|].
  split; [exact Ht|]. split; [exact Hk|]. split; [vm_compute; reflexivity|]. split; vm_compute; reflexivity.
Defined.

Abbreviation sample_start :=
  (ezvpn_start (W:=SampleOs) (Conn:=unit) (Key:=string) (Net4:=CNet V4_BITS) (Net6:=CNet V6_BITS) (fun _ => Some tt) (fun _ => "lost") "/run/ezvpn" 7
     (Some : Z -> option Z) (fun _ _ => Ret (tt, [])) Some all_v4 (fun _ => None)
     (fun _ => Some (mkFfiWinConfig "server" "key" [] None ["0.0.0.0/0"] [] [] default_instance default_true (Some 0%Z)))
     (fun _ _ => Some tt) (fun _ => None)).

Lemma windows_client_lifecycle_witness :
  let '(d1, _, handle) := sample_start sample_desk (mkWorker true true sample_new) (Utf8 "{}") (Some [1%Z]) in
  let d2 := ezvpn_stop sample_parse_ip (fun _ => "ip") (fun _ _ => None) WindowsOs true (fun _ => Some tt)
    (fun _ => "net4") (fun _ => "net6") (fun _ => "lost") 7 d1 handle [sample_cut None] (Some 3) in
  match handle with Some h => locks (dk_files d1) = {[hd_lock h := 7%N]} | None => False end /\
  locks (dk_files d2) = ∅ /\ so_table (dk_os d2) = so_table sample_os.
Proof.
  pose proof (windows_client_lifecycle so_table so_hosts so_undeleted so_iface sample_parse_ip (fun _ => "ip") (fun _ _ => None)
    WindowsOs true (fun _ => Some tt) (fun _ => "net4") (fun _ => "net6") (fun _ => "lost") "/run/ezvpn" 7
    (Some : Z -> option Z) (fun _ _ => Ret (tt, [])) Some all_v4 (fun _ => None)
    (fun _ => Some (mkFfiWinConfig "server" "key" [] None ["0.0.0.0/0"] [] [] default_instance default_true (Some 0%Z)))
    (fun _ _ => Some tt) (fun _ => None)
    sample_desk (mkWorker true true sample_new) (Utf8 "{}") (Some [1%Z]) [sample_cut None] (Some 3)) as Hs.
  assert (Hn : match (sample_start sample_desk (mkWorker true true sample_new) (Utf8 "{}") (Some [1%Z])).2 with
    | Some _ => true | None => false end = true) by (vm_compute; reflexivity).
  specialize (Hs (le_n 6)).
  destruct (sample_start sample_desk (mkWorker true true sample_new) (Utf8 "{}") (Some [1%Z])) as [[d1 out1] [h|]];
    [|discriminate Hn].
  destruct Hs as (_ & _ & _ & Hl & Ht & _ & _ & Hk).
  exact (conj Hl (conj Hk Ht)).
Defined.
