(* ===== verification/Program.v ===== *)
(** * The command line ([src/main.rs])

    The dispatch of the commands, with the order in which the process forks,
    sets up logging, builds its runtime, fixes its transport settings, reads its
    files and creates its endpoint.  A command is a computation that records
    these events and may fail. *)

From S2P Require Import Prelude Text Errors Runtime LogFile Secrets Net Config FileConfig Signaling Handshake Client.
From S2P Require Import DeviceRoutes Routing Status Control PathSelect Transport Session ClientMain.

#[local] Open Scope string_scope.

(** ** Commands *)

Inductive ServerAction : Type :=
| ServerStart (config : option string) (default_config : bool) (congestion : CongestionConfig)
| ServerStatusOf (json : bool)
| ServerList (json : bool).

Inductive ClientAction : Type :=
| ClientStartAs (o : ClientStart) (instance : string) (daemon : bool) (congestion : CongestionConfig)
| ClientStop (instance : string) (json : bool)
| ClientStatusOf (json : bool) (instance : string)
| ClientList (json : bool).

Inductive Command : Type :=
| CmdServer (action : ServerAction)
| CmdClient (action : ClientAction)
| GenerateServerKey (output : string) (force json : bool)
| ShowServerId (secret_file : string) (json : bool).

(** ** Events *)

Inductive event : Type :=
| Forked (log_path : string)
| LoggerInit
| CongestionSet (config : CongestionConfig)
| RuntimeBuilt
| ReadsFile (path : string)
| EndpointCreated.

(** The events and the result. *)
Definition prog (A : Type) : Type := list event * ares A.

#[export] Instance prog_ret : MRet prog := fun A a => ([], Ret a).
#[export] Instance prog_bind : MBind prog := fun A B f m =>
  match m with
  | (t, Ret a) => let '(t', r) := f a in ((t ++ t')%list, r)
  | (t, Fail e) => (t, Fail e)
  | (t, Panic) => (t, Panic)
  end.

Definition emit (e : event) : prog unit := ([e], Ret tt).
Definition lift {A} (r : ares A) : prog A := ([], r).
Definition because (text : string) : list cause := [Because text []].
Definition bail {A} (text : string) : prog A := lift (Fail (because text)).

(** ** Leaf calls *)

(** The results of the calls of [daemonize_client]. *)
Record daemon_calls : Type := mkDaemon {
  dm_log_dir : bool; dm_pipe : bool; dm_clone : bool; dm_fork : bool; dm_thread : bool;
}.

Definition daemonize_client (unix : bool) (c : daemon_calls) (log_path : string) : prog unit :=
  if negb unix then bail "--daemon is only supported on Unix"
  else if negb (dm_log_dir c) then bail "creating log directory for daemon log"
  else if negb (dm_pipe c) then bail "creating daemon log pipe"
  else if negb (dm_clone c) then bail "cloning daemon log pipe write end"
  else if negb (dm_fork c) then bail "failed to daemonize"
  else
    _ ← emit (Forked log_path);
    if negb (dm_thread c) then bail "spawning daemon log writer thread" else mret tt.

Definition build_runtime (ok : bool) : prog unit :=
  if ok then emit RuntimeBuilt else bail "failed to build the runtime".

Definition show_label (role : LockRole) : string :=
  match role with Server => "server" | Client => "client" end.

(** [show_status] and [show_list]: the printed lines. *)
Definition show_status (print : StatusSnapshot -> list string) (quoted_not_running : string) (role : LockRole)
    (json : bool) (queried : vres (option StatusSnapshot)) : vres (list string) :=
  snapshot ← queried;
  Ret (match snapshot with
       | Some s => print s
       | None => if json then [quoted_not_running] else ["ezvpn " +:+ show_label role +:+ " is not running."]
       end).

Definition show_list (print : list InstanceInfo -> list string) (listed : vres (list InstanceInfo))
  : vres (list string) :=
  instances ← listed; Ret (print instances).

Definition NO_AUTHORIZED_KEYS_HELP : string := "VPN server requires authorized client keys.".

(** [expand_tilde] of [FileConfig] applies to the paths of the command line. *)
Section Main.
Context {Net4 Net6 RelayConfig Key Keys Secret : Type} `{NetOps V4_BITS Net4} `{NetOps V6_BITS Net6}.
Context (parse_net4 : string -> option Net4) (parse_net6 : string -> option Net6)
  (parse_ip4 : string -> option Z) (parse_ip6 : string -> option Z)
  (from_urls_with_token : list string -> option string -> ares RelayConfig)
  (os : Unix) (unix : bool) (home_dir : option string)
  (read_to_string : string -> option string)
  (from_client_toml : string -> option TomlClientConfig) (from_server_toml : string -> option TomlServerConfig)
  (from_secret_str : string -> option Key) (load_client_key_from_file : string -> option Key)
  (load_authorized_keys : string -> option Keys) (no_keys : Keys -> bool)
  (load_secret : string -> option Secret).

(** What the calls of the process give: the environment, the permission check,
    [canonicalize], the daemon's calls, the runtime, and the results of running
    the client or the server once there is an endpoint. *)
Record world : Type := mkWorld {
  wl_env : string -> option string;
  wl_tun_permission : ares unit;
  wl_canonicalize : string -> option string;
  wl_daemon : daemon_calls;
  wl_runtime : bool;
  wl_client : VpnClientConfig Key Net4 Net6 -> string -> option string -> ares unit;
  wl_server : VpnServerConfig (Net4:=Net4) (Net6:=Net6) -> Keys -> Secret -> ares unit;
  wl_other : Command -> ares unit;
}.

Abbreviation Resolved := (ResolvedVpnClientConfig (Net4:=Net4) (Net6:=Net6) (RelayConfig:=RelayConfig)).

Definition canonicalize_client_paths (canonicalize : string -> option string) (resolved : Resolved) : ares Resolved :=
  match rc_auth_key_file resolved with
  | None => Ret resolved
  | Some path =>
      abs ← context (Because "resolving auth key file {}" [path]) (canonicalize path);
      Ret (mkResolvedClient (rc_server_node_id resolved) (rc_auth_key resolved) (Some abs) (rc_routes resolved)
             (rc_routes6 resolved) (rc_relay_config resolved) (rc_exclude_direct_paths resolved)
             (rc_auto_reconnect resolved) (rc_max_reconnect_attempts resolved))
  end.

(** The files of [run_vpn_client] and its endpoint, around its run. *)
Definition client_phase (wl : world) (resolved : Resolved) (instance : string) (daemon_log : option string) : prog unit :=
  _ ← (match rc_auth_key resolved, rc_auth_key_file resolved with
       | None, Some path => emit (ReadsFile path)
       | _, _ => mret tt
       end);
  config ← lift (map_err because (client_config_of from_secret_str load_client_key_from_file parse_net4 parse_net6 resolved));
  _ ← emit EndpointCreated;
  lift (wl_client wl config instance daemon_log).

Definition run_vpn_server (wl : world) (resolved : ResolvedVpnServerConfig (RelayConfig:=RelayConfig)) : prog unit :=
  config ← lift (server_networks parse_net4 parse_net6 parse_ip4 parse_ip6 resolved);
  authorized_keys ← (match rs_authorized_keys_file resolved with
                     | Some path =>
                         _ ← emit (ReadsFile path);
                         lift (context (Because "Failed to load the authorized client keys" []) (load_authorized_keys path))
                     | None => bail NO_AUTHORIZED_KEYS_HELP
                     end);
  _ ← (if no_keys authorized_keys then bail NO_AUTHORIZED_KEYS_HELP else mret tt);
  secret_key ← (match rs_secret_file resolved with
                | Some path =>
                    _ ← emit (ReadsFile path);
                    lift (context (Because "Failed to load secret key" []) (load_secret path))
                | None => bail "VPN server requires a secret key file for persistent identity."
                end);
  _ ← lift (wl_tun_permission wl);
  _ ← emit EndpointCreated;
  lift (wl_server wl config authorized_keys secret_key).

Definition run_async (wl : world) (command : Command) : prog unit :=
  match command with
  | CmdServer (ServerStart config default_config congestion) =>
      _ ← emit (CongestionSet congestion);
      _ ← (match config, default_config with
           | None, false => bail "VPN server requires a config file."
           | _, _ => mret tt
           end);
      r ← lift (resolve_config read_to_string from_server_toml os home_dir "vpn_server.toml" config default_config);
      cfg ← (match r.1 with Some cfg => mret cfg | None => lift Panic end);
      _ ← lift (TomlServerConfig_validate parse_net4 parse_net6 parse_ip4 parse_ip6 cfg);
      resolved ← lift (from_config parse_net4 parse_net6 parse_ip4 parse_ip6 from_urls_with_token home_dir cfg);
      run_vpn_server wl resolved
  | CmdClient (ClientStatusOf json instance) =>
      _ ← lift (map_err (fun _ => because "invalid instance name") (validate_instance_name instance));
      lift (wl_other wl command)
  | CmdServer _ | CmdClient (ClientStop _ _) | CmdClient (ClientList _) => lift (wl_other wl command)
  | CmdClient (ClientStartAs _ _ _ _) | GenerateServerKey _ _ _ | ShowServerId _ _ => lift Panic
  end.

Definition main (wl : world) (command : Command) : prog unit :=
  _ ← lift (map_err (fun _ => because "must be an absolute path") (validate_dir_env (wl_env wl)));
  match command with
  | CmdClient (ClientStartAs o instance daemon congestion) =>
      _ ← lift (map_err (fun _ => because "invalid instance name") (validate_instance_name instance));
      resolved ← lift (prepare_client_start parse_net4 parse_net6 from_urls_with_token os home_dir read_to_string
                         from_client_toml (wl_tun_permission wl) o);
      started ← (if (daemon : bool) then
                   resolved ← lift (canonicalize_client_paths (wl_canonicalize wl) resolved);
                   let log_path := client_log_path (log_dir (wl_env wl)) instance in
                   _ ← daemonize_client unix (wl_daemon wl) log_path;
                   mret (resolved, Some log_path)
                 else mret (resolved, None));
      let '(resolved, daemon_log) := started in
      _ ← emit LoggerInit;
      _ ← emit (CongestionSet congestion);
      _ ← build_runtime (wl_runtime wl);
      client_phase wl resolved instance daemon_log
  | GenerateServerKey _ _ _ | ShowServerId _ _ =>
      _ ← emit LoggerInit;
      lift (wl_other wl command)
  | _ =>
      _ ← emit LoggerInit;
      _ ← build_runtime (wl_runtime wl);
      run_async wl command
  end.
End Main.

(** ** The order of events *)

Record monitor : Type := mkMonitor {
  mn_forked : bool; mn_logger : bool; mn_congestion : bool; mn_runtime : bool;
}.

(** One step of the monitor; [None] where the order is violated: the process
    forks before everything else, and once; the logger, the settings and the
    runtime are set up once, the logger first; files are read by absolute paths
    after the fork, which changes the directory; an endpoint needs them all. *)
Definition monitor_step (m : monitor) (e : event) : option monitor :=
  match e with
  | Forked _ =>
      if mn_forked m || mn_logger m || mn_congestion m || mn_runtime m then None
      else Some (mkMonitor true false false false)
  | LoggerInit =>
      if mn_logger m || mn_runtime m then None else Some (mkMonitor (mn_forked m) true (mn_congestion m) (mn_runtime m))
  | CongestionSet _ =>
      if mn_congestion m || negb (mn_logger m) then None
      else Some (mkMonitor (mn_forked m) (mn_logger m) true (mn_runtime m))
  | RuntimeBuilt =>
      if mn_runtime m || negb (mn_logger m) then None
      else Some (mkMonitor (mn_forked m) (mn_logger m) (mn_congestion m) true)
  | ReadsFile path => if mn_forked m && negb (is_absolute path) then None else Some m
  | EndpointCreated => if mn_logger m && mn_congestion m && mn_runtime m then Some m else None
  end.

Fixpoint monitored (m : monitor) (t : list event) : option monitor :=
  match t with
  | [] => Some m
  | e :: t => m ← monitor_step m e; monitored m t
  end.

Lemma monitored_app m t t' : monitored m (t ++ t')%list = (m ← monitored m t; monitored m t').
Proof. revert m. induction t as [|e t IH]; intros m; [done|]. cbn. destruct (monitor_step m e); [apply IH|done]. Qed.

(** A computation run from [m] keeps the order, and ends with a result that
    satisfies [P] in a monitor state that satisfies it too. *)
Definition keeps {A} (m : monitor) (p : prog A) (P : monitor -> A -> Prop) : Prop :=
  exists m', monitored m p.1 = Some m' /\ match p.2 with Ret a => P m' a | _ => True end.

Lemma keeps_ret {A} m (a : A) P : P m a -> keeps m (mret a) P.
Proof. intros Ha. by exists m. Qed.

Lemma keeps_lift {A} m (r : ares A) (P : monitor -> A -> Prop) : (forall a, r = Ret a -> P m a) -> keeps m (lift r) P.
Proof. intros Hr. exists m. split; [done|]. destruct r; cbn; auto. Qed.

Lemma keeps_bail {A} m s (P : monitor -> A -> Prop) : keeps m (bail s) P.
Proof. by exists m. Qed.

Lemma keeps_emit m e m' P : monitor_step m e = Some m' -> P m' tt -> keeps m (emit e) P.
Proof. intros He HP. exists m'. split; [|done]. cbn. by rewrite He. Qed.

Lemma keeps_bind {A B} m (p : prog A) (f : A -> prog B) P Q :
  keeps m p P -> (forall m' a, P m' a -> keeps m' (f a) Q) -> keeps m (p ≫= f) Q.
Proof.
  intros (m1 & Hm & Hp) Hf. destruct p as [t [a|e|]]; cbn [fst snd] in *; [|by exists m1..].
  destruct (Hf m1 a Hp) as (m2 & Hm2 & Hq). unfold mbind, prog_bind. destruct (f a) as [t' r]. exists m2.
  cbn [fst snd] in *. rewrite monitored_app, Hm. done.
Qed.

(** Every event of a computation satisfies [P]. *)
Definition all_events {A} (P : event -> Prop) (p : prog A) : Prop := Forall P p.1.

Lemma all_events_bind {A B} P (p : prog A) (f : A -> prog B) :
  all_events P p -> (forall a, p.2 = Ret a -> all_events P (f a)) -> all_events P (p ≫= f).
Proof.
  intros Hp Hf. destruct p as [t [a|e|]]; cbn in *; [|done..]. specialize (Hf a eq_refl).
  unfold all_events in *. cbn. destruct (f a) as [t' r]. cbn in *. by apply Forall_app.
Qed.

Lemma all_events_lift {A} P (r : ares A) : all_events P (lift r).
Proof. constructor. Qed.

Lemma all_events_ret {A} P (a : A) : all_events P (mret a).
Proof. constructor. Qed.

Lemma all_events_bail {A} P s : all_events P (bail (A:=A) s).
Proof. constructor. Qed.

Lemma all_events_emit (P : event -> Prop) e : P e -> all_events P (emit e).
Proof. intros He. constructor; [done|constructor]. Qed.

Create HintDb order.
#[export] Hint Resolve all_events_lift all_events_ret all_events_bail : order.

(** Straight-line computations whose events need no argument. *)
Ltac solve_events :=
  repeat first
    [ apply all_events_bind; [|intros]
    | progress auto with order
    | apply all_events_emit; exact I
    | case_match ].
#[export] Hint Resolve keeps_ret keeps_bail : order.

Section Order.
Context {Net4 Net6 RelayConfig Key Keys Secret : Type} `{NetOps V4_BITS Net4} `{NetOps V6_BITS Net6}.
Context (parse_net4 : string -> option Net4) (parse_net6 : string -> option Net6)
  (parse_ip4 : string -> option Z) (parse_ip6 : string -> option Z)
  (from_urls_with_token : list string -> option string -> ares RelayConfig)
  (os : Unix) (unix : bool) (home_dir : option string)
  (read_to_string : string -> option string)
  (from_client_toml : string -> option TomlClientConfig) (from_server_toml : string -> option TomlServerConfig)
  (from_secret_str : string -> option Key) (load_client_key_from_file : string -> option Key)
  (load_authorized_keys : string -> option Keys) (no_keys : Keys -> bool)
  (load_secret : string -> option Secret).

Abbreviation World := (world (Net4:=Net4) (Net6:=Net6) (Key:=Key) (Keys:=Keys) (Secret:=Secret)).
Abbreviation start := (main parse_net4 parse_net6 parse_ip4 parse_ip6 from_urls_with_token os unix home_dir read_to_string
  from_client_toml from_server_toml from_secret_str load_client_key_from_file load_authorized_keys no_keys load_secret).
Abbreviation any := (fun (_ : monitor) _ => True).

(** Everything is set up. *)
Definition ready (forked : bool) : monitor := mkMonitor forked true true true.

Lemma keeps_then {A B} m (r : ares A) (f : A -> prog B) Q :
  (forall a, r = Ret a -> keeps m (f a) Q) -> keeps m (lift r ≫= f) Q.
Proof.
  intros Hf. eapply (keeps_bind _ _ _ (fun m' a => m' = m /\ r = Ret a)).
  - apply keeps_lift. by intros a ->.
  - intros m' a [-> Ha]. by apply Hf.
Qed.

Lemma keeps_event {B} m m' e (f : unit -> prog B) Q :
  monitor_step m e = Some m' -> keeps m' (f tt) Q -> keeps m (emit e ≫= f) Q.
Proof.
  intros He Hf. eapply (keeps_bind _ _ _ (fun x _ => x = m')); [by eapply keeps_emit|]. by intros x [] ->.
Qed.

Lemma keeps_runtime {B} m ok (f : unit -> prog B) Q :
  mn_runtime m = false -> mn_logger m = true ->
  keeps (mkMonitor (mn_forked m) (mn_logger m) (mn_congestion m) true) (f tt) Q -> keeps m (build_runtime ok ≫= f) Q.
Proof.
  intros Hr Hl Hf. destruct ok; cbn [build_runtime].
  - eapply keeps_event; [|exact Hf]. cbn. by rewrite Hr, Hl.
  - by exists m.
Qed.

Lemma client_phase_keeps (wl : World) resolved instance log forked :
  (forked = true -> forall p, rc_auth_key_file resolved = Some p -> is_absolute p = true) ->
  keeps (ready forked) (client_phase (RelayConfig:=RelayConfig) parse_net4 parse_net6 from_secret_str
    load_client_key_from_file wl resolved instance log) any.
Proof.
  intros Habs. unfold client_phase.
  eapply (keeps_bind _ _ _ (fun m _ => m = ready forked)).
  - destruct (rc_auth_key resolved), (rc_auth_key_file resolved) as [p|]; auto with order.
    eapply keeps_emit; [|reflexivity]. cbn. destruct forked; [|done]. by rewrite (Habs eq_refl p).
  - intros m _ ->. apply keeps_then. intros config _. eapply keeps_event; [reflexivity|]. by apply keeps_lift.
Qed.

Lemma run_vpn_server_keeps (wl : World) resolved :
  keeps (ready false) (run_vpn_server (RelayConfig:=RelayConfig) parse_net4 parse_net6 parse_ip4 parse_ip6
    load_authorized_keys no_keys load_secret wl resolved) any.
Proof.
  unfold run_vpn_server. apply keeps_then. intros config _.
  assert (Hread : forall {A} (r : string -> ares A) (o : option string) s,
    keeps (ready false) (match o with Some path => _ ← emit (ReadsFile path); lift (r path) | None => bail s end)
      (fun m _ => m = ready false)).
  { intros A r [path|] s; [|apply keeps_bail]. eapply keeps_event; [reflexivity|]. by apply keeps_lift. }
  eapply keeps_bind; [apply (Hread _ (fun path => context _ (load_authorized_keys path)))|]. intros m keys ->.
  eapply (keeps_bind _ _ _ (fun m _ => m = ready false)); [destruct (no_keys keys); auto with order|]. intros m _ ->.
  eapply keeps_bind; [apply (Hread _ (fun path => context _ (load_secret path)))|]. intros m secret ->.
  apply keeps_then. intros _ _. eapply keeps_event; [reflexivity|]. by apply keeps_lift.
Qed.

Lemma run_async_keeps (wl : World) command :
  keeps (mkMonitor false true false true) (run_async parse_net4 parse_net6 parse_ip4 parse_ip6 from_urls_with_token os
    home_dir read_to_string from_server_toml load_authorized_keys no_keys load_secret wl command) any.
Proof.
  destruct command as [[config dflt congestion|json|json]|[o inst dm cong|inst json|json inst|json]|out force json|sec json];
    cbn [run_async]; try (by apply keeps_lift).
  - eapply keeps_event; [reflexivity|].
    eapply (keeps_bind _ _ _ (fun m _ => m = ready false)); [destruct config, dflt; auto with order|]. intros m _ ->.
    apply keeps_then. intros r _. eapply (keeps_bind _ _ _ (fun m _ => m = ready false)).
    { destruct r.1; [auto with order|by apply keeps_lift]. }
    intros m cfg ->. apply keeps_then. intros _ _. apply keeps_then. intros resolved _. apply run_vpn_server_keeps.
  - apply keeps_then. intros _ _. by apply keeps_lift.
Qed.

Lemma daemonize_keeps c log_path :
  keeps (mkMonitor false false false false) (daemonize_client unix c log_path) (fun m _ => m = mkMonitor true false false false).
Proof.
  unfold daemonize_client. destruct unix, (dm_log_dir c), (dm_pipe c), (dm_clone c), (dm_fork c); cbn [negb]; try apply keeps_bail.
  eapply keeps_event; [reflexivity|]. destruct (dm_thread c); cbn [negb]; auto with order.
Qed.

Lemma canonical_absolute canonicalize (resolved r : ResolvedVpnClientConfig (Net4:=Net4) (Net6:=Net6) (RelayConfig:=RelayConfig)) p :
  (forall q abs, canonicalize q = Some abs -> is_absolute abs = true) ->
  canonicalize_client_paths canonicalize resolved = Ret r -> rc_auth_key_file r = Some p -> is_absolute p = true.
Proof.
  intros Hc. unfold canonicalize_client_paths. destruct (rc_auth_key_file resolved) as [q|] eqn:Hq; [|congruence].
  destruct (canonicalize q) as [abs|] eqn:Ha; cbn; [|done]. intros [= <-] [= <-]. by eapply Hc.
Qed.

Lemma main_keeps (wl : World) command :
  (forall q abs, wl_canonicalize wl q = Some abs -> is_absolute abs = true) ->
  keeps (mkMonitor false false false false) (start wl command) any.
Proof.
  intros Hc. unfold main. apply keeps_then. intros _ _.
  destruct command as [action|[o inst dm cong|inst json|json inst|json]|out force json|sec json];
    try (eapply keeps_event; [reflexivity|]; apply keeps_runtime; [done..|]; apply run_async_keeps);
    try (eapply keeps_event; [reflexivity|]; by apply keeps_lift).
  apply keeps_then. intros _ _. apply keeps_then. intros resolved _.
  eapply (keeps_bind _ _ _ (fun m '(r, _) => exists forked, m = mkMonitor forked false false false /\
    (forked = true -> forall p, rc_auth_key_file r = Some p -> is_absolute p = true))).
  { destruct dm; [|by apply keeps_ret; exists false]. apply keeps_then. intros r Hr.
    eapply keeps_bind; [apply daemonize_keeps|]. intros m _ ->. apply keeps_ret. exists true. split; [done|].
    intros _ p. by eapply canonical_absolute. }
  intros m [r log] (forked & -> & Habs). eapply keeps_event; [reflexivity|]. eapply keeps_event; [reflexivity|].
  apply keeps_runtime; [done..|]. by apply client_phase_keeps.
Qed.

(** The settings a command comes with. *)
Definition congestion_of (command : Command) : option CongestionConfig :=
  match command with
  | CmdServer (ServerStart _ _ congestion) | CmdClient (ClientStartAs _ _ _ congestion) => Some congestion
  | _ => None
  end.

(** What an event tells of the command. *)
Definition accounted (wl : World) (command : Command) (e : event) : Prop :=
  match e with
  | Forked log => exists o instance congestion,
      command = CmdClient (ClientStartAs o instance true congestion) /\
      log = client_log_path (log_dir (wl_env wl)) instance /\ validate_instance_name instance = Ret tt /\
      is_ret (prepare_client_start parse_net4 parse_net6 from_urls_with_token os home_dir read_to_string
        from_client_toml (wl_tun_permission wl) o) = true
  | CongestionSet c => congestion_of command = Some c
  | _ => True
  end.

Lemma server_accounted (wl : World) command resolved :
  all_events (accounted wl command) (run_vpn_server (RelayConfig:=RelayConfig) parse_net4 parse_net6 parse_ip4 parse_ip6
    load_authorized_keys no_keys load_secret wl resolved).
Proof. unfold run_vpn_server. solve_events. Qed.

Lemma client_accounted (wl : World) command resolved instance log :
  all_events (accounted wl command) (client_phase (RelayConfig:=RelayConfig) parse_net4 parse_net6 from_secret_str
    load_client_key_from_file wl resolved instance log).
Proof. unfold client_phase. solve_events. Qed.

Lemma runtime_accounted (wl : World) command ok : all_events (accounted wl command) (build_runtime ok).
Proof. destruct ok; [by apply all_events_emit|apply all_events_bail]. Qed.

Lemma async_accounted (wl : World) command :
  all_events (accounted wl command) (run_async parse_net4 parse_net6 parse_ip4 parse_ip6 from_urls_with_token os
    home_dir read_to_string from_server_toml load_authorized_keys no_keys load_secret wl command).
Proof.
  destruct command as [[config dflt congestion|json|json]|[o inst dm cong|inst json|json inst|json]|out force json|sec json];
    cbn [run_async]; auto with order; [|apply all_events_bind; auto with order].
  apply all_events_bind; [by apply all_events_emit|intros _ _].
  apply all_events_bind; [destruct config, dflt; auto with order|intros _ _].
  apply all_events_bind; [auto with order|intros r _].
  apply all_events_bind; [destruct r.1; auto with order|intros cfg _].
  do 2 (apply all_events_bind; [auto with order|intros ? _]). apply server_accounted.
Qed.

Lemma main_accounted (wl : World) command : all_events (accounted wl command) (start wl command).
Proof.
  unfold main. apply all_events_bind; [auto with order|intros _ _].
  destruct command as [action|[o inst dm cong|inst json|json inst|json]|out force json|sec json];
    try (apply all_events_bind; [by apply all_events_emit|intros _ _]; apply all_events_lift);
    try (apply all_events_bind; [by apply all_events_emit|intros _ _]; apply all_events_bind; [apply runtime_accounted|intros _ _]; apply async_accounted).
  apply all_events_bind; [auto with order|intros [] Hv]. apply all_events_bind; [auto with order|intros resolved Hr].
  assert (Hname : validate_instance_name inst = Ret tt).
  { cbn in Hv. by destruct (validate_instance_name inst) as [[]|?|]. }
  apply all_events_bind.
  - destruct dm; [|auto with order]. apply all_events_bind; [auto with order|intros r _].
    apply all_events_bind; [|auto with order]. unfold daemonize_client.
    destruct unix, (dm_log_dir _), (dm_pipe _), (dm_clone _), (dm_fork _); cbn [negb]; try apply all_events_bail.
    apply all_events_bind; [apply all_events_emit|intros _ _; destruct (dm_thread _); cbn [negb]; auto with order].
    exists o, inst, cong. split_and!; [done..|]. cbn in Hr. by rewrite Hr.
  - intros [r log] _. do 2 (apply all_events_bind; [by apply all_events_emit|intros _ _]).
    apply all_events_bind; [apply runtime_accounted|intros _ _]. apply client_accounted.
Qed.

(** C22. The start of the program, for every command and every outcome of its
    calls: the events come in order (a fork first and once, then the logger and
    the settings, each once; no file is read by a relative path after the fork
    has changed the directory; an endpoint is only created once the logger, the
    runtime and the transport settings are there); only [client start --daemon]
    forks, and only after its instance name, its configuration, its flags and
    its permissions have passed in the foreground; and the settings that are
    fixed before the endpoint are those of the command line. *)
Theorem startup_order (wl : World) command :
  (forall q abs, wl_canonicalize wl q = Some abs -> is_absolute abs = true) ->
  let t := (start wl command).1 in
  is_Some (monitored (mkMonitor false false false false) t) /\
  (forall log, Forked log ∈ t -> exists o instance congestion,
      command = CmdClient (ClientStartAs o instance true congestion) /\
      log = client_log_path (log_dir (wl_env wl)) instance /\ validate_instance_name instance = Ret tt /\
      is_ret (prepare_client_start parse_net4 parse_net6 from_urls_with_token os home_dir read_to_string
        from_client_toml (wl_tun_permission wl) o) = true) /\
  (forall c, CongestionSet c ∈ t -> congestion_of command = Some c).
Proof.
  intros Hc. cbv zeta. destruct (main_keeps wl command Hc) as (m & Hm & _).
  pose proof (main_accounted wl command) as Ha. unfold all_events in Ha. rewrite Forall_forall in Ha.
  split; [by exists m|]. split; [intros log Hl; exact (Ha _ Hl)|intros c Hl; exact (Ha _ Hl)].
Qed.
End Order.

(** ** Evaluation *)

#[local] Instance unit_net (w : Z) : NetOps w unit := {|
  net_new _ _ := Some tt; net_addr _ := 0%Z; net_prefix_len _ := 0%Z; net_network _ := 0%Z;
  net_broadcast _ := 0%Z; net_contains _ _ := true;
|}.

(** A client that is started as a daemon, with a key file. *)
Definition sample_start_options : ClientStart :=
  mkClientStart None false (Some "server") [] None None (Some "key") [] [] [] false false None.

Definition sample_world : world (Net4:=unit) (Net6:=unit) (Key:=unit) (Keys:=unit) (Secret:=unit) :=
  mkWorld (fun _ => None) (Ret tt) (fun p => Some ("/" +:+ p)) (mkDaemon true true true true true) true
    (fun _ _ _ => Ret tt) (fun _ _ _ => Ret tt) (fun _ => Ret tt).

Abbreviation sample_main :=
  (main (fun _ => Some tt) (fun _ => Some tt) (fun _ => Some 0%Z) (fun _ => Some 0%Z) (fun _ _ => Ret tt) Linux true None
     (fun _ => None) (fun _ => None) (fun _ => None) (fun _ => Some tt) (fun _ => Some tt) (fun _ => Some tt)
     (fun _ => false) (fun _ => Some tt) sample_world
     (CmdClient (ClientStartAs sample_start_options "work" true CongestionConfig_default))).

Lemma startup_order_witness :
  sample_main =
    ([Forked "/var/log/ezvpn/ezvpn-client-work.log"; LoggerInit; CongestionSet CongestionConfig_default; RuntimeBuilt;
      ReadsFile "/key"; EndpointCreated], Ret tt) /\
  is_Some (monitored (mkMonitor false false false false) sample_main.1).
Proof.
  split; [vm_compute; reflexivity|].
  apply (startup_order (fun _ => Some tt) (fun _ => Some tt) (fun _ => Some 0%Z) (fun _ => Some 0%Z) (fun _ _ => Ret tt)
    Linux true None (fun _ => None) (fun _ => None) (fun _ => None) (fun _ => Some tt) (fun _ => Some tt)
    (fun _ => Some tt) (fun _ => false) (fun _ => Some tt) sample_world
    (CmdClient (ClientStartAs sample_start_options "work" true CongestionConfig_default))).
  intros q abs [= <-]. reflexivity.
Defined.
